(* ===== verification/_CoqProject ===== *)
-Q . S2P
Prelude.v
CInt.v
Ext.v
FixedPoint.v
Interrupt.v
Threads.v
Mlfqs.v
Scheduler.v
Timer.v
Mmu.v
RunQueue.v
RoundRobin.v
RoundRobinSpec.v
Startup.v
Store.v
Cache.v
InodeDisk.v
FreeMap.v
Inode.v
File.v
InodeSpec.v
InodeLife.v
FsSample.v
Indirect.v
Filesys.v
PageDir.v
PageSpace.v
Swap.v
PageTable.v
UserFiles.v
Frame.v
FrameClock.v
Elf.v
Page.v
VmSpec.v
VmSample.v
UserCall.v
Exception.v
UserMem.v
Load.v
Process.v
Syscall.v
ProcTree.v
Rendezvous.v
ProcSteps.v
UserKernel.v
KernelLinks.v
KernelSpec.v
KernelStart.v
UserMemSpec.v
LoadSpec.v
NoPaging.v
SyscallBase.v
StackSpec.v
LoadExec.v
NoPagingSpec.v
LoadSample.v
ProcSample.v
KernelSample.v
SyscallSpec.v
SyscallBaseSpec.v
SyscallSample.v
NoPagingSample.v
Gates.v
