(* ===== verification/Prelude.v ===== *)
(** * Verification of the Pintos kernel components

    Four sub-projects of one teaching kernel, each with the kernel sources it
    changed; everything else of the kernel (lists, locks, drivers, the C library) is
    outside the repository.  [priority-scheduler] replaces the scheduler and the
    timer, [file-system] the file system below directories, [virtual-memory] adds
    paging to user processes, and [user-programs] is the stage before it, without
    paging.

    ** How C is modelled

    - Machine words are [Z] with the wrap-around of their width written out (CInt.v).
    - A C function is a function from the state it works on to an [outcome] (below):
      it returns, or the kernel panics (a failed [ASSERT], a null or dangling pointer,
      a division trap), or it is stuck.  A system call can also leave through
      [thread_exit]; its monad is [call] (UserCall.v).
    - A pointer to a heap object is an address, a null pointer [None]; structures live
      in finite maps by address, so that two names of one object share it.  Freeing
      removes the object: using it afterwards is a panic.
    - A function that waits ([schedule], [sema_down]) is cut where it waits, and the
      parts are steps of a transition system (Scheduler.v, RoundRobin.v, Startup.v,
      ProcSteps.v, UserKernel.v).
    - What [malloc], [palloc_get_page] and the allocations of a page fault return is an
      argument or part of the state, so theorems cover every failure of them.
    - Loops that are not structural have fuel.  It is given by a bound the code
      guarantees: the sectors of a file (Inode.v), the scan of the cache (Cache.v), the
      pages of a segment (Load.v), the pages of the supplemental table (PageTable.v),
      the threads that can donate (Threads.v), the bits of [loops_per_tick] (Timer.v).
      Running out of it is [Stuck], and the theorems show that it does not happen.  The
      one free bound is [max_string], the longest string [sys_exec] looks through
      (Syscall.v).

    ** The code outside the repository

    Classes of operations, with classes of the documented laws: [KernelList],
    [BlockDevice], [Bitmap] (Ext.v), [Vaddr] and [Pte] (Mmu.v, with the IA-32 layout as
    instance), [Directory], [BitmapFile], [DirectoryLaws] (Filesys.v, FreeMap.v),
    [FileOps] and [FileCalls] (PageTable.v, UserFiles.v: files as user programs see
    them), [Selectors], [StartRegs], [SyscallNumbers], [KernelMemory].  Each has an
    instance that the witnesses compute with.

    ** The parts

    priority-scheduler:
    - FixedPoint.v: lib/kernel/fixed-point.c; overflow, division traps, round trips.
    - Threads.v, Mlfqs.v, Scheduler.v: threads/thread.h and thread.c.  [get_priority]
      computes the donated priority (a reachability characterisation), every operation
      keeps the invariant [sched_wf], [thread_yield] runs a thread of greatest priority,
      the load average stays within the number of threads.
    - Timer.v: devices/timer.c and [intr_handler].  The interrupt wakes exactly the due
      sleepers, nobody wakes early under any interleaving of the operations of
      Scheduler.v in which [thread_unblock] is not called on a sleeper, calibration
      terminates on a machine of constant speed.

    file-system:
    - Store.v is the interface of the cache that the other files use; Cache.v implements
      filesys/cache.c: the cache refines an array of sectors.
    - InodeDisk.v, FreeMap.v, Inode.v, Filesys.v: filesys/inode.c, free-map.c, filesys.c.
      File.v gives a file's content, InodeSpec.v and InodeLife.v what reading, writing,
      growing, creating, opening, closing and removing do, for files within their 188
      direct sectors ([file_ok], [DIRECT_MAX]); Indirect.v shows what goes wrong beyond them; Filesys.v that a shutdown
      and a start keep every sector.  FsSample.v is the concrete file system.

    virtual-memory:
    - Interrupt.v, Gates.v: threads/interrupt.c, and the descriptor table after start-up.
    - RunQueue.v, RoundRobin.v, RoundRobinSpec.v: threads/thread.c refines a FIFO queue,
      and no ready thread starves.
    - Startup.v: [thread_init] and [thread_start], interrupted by the timer at any point,
      reach the state that the other theorems start from ([rr_wf]).
    - Mmu.v, PageDir.v: userprog/pagedir.c on page tables in memory with a TLB.
      PageSpace.v: page directories are finite maps from user pages to frames with their
      flags, and every call refines a simple operation on the maps.
    - Swap.v, PageTable.v, Frame.v, FrameClock.v, Page.v, VmSpec.v: vm/swap.c, page.c,
      frame.c.  Pages survive swapping; the clock; eviction, and the panic that replaces
      it when the frame is another process's or was given back; what a fetched page
      holds.  VmSample.v is the concrete machine.
    - UserFiles.v, UserCall.v, Exception.v, UserMem.v, UserMemSpec.v, Syscall.v,
      SyscallSpec.v, SyscallSample.v: userprog/exception.c and syscall.c.  Kernel
      addresses end the process, descriptors, the path of a [write] to the console.
    - Elf.v, Load.v, LoadSpec.v, StackSpec.v, LoadExec.v, LoadSample.v: the second half
      of userprog/process.c.  Which segments are accepted, what their pages contain,
      that [main] finds its arguments, and [load] as a whole, proved against the
      interface [LoadsPages] of where pages come from.
    - Process.v, ProcTree.v, Rendezvous.v, ProcSteps.v, ProcSample.v: the first half.  In
      orderly runs a parent is told the status of its child and no rendezvous blocks;
      orderly ([orderly], ProcSteps.v) are the runs in which no process ends before its
      children and [process_execute] gives back the record of no child that is alive.
      The code prevents neither: a process that ends before its child takes the child's
      record with it, so that the child's exit panics.
    - UserKernel.v, KernelLinks.v, KernelSpec.v, KernelSample.v: thread.c and process.c
      together.  The thread on the CPU takes the steps of its process, and sleeps on a
      semaphore that is zero until it is raised.  Every orderly run is one of processes
      and one of the run queue; no wake-up is lost; the parent of a process that has ended
      is told its status within [TIME_SLICE] ticks for each thread that is ready.
    - KernelStart.v: the start of Startup.v with no process yet reaches [kbooted], where
      these runs begin, so that they are runs from power-on.

    user-programs, whose process.c and syscall.c are the stage before paging:
    - NoPaging.v, NoPagingSpec.v: userprog/process.c.  A page of a program is a page of
      the user pool, mapped at once; a round of [load_segment] is all or nothing, and
      [load] does what that of virtual-memory does.
    - SyscallBase.v, SyscallBaseSpec.v: userprog/syscall.c.  Memory that is looked at in
      full ends the process if it is not its own; [sys_read] looks at one byte only and
      reaches the kernel.  NoPagingSample.v is the concrete process.

    Most of process.c is the same code in both: it is written once, in Load.v,
    Process.v and UserMem.v, over the interfaces [FaultHandler] (a fault of the kernel),
    [ProgramPages] (a page of a segment, the page of the stack) and [ProcessPages] (what
    the end of a process gives back), and each sub-project is an instance of them:
    [paging_faults], [paging_pages] and [paging_process], or [stock_faults],
    [pool_pages] and [pool_process].  The theorems about the process tree and the kernel
    around it hold for both through [KeepsTree] (ProcTree.v), those about [load] through
    [LoadsPages].

    RoundRobin.v sees a process only through the class [UserThreads]; the process files
    see the scheduler only through the steps at which a thread waits.  UserKernel.v joins
    them: its [process_threads] implements [UserThreads] with the code of process.c, and
    what RoundRobinSpec.v asks of it ([UserThreadsLaws]) is proved in KernelSpec.v.  The page table,
    frame and swap files share the state [vm]; system calls and processes share [sys],
    which contains it.

    ** Not modelled

    - user-programs/threads/thread.c equals virtual-memory/threads/thread.c but for a
      comment, and user-programs/threads/thread.h is another copy of it.  The pagedir.c of
      user-programs is not in the repository: of the operations that NoPaging.v uses those
      of virtual-memory/userprog/pagedir.c are taken, [pagedir_destroy] apart.
    - Two threads inside the cache or the frame table at once: those operations run for
      one thread of control, as their locks are meant to ensure.
    - Preemption inside a step of UserKernel.v: a half of [process_execute] or
      [process_wait], or another kernel call, is one step, between two of which the timer
      may switch threads.
    - Runs that are not orderly, beyond the panic that ends those with an orphan: after
      the race of process.c:75 a semaphore is raised in a page that may be in use for
      something else.
    - What the processor writes on its own: the accessed and dirty bits that an access
      sets in page table entries are set by the operations on user memory
      (PageTable.v, UserMem.v); the accessed bit of directory entries may be set or not
      ([mmu_wf] leaves it free, PageSpace.v has it as a step).
    - [free] and [palloc_free_page] of memory that is only used by the kernel, such as the
      words of [load], where no later call looks at it.
    - [thread_start] of priority-scheduler: the invariant of Scheduler.v is that of a
      system whose idle thread exists.
    - Functions that only print ([thread_print_stats], [intr_dump_frame],
      [exception_print_stats]); the stack frames that [thread_create] builds; the TSS. *)
From stdpp Require Export base tactics numbers list gmap.
#[export] Set Default Goal Selector "!".

(** ** Outcomes of kernel code

    [Ret a]: the code returned [a].  [Panic]: an [ASSERT] failed, [PANIC] or
    [NOT_REACHED] was reached, or the CPU trapped in kernel mode (null
    dereference, division error).  [Stuck]: the single thread of control waits
    for an event that no one else will produce (a lock that is held), or the
    fuel of a loop ran out; theorems of total correctness exclude it. *)
Inductive outcome (A : Type) : Type :=
  | Ret (a : A)
  | Panic
  | Stuck.
Arguments Ret {A} a.
Arguments Panic {A}.
Arguments Stuck {A}.

#[export] Instance outcome_ret : MRet outcome := @Ret.

#[export] Instance outcome_bind : MBind outcome := λ A B f m,
  match m with
  | Ret a => f a
  | Panic => Panic
  | Stuck => Stuck
  end.

#[export] Instance outcome_fmap : FMap outcome := λ A B f m,
  match m with
  | Ret a => Ret (f a)
  | Panic => Panic
  | Stuck => Stuck
  end.

#[export] Instance outcome_eq_dec {A} `{EqDecision A} : EqDecision (outcome A).
Proof. solve_decision. Defined.

(** [ASSERT (b)] of [debug.h]. *)
Definition ASSERT (b : bool) : outcome unit := if b then Ret tt else Panic.

(** Dereferencing a pointer: [None] is a null or dangling pointer. *)
Definition deref {A} (o : option A) : outcome A :=
  match o with Some a => Ret a | None => Panic end.

Arguments ASSERT !b /.
Arguments deref {A} !o /.

Section outcome.
Context {A B : Type}.
Implicit Types (m : outcome A) (f : A → outcome B).

Lemma bind_Ret (a : A) f : Ret a ≫= f = f a.
Proof. done. Qed.

Lemma bind_Ret_inv m f b : m ≫= f = Ret b → ∃ a, m = Ret a ∧ f a = Ret b.
Proof. destruct m; naive_solver. Qed.

Lemma fmap_Ret_inv m (g : A → B) b : g <$> m = Ret b → ∃ a, m = Ret a ∧ b = g a.
Proof. destruct m; naive_solver. Qed.
End outcome.

Lemma ASSERT_true b : b = true → ASSERT b = Ret tt.
Proof. by intros ->. Qed.

Lemma ASSERT_Ret_inv b u : ASSERT b = Ret u → b = true.
Proof. by destruct b. Qed.

Lemma deref_Ret_inv {A} (o : option A) a : deref o = Ret a → o = Some a.
Proof. destruct o; naive_solver. Qed.

(** ** Automation *)

Create HintDb kernel discriminated.
Create Rewrite HintDb kernel.
#[export] Hint Rewrite @bind_Ret : kernel.

(** Invert every [m ≫= f = Ret b] hypothesis and the assertions it ran. *)
Ltac inv_bind :=
  repeat match goal with
  | H : (?m ≫= _) = Ret _ |- _ =>
      let a := fresh "a" in let H1 := fresh "H" in let H2 := fresh "H" in
      apply bind_Ret_inv in H as (a & H1 & H2)
  | H : ASSERT _ = Ret _ |- _ => apply ASSERT_Ret_inv in H
  | H : deref _ = Ret _ |- _ => apply deref_Ret_inv in H
  | H : Ret _ = Ret _ |- _ => injection H as H
  | H : Panic = Ret _ |- _ => discriminate H
  | H : Stuck = Ret _ |- _ => discriminate H
  | p : (_ * _)%type |- _ => destruct p
  | u : unit |- _ => destruct u
  end; simplify_eq/=.

(** Run the binds whose first computation has returned. *)
Ltac ret := cbn [mbind outcome_bind fmap outcome_fmap ASSERT deref negb].

(** Two results of the same computation are equal. *)
Ltac ret_inj :=
  repeat match goal with
  | H1 : ?x = Ret ?a, H2 : ?x = Ret ?b |- _ =>
      let E := fresh "E" in
      assert (a = b) as E by congruence; clear H2; subst
  end; simplify_eq/=.

(** Booleans of the code as propositions. *)
Ltac bool_to_prop :=
  repeat match goal with
  | H : _ && _ = true |- _ => apply andb_true_iff in H as [? ?]
  | H : _ || _ = false |- _ => apply orb_false_iff in H as [? ?]
  | H : negb _ = true |- _ => apply negb_true_iff in H
  | H : negb _ = false |- _ => apply negb_false_iff in H
  | H : (_ <=? _)%Z = true |- _ => apply Z.leb_le in H
  | H : (_ <=? _)%Z = false |- _ => apply Z.leb_gt in H
  | H : (_ <? _)%Z = true |- _ => apply Z.ltb_lt in H
  | H : (_ <? _)%Z = false |- _ => apply Z.ltb_ge in H
  | H : (_ =? _)%Z = true |- _ => apply Z.eqb_eq in H
  | H : (_ =? _)%Z = false |- _ => apply Z.eqb_neq in H
  end.

(** Split a boolean test of the goal into its two cases, as propositions. *)
Ltac case_bool :=
  match goal with
  | |- context [ (?a <=? ?b)%Z ] => destruct (Z.leb_spec a b)
  | |- context [ (?a <? ?b)%Z ] => destruct (Z.ltb_spec a b)
  | |- context [ (?a =? ?b)%Z ] => destruct (Z.eqb_spec a b)
  end.

(** Close a linear goal in which a boolean test of the code occurs. *)
Ltac bool_lia := repeat case_bool; simpl in *; try lia.

(** ** Record update

    [r <| p := v |>] is the C assignment [r.p = v].  An [Eta R] instance writes
    [r] out as its constructor applied to its projections; the update of [p] is
    read off by abstracting [p] in it. *)
Class Eta (R : Type) := eta : R → R.
Class Setter {R T : Type} (p : R → T) := rset : (T → T) → R → R.
Arguments rset {R T} p {_} g !r /.

Ltac solve_setter :=
  match goal with
  | |- @Setter ?R ?T ?p =>
      let i := constr:(_ : Eta R) in
      let e := eval hnf in i in
      match eval pattern p in e with
      | ?abs p => exact (λ (g : T → T) (r : R), abs (λ r' : R, g (p r')) r)
      end
  end.
#[export] Hint Extern 1 (Setter _) => solve_setter : typeclass_instances.

Declare Scope kernel_scope.
Delimit Scope kernel_scope with K.
Notation "r <| p := v |>" := (rset p (λ _, v) r)
  (at level 1, left associativity, format "r  <| p  :=  v |>") : kernel_scope.
Notation "r <| p ::= g |>" := (rset p g r)
  (at level 1, left associativity, format "r  <| p  ::=  g |>") : kernel_scope.
#[global] Open Scope kernel_scope.

(** ** Intrusive lists ([lib/kernel/list.h])

    A [struct list] is the sequence of the objects whose [list_elem] it links.
    [list_remove] unlinks an element; an element is linked at most once. *)
Definition list_remove {A} `{EqDecision A} (x : A) (l : list A) : list A :=
  filter (λ y, y ≠ x) l.

Lemma elem_of_list_remove {A} `{EqDecision A} (x y : A) l :
  y ∈ list_remove x l ↔ y ≠ x ∧ y ∈ l.
Proof. unfold list_remove. by rewrite list_elem_of_filter. Qed.

Lemma NoDup_list_remove {A} `{EqDecision A} (x : A) l :
  NoDup l → NoDup (list_remove x l).
Proof. apply NoDup_filter. Qed.

Lemma filter_id {A} (P : A → Prop) `{∀ x, Decision (P x)} (l : list A) :
  (∀ x, x ∈ l → P x) → filter P l = l.
Proof.
  intros HP. induction l as [|y l IH]; [done|]. rewrite filter_cons_True by (apply HP; by left).
  f_equal. apply IH. intros x Hx. apply HP. by right.
Qed.

Lemma list_remove_not_elem {A} `{EqDecision A} (x : A) l :
  x ∉ l → list_remove x l = l.
Proof. intros Hx. apply filter_id. by intros y Hy ->. Qed.

(** Updating an entry that is there. *)
Lemma alter_insert_Some {A} (g : A → A) (m : gmap Z A) i x :
  m !! i = Some x → alter g i m = <[i := g x]> m.
Proof.
  intros Hx. apply map_eq. intros j. destruct (decide (j = i)) as [->|].
  - by rewrite lookup_alter_eq, lookup_insert_eq, Hx.
  - by rewrite lookup_alter_ne, lookup_insert_ne.
Qed.

Lemma alter_alter {A} (f g : A → A) (m : gmap Z A) i :
  alter f i (alter g i m) = alter (λ x, f (g x)) i m.
Proof.
  apply map_eq. intros j. destruct (decide (i = j)) as [->|].
  - rewrite !lookup_alter_eq. by destruct (m !! j).
  - by rewrite !lookup_alter_ne.
Qed.

(** ** Byte ranges of a buffer

    [slice ofs n l] is [n] bytes of [l] from offset [ofs] ([memcpy] out of a
    buffer), [splice ofs b l] overwrites [l] from offset [ofs] with [b]
    ([memcpy] into a buffer).  Offsets are naturals here; the C code's [int]
    arguments are converted where the operations are defined. *)
Section slices.
Context {A : Type}.
Implicit Types (l b : list A) (i ofs n : nat).

Definition slice ofs n l : list A := take n (drop ofs l).
Definition splice ofs b l : list A := take ofs l ++ b ++ drop (ofs + length b) l.

Lemma length_slice ofs n l : ofs + n ≤ length l → length (slice ofs n l) = n.
Proof. intros. unfold slice. rewrite length_take, length_drop. lia. Qed.

Lemma length_splice ofs b l :
  ofs + length b ≤ length l → length (splice ofs b l) = length l.
Proof.
  intros. unfold splice. rewrite !length_app, length_take, length_drop. lia.
Qed.

Lemma lookup_slice ofs n l i : i < n → slice ofs n l !! i = l !! (ofs + i).
Proof. intros. unfold slice. by rewrite lookup_take_lt, lookup_drop. Qed.

Lemma lookup_slice_ge ofs n l i : n ≤ i → slice ofs n l !! i = None.
Proof. intros. unfold slice. apply lookup_take_ge. lia. Qed.

Lemma lookup_splice ofs b l i :
  ofs + length b ≤ length l →
  splice ofs b l !! i =
    if decide (ofs ≤ i < ofs + length b) then b !! (i - ofs) else l !! i.
Proof.
  intros Hle. unfold splice. case_decide as Hi.
  - rewrite lookup_app_r; rewrite length_take_le; try lia.
    by rewrite lookup_app_l by lia.
  - destruct (decide (i < ofs)).
    + rewrite lookup_app_l by (rewrite length_take_le; lia).
      by rewrite lookup_take_lt.
    + rewrite lookup_app_r; rewrite length_take_le; try lia.
      rewrite lookup_app_r by lia. rewrite lookup_drop. f_equal. lia.
Qed.

Lemma slice_splice_same ofs b l :
  ofs + length b ≤ length l → slice ofs (length b) (splice ofs b l) = b.
Proof.
  intros. apply list_eq. intros i. destruct (decide (i < length b)).
  - rewrite lookup_slice by lia. rewrite lookup_splice by lia.
    rewrite decide_True by lia. f_equal. lia.
  - rewrite lookup_slice_ge by lia. symmetry. apply lookup_ge_None. lia.
Qed.

Lemma splice_full b l : length b = length l → splice 0 b l = b.
Proof.
  intros Hl. unfold splice. rewrite take_0, drop_ge by lia. by rewrite app_nil_r.
Qed.

Lemma slice_full n l : length l = n → slice 0 n l = l.
Proof. intros <-. unfold slice. by rewrite drop_0, firstn_all. Qed.

Lemma splice_nil ofs l : splice ofs [] l = l.
Proof. unfold splice. simpl. rewrite Nat.add_0_r. apply take_drop. Qed.

Lemma splice_splice_app ofs b1 b2 l :
  ofs + length b1 + length b2 ≤ length l →
  splice (ofs + length b1) b2 (splice ofs b1 l) = splice ofs (b1 ++ b2) l.
Proof.
  intros Hle. unfold splice at 2. unfold splice.
  assert (length (take ofs l) = ofs) as El by (rewrite length_take; lia).
  rewrite (app_assoc (take ofs l) b1). rewrite take_app_le, drop_app_ge;
    rewrite ?length_app, ?El; try lia.
  rewrite take_ge by (rewrite length_app, El; lia).
  rewrite drop_drop, <- !app_assoc. do 4 f_equal. lia.
Qed.

Lemma slice_take ofs n k l : ofs + n ≤ k → slice ofs n (take k l) = slice ofs n l.
Proof.
  intros. unfold slice. rewrite <- (take_drop k l) at 2.
  destruct (decide (k ≤ length l)).
  - rewrite !drop_app_le by (rewrite length_take; lia).
    symmetry. apply take_app_le. rewrite length_drop, length_take. lia.
  - rewrite (drop_ge l k) by lia. by rewrite app_nil_r.
Qed.

Lemma take_splice ofs b l k :
  ofs + length b ≤ k → ofs + length b ≤ length l →
  take k (splice ofs b l) = splice ofs b (take k l).
Proof.
  intros. apply list_eq. intros i. destruct (decide (i < k)).
  - rewrite lookup_take_lt by done. rewrite !lookup_splice by (rewrite ?length_take; lia).
    case_decide; [done|]. by rewrite lookup_take_lt.
  - rewrite lookup_take_ge by lia. symmetry. apply lookup_ge_None.
    rewrite length_splice, length_take; rewrite ?length_take; lia.
Qed.

Lemma drop_splice ofs b l k :
  ofs + length b ≤ k → ofs + length b ≤ length l → drop k (splice ofs b l) = drop k l.
Proof.
  intros. apply list_eq. intros i. rewrite !lookup_drop, lookup_splice by lia.
  by rewrite decide_False by lia.
Qed.

Lemma slice_app ofs n m l : slice ofs (n + m) l = slice ofs n l ++ slice (ofs + n) m l.
Proof. unfold slice. by rewrite <- drop_drop, <- take_take_drop. Qed.
End slices.

#[export] Hint Resolve length_slice length_splice : kernel.
