(* ===== verification/CInt.v ===== *)
(** * C integers of the i386 target

    Machine integers are [Z] with the wrap-around of their width written out:
    [s32]/[s64] reduce to the two's-complement range (what gcc does for [int],
    [off_t] and [int64_t]), [u8]/[u16]/[u32] to the unsigned range
    ([block_sector_t], [size_t], [unsigned], pointers).  C division truncates
    towards zero and traps (#DE, a kernel panic) on a zero divisor and on
    [INT_MIN / -1]. *)
From S2P Require Import Prelude.
Open Scope Z_scope.

(** ** Ranges and wrap-around *)

Definition in_s32 (z : Z) : Prop := -2147483648 ≤ z < 2147483648.
Definition in_s64 (z : Z) : Prop := -9223372036854775808 ≤ z < 9223372036854775808.
Definition in_u16 (z : Z) : Prop := 0 ≤ z < 65536.
Definition in_u32 (z : Z) : Prop := 0 ≤ z < 4294967296.

Definition s32 (z : Z) : Z := (z + 2147483648) mod 4294967296 - 2147483648.
Definition s64 (z : Z) : Z :=
  (z + 9223372036854775808) mod 18446744073709551616 - 9223372036854775808.
Definition u8 (z : Z) : Z := z mod 256.
Definition u16 (z : Z) : Z := z mod 65536.
Definition u32 (z : Z) : Z := z mod 4294967296.
Definition u64 (z : Z) : Z := z mod 18446744073709551616.

Lemma s32_id z : in_s32 z → s32 z = z.
Proof. unfold in_s32, s32. intros. rewrite Z.mod_small; lia. Qed.

Lemma s64_id z : in_s64 z → s64 z = z.
Proof. unfold in_s64, s64. intros. rewrite Z.mod_small; lia. Qed.

Lemma u32_id z : in_u32 z → u32 z = z.
Proof. unfold in_u32, u32. intros. rewrite Z.mod_small; lia. Qed.

Lemma u16_id z : in_u16 z → u16 z = z.
Proof. unfold in_u16, u16. intros. rewrite Z.mod_small; lia. Qed.

Lemma s32_range z : in_s32 (s32 z).
Proof.
  unfold in_s32, s32.
  pose proof (Z.mod_pos_bound (z + 2147483648) 4294967296). lia.
Qed.

Lemma u32_range z : in_u32 (u32 z).
Proof. unfold in_u32, u32. pose proof (Z.mod_pos_bound z 4294967296). lia. Qed.

Lemma u16_range z : in_u16 (u16 z).
Proof. unfold in_u16, u16. pose proof (Z.mod_pos_bound z 65536). lia. Qed.

#[export] Hint Resolve s32_range u32_range u16_range : kernel.

(** Simplify the wrap-arounds whose argument is in range by [lia]. *)
Ltac unwrap :=
  repeat match goal with
  | |- context [s32 ?z] => rewrite (s32_id z) by (unfold in_s32 in *; lia)
  | |- context [s64 ?z] => rewrite (s64_id z) by (unfold in_s64, in_s32 in *; lia)
  | |- context [u32 ?z] => rewrite (u32_id z) by (unfold in_u32 in *; lia)
  | |- context [u16 ?z] => rewrite (u16_id z) by (unfold in_u16 in *; lia)
  end.

(** ** Division *)

(** [a / b] on [int]. *)
Definition sdiv32 (a b : Z) : outcome Z :=
  if b =? 0 then Panic
  else if (a =? -2147483648) && (b =? -1) then Panic
  else Ret (Z.quot a b).

(** [a / b] on [int64_t]. *)
Definition sdiv64 (a b : Z) : outcome Z :=
  if b =? 0 then Panic
  else if (a =? -9223372036854775808) && (b =? -1) then Panic
  else Ret (Z.quot a b).

Lemma sdiv32_pos a b : 0 < b → sdiv32 a b = Ret (Z.quot a b).
Proof.
  intros Hb. unfold sdiv32. rewrite (proj2 (Z.eqb_neq b 0)) by lia.
  rewrite (proj2 (Z.eqb_neq b (-1))) by lia. by rewrite andb_false_r.
Qed.

Lemma sdiv64_pos a b : 0 < b → sdiv64 a b = Ret (Z.quot a b).
Proof.
  intros Hb. unfold sdiv64. rewrite (proj2 (Z.eqb_neq b 0)) by lia.
  rewrite (proj2 (Z.eqb_neq b (-1))) by lia. by rewrite andb_false_r.
Qed.

Lemma sdiv64_small a b :
  b ≠ 0 → -9223372036854775808 < a → sdiv64 a b = Ret (Z.quot a b).
Proof.
  intros Hb Ha. unfold sdiv64. rewrite (proj2 (Z.eqb_neq b 0)) by lia.
  by rewrite (proj2 (Z.eqb_neq a _)) by lia.
Qed.

(** Truncated division against its defining equation. *)
Lemma quot_eq a b : b ≠ 0 → a = b * Z.quot a b + Z.rem a b.
Proof. intros. apply Z.quot_rem'. Qed.

Lemma quot_spec_pos a b :
  0 < b →
  (0 ≤ a → 0 ≤ Z.quot a b ∧ b * Z.quot a b ≤ a < b * Z.quot a b + b) ∧
  (a ≤ 0 → Z.quot a b ≤ 0 ∧ b * Z.quot a b - b < a ≤ b * Z.quot a b).
Proof.
  intros Hb. pose proof (quot_eq a b ltac:(lia)) as E. split; intros Ha.
  - pose proof (Z.rem_bound_pos a b Ha Hb). split; [|lia].
    apply Z.quot_pos; lia.
  - pose proof (Z.rem_bound_pos (- a) b ltac:(lia) Hb) as Hr.
    rewrite Z.rem_opp_l in Hr by lia. split; [nia|lia].
Qed.

Lemma quot_abs_bound a b : b ≠ 0 → Z.abs (b * Z.quot a b - a) < Z.abs b.
Proof.
  intros Hb. pose proof (quot_eq a b Hb). pose proof (Z.rem_bound_abs a b Hb). lia.
Qed.

Lemma quot_abs_le a b : 0 < b → Z.abs (Z.quot a b) ≤ Z.abs a.
Proof.
  intros Hb. destruct (quot_spec_pos a b Hb) as [H1 H2].
  destruct (Z.le_gt_cases 0 a); [specialize (H1 ltac:(lia))|specialize (H2 ltac:(lia))];
    nia.
Qed.

(** ** Sizes rounded up ([round.h]) *)

(** [DIV_ROUND_UP (x, step)] and [ROUND_UP (x, step)], on [int]. *)
Definition DIV_ROUND_UP (x step : Z) : Z := Z.quot (s32 (x + step - 1)) step.
Definition ROUND_UP (x step : Z) : Z := s32 (DIV_ROUND_UP x step * step).

Lemma ROUND_UP_spec x step :
  0 < step → 0 ≤ x → x + step ≤ 2147483647 →
  ∃ k, 0 ≤ k ∧ ROUND_UP x step = k * step ∧ x ≤ k * step < x + step ∧
       DIV_ROUND_UP x step = k.
Proof.
  intros Hs Hx Hr. unfold ROUND_UP, DIV_ROUND_UP.
  exists (Z.quot (x + step - 1) step). unwrap.
  destruct (quot_spec_pos (x + step - 1) step Hs) as [H _].
  specialize (H ltac:(lia)). 
  assert (s32 (Z.quot (x + step - 1) step * step) = Z.quot (x + step - 1) step * step)
    by (apply s32_id; unfold in_s32; nia).
  split_and!; [nia|done|nia|nia|done].
Qed.

(** ** Little-endian fields *)

(** [n] little-endian bytes of [x], and back. *)
Fixpoint le (n : nat) (x : Z) : list Z :=
  match n with O => [] | S n' => x mod 256 :: le n' (x / 256) end.

Fixpoint unle (l : list Z) : Z :=
  match l with [] => 0 | b :: l' => b + 256 * unle l' end.

Lemma length_le n x : length (le n x) = n.
Proof. revert x. induction n as [|n IH]; intros x; simpl; [done|]. by rewrite IH. Qed.

Lemma unle_le n x : unle (le n x) = x mod 256 ^ Z.of_nat n.
Proof.
  revert x. induction n as [|n IH]; intros x; [by rewrite Z.mod_1_r|].
  cbn [le unle]. rewrite IH, Nat2Z.inj_succ, Z.pow_succ_r by lia.
  rewrite Z.rem_mul_r; [lia|lia|]. apply Z.pow_pos_nonneg; lia.
Qed.

Lemma unle_le2 x : in_u16 x → unle (le 2 x) = x.
Proof. intros Hx. rewrite unle_le. change (256 ^ _) with 65536. apply Z.mod_small, Hx. Qed.

Lemma unle_le4 x : unle (le 4 x) = u32 x.
Proof. by rewrite unle_le. Qed.

Lemma s32_u32 x : s32 (u32 x) = s32 x.
Proof. unfold s32, u32. f_equal. apply Z.add_mod_idemp_l. lia. Qed.
