(* ===== verification/Ext.v ===== *)
(** * Interfaces of the code outside the repository

    The sub-projects link against the stock Pintos library and drivers, which
    are not part of the repository.  Each is a class of operations with a class
    of the laws its documentation states; the development is proved against the
    laws.  An instance of each shows that the laws can be met, and is what the
    witnesses compute with. *)
From S2P Require Import Prelude CInt.
From stdpp Require Import sorting.
Open Scope Z_scope.

(** ** Ordered operations of [lib/kernel/list.h] *)

(** [list_insert_ordered (list, elem, less)] and the scheduler's
    [list_pop_max (list, less)], on the elements' addresses. *)
Class KernelList := {
  list_insert_ordered : (Z → Z → bool) → Z → list Z → list Z;
  list_pop_max : (Z → Z → bool) → list Z → option (Z * list Z)
}.

(** The comparison functions in use compare an integer key of the element. *)
Definition less_by_key (key : Z → Z) (less : Z → Z → bool) : Prop :=
  ∀ a b, less a b = (key a <? key b).

Class KernelListLaws `{KernelList} : Prop := {
  list_insert_ordered_perm less x l : list_insert_ordered less x l ≡ₚ x :: l;
  list_insert_ordered_sorted key less x l :
    less_by_key key less →
    StronglySorted (λ a b, key a ≤ key b) l →
    StronglySorted (λ a b, key a ≤ key b) (list_insert_ordered less x l);
  list_pop_max_nil less : list_pop_max less [] = None;
  list_pop_max_spec key less l :
    less_by_key key less → l ≠ [] →
    ∃ x l', list_pop_max less l = Some (x, l') ∧ l ≡ₚ x :: l' ∧
            ∀ y, y ∈ l' → key y ≤ key x
}.

(** An implementation: insert after the elements that are not greater; the
    maximum is the earliest of the greatest elements. *)
Module ListModel.
Fixpoint insert (less : Z → Z → bool) (x : Z) (l : list Z) : list Z :=
  match l with
  | [] => [x]
  | y :: l' => if less x y then x :: y :: l' else y :: insert less x l'
  end.

Fixpoint pop_max (less : Z → Z → bool) (l : list Z) : option (Z * list Z) :=
  match l with
  | [] => None
  | y :: l' =>
      match pop_max less l' with
      | None => Some (y, [])
      | Some (x, r) => if less y x then Some (x, y :: r) else Some (y, l')
      end
  end.

#[export] Instance ops : KernelList := {|
  list_insert_ordered := insert;
  list_pop_max := pop_max
|}.

Lemma insert_perm less x l : insert less x l ≡ₚ x :: l.
Proof.
  induction l as [|y l IH]; simpl; [done|]. destruct (less x y); [done|].
  rewrite IH. apply Permutation_swap.
Qed.

Lemma insert_sorted key less x l :
  less_by_key key less →
  StronglySorted (λ a b, key a ≤ key b) l →
  StronglySorted (λ a b, key a ≤ key b) (insert less x l).
Proof.
  intros Hk. induction 1 as [|y l Hs IH Hall]; simpl.
  { repeat constructor. }
  rewrite Hk. destruct (Z.ltb_spec (key x) (key y)).
  - repeat constructor; [done|done|lia|].
    eapply Forall_impl; [done|]. simpl. lia.
  - constructor; [done|]. rewrite insert_perm. by constructor.
Qed.

Lemma pop_max_spec key less l :
  less_by_key key less → l ≠ [] →
  ∃ x l', pop_max less l = Some (x, l') ∧ l ≡ₚ x :: l' ∧ ∀ y, y ∈ l' → key y ≤ key x.
Proof.
  intros Hk. induction l as [|y l IH]; [done|]. intros _. simpl.
  destruct l as [|z l'].
  { exists y, []. split_and!; [done|done|set_solver]. }
  destruct IH as (x & r & -> & Hp & Hmax); [done|]. rewrite Hk.
  destruct (Z.ltb_spec (key y) (key x)).
  - exists x, (y :: r). split_and!; [done|by rewrite Hp; apply Permutation_swap|].
    intros w [->|Hw]%elem_of_cons; [lia|by apply Hmax].
  - exists y, (z :: l'). split_and!; [done|done|].
    intros w Hw. rewrite Hp in Hw. apply elem_of_cons in Hw as [->|Hw]; [done|].
    specialize (Hmax w Hw). lia.
Qed.

#[export] Instance laws : KernelListLaws.
Proof.
  split.
  - apply insert_perm.
  - apply insert_sorted.
  - done.
  - apply pop_max_spec.
Qed.
End ListModel.

(** ** The block device ([devices/block.h])

    A device is an array of [block_size] sectors of [BLOCK_SECTOR_SIZE] bytes;
    [sector_data] observes it.  A byte is a [Z].  Accessing a sector past the
    end panics. *)
Definition BLOCK_SECTOR_SIZE : Z := 512.

(** [memset (buffer, 0, BLOCK_SECTOR_SIZE)] *)
Definition zero_sector : list Z := replicate 512 0.

Class BlockDevice (dev : Type) := {
  block_size : dev → Z;
  sector_data : dev → Z → list Z;
  block_wf : dev → Prop;
  block_read : Z → dev → outcome (list Z);
  block_write : Z → list Z → dev → outcome dev
}.

Class BlockDeviceLaws (dev : Type) `{BlockDevice dev} : Prop := {
  sector_data_length d s : block_wf d → 0 ≤ s < block_size d → length (sector_data d s) = 512%nat;
  block_read_spec d s : block_wf d → 0 ≤ s < block_size d → block_read s d = Ret (sector_data d s);
  block_read_past d s : block_wf d → ¬ (0 ≤ s < block_size d) → block_read s d = Panic;
  block_write_spec d s b :
    block_wf d → 0 ≤ s < block_size d → length b = 512%nat →
    ∃ d', block_write s b d = Ret d' ∧ block_wf d' ∧ block_size d' = block_size d ∧
      ∀ x, sector_data d' x = if decide (x = s) then b else sector_data d x
}.

(** A disk in memory. *)
Module Ramdisk.
Record disk := Disk { disk_size : Z; disk_data : gmap Z (list Z) }.

Definition data (d : disk) (s : Z) : list Z := default zero_sector (disk_data d !! s).

Definition wf (d : disk) : Prop := map_Forall (λ _ b, length b = 512%nat) (disk_data d).

Definition read (s : Z) (d : disk) : outcome (list Z) :=
  ASSERT ((0 <=? s) && (s <? disk_size d));; Ret (data d s).

Definition write (s : Z) (b : list Z) (d : disk) : outcome disk :=
  ASSERT ((0 <=? s) && (s <? disk_size d));;
  Ret (Disk (disk_size d) (<[s := b]> (disk_data d))).

#[export] Instance ops : BlockDevice disk := {|
  block_size := disk_size; sector_data := data; block_wf := wf;
  block_read := read; block_write := write
|}.

Lemma in_range d s : 0 ≤ s < disk_size d → (0 <=? s) && (s <? disk_size d) = true.
Proof. intros. apply andb_true_intro. split; [apply Z.leb_le|apply Z.ltb_lt]; lia. Qed.

#[export] Instance laws : BlockDeviceLaws disk.
Proof.
  split; simpl; unfold wf.
  - intros d s Hwf _. unfold data. destruct (disk_data d !! s) eqn:E; [|done].
    simpl. by eapply Hwf.
  - intros d s Hwf Hs. unfold read. by rewrite in_range by done.
  - intros d s _ Hs. unfold read. destruct (_ && _) eqn:E; [|done]. bool_to_prop. lia.
  - intros d s b Hwf Hs Hb. unfold write. rewrite in_range by done. ret.
    eexists. split; [done|]. split; [by apply map_Forall_insert_2|]. split; [done|].
    intros x. unfold data. simpl. case_decide as E; [subst; by rewrite lookup_insert_eq|].
    by rewrite lookup_insert_ne.
Qed.
End Ramdisk.

(** ** Bitmaps ([lib/kernel/bitmap.h])

    [bitmap_test] observes a bitmap of [bitmap_size] bits; the operations assert
    that the range they are given is inside it.  [None] is [BITMAP_ERROR]. *)
Class Bitmap (bitmap : Type) := {
  bitmap_create : Z → option bitmap;
  bitmap_size : bitmap → Z;
  bitmap_test : bitmap → Z → bool;
  bitmap_mark : bitmap → Z → bitmap;
  bitmap_all : bitmap → Z → Z → outcome bool;
  bitmap_set_multiple : bitmap → Z → Z → bool → outcome bitmap;
  bitmap_scan_and_flip : bitmap → Z → Z → bool → outcome (option Z * bitmap);
  bitmap_file_size : bitmap → Z
}.

Class BitmapLaws (bitmap : Type) `{Bitmap bitmap} : Prop := {
  bitmap_size_nonneg b : 0 ≤ bitmap_size b;
  bitmap_create_spec n b : 0 ≤ n → bitmap_create n = Some b →
    bitmap_size b = n ∧ ∀ i, bitmap_test b i = false;
  bitmap_mark_size b i : bitmap_size (bitmap_mark b i) = bitmap_size b;
  bitmap_mark_spec b i j : 0 ≤ i < bitmap_size b →
    bitmap_test (bitmap_mark b i) j = if decide (j = i) then true else bitmap_test b j;
  bitmap_all_spec b start cnt : 0 ≤ start → 0 ≤ cnt → start + cnt ≤ bitmap_size b →
    ∃ r, bitmap_all b start cnt = Ret r ∧
      (r = true ↔ ∀ i, start ≤ i < start + cnt → bitmap_test b i = true);
  bitmap_all_past b start cnt : bitmap_size b < start + cnt → bitmap_all b start cnt = Panic;
  bitmap_set_multiple_spec b start cnt v :
    0 ≤ start → 0 ≤ cnt → start + cnt ≤ bitmap_size b →
    ∃ b', bitmap_set_multiple b start cnt v = Ret b' ∧ bitmap_size b' = bitmap_size b ∧
      ∀ i, bitmap_test b' i =
        if decide (start ≤ i < start + cnt) then v else bitmap_test b i;
  bitmap_scan_and_flip_spec b v :
    ∃ r b', bitmap_scan_and_flip b 0 1 v = Ret (r, b') ∧ bitmap_size b' = bitmap_size b ∧
      match r with
      | Some i => 0 ≤ i < bitmap_size b ∧ bitmap_test b i = v ∧
          (∀ j, 0 ≤ j < i → bitmap_test b j = negb v) ∧
          ∀ j, bitmap_test b' j = if decide (j = i) then negb v else bitmap_test b j
      | None => b' = b ∧ ∀ j, 0 ≤ j < bitmap_size b → bitmap_test b j = negb v
      end
}.

(** Bitmaps as lists of booleans. *)
Module BitList.
Definition test (b : list bool) (i : Z) : bool :=
  if 0 <=? i then default false (b !! Z.to_nat i) else false.

Definition in_range (b : list bool) (start cnt : Z) : bool :=
  (0 <=? start) && (0 <=? cnt) && (start + cnt <=? Z.of_nat (length b)).

Definition set_multiple (b : list bool) (start cnt : Z) (v : bool) : outcome (list bool) :=
  ASSERT (in_range b start cnt);;
  Ret (splice (Z.to_nat start) (replicate (Z.to_nat cnt) v) b).

Definition all (b : list bool) (start cnt : Z) : outcome bool :=
  ASSERT (in_range b start cnt);;
  Ret (forallb id (slice (Z.to_nat start) (Z.to_nat cnt) b)).

Fixpoint scan (l : list bool) (cnt : nat) (v : bool) (i : Z) : option Z :=
  match l with
  | [] => None
  | _ :: l' => if bool_decide (take cnt l = replicate cnt v) then Some i
               else scan l' cnt v (i + 1)
  end.

Definition scan_and_flip (b : list bool) (start cnt : Z) (v : bool)
    : outcome (option Z * list bool) :=
  match scan (drop (Z.to_nat start) b) (Z.to_nat cnt) v start with
  | Some i => b' ← set_multiple b i cnt (negb v); Ret (Some i, b')
  | None => Ret (None, b)
  end.

#[export] Instance ops : Bitmap (list bool) := {|
  bitmap_create n := Some (replicate (Z.to_nat n) false);
  bitmap_size b := Z.of_nat (length b);
  bitmap_test := test;
  bitmap_mark b i := <[Z.to_nat i := true]> b;
  bitmap_all := all;
  bitmap_set_multiple := set_multiple;
  bitmap_scan_and_flip := scan_and_flip;
  bitmap_file_size b := 4 * ((Z.of_nat (length b) + 31) / 32)
|}.

Lemma test_nonneg b i : 0 ≤ i → test b i = default false (b !! Z.to_nat i).
Proof. intros. unfold test. by rewrite (proj2 (Z.leb_le 0 i)). Qed.

Lemma in_range_true b start cnt :
  in_range b start cnt = true ↔ 0 ≤ start ∧ 0 ≤ cnt ∧ start + cnt ≤ Z.of_nat (length b).
Proof. unfold in_range. rewrite !andb_true_iff, !Z.leb_le. tauto. Qed.

Lemma set_multiple_spec b start cnt v :
  0 ≤ start → 0 ≤ cnt → start + cnt ≤ Z.of_nat (length b) →
  ∃ b', set_multiple b start cnt v = Ret b' ∧ length b' = length b ∧
    ∀ i, test b' i = if decide (start ≤ i < start + cnt) then v else test b i.
Proof.
  intros Hs Hc Hle. unfold set_multiple. rewrite (proj2 (in_range_true _ _ _)) by done. ret.
  eexists. split; [done|]. split.
  { apply length_splice. rewrite length_replicate. lia. }
  intros i. unfold test. destruct (Z.leb_spec 0 i) as [Hi|Hi].
  - rewrite lookup_splice by (rewrite length_replicate; lia). rewrite length_replicate.
    repeat case_decide; try lia; [|done].
    rewrite lookup_replicate_2 by lia. done.
  - rewrite decide_False by lia. done.
Qed.

Lemma scan_spec l v i0 :
  match scan l 1 v i0 with
  | Some i => i0 ≤ i < i0 + Z.of_nat (length l) ∧ l !! Z.to_nat (i - i0) = Some v ∧
      ∀ j : nat, Z.of_nat j < i - i0 → l !! j = Some (negb v)
  | None => ∀ j : nat, (j < length l)%nat → l !! j = Some (negb v)
  end.
Proof.
  revert i0. induction l as [|x l IH]; intros i0; simpl; [lia|]. case_bool_decide as E.
  - injection E as ->. rewrite Z.sub_diag. split_and!; [lia|lia|done|lia].
  - assert (x = negb v) as -> by (destruct x, v; try done; by destruct E).
    specialize (IH (i0 + 1)). destruct (scan l 1 v (i0 + 1)) as [i|].
    + destruct IH as (Hr & Hv & Hj).
      replace (Z.to_nat (i - i0)) with (S (Z.to_nat (i - (i0 + 1)))) by lia.
      split_and!; [lia|lia|done|]. intros [|j] Hlt; [done|]. apply Hj. lia.
    + intros [|j] Hlt; [done|]. apply IH. lia.
Qed.

#[export] Instance laws : BitmapLaws (list bool).
Proof.
  split; simpl.
  - lia.
  - intros n b Hn [= <-]. rewrite length_replicate. split; [lia|]. intros i. unfold test.
    case_match; [|done]. destruct (replicate _ false !! _) eqn:E; [|done].
    by apply lookup_replicate in E as [-> _].
  - intros. by rewrite length_insert.
  - intros b i j Hi. unfold test. case_decide as E.
    + subst. rewrite (proj2 (Z.leb_le 0 i)) by lia. rewrite list_lookup_insert_eq by lia. done.
    + case_match eqn:Ej; [|done]. apply Z.leb_le in Ej.
      rewrite list_lookup_insert_ne by lia. done.
  - intros b start cnt Hs Hc Hle. unfold all. rewrite (proj2 (in_range_true _ _ _)) by done.
    eexists. split; [done|]. rewrite forallb_forall. split.
    + intros Hall i Hi. rewrite test_nonneg by lia.
      destruct (b !! Z.to_nat i) as [x|] eqn:E.
      * simpl. apply (Hall x). apply list_elem_of_In. apply list_elem_of_lookup.
        exists (Z.to_nat (i - start)). rewrite lookup_slice by lia. rewrite <- E. f_equal. lia.
      * apply lookup_ge_None in E. lia.
    + intros Hall x Hx%list_elem_of_In. apply list_elem_of_lookup in Hx as [j Hj].
      assert (j < Z.to_nat cnt)%nat as Hlt.
      { apply lookup_lt_Some in Hj. rewrite length_slice in Hj by lia. done. }
      rewrite lookup_slice in Hj by done. specialize (Hall (start + Z.of_nat j) ltac:(lia)).
      rewrite test_nonneg in Hall by lia.
      replace (Z.to_nat (start + Z.of_nat j)) with (Z.to_nat start + j)%nat in Hall by lia.
      by rewrite Hj in Hall.
  - intros b start cnt Hlt. unfold all. destruct (in_range b start cnt) eqn:E; [|done].
    apply in_range_true in E. lia.
  - intros b start cnt v Hs Hc Hle. destruct (set_multiple_spec b start cnt v) as (b' & ? & ? & ?);
      [done..|]. exists b'. split_and!; [done|lia|done].
  - intros b v. unfold scan_and_flip. change (Z.to_nat 0) with 0%nat.
    change (Z.to_nat 1) with 1%nat. rewrite drop_0.
    pose proof (scan_spec b v 0) as Hscan. destruct (scan b 1 v 0) as [i|].
    + rewrite Z.sub_0_r in Hscan. destruct Hscan as (Hr & Hv & Hj).
      destruct (set_multiple_spec b i 1 (negb v)) as (b' & -> & Hl & Ht); [lia..|]. ret.
      exists (Some i), b'. split_and!; [done|lia|lia|lia| | |].
      * rewrite test_nonneg by lia. by rewrite Hv.
      * intros j Hlt. rewrite test_nonneg by lia. rewrite Hj by lia. done.
      * intros j. rewrite Ht. repeat case_decide; try lia; done.
    + exists None, b. split_and!; [done|done|done|]. intros j Hlt.
      rewrite test_nonneg by lia. rewrite Hscan by lia. done.
Qed.
End BitList.

(** ** Locks ([threads/synch.h]), for a single thread of control

    [true] is held.  Acquiring a lock that is held would wait for ever; releasing
    one that is not held fails an assertion. *)
Definition lock_acquire (held : bool) : outcome bool := if held then Stuck else Ret true.
Definition lock_release (held : bool) : outcome bool := ASSERT held;; Ret false.

(** ** Semaphores ([threads/synch.h])

    A semaphore is its value.  [sema_down] waits, [None] here, while it is zero. *)
Definition sema_init (v : Z) : Z := v.
Definition sema_up (v : Z) : Z := v + 1.
Definition sema_down (v : Z) : option Z := if 0 <? v then Some (v - 1) else None.
