(* ===== verification/FixedPoint.v ===== *)
(** * Fixed-point arithmetic (priority-scheduler/lib/kernel/fixed-point.c)

    A [fixed_point] is an [int] standing for [x / 2^q].  Every routine is
    translated with the width of its intermediate values: plain [int]
    arithmetic wraps at 32 bits, the multiplications and divisions go through
    [int64_t], and the result is narrowed to [int] on return.  Routines that
    divide return an [outcome], because a zero divisor traps. *)
From S2P Require Import Prelude CInt.
Open Scope Z_scope.

(** [#define f(q) (1 << (q))] *)
Definition f (q : Z) : Z := s32 (Z.shiftl 1 q).

Definition fxp_of_int (q n : Z) : Z := s32 (n * f q).

Definition fxp_trunc (q x : Z) : outcome Z := sdiv32 x (f q).

Definition fxp_round (q x : Z) : outcome Z :=
  let sgn := if 0 <=? x then 1 else -1 in
  h ← sdiv32 (s32 (sgn * f q)) 2;
  sdiv32 (s32 (x + h)) (f q).

Definition fxp_reformat (old_q new_q x : Z) : outcome Z :=
  s32 <$> sdiv64 (s64 (x * f new_q)) (f old_q).

Definition fxp_add (x y : Z) : Z := s32 (x + y).
Definition fxp_sub (x y : Z) : Z := s32 (x - y).
Definition fxp_neg (x : Z) : Z := s32 (- x).

Definition fxp_mul (q x y : Z) : outcome Z :=
  s32 <$> sdiv64 (s64 (x * y)) (f q).

Definition fxp_div (q x y : Z) : outcome Z :=
  s32 <$> sdiv64 (s64 (x * f q)) y.

Definition fxp_inv (q x : Z) : outcome Z :=
  s32 <$> sdiv64 (s64 (f q * f q)) x.

Definition fxp_addi (q x n : Z) : Z := s32 (x + s32 (n * f q)).
Definition fxp_subi (q x n : Z) : Z := s32 (x - s32 (n * f q)).
Definition fxp_muli (x n : Z) : Z := s32 (x * n).
Definition fxp_divi (x n : Z) : outcome Z := sdiv32 x n.
Definition fxp_invi (q n : Z) : outcome Z := sdiv32 (f q) n.
Definition fxp_isub (q n x : Z) : Z := s32 (s32 (n * f q) - x).

Definition fxp_idiv (q n x : Z) : outcome Z :=
  s32 <$> sdiv64 (s64 (s64 (n * f q) * f q)) x.

Definition fxp_idivi (q n d : Z) : outcome Z :=
  s32 <$> sdiv64 (s64 (n * f q)) d.

(** ** The scale factor *)

Lemma f_pow q : 0 ≤ q ≤ 30 → f q = 2 ^ q.
Proof.
  intros Hq. unfold f. rewrite Z.shiftl_1_l. apply s32_id. unfold in_s32.
  pose proof (Z.pow_le_mono_r 2 q 30 ltac:(lia) ltac:(lia)).
  pose proof (Z.pow_pos_nonneg 2 q). lia.
Qed.

Lemma f_bounds q : 0 ≤ q ≤ 30 → 1 ≤ f q ≤ 1073741824.
Proof.
  intros Hq. rewrite f_pow by done.
  pose proof (Z.pow_le_mono_r 2 q 30 ltac:(lia) ltac:(lia)).
  pose proof (Z.pow_pos_nonneg 2 q). lia.
Qed.

Lemma f_double q : 1 ≤ q ≤ 30 → ∃ h, f q = 2 * h ∧ 1 ≤ h.
Proof.
  intros Hq. exists (2 ^ (q - 1)). rewrite f_pow by lia.
  rewrite <- Z.pow_succ_r by lia.
  split; [f_equal; lia|]. pose proof (Z.pow_pos_nonneg 2 (q - 1)). lia.
Qed.

Lemma mul64_exact x y : in_s32 x → in_s32 y → s64 (x * y) = x * y.
Proof. unfold in_s32. intros. apply s64_id. unfold in_s64. nia. Qed.

(** Rounding specification: [x / d] rounded to the nearest integer, halves away
    from zero. *)
Definition round_half_away (d x : Z) : Z := Z.sgn x * ((2 * Z.abs x + d) / (2 * d)).

Lemma round_half_away_quot h x :
  1 ≤ h →
  round_half_away (2 * h) x =
    Z.quot (x + (if 0 <=? x then h else - h)) (2 * h).
Proof.
  intros Hh. unfold round_half_away.
  replace (2 * Z.abs x + 2 * h) with (2 * (Z.abs x + h)) by lia.
  rewrite Z.div_mul_cancel_l by lia. case_bool.
  - rewrite Z.abs_eq by lia. rewrite Z.quot_div_nonneg by lia.
    destruct (Z.eq_dec x 0) as [->|]; [|rewrite Z.sgn_pos by lia; lia].
    simpl. symmetry. apply Z.div_small. lia.
  - rewrite Z.sgn_neg, Z.abs_neq by lia.
    replace (x + - h) with (- (- x + h)) by lia.
    rewrite Z.quot_opp_l, Z.quot_div_nonneg by lia. lia.
Qed.

Lemma round_half_away_mul d n : 1 ≤ d → round_half_away d (n * d) = n.
Proof.
  intros Hd. unfold round_half_away. rewrite Z.abs_mul, (Z.abs_eq d) by lia.
  replace (2 * (Z.abs n * d) + d) with (d + Z.abs n * (2 * d)) by lia.
  rewrite Z.div_add, Z.div_small by lia. rewrite Z.sgn_mul, (Z.sgn_pos d) by lia.
  rewrite Z.add_0_l, Z.mul_1_r, Z.mul_comm. apply Z.abs_sgn.
Qed.

Lemma fxp_round_eq q x :
  1 ≤ q ≤ 30 → Z.abs x + 2 ^ (q - 1) < 2147483648 →
  fxp_round q x = Ret (round_half_away (f q) x).
Proof.
  intros Hq Hx. destruct (f_double q Hq) as (h & Hf & Hh).
  pose proof (f_bounds q ltac:(lia)) as Hb.
  assert (2 ^ (q - 1) = h) as E.
  { assert (2 ^ (Z.succ (q - 1)) = f q) as E by (rewrite f_pow by lia; f_equal; lia).
    rewrite Z.pow_succ_r in E by lia. lia. }
  rewrite E in Hx. unfold fxp_round. rewrite Hf, round_half_away_quot by done.
  case_bool.
  - replace (1 * (2 * h)) with (h * 2) by lia. unwrap.
    rewrite sdiv32_pos, Z.quot_mul by lia. simpl. unwrap. by rewrite sdiv32_pos by lia.
  - replace (-1 * (2 * h)) with (- h * 2) by lia. unwrap.
    rewrite sdiv32_pos, Z.quot_mul by lia. simpl. unwrap. by rewrite sdiv32_pos by lia.
Qed.

(** ** Properties *)

(** Converting an integer to fixed point and back is the identity, by
    truncation and by rounding, whenever the scaled value fits in an [int]
    (for rounding, with room for half a unit). *)
Theorem fxp_of_int_roundtrip (q n : Z) :
  1 ≤ q ≤ 30 → Z.abs n * 2 ^ q + 2 ^ (q - 1) < 2147483648 →
  fxp_trunc q (fxp_of_int q n) = Ret n ∧ fxp_round q (fxp_of_int q n) = Ret n.
Proof.
  intros Hq Hn. pose proof (f_bounds q ltac:(lia)) as Hb.
  pose proof (Z.pow_pos_nonneg 2 (q - 1) ltac:(lia) ltac:(lia)).
  rewrite <- f_pow in Hn by lia.
  assert (Z.abs (n * f q) = Z.abs n * f q) by (rewrite Z.abs_mul; lia).
  unfold fxp_of_int. unwrap. split.
  - unfold fxp_trunc. rewrite sdiv32_pos, Z.quot_mul by lia. done.
  - rewrite fxp_round_eq by lia. by rewrite round_half_away_mul by lia.
Qed.

Lemma fxp_of_int_roundtrip_witness :
  fxp_trunc 14 (fxp_of_int 14 (-63)) = Ret (-63) ∧
  fxp_round 14 (fxp_of_int 14 (-63)) = Ret (-63).
Proof. apply (fxp_of_int_roundtrip 14 (-63)); [lia|reflexivity]. Defined.

(** [fxp_mul] never overflows its 64-bit product, for any two [int] operands;
    when the quotient fits in an [int] it is returned exactly, within one unit
    in the last place of the rational product and never past it. *)
Theorem fxp_mul_correct (q x y : Z) :
  0 ≤ q ≤ 30 → in_s32 x → in_s32 y → in_s32 (Z.quot (x * y) (2 ^ q)) →
  ∃ r, fxp_mul q x y = Ret r ∧
    Z.abs (2 ^ q * r - x * y) < 2 ^ q ∧ Z.abs (2 ^ q * r) ≤ Z.abs (x * y).
Proof.
  intros Hq Hx Hy Hr. pose proof (f_bounds q Hq). rewrite <- f_pow in * by done.
  exists (Z.quot (x * y) (f q)). unfold fxp_mul.
  rewrite mul64_exact, sdiv64_pos by (done || lia). simpl. rewrite s32_id by done.
  pose proof (quot_abs_bound (x * y) (f q) ltac:(lia)).
  split_and!; [done|lia|]. pose proof (quot_spec_pos (x * y) (f q) ltac:(lia)). lia.
Qed.

Lemma fxp_mul_correct_witness :
  in_s32 (Z.quot (49152 * -40960) (2 ^ 14)) ∧
  ∃ r, fxp_mul 14 49152 (-40960) = Ret r ∧
    Z.abs (2 ^ 14 * r - 49152 * -40960) < 2 ^ 14 ∧
    Z.abs (2 ^ 14 * r) ≤ Z.abs (49152 * -40960).
Proof.
  split; [by vm_compute|].
  apply (fxp_mul_correct 14 49152 (-40960)); by vm_compute.
Defined.

(** [fxp_div] panics exactly on a zero divisor; otherwise, when the quotient
    fits in an [int], it returns the rational quotient [x/y] truncated towards
    zero at scale [2^q]. *)
Theorem fxp_div_correct (q x y : Z) :
  0 ≤ q ≤ 30 → in_s32 x → in_s32 y →
  (fxp_div q x y = Panic ↔ y = 0) ∧
  (y ≠ 0 → in_s32 (Z.quot (x * 2 ^ q) y) →
   ∃ r, fxp_div q x y = Ret r ∧ Z.abs (y * r - x * 2 ^ q) < Z.abs y).
Proof.
  intros Hq Hx Hy. pose proof (f_bounds q Hq). rewrite <- f_pow in * by done.
  unfold fxp_div. rewrite mul64_exact by (done || (unfold in_s32; lia)). split.
  - split; [|intros ->; done]. intros Hp.
    destruct (Z.eq_dec y 0) as [|Hne]; [done|].
    rewrite sdiv64_small in Hp by (done || (unfold in_s32 in Hx; nia)). done.
  - intros Hne Hr. exists (Z.quot (x * f q) y).
    rewrite sdiv64_small by (done || (unfold in_s32 in Hx; nia)). simpl.
    rewrite s32_id by done. split; [done|]. by apply quot_abs_bound.
Qed.

Lemma fxp_div_correct_witness :
  (fxp_div 14 32768 (-49152) = Panic ↔ -49152 = 0) ∧
  (-49152 ≠ 0 → in_s32 (Z.quot (32768 * 2 ^ 14) (-49152)) →
   ∃ r, fxp_div 14 32768 (-49152) = Ret r ∧
        Z.abs (-49152 * r - 32768 * 2 ^ 14) < Z.abs (-49152)).
Proof. apply (fxp_div_correct 14 32768 (-49152)); by vm_compute. Defined.
