(* ===== verification/Interrupt.v ===== *)
(** * Interrupts (virtual-memory/threads/interrupt.c)

    The CPU's interrupt flag with the two booleans of the external-interrupt
    protocol, the interrupt descriptor table with its gates, the table of
    registered handlers, and the counter of unexpected interrupts.  The file is
    the stock one in every sub-project, so the priority scheduler's model uses
    these definitions too.  [intr_handler], which calls back into the scheduler,
    is in Timer.v. *)
From S2P Require Import Prelude CInt.
From stdpp Require Import strings.
Open Scope Z_scope.

(** ** Interrupt level *)

Inductive intr_level := INTR_OFF | INTR_ON.

#[export] Instance intr_level_eq_dec : EqDecision intr_level.
Proof. solve_decision. Defined.

(** The IF flag of the CPU, [in_external_intr] and [yield_on_return]. *)
Record intr := Intr {
  if_flag : intr_level;
  in_external_intr : bool;
  yield_on_return : bool
}.
#[export] Instance eta_intr : Eta intr :=
  λ r, Intr (if_flag r) (in_external_intr r) (yield_on_return r).

Definition intr_get_level (i : intr) : intr_level := if_flag i.

Definition intr_context (i : intr) : bool := in_external_intr i.

Definition intr_enable (i : intr) : outcome (intr_level * intr) :=
  let old_level := intr_get_level i in
  ASSERT (negb (intr_context i));;
  Ret (old_level, i <| if_flag := INTR_ON |>).

Definition intr_disable (i : intr) : intr_level * intr :=
  let old_level := intr_get_level i in
  (old_level, i <| if_flag := INTR_OFF |>).

Definition intr_set_level (level : intr_level) (i : intr) : outcome (intr_level * intr) :=
  match level with
  | INTR_ON => intr_enable i
  | INTR_OFF => Ret (intr_disable i)
  end.

Definition intr_yield_on_return (i : intr) : outcome intr :=
  ASSERT (intr_context i);;
  Ret (i <| yield_on_return := true |>).

(** Disabling interrupts around a critical section and restoring the saved
    level leaves the CPU as it was, outside an external interrupt. *)
Lemma intr_disable_restore (i : intr) :
  in_external_intr i = false →
  let '(old, i') := intr_disable i in
  ∃ l, intr_set_level old i' = Ret (l, i).
Proof. destruct i as [[] [] []]; intros H; simpl in *; try done; eauto. Qed.

(** ** Gates of the interrupt descriptor table *)

Section gates.
(** Selector of the kernel code segment ([threads/loader.h]). *)
Variable SEL_KCSEG : Z.

Definition make_gate (function dpl type : Z) : outcome Z :=
  ASSERT (negb (function =? 0));;
  ASSERT ((0 <=? dpl) && (dpl <=? 3));;
  ASSERT ((0 <=? type) && (type <=? 15));;
  let e0 := u32 (Z.lor (Z.land function 65535) (Z.shiftl SEL_KCSEG 16)) in
  let e1 :=
    u32 (Z.lor (Z.lor (Z.lor (Z.lor (Z.land function 4294901760) (Z.shiftl 1 15))
      (Z.shiftl dpl 13)) (Z.shiftl 0 12)) (Z.shiftl type 8)) in
  Ret (u64 (Z.lor e0 (Z.shiftl e1 32))).

Definition make_intr_gate (function dpl : Z) : outcome Z := make_gate function dpl 14.
Definition make_trap_gate (function dpl : Z) : outcome Z := make_gate function dpl 15.

Definition make_idtr_operand (limit base : Z) : Z :=
  u64 (Z.lor (u16 limit) (Z.shiftl (u32 base) 16)).
End gates.

(** Adjacent bit fields: [lor] of a low field and a shifted high field. *)
Lemma land_shiftl_0 n a b : 0 ≤ n → 0 ≤ a < 2 ^ n → Z.land a (Z.shiftl b n) = 0.
Proof.
  intros Hn Ha. apply Z.bits_inj'. intros i Hi.
  rewrite Z.land_spec, Z.bits_0, Z.shiftl_spec by done.
  destruct (Z.ltb_spec i n); [by rewrite (Z.testbit_neg_r b) by lia; rewrite andb_false_r|].
  destruct (Z.eq_dec a 0) as [->|]; [by rewrite Z.bits_0|].
  rewrite (Z.bits_above_log2 a i); [done|lia|].
  apply Z.log2_lt_pow2; [lia|]. pose proof (Z.pow_le_mono_r 2 n i). lia.
Qed.

Lemma lor_shiftl_add n a b : 0 ≤ n → 0 ≤ a < 2 ^ n → Z.lor a (Z.shiftl b n) = a + b * 2 ^ n.
Proof.
  intros Hn Ha. pose proof (land_shiftl_0 n a b Hn Ha) as Hd.
  rewrite <- Z.lxor_lor, <- Z.add_nocarry_lxor by done. by rewrite Z.shiftl_mul_pow2.
Qed.

(** Masking the high half of a 32-bit word. *)
Lemma land_high_half x : 0 ≤ x < 4294967296 → Z.land x 4294901760 = Z.shiftl (x / 65536) 16.
Proof.
  intros Hx. change 4294901760 with (Z.shiftl (Z.ones 16) 16).
  change 65536 with (2 ^ 16). rewrite <- Z.shiftr_div_pow2 by lia.
  apply Z.bits_inj'. intros i Hi. rewrite Z.land_spec, !Z.shiftl_spec by done.
  destruct (Z.ltb_spec i 16).
  - rewrite (Z.testbit_neg_r (Z.ones 16)), (Z.testbit_neg_r (Z.shiftr x 16)) by lia.
    by rewrite andb_false_r.
  - rewrite Z.shiftr_spec by lia. rewrite Z.sub_add.
    destruct (Z.ltb_spec (i - 16) 16).
    + rewrite Z.ones_spec_low by lia. by rewrite andb_true_r.
    + rewrite Z.ones_spec_high by lia. rewrite andb_false_r.
      destruct (Z.eq_dec x 0) as [->|]; [by rewrite Z.bits_0|].
      symmetry. apply Z.bits_above_log2; [lia|]. apply Z.log2_lt_pow2; [lia|].
      pose proof (Z.pow_le_mono_r 2 32 i). lia.
Qed.

Lemma gate_flags_add dpl type :
  0 ≤ dpl ≤ 3 → 0 ≤ type ≤ 15 →
  Z.lor (Z.lor (Z.lor (Z.shiftl 1 15) (Z.shiftl dpl 13)) (Z.shiftl 0 12)) (Z.shiftl type 8)
  = 32768 + dpl * 8192 + type * 256.
Proof.
  intros Hd Ht.
  assert (dpl = 0 ∨ dpl = 1 ∨ dpl = 2 ∨ dpl = 3) as Hd' by lia.
  assert (type ∈ seqZ 0 16) as Ht' by (apply elem_of_seqZ; lia).
  revert Ht'. clear Ht Hd. revert type. apply Forall_forall.
  destruct Hd' as [-> | [-> | [-> | ->]]]; repeat constructor.
Qed.

Lemma make_gate_value sel function dpl type :
  0 ≤ sel < 65536 → 0 < function < 4294967296 → 0 ≤ dpl ≤ 3 → 0 ≤ type ≤ 15 →
  make_gate sel function dpl type =
    Ret (function mod 65536 + sel * 65536 +
         (type * 256 + dpl * 8192 + 32768 + (function / 65536) * 65536) * 4294967296).
Proof.
  intros Hs Hf Hd Ht. unfold make_gate.
  rewrite !ASSERT_true by bool_lia. simpl. f_equal.
  rewrite land_high_half by lia.
  rewrite (Z.lor_comm (Z.shiftl (function / 65536) 16)), <- !Z.lor_assoc.
  rewrite (Z.lor_comm (Z.shiftl (function / 65536) 16)), !Z.lor_assoc.
  rewrite gate_flags_add by done.
  change 65535 with (Z.ones 16). rewrite Z.land_ones by lia.
  change (2 ^ 16) with 65536.
  pose proof (Z.mod_pos_bound function 65536).
  assert (0 ≤ function / 65536 < 65536) by (Z.to_euclidean_division_equations; lia).
  rewrite (lor_shiftl_add 16 (function mod 65536)) by lia.
  rewrite (lor_shiftl_add 16 (32768 + dpl * 8192 + type * 256)) by lia.
  change (2 ^ 16) with 65536. rewrite !u32_id by (unfold in_u32; lia).
  rewrite lor_shiftl_add by lia. change (2 ^ 32) with 4294967296.
  unfold u64. rewrite Z.mod_small by lia. lia.
Qed.

(** ** Registration of handlers *)

(** The IDT, the handlers (identified by [H]), their names, and the counters of
    unexpected interrupts; [INTR_CNT] is 256. *)
Record idt_state (H : Type) := IdtState {
  idt : gmap Z Z;
  intr_handlers : gmap Z H;
  intr_names : gmap Z string;
  unexpected_cnt : gmap Z Z
}.
Arguments IdtState {H} _ _ _ _.
Arguments idt {H} _.
Arguments intr_handlers {H} _.
Arguments intr_names {H} _.
Arguments unexpected_cnt {H} _.
#[export] Instance eta_idt_state {H} : Eta (idt_state H) :=
  λ r, IdtState (idt r) (intr_handlers r) (intr_names r) (unexpected_cnt r).

Definition INTR_CNT : Z := 256.

(** ** The 8259A interrupt controllers, as the port writes [(port, value)] made *)

Definition PIC0_CTRL : Z := 32.
Definition PIC0_DATA : Z := 33.
Definition PIC1_CTRL : Z := 160.
Definition PIC1_DATA : Z := 161.

Definition pic_init : list (Z * Z) :=
  [(PIC0_DATA, 255); (PIC1_DATA, 255);
   (PIC0_CTRL, 17); (PIC0_DATA, 32); (PIC0_DATA, 4); (PIC0_DATA, 1);
   (PIC1_CTRL, 17); (PIC1_DATA, 40); (PIC1_DATA, 2); (PIC1_DATA, 1);
   (PIC0_DATA, 0); (PIC1_DATA, 0)].

Definition pic_end_of_interrupt (irq : Z) : outcome (list (Z * Z)) :=
  ASSERT ((32 <=? irq) && (irq <? 48));;
  Ret ((PIC0_CTRL, 32) :: if 40 <=? irq then [(PIC1_CTRL, 32)] else []).

Section registration.
Context {H : Type}.
(** Selector of the kernel code segment, and the addresses of the assembly
    entry stubs ([intr-stubs.S]). *)
Variable SEL_KCSEG : Z.
Variable intr_stubs : Z → Z.

Definition register_handler (vec_no dpl : Z) (level : intr_level) (handler : H)
    (name : string) (s : idt_state H) : outcome (idt_state H) :=
  ASSERT (bool_decide (intr_handlers s !! vec_no = None));;
  gate ← match level with
         | INTR_ON => make_trap_gate SEL_KCSEG (intr_stubs vec_no) dpl
         | INTR_OFF => make_intr_gate SEL_KCSEG (intr_stubs vec_no) dpl
         end;
  Ret (s <| idt := <[vec_no := gate]> (idt s) |>
         <| intr_handlers := <[vec_no := handler]> (intr_handlers s) |>
         <| intr_names := <[vec_no := name]> (intr_names s) |>).

Definition intr_register_ext (vec_no : Z) (handler : H) (name : string)
    (s : idt_state H) : outcome (idt_state H) :=
  ASSERT ((32 <=? vec_no) && (vec_no <=? 47));;
  register_handler vec_no 0 INTR_OFF handler name s.

Definition intr_register_int (vec_no dpl : Z) (level : intr_level) (handler : H)
    (name : string) (s : idt_state H) : outcome (idt_state H) :=
  ASSERT ((vec_no <? 32) || (47 <? vec_no));;
  register_handler vec_no dpl level handler name s.

(** Counts the interrupt and says whether a message is printed. *)
Definition unexpected_interrupt (vec_no : Z) (s : idt_state H) : bool * idt_state H :=
  let n := u32 (default 0 (unexpected_cnt s !! vec_no) + 1) in
  (Z.land n (u32 (n - 1)) =? 0,
   s <| unexpected_cnt := <[vec_no := n]> (unexpected_cnt s) |>).

(** [intr_names] after [intr_init]: fifteen is reserved and stays unknown. *)
Definition exception_names : list (Z * string) :=
  [(0, "#DE Divide Error"); (1, "#DB Debug Exception"); (2, "NMI Interrupt");
   (3, "#BP Breakpoint Exception"); (4, "#OF Overflow Exception");
   (5, "#BR BOUND Range Exceeded Exception"); (6, "#UD Invalid Opcode Exception");
   (7, "#NM Device Not Available Exception"); (8, "#DF Double Fault Exception");
   (9, "Coprocessor Segment Overrun"); (10, "#TS Invalid TSS Exception");
   (11, "#NP Segment Not Present"); (12, "#SS Stack Fault Exception");
   (13, "#GP General Protection Exception"); (14, "#PF Page-Fault Exception");
   (16, "#MF x87 FPU Floating-Point Error"); (17, "#AC Alignment Check Exception");
   (18, "#MC Machine-Check Exception"); (19, "#XF SIMD Floating-Point Exception")].

(** [intr_init]: the port writes, the operand of [lidt] and the tables; [idt_addr]
    is the address of the array [idt]. *)
Definition intr_init (idt_addr : Z) (s : idt_state H)
    : outcome (list (Z * Z) * Z * idt_state H) :=
  s1 ← foldl (λ ms i, s ← ms;
                gate ← make_intr_gate SEL_KCSEG (intr_stubs i) 0;
                Ret (s <| idt := <[i := gate]> (idt s) |>)) (Ret s) (seqZ 0 INTR_CNT);
  let idtr_operand := make_idtr_operand (8 * INTR_CNT - 1) idt_addr in
  let unknown := foldl (λ m i, <[i := "unknown"]> m) (intr_names s1) (seqZ 0 INTR_CNT) in
  let names := foldl (λ m '(i, n), <[i := n]> m) unknown exception_names in
  Ret (pic_init, idtr_operand, s1 <| intr_names := names |>).

Definition intr_name (vec : Z) (s : idt_state H) : option string := intr_names s !! vec.
End registration.

(** ** Properties *)

(** A gate built by [make_gate] carries exactly its arguments in the bit fields
    the CPU reads: the two halves of the entry point, the code selector, the gate
    type, the privilege level and the present bit. *)
Theorem make_gate_fields (sel function dpl type : Z) :
  0 ≤ sel < 65536 → 0 < function < 4294967296 → 0 ≤ dpl ≤ 3 → 0 ≤ type ≤ 15 →
  ∃ g, make_gate sel function dpl type = Ret g ∧
    0 ≤ g < 18446744073709551616 ∧
    (g / 2 ^ 48) * 2 ^ 16 + g mod 2 ^ 16 = function ∧
    (g / 2 ^ 16) mod 2 ^ 16 = sel ∧
    (g / 2 ^ 40) mod 2 ^ 5 = type ∧
    (g / 2 ^ 45) mod 2 ^ 2 = dpl ∧
    (g / 2 ^ 47) mod 2 = 1 ∧
    (g / 2 ^ 32) mod 2 ^ 8 = 0.
Proof.
  intros Hs Hf Hd Ht. rewrite make_gate_value by done. eexists. split; [done|].
  change (2 ^ 48) with 281474976710656. change (2 ^ 40) with 1099511627776.
  change (2 ^ 45) with 35184372088832. change (2 ^ 47) with 140737488355328.
  change (2 ^ 32) with 4294967296. change (2 ^ 16) with 65536.
  change (2 ^ 5) with 32. change (2 ^ 2) with 4. change (2 ^ 8) with 256.
  split_and!; Z.to_euclidean_division_equations; lia.
Qed.

Lemma make_gate_fields_witness :
  ∃ g, make_gate 8 3221356544 3 15 = Ret g ∧
    0 ≤ g < 18446744073709551616 ∧
    (g / 2 ^ 48) * 2 ^ 16 + g mod 2 ^ 16 = 3221356544 ∧
    (g / 2 ^ 16) mod 2 ^ 16 = 8 ∧
    (g / 2 ^ 40) mod 2 ^ 5 = 15 ∧
    (g / 2 ^ 45) mod 2 ^ 2 = 3 ∧
    (g / 2 ^ 47) mod 2 = 1 ∧
    (g / 2 ^ 32) mod 2 ^ 8 = 0.
Proof. apply (make_gate_fields 8 3221356544 3 15); lia. Defined.
