(* ===== verification/Threads.v ===== *)
(** * Threads and priority donation
    (priority-scheduler/threads/thread.h, thread.c)

    The data of the scheduler (the [struct thread]s, the waiters of each lock,
    the run queue and the counters) and [get_priority], which computes the
    donated priority of a thread by walking the threads that wait for its
    locks.  Pointers to [struct thread] are page addresses in [Z]. *)
From S2P Require Import Prelude CInt FixedPoint Interrupt.
From stdpp Require Import strings relations.
Open Scope Z_scope.

(** ** Data *)

Inductive thread_status :=
  THREAD_RUNNING | THREAD_READY | THREAD_BLOCKED | THREAD_DYING.

#[export] Instance thread_status_eq_dec : EqDecision thread_status.
Proof. solve_decision. Defined.

Definition TID_ERROR : Z := -1.
Definition PRI_MIN : Z := 0.
Definition PRI_DEFAULT : Z := 31.
Definition PRI_MAX : Z := 63.
Definition NICE_MIN : Z := -20.
Definition NICE_DEFAULT : Z := 0.
Definition NICE_MAX : Z := 20.
Definition THREAD_MAGIC : Z := 3446325067.

(** [struct thread].  The list elements [all_elem], [elem], [asleep_elem] and
    [donors_elem] are represented by membership in the lists that link them;
    [held_locks] names the locks by identifier. *)
Record thread := Thread {
  tid : Z;
  status : thread_status;
  name : string;
  stack : Z;
  base_priority : Z;
  held_locks : list Z;
  priority : Z;
  nice : Z;
  recent_cpu : Z;
  wakeup_ticks : Z;
  magic : Z
}.
#[export] Instance eta_thread : Eta thread := λ t,
  Thread (tid t) (status t) (name t) (stack t) (base_priority t) (held_locks t)
    (priority t) (nice t) (recent_cpu t) (wakeup_ticks t) (magic t).

(** The state of the kernel: the live thread pages, the waiters of each lock's
    semaphore, the static variables of thread.c and timer.c, and the CPU.
    [running] is the page [running_thread] finds under the stack pointer;
    [resume_level] is, for every thread that is not running, the interrupt level
    the code after its pending [schedule ()] call establishes. *)
Record kern := Kern {
  threads : gmap Z thread;
  waiters : gmap Z (list Z);
  ready_list : list Z;
  all_list : list Z;
  idle_thread : option Z;
  initial_thread : Z;
  running : Z;
  next_tid : Z;
  load_avg : Z;
  thread_ticks : Z;
  idle_ticks : Z;
  kernel_ticks : Z;
  thread_mlfqs : bool;
  cpu : intr;
  resume_level : gmap Z intr_level;
  ticks : Z;
  asleep_list : list Z
}.
#[export] Instance eta_kern : Eta kern := λ k,
  Kern (threads k) (waiters k) (ready_list k) (all_list k) (idle_thread k)
    (initial_thread k) (running k) (next_tid k) (load_avg k) (thread_ticks k)
    (idle_ticks k) (kernel_ticks k) (thread_mlfqs k) (cpu k) (resume_level k)
    (ticks k) (asleep_list k).

(** [t->field]: a panic when [t] is not the page of a thread. *)
Definition thread_at (k : kern) (t : Z) : outcome thread := deref (threads k !! t).

(** [t->field = ...] *)
Definition upd_thread (t : Z) (g : thread → thread) (k : kern) : kern :=
  k <| threads := alter g t (threads k) |>.

Definition running_thread (k : kern) : Z := running k.

Definition is_thread (k : kern) (t : option Z) : bool :=
  match t with
  | None => false
  | Some p => match threads k !! p with
              | Some th => magic th =? THREAD_MAGIC
              | None => false
              end
  end.

Definition thread_current (k : kern) : outcome Z :=
  let t := running_thread k in
  ASSERT (is_thread k (Some t));;
  th ← thread_at k t;
  ASSERT (bool_decide (status th = THREAD_RUNNING));;
  Ret t.

Definition thread_tid (k : kern) : outcome Z :=
  t ← thread_current k; th ← thread_at k t; Ret (tid th).

Definition thread_name (k : kern) : outcome string :=
  t ← thread_current k; th ← thread_at k t; Ret (name th).

(** ** Donated priority *)

(** Waiters of a lock's semaphore. *)
Definition lock_waiters (k : kern) (l : Z) : list Z := default [] (waiters k !! l).

(** The threads that wait directly for a lock held by [th]. *)
Definition direct_donors (k : kern) (th : thread) : list Z :=
  held_locks th ≫= lock_waiters k.

(** [list_push_front (&donors, &waiter->donors_elem)] for each waiter in turn.
    Linking an element that is already linked would corrupt the list; the
    model panics, and [get_priority_correct] excludes it. *)
Fixpoint push_donors (ws donors : list Z) : outcome (list Z) :=
  match ws with
  | [] => Ret donors
  | w :: ws' =>
      ASSERT (bool_decide (w ∉ donors));;
      push_donors ws' (w :: donors)
  end.

(** The [while (!list_empty (&donors))] loop of [get_priority]. *)
Fixpoint donors_loop (fuel : nat) (k : kern) (donors : list Z) (max_priority : Z) : outcome Z :=
  match fuel with
  | O => Stuck
  | S fuel' =>
      match donors with
      | [] => Ret max_priority
      | t :: rest =>
          th ← thread_at k t;
          let max_priority' :=
            if max_priority <? base_priority th then base_priority th else max_priority in
          donors' ← push_donors (direct_donors k th) rest;
          donors_loop fuel' k donors' max_priority'
      end
  end.

(** Fuel for [get_priority]: every thread is popped at most once. *)
Definition donors_fuel (k : kern) : nat := S (size (threads k)).

Definition get_priority (k : kern) (t : Z) : outcome Z :=
  if thread_mlfqs k then
    th ← thread_at k t; Ret (priority th)
  else
    donors_loop (donors_fuel k) k [t] PRI_MIN.

(** [lower_priority], the comparison given to the list library: where
    [get_priority] returns, it compares the two results. *)
Definition priority_key (k : kern) (t : Z) : Z :=
  match get_priority k t with Ret p => p | _ => PRI_MIN end.

Definition lower_priority (k : kern) (t1 t2 : Z) : bool :=
  priority_key k t1 <? priority_key k t2.

Definition thread_get_priority (k : kern) : outcome Z :=
  t ← thread_current k; get_priority k t.

(** ** The wait graph *)

(** [u] waits for a lock that [t] holds. *)
Definition donates (k : kern) (t u : Z) : Prop :=
  ∃ th, threads k !! t = Some th ∧ u ∈ direct_donors k th.

(** The wait graph is well formed: waiters are live threads, no thread waits
    twice (a thread sleeps on one semaphore, and a lock has one holder), and
    there is no deadlock: no thread waits, transitively, for itself. *)
Record wait_graph_wf (k : kern) : Prop := {
  wg_live : ∀ t u, donates k t u → is_Some (threads k !! u);
  wg_nodup : ∀ t th, threads k !! t = Some th → NoDup (direct_donors k th);
  wg_single : ∀ t1 t2 u, donates k t1 u → donates k t2 u → t1 = t2;
  wg_acyclic : ∀ t, ¬ tc (donates k) t t
}.

(** [p] is the highest base priority among [t] and the threads waiting for it,
    directly or through other waiters. *)
Definition effective_priority (k : kern) (t p : Z) : Prop :=
  (∀ u uth, rtc (donates k) t u → threads k !! u = Some uth → base_priority uth ≤ p) ∧
  (∃ u uth, rtc (donates k) t u ∧ threads k !! u = Some uth ∧ base_priority uth = p).

Lemma push_donors_Ret (ws donors : list Z) :
  NoDup ws → ws ## donors → push_donors ws donors = Ret (reverse ws ++ donors).
Proof.
  revert donors. induction ws as [|w ws IH]; intros donors Hnd Hdisj; [done|].
  apply NoDup_cons in Hnd as [Hw Hnd]. simpl.
  rewrite bool_decide_eq_true_2 by set_solver. simpl.
  rewrite IH by set_solver. by rewrite reverse_cons, <- app_assoc.
Qed.

(** Invariant of the walk from [root] between pops: [popped] have been handled,
    [donors] is the work list. *)
Record walk_inv (k : kern) (root : Z) (popped donors : list Z) : Prop := {
  wi_nodup : NoDup (popped ++ donors);
  wi_reach : ∀ u, u ∈ popped ++ donors → rtc (donates k) root u;
  wi_live : ∀ u, u ∈ popped ++ donors → is_Some (threads k !! u);
  wi_parent : ∀ u, u ∈ popped ++ donors → u = root ∨ ∃ t, t ∈ popped ∧ donates k t u;
  wi_closed : ∀ t u, t ∈ popped → donates k t u → u ∈ popped ++ donors;
  wi_root : root ∈ popped ++ donors
}.

Lemma walk_inv_init k root :
  is_Some (threads k !! root) → walk_inv k root [] [root].
Proof.
  intros Hl. split; simpl.
  - apply NoDup_singleton.
  - intros u ->%list_elem_of_singleton. apply rtc_refl.
  - by intros u ->%list_elem_of_singleton.
  - intros u ->%list_elem_of_singleton. by left.
  - by intros t u ?%not_elem_of_nil.
  - by apply list_elem_of_singleton.
Qed.

(** A thread's donors are new to the walk when the thread is popped. *)
Lemma walk_inv_fresh k root popped t rest u :
  wait_graph_wf k → walk_inv k root popped (t :: rest) →
  donates k t u → u ∉ popped ++ t :: rest.
Proof.
  intros Hwf Hinv Hd Hu. destruct (wi_parent _ _ _ _ Hinv u Hu) as [-> | (t' & Ht' & Hd')].
  - pose proof (wi_reach _ _ _ _ Hinv t ltac:(set_solver)) as Hr.
    apply (wg_acyclic k Hwf root). eapply tc_rtc_l; [done|]. by apply tc_once.
  - rewrite (wg_single k Hwf t' t u Hd' Hd) in Ht'.
    pose proof (wi_nodup _ _ _ _ Hinv) as Hnd. apply NoDup_app in Hnd as (_ & Hnd & _).
    apply (Hnd t Ht'). set_solver.
Qed.

Lemma walk_inv_step k root popped t th rest :
  wait_graph_wf k → walk_inv k root popped (t :: rest) → threads k !! t = Some th →
  walk_inv k root (popped ++ [t]) (reverse (direct_donors k th) ++ rest).
Proof.
  intros Hwf Hinv Ht. set (ds := direct_donors k th).
  assert (∀ u, u ∈ ds ↔ donates k t u) as Hds.
  { intros u. unfold donates. rewrite Ht. naive_solver. }
  pose proof (walk_inv_fresh k root popped t rest) as Hfresh.
  assert (∀ u, u ∈ (popped ++ [t]) ++ reverse ds ++ rest ↔
               u ∈ popped ++ t :: rest ∨ u ∈ ds) as Hel.
  { intros u. rewrite !elem_of_app, elem_of_reverse. set_solver. }
  destruct Hinv as [Hnd Hreach Hlive Hpar Hcl Hroot]. split.
  - assert ((popped ++ [t]) ++ reverse ds ++ rest ≡ₚ reverse ds ++ popped ++ t :: rest) as ->
      by solve_Permutation.
    apply NoDup_app. split_and!; [|intros u Hu; apply Hfresh|done].
    + rewrite reverse_Permutation. by eapply wg_nodup.
    + done.
    + by split.
    + apply Hds. by apply elem_of_reverse.
  - intros u [Hu|Hu]%Hel; [by apply Hreach|].
    eapply rtc_r; [apply Hreach|by apply Hds]. set_solver.
  - intros u [Hu|Hu]%Hel; [by apply Hlive|]. by eapply wg_live, Hds.
  - intros u [Hu|Hu]%Hel.
    + destruct (Hpar u Hu) as [-> | (t' & ? & ?)]; [by left|right; exists t'; set_solver].
    + right. exists t. split; [set_solver|by apply Hds].
  - intros t' u Ht' Hd. apply Hel. apply elem_of_app in Ht' as [? | ->%list_elem_of_singleton].
    + left. by eapply Hcl.
    + right. by apply Hds.
  - apply Hel. by left.
Qed.

Lemma walk_inv_length k root popped donors :
  walk_inv k root popped donors → (length popped ≤ size (threads k))%nat.
Proof.
  intros Hinv. transitivity (length (map_to_list (threads k)).*1).
  - apply submseteq_length, NoDup_submseteq.
    + by apply wi_nodup, NoDup_app in Hinv as [? _].
    + intros u Hu. destruct (wi_live _ _ _ _ Hinv u) as [uth Hth]; [set_solver|].
      apply list_elem_of_fmap. exists (u, uth). split; [done|].
      by apply elem_of_map_to_list.
  - rewrite length_fmap, length_map_to_list. done.
Qed.

(** When the work list is empty, exactly the threads that donate to [root],
    directly or not, have been visited. *)
Lemma walk_inv_done k root popped u :
  walk_inv k root popped [] → rtc (donates k) root u ↔ u ∈ popped.
Proof.
  intros Hinv. split.
  - intros Hr. pose proof (wi_root _ _ _ _ Hinv) as Hroot. rewrite app_nil_r in Hroot.
    revert u Hr. apply (rtc_ind_r (λ u, u ∈ popped)); [done|].
    intros y z _ Hyz IH. pose proof (wi_closed _ _ _ _ Hinv y z IH Hyz) as H.
    by rewrite app_nil_r in H.
  - intros Hu. apply (wi_reach _ _ _ _ Hinv). by rewrite app_nil_r.
Qed.

(** The walk terminates within its fuel, never links a thread twice, and
    returns the maximum of [m] and the base priorities of the threads it pops. *)
Lemma donors_loop_correct fuel k root popped donors m :
  wait_graph_wf k → walk_inv k root popped donors →
  (S (size (threads k)) ≤ length popped + fuel)%nat →
  ∃ p popped', donors_loop fuel k donors m = Ret p ∧
    walk_inv k root popped' [] ∧ m ≤ p ∧
    (∀ u uth, u ∈ popped' → u ∉ popped → threads k !! u = Some uth → base_priority uth ≤ p) ∧
    (p = m ∨ ∃ u uth, u ∈ popped' ∧ threads k !! u = Some uth ∧ base_priority uth = p).
Proof.
  intros Hwf. revert popped donors m.
  induction fuel as [|fuel IH]; intros popped donors m Hinv Hfuel.
  { pose proof (walk_inv_length k root popped donors Hinv). lia. }
  simpl. destruct donors as [|t rest].
  { exists m, popped. split_and!; [done|done|done|naive_solver|by left]. }
  destruct (wi_live _ _ _ _ Hinv t) as [th Ht]; [set_solver|].
  unfold thread_at. rewrite Ht. simpl.
  rewrite push_donors_Ret; simpl.
  2: { by eapply wg_nodup. }
  2: { intros u Hu Hr. eapply (walk_inv_fresh k root popped t rest u); [done..| |set_solver].
       by exists th. }
  set (m' := if m <? base_priority th then base_priority th else m).
  assert (m ≤ m' ∧ base_priority th ≤ m' ∧ (m' = m ∨ m' = base_priority th)) as (Hm1 & Hm2 & Hm3)
    by (unfold m'; bool_lia).
  destruct (IH (popped ++ [t]) (reverse (direct_donors k th) ++ rest) m')
    as (p & popped' & Heq & Hinv' & Hmp & Hub & Hex).
  { by apply walk_inv_step. }
  { rewrite length_app. simpl. lia. }
  assert (t ∈ popped') as Htp.
  { apply (walk_inv_done k root popped' t Hinv'). apply (wi_reach _ _ _ _ Hinv). set_solver. }
  exists p, popped'. split_and!; [done|done|lia| |].
  - intros u uth Hu Hnu Huth. destruct (decide (u = t)) as [->|Hne]; [naive_solver lia|].
    apply (Hub u uth); [done| |done]. set_solver.
  - destruct Hex as [->|Hex]; [|by right]. destruct Hm3 as [Hm3|Hm3]; [by left|].
    right. exists t, th. done.
Qed.

(** The maximum found over the visited threads is the effective priority. *)
Lemma walk_max k t th p popped :
  threads k !! t = Some th → PRI_MIN ≤ base_priority th →
  walk_inv k t popped [] → PRI_MIN ≤ p →
  (∀ u uth, u ∈ popped → u ∉ ([] : list Z) → threads k !! u = Some uth → base_priority uth ≤ p) →
  (p = PRI_MIN ∨ ∃ u uth, u ∈ popped ∧ threads k !! u = Some uth ∧ base_priority uth = p) →
  effective_priority k t p.
Proof.
  intros Ht Hmin Hinv Hle Hub Hex.
  assert (∀ u uth, rtc (donates k) t u → threads k !! u = Some uth → base_priority uth ≤ p) as Hall.
  { intros u uth Hu%(walk_inv_done k t popped u Hinv). apply Hub; [done|set_solver]. }
  split; [done|]. destruct Hex as [->|(u & uth & Hu & ? & ?)].
  - exists t, th. split; [apply rtc_refl|]. split; [done|].
    pose proof (Hall t th (rtc_refl _ _) Ht). lia.
  - exists u, uth. split; [|done]. by apply (walk_inv_done k t popped u Hinv).
Qed.

(** The donation walk from [t] ends with the effective priority of [t]. *)
Lemma donors_loop_effective k t th :
  wait_graph_wf k → threads k !! t = Some th → PRI_MIN ≤ base_priority th →
  ∃ p, donors_loop (donors_fuel k) k [t] PRI_MIN = Ret p ∧ effective_priority k t p.
Proof.
  intros Hwf Ht Hmin.
  destruct (donors_loop_correct (donors_fuel k) k t [] [t] PRI_MIN Hwf)
    as (p & popped & Heq & Hinv & Hle & Hub & Hex).
  { apply walk_inv_init. by eexists. }
  { simpl. unfold donors_fuel. lia. }
  exists p. split; [done|]. by eapply walk_max.
Qed.

(** ** Properties *)

(** C14. [get_priority] terminates on every deadlock-free wait graph, with the fuel
    of the model, without ever linking a thread twice on its work list, and
    returns the highest base priority among the thread and all threads that
    wait for it directly or transitively (nested priority donation). *)
Theorem get_priority_correct (k : kern) (t : Z) (th : thread) :
  thread_mlfqs k = false → wait_graph_wf k →
  threads k !! t = Some th → PRI_MIN ≤ base_priority th →
  ∃ p, get_priority k t = Ret p ∧ effective_priority k t p.
Proof.
  intros Hm Hwf Ht Hmin. unfold get_priority. rewrite Hm. by eapply donors_loop_effective.
Qed.

(** Deadlock-free graphs from a rank: every donor has a smaller rank than the
    thread it waits for. *)
Lemma acyclic_by_rank (k : kern) (rank : Z → Z) :
  (∀ t u, donates k t u → rank u < rank t) → ∀ t, ¬ tc (donates k) t t.
Proof.
  intros Hr t Ht.
  assert (∀ x y, tc (donates k) x y → rank y < rank x) as H.
  { induction 1 as [x y Hxy|x y z Hxy _ IH]; [by apply Hr|].
    specialize (Hr x y Hxy). lia. }
  specialize (H t t Ht). lia.
Qed.

(** A decidable criterion for [wait_graph_wf]. *)
Lemma wait_graph_wf_check (k : kern) (rank : Z → Z) :
  map_Forall (λ t th, NoDup (direct_donors k th) ∧
    Forall (λ u, is_Some (threads k !! u) ∧ rank u < rank t) (direct_donors k th)) (threads k) →
  map_Forall (λ t1 th1, map_Forall (λ t2 th2,
    Forall (λ u, u ∈ direct_donors k th2 → t1 = t2) (direct_donors k th1)) (threads k)) (threads k) →
  wait_graph_wf k.
Proof.
  intros H1 H2. split.
  - intros t u (th & Ht & Hu). destruct (H1 t th Ht) as [_ HF].
    rewrite Forall_forall in HF. by destruct (HF u Hu).
  - intros t th Ht. by destruct (H1 t th Ht).
  - intros t1 t2 u (th1 & Ht1 & Hu1) (th2 & Ht2 & Hu2). specialize (H2 t1 th1 Ht1 t2 th2 Ht2).
    simpl in H2. rewrite Forall_forall in H2. by apply (H2 u).
  - apply (acyclic_by_rank k rank). intros t u (th & Ht & Hu).
    destruct (H1 t th Ht) as [_ HF]. rewrite Forall_forall in HF. by destruct (HF u Hu).
Qed.

(** ** A sample kernel

    [main] (page 4096, priority 31) runs and holds lock 1; [high] (12288,
    priority 50) waits for it and itself holds lock 2, for which [top] (20480,
    priority 60) waits; [mid] (16384, priority 40) is ready; [idle] is 8192. *)
Module Sample.
Definition mk (i : Z) (s : thread_status) (nm : string) (p : Z) (locks : list Z) : thread :=
  Thread i s nm 0 p locks p 0 0 0 THREAD_MAGIC.

Definition kernel : kern := Kern
  (list_to_map [(4096, mk 1 THREAD_RUNNING "main" 31 [1]);
                (8192, mk 2 THREAD_BLOCKED "idle" 0 []);
                (12288, mk 3 THREAD_BLOCKED "high" 50 [2]);
                (16384, mk 4 THREAD_READY "mid" 40 []);
                (20480, mk 5 THREAD_BLOCKED "top" 60 [])])
  (list_to_map [(1, [12288]); (2, [20480])])
  [16384] [4096; 8192; 12288; 16384; 20480] (Some 8192) 4096 4096 6 0 0 0 0 false
  (Intr INTR_ON false false) (list_to_map [(16384, INTR_ON); (8192, INTR_ON)]) 0 [].

Definition rank (t : Z) : Z := - t.

Lemma kernel_graph : wait_graph_wf kernel.
Proof.
  apply (wait_graph_wf_check kernel rank);
    apply (bool_decide_unpack _); vm_compute; exact I.
Qed.

Lemma kernel_min u uth : threads kernel !! u = Some uth → PRI_MIN ≤ base_priority uth.
Proof.
  apply (map_Forall_lookup_1 (λ _ th, PRI_MIN ≤ base_priority th)).
  apply (bool_decide_unpack _). vm_compute. exact I.
Qed.

Example nested_donation : get_priority kernel 4096 = Ret 60.
Proof. vm_compute. reflexivity. Qed.
End Sample.

Lemma get_priority_correct_witness :
  ∃ p, get_priority Sample.kernel 4096 = Ret p ∧ effective_priority Sample.kernel 4096 p.
Proof.
  apply (get_priority_correct Sample.kernel 4096 (Sample.mk 1 THREAD_RUNNING "main" 31 [1])).
  - reflexivity.
  - exact Sample.kernel_graph.
  - vm_compute. reflexivity.
  - vm_compute. discriminate.
Defined.
