(* ===== verification/Mlfqs.v ===== *)
(** * Multi-level feedback queue accounting
    (priority-scheduler/threads/thread.c, the [thread_mlfqs] half)

    The system load average, each thread's recent CPU time and the priority
    computed from it, in the 17.14 fixed-point format of FixedPoint.v. *)
From S2P Require Import Prelude CInt FixedPoint Interrupt Threads.
From stdpp Require Import strings.
Open Scope Z_scope.

Definition LOAD_AVG_Q : Z := 14.
Definition RECENT_CPU_Q : Z := 14.
Definition LOAD_AVG_INIT : Z := 0.
Definition RECENT_CPU_DEFAULT : Z := 0.

(** [thread_foreach (func, aux)]: [func] on every thread of [all_list]. *)
Definition thread_foreach (func : thread → outcome thread) (k : kern) : outcome kern :=
  ASSERT (bool_decide (intr_get_level (cpu k) = INTR_OFF));;
  foldl (λ mk e, k ← mk; th ← thread_at k e; th' ← func th; Ret (upd_thread e (λ _, th') k))
    (Ret k) (all_list k).

Definition update_load_avg (k : kern) : outcome kern :=
  cur ← thread_current k;
  let ready_threads :=
    Z.of_nat (length (ready_list k)) +
    (if bool_decide (Some cur = idle_thread k) then 0 else 1) in
  c ← fxp_idivi LOAD_AVG_Q 59 60;
  decayed ← fxp_mul LOAD_AVG_Q c (load_avg k);
  ready ← fxp_idivi LOAD_AVG_Q ready_threads 60;
  Ret (k <| load_avg := fxp_add decayed ready |>).

Definition update_recent_cpu (load : Z) (t : thread) : outcome thread :=
  d ← fxp_div LOAD_AVG_Q (fxp_muli load 2) (fxp_addi LOAD_AVG_Q (fxp_muli load 2) 1);
  coef ← fxp_reformat LOAD_AVG_Q RECENT_CPU_Q d;
  m ← fxp_mul RECENT_CPU_Q coef (recent_cpu t);
  Ret (t <| recent_cpu := fxp_addi RECENT_CPU_Q m (nice t) |>).

Definition update_priority (t : thread) : outcome thread :=
  quarter ← fxp_divi (recent_cpu t) 4;
  p ← fxp_trunc RECENT_CPU_Q
        (fxp_subi RECENT_CPU_Q (fxp_isub RECENT_CPU_Q PRI_MAX quarter) (s32 (nice t * 2)));
  Ret (t <| priority := if p <? PRI_MIN then PRI_MIN
                        else if PRI_MAX <? p then PRI_MAX else p |>).

Definition thread_get_nice (k : kern) : outcome Z :=
  t ← thread_current k; th ← thread_at k t; Ret (nice th).

Definition thread_get_load_avg (k : kern) : outcome Z :=
  fxp_round RECENT_CPU_Q (fxp_muli (load_avg k) 100).

Definition thread_get_recent_cpu (k : kern) : outcome Z :=
  t ← thread_current k; th ← thread_at k t;
  fxp_round RECENT_CPU_Q (fxp_muli (recent_cpu th) 100).

(** ** Lemmas *)

Lemma f14 : f 14 = 16384.
Proof. reflexivity. Qed.

Lemma load_weight : fxp_idivi LOAD_AVG_Q 59 60 = Ret 16110.
Proof. reflexivity. Qed.

(** The new load average, when nothing overflows. *)
Lemma load_avg_step (load ready : Z) :
  0 ≤ load < 2147483648 - 35800000 → 0 ≤ ready ≤ 131071 →
  fxp_mul LOAD_AVG_Q 16110 load = Ret (16110 * load / 16384) ∧
  fxp_idivi LOAD_AVG_Q ready 60 = Ret (ready * 16384 / 60) ∧
  fxp_add (16110 * load / 16384) (ready * 16384 / 60)
    = 16110 * load / 16384 + ready * 16384 / 60.
Proof.
  intros Hl Hr. unfold fxp_mul, fxp_idivi, fxp_add, LOAD_AVG_Q. rewrite f14.
  assert (0 ≤ 16110 * load / 16384 ≤ load) by (Z.to_euclidean_division_equations; lia).
  assert (0 ≤ ready * 16384 / 60 < 35800000) by (Z.to_euclidean_division_equations; lia).
  unwrap. rewrite !sdiv64_pos by lia. rewrite !Z.quot_div_nonneg by lia. simpl.
  by unwrap.
Qed.

(** While at most [n] threads are ready or running, the average stays in [0..n]. *)
Lemma update_load_avg_ret (k : kern) (n cur : Z) :
  1 ≤ n ≤ 1310 → thread_current k = Ret cur →
  Z.of_nat (length (ready_list k)) < n → 0 ≤ load_avg k ≤ n * 16384 →
  ∃ l, update_load_avg k = Ret (k <| load_avg := l |>) ∧ 0 ≤ l ≤ n * 16384.
Proof.
  intros Hn Hcur Hlen Hl. unfold update_load_avg. rewrite Hcur. ret.
  set (r := Z.of_nat (length (ready_list k)) + _).
  assert (0 ≤ r ≤ n) as Hr by (unfold r; case_bool_decide; lia). clearbody r.
  rewrite load_weight. ret.
  destruct (load_avg_step (load_avg k) r) as (-> & H2 & H3); [lia..|]. ret.
  rewrite H2. ret. rewrite H3. eexists. split; [done|].
  Z.to_euclidean_division_equations; lia.
Qed.

(** The coefficient of [update_recent_cpu] has a positive denominator. *)
Lemma update_recent_cpu_ret (load : Z) (t : thread) :
  0 ≤ load ≤ 1310 * 16384 →
  ∃ c, update_recent_cpu load t = Ret (t <| recent_cpu := c |>).
Proof.
  intros Hl. unfold update_recent_cpu, fxp_div, fxp_reformat, fxp_mul, fxp_addi, fxp_muli,
    LOAD_AVG_Q, RECENT_CPU_Q. rewrite f14. unwrap.
  rewrite sdiv64_pos by lia. ret. rewrite sdiv64_pos by lia. ret.
  rewrite sdiv64_pos by lia. ret. by eexists.
Qed.

(** ** Properties *)

(** C36. The load average is an average: while at most [n] threads are ever ready or
    running, it stays between 0 and [n] (in 17.14 fixed point), so that for
    [n] up to 1310 neither the update nor [thread_get_load_avg] overflows. *)
Theorem update_load_avg_bounded (k : kern) (n cur : Z) :
  1 ≤ n ≤ 1310 → thread_current k = Ret cur →
  Z.of_nat (length (ready_list k)) < n →
  0 ≤ load_avg k ≤ n * 16384 →
  ∃ k' p, update_load_avg k = Ret k' ∧ 0 ≤ load_avg k' ≤ n * 16384 ∧
    k' = (k <| load_avg := load_avg k' |>) ∧
    thread_get_load_avg k' = Ret p ∧ Z.abs (p * 16384 - load_avg k' * 100) ≤ 8192.
Proof.
  intros Hn Hcur Hlen Hl.
  destruct (update_load_avg_ret k n cur) as (l & -> & Hl'); [done..|].
  eexists _, _. split; [done|]. simpl. split; [done|]. split; [done|].
  unfold thread_get_load_avg, RECENT_CPU_Q, fxp_muli. simpl. unwrap.
  rewrite fxp_round_eq by lia. split; [done|].
  unfold round_half_away. rewrite f14, (Z.abs_eq (l * 100)) by lia.
  destruct (Z.eq_dec l 0) as [->|]; [done|]. rewrite Z.sgn_pos by lia.
  Z.to_euclidean_division_equations; lia.
Qed.

(** The MLFQS priority of a thread whose nice value is legal is always a legal
    priority; when the recent CPU time is in range it is [PRI_MAX] minus a
    quarter of the recent CPU time, minus twice the nice value, truncated and
    clamped. *)
Theorem update_priority_correct (t : thread) :
  NICE_MIN ≤ nice t ≤ NICE_MAX → in_s32 (recent_cpu t) →
  ∃ t', update_priority t = Ret t' ∧ PRI_MIN ≤ priority t' ≤ PRI_MAX ∧
    t' = (t <| priority := priority t' |>) ∧
    priority t' = Z.max PRI_MIN (Z.min PRI_MAX
      (Z.quot ((PRI_MAX - 2 * nice t) * 2 ^ 14 - Z.quot (recent_cpu t) 4) (2 ^ 14))).
Proof.
  unfold NICE_MIN, NICE_MAX, PRI_MIN, PRI_MAX, in_s32. intros Hn Hr.
  unfold update_priority, fxp_divi, fxp_trunc, fxp_subi, fxp_isub, RECENT_CPU_Q, PRI_MAX, PRI_MIN.
  rewrite f14, (sdiv32_pos (recent_cpu t)) by lia. ret.
  destruct (quot_spec_pos (recent_cpu t) 4) as [Hq1 Hq2]; [lia|].
  set (q := Z.quot (recent_cpu t) 4) in *.
  unwrap. rewrite sdiv32_pos by lia. ret.
  change (2 ^ 14) with 16384.
  replace (63 * 16384 - q - nice t * 2 * 16384) with ((63 - 2 * nice t) * 16384 - q) by lia.
  eexists. split; [done|]. cbn. split; [bool_lia|]. split; [done|]. bool_lia.
Qed.

(** One tick of accounting adds a single unit in the last place to the running
    thread's [recent_cpu] (see [thread_tick]); reported by
    [thread_get_recent_cpu] it is invisible for 81 ticks from zero. *)
Definition tick_recent_cpu (t : thread) : thread := t <| recent_cpu := s32 (recent_cpu t + 1) |>.

(** [update_priority] only writes the priority, and never traps. *)
Lemma update_priority_ret (t : thread) : ∃ p, update_priority t = Ret (t <| priority := p |>).
Proof.
  unfold update_priority, fxp_divi, fxp_trunc, RECENT_CPU_Q. rewrite f14.
  rewrite sdiv32_pos by lia. ret. rewrite sdiv32_pos by lia. ret. by eexists.
Qed.

(** ** The hypotheses can hold *)

Lemma update_load_avg_bounded_witness :
  ∃ k' p, update_load_avg Sample.kernel = Ret k' ∧ 0 ≤ load_avg k' ≤ 3 * 16384 ∧
    k' = (Sample.kernel <| load_avg := load_avg k' |>) ∧
    thread_get_load_avg k' = Ret p ∧ Z.abs (p * 16384 - load_avg k' * 100) ≤ 8192.
Proof.
  apply (update_load_avg_bounded Sample.kernel 3 4096).
  - lia.
  - reflexivity.
  - reflexivity.
  - vm_compute. split; discriminate.
Defined.

Lemma update_priority_correct_witness :
  ∃ t', update_priority (Sample.mk 1 THREAD_RUNNING "main" 31 []) = Ret t' ∧
    PRI_MIN ≤ priority t' ≤ PRI_MAX ∧
    t' = ((Sample.mk 1 THREAD_RUNNING "main" 31 []) <| priority := priority t' |>) ∧
    priority t' = Z.max PRI_MIN (Z.min PRI_MAX
      (Z.quot ((PRI_MAX - 2 * 0) * 2 ^ 14 - Z.quot 0 4) (2 ^ 14))).
Proof.
  apply (update_priority_correct (Sample.mk 1 THREAD_RUNNING "main" 31 [])).
  - vm_compute. split; discriminate.
  - vm_compute. split; congruence.
Defined.
