(* ===== verification/Scheduler.v ===== *)
(** * The scheduler (priority-scheduler/threads/thread.c)

    Thread creation, blocking, unblocking, yielding, exit and the context
    switch, as functions on the kernel state of Threads.v.  A C function that
    calls [schedule ()] is modelled up to the point where the next thread runs:
    its result is the state in which [running] is that thread, with the
    interrupt level that thread restores ([finish_switch]).  The tid lock is
    not modelled ([allocate_tid] is atomic), nor are the contents of the three
    stack frames of [thread_create]. *)
From S2P Require Import Prelude CInt Ext FixedPoint Interrupt Threads Mlfqs.
From stdpp Require Import strings relations.
Open Scope Z_scope.

Definition TIME_SLICE : Z := 4.
Definition TIMER_FREQ : Z := 100.
Definition PGSIZE : Z := 4096.

(** [old_level = intr_disable (); ...; intr_set_level (old_level);] *)
Definition with_intr_off (body : kern → outcome kern) (k : kern) : outcome kern :=
  let '(old_level, i) := intr_disable (cpu k) in
  k1 ← body (k <| cpu := i |>);
  '(_, i') ← intr_set_level old_level (cpu k1);
  Ret (k1 <| cpu := i' |>).

Section scheduler.
Context `{KernelList}.

(** ** Choosing and switching to the next thread *)

Definition next_thread_to_run (k : kern) : outcome (option Z * kern) :=
  match ready_list k with
  | [] => Ret (idle_thread k, k)
  | _ =>
      '(t, rest) ← deref (list_pop_max (lower_priority k) (ready_list k));
      Ret (Some t, k <| ready_list := rest |>)
  end.

Definition thread_schedule_tail (prev : option Z) (k : kern) : outcome kern :=
  let cur := running_thread k in
  ASSERT (bool_decide (intr_get_level (cpu k) = INTR_OFF));;
  let k1 := upd_thread cur (λ t, t <| status := THREAD_RUNNING |>) k in
  let k2 := k1 <| thread_ticks := 0 |> in
  match prev with
  | None => Ret k2
  | Some p =>
      pth ← thread_at k2 p;
      if bool_decide (status pth = THREAD_DYING) && negb (p =? initial_thread k2) then
        ASSERT (negb (p =? cur));;
        Ret (k2 <| threads := delete p (threads k2) |>)
      else Ret k2
  end.

Definition schedule (k : kern) : outcome kern :=
  let cur := running_thread k in
  '(next, k1) ← next_thread_to_run k;
  ASSERT (bool_decide (intr_get_level (cpu k1) = INTR_OFF));;
  cth ← thread_at k1 cur;
  ASSERT (bool_decide (status cth ≠ THREAD_RUNNING));;
  ASSERT (is_thread k1 next);;
  n ← deref next;
  if negb (cur =? n) then thread_schedule_tail (Some cur) (k1 <| running := n |>)
  else thread_schedule_tail None k1.

(** What the thread now running does after its own call of [schedule]. *)
Definition finish_switch (k : kern) : outcome kern :=
  '(_, i) ← intr_set_level (default INTR_OFF (resume_level k !! running k)) (cpu k);
  Ret (k <| cpu := i |> <| resume_level := delete (running k) (resume_level k) |>).

(** ** Blocking, waking, yielding, exiting *)

(** [resume] is the level the caller sets after [thread_block] returns. *)
Definition thread_block (resume : intr_level) (k : kern) : outcome kern :=
  ASSERT (negb (intr_context (cpu k)));;
  ASSERT (bool_decide (intr_get_level (cpu k) = INTR_OFF));;
  cur ← thread_current k;
  let k1 := upd_thread cur (λ t, t <| status := THREAD_BLOCKED |>) k in
  k2 ← schedule (k1 <| resume_level := <[cur := resume]> (resume_level k1) |>);
  finish_switch k2.

Definition thread_unblock (t : Z) (k : kern) : outcome kern :=
  ASSERT (is_thread k (Some t));;
  with_intr_off (λ k,
    th ← thread_at k t;
    ASSERT (bool_decide (status th = THREAD_BLOCKED));;
    let k1 := k <| ready_list := ready_list k ++ [t] |> in
    Ret (upd_thread t (λ th, th <| status := THREAD_READY |>) k1)) k.

Definition thread_yield (k : kern) : outcome kern :=
  cur ← thread_current k;
  ASSERT (negb (intr_context (cpu k)));;
  let '(old_level, i) := intr_disable (cpu k) in
  let k1 := k <| cpu := i |> in
  let k2 := if bool_decide (Some cur = idle_thread k1) then k1
            else k1 <| ready_list := ready_list k1 ++ [cur] |> in
  let k3 := upd_thread cur (λ t, t <| status := THREAD_READY |>) k2 in
  k4 ← schedule (k3 <| resume_level := <[cur := old_level]> (resume_level k3) |>);
  finish_switch k4.

Definition thread_exit (k : kern) : outcome kern :=
  ASSERT (negb (intr_context (cpu k)));;
  cur ← thread_current k;
  cth ← thread_at k cur;
  ASSERT (bool_decide (held_locks cth = []));;
  let '(_, i) := intr_disable (cpu k) in
  let k1 := k <| cpu := i |> in
  let k2 := k1 <| all_list := list_remove cur (all_list k1) |> in
  k3 ← schedule (upd_thread cur (λ t, t <| status := THREAD_DYING |>) k2);
  finish_switch k3.

(** ** Creation *)

Definition init_thread (t : Z) (nm : string) (prio nc rcpu : Z) (k : kern) : outcome kern :=
  ASSERT ((PRI_MIN <=? prio) && (prio <=? PRI_MAX));;
  th ← update_priority (Thread 0 THREAD_BLOCKED (String.substring 0 15 nm)
         (u32 (t + PGSIZE)) prio [] 0 nc rcpu 0 THREAD_MAGIC);
  with_intr_off (λ k, Ret (k <| all_list := all_list k ++ [t] |>))
    (k <| threads := <[t := th]> (threads k) |>).

Definition allocate_tid (k : kern) : Z * kern :=
  (next_tid k, k <| next_tid := s32 (next_tid k + 1) |>).

Definition alloc_frame (t size : Z) (k : kern) : outcome kern :=
  ASSERT (is_thread k (Some t));;
  ASSERT (size mod 4 =? 0);;
  Ret (upd_thread t (λ th, th <| stack := u32 (stack th - size) |>) k).

(** Sizes of the frames; the last two structures are declared in
    [threads/switch.h]. *)
Variables sizeof_switch_entry_frame sizeof_switch_threads_frame : Z.
Definition sizeof_kernel_thread_frame : Z := 12.

(** [page] is what [palloc_get_page (PAL_ZERO)] returned. *)
Definition thread_create (nm : string) (prio : Z) (page : option Z) (k : kern)
    : outcome (Z * kern) :=
  match page with
  | None => Ret (TID_ERROR, k)
  | Some t =>
      cur ← thread_current k;
      cth ← thread_at k cur;
      k1 ← init_thread t nm prio (nice cth) (recent_cpu cth) k;
      let '(new_tid, k2) := allocate_tid k1 in
      let k3 := upd_thread t (λ th, th <| tid := new_tid |>) k2 in
      k4 ← alloc_frame t sizeof_kernel_thread_frame k3;
      k5 ← alloc_frame t sizeof_switch_entry_frame k4;
      k6 ← alloc_frame t sizeof_switch_threads_frame k5;
      k7 ← thread_unblock t (k6 <| resume_level := <[t := INTR_ON]> (resume_level k6) |>);
      k8 ← thread_yield k7;
      Ret (new_tid, k8)
  end.

(** [thread_init]: [k] gives the CPU, the page under the stack pointer and the
    command-line option; every other static variable is still zero. *)
Definition thread_init (k : kern) : outcome kern :=
  ASSERT (bool_decide (intr_get_level (cpu k) = INTR_OFF));;
  let k1 := k <| ready_list := [] |> <| all_list := [] |> <| load_avg := LOAD_AVG_INIT |> in
  let k2 := k1 <| initial_thread := running_thread k1 |> in
  k3 ← init_thread (initial_thread k2) "main" PRI_DEFAULT NICE_DEFAULT RECENT_CPU_DEFAULT k2;
  let k4 := upd_thread (initial_thread k3) (λ t, t <| status := THREAD_RUNNING |>) k3 in
  let '(new_tid, k5) := allocate_tid k4 in
  Ret (upd_thread (initial_thread k5) (λ t, t <| tid := new_tid |>) k5).

(** [idle]: the assignment of [idle_thread] on entry, and one round of the loop. *)
Definition idle_enter (k : kern) : outcome kern :=
  t ← thread_current k; Ret (k <| idle_thread := Some t |>).

Definition idle_round (k : kern) : outcome kern :=
  let '(_, i) := intr_disable (cpu k) in
  thread_block INTR_ON (k <| cpu := i |>).

(** ** Priorities and nice values *)

Definition thread_set_priority (new_priority : Z) (k : kern) : outcome kern :=
  ASSERT ((PRI_MIN <=? new_priority) && (new_priority <=? PRI_MAX));;
  cur ← thread_current k;
  thread_yield (upd_thread cur (λ t, t <| base_priority := new_priority |>) k).

Definition thread_set_nice (new_nice : Z) (k : kern) : outcome kern :=
  ASSERT ((NICE_MIN <=? new_nice) && (new_nice <=? NICE_MAX));;
  cur ← thread_current k;
  th ← thread_at k cur;
  th' ← update_priority (th <| nice := new_nice |>);
  thread_yield (upd_thread cur (λ _, th') k).

(** ** The timer tick *)

Definition mlfqs_tick (t : Z) (k : kern) : outcome kern :=
  let k1 := upd_thread t tick_recent_cpu k in
  k2 ← (if Z.rem (ticks k1) TIMER_FREQ =? 0 then
          k' ← update_load_avg k1;
          thread_foreach (update_recent_cpu (load_avg k')) k'
        else Ret k1);
  if Z.rem (ticks k2) 4 =? 0 then thread_foreach update_priority k2 else Ret k2.

Definition thread_tick (k : kern) : outcome kern :=
  t ← thread_current k;
  let k1 := if bool_decide (Some t = idle_thread k)
            then k <| idle_ticks := s64 (idle_ticks k + 1) |>
            else k <| kernel_ticks := s64 (kernel_ticks k + 1) |> in
  k2 ← (if thread_mlfqs k1 then mlfqs_tick t k1 else Ret k1);
  let k3 := k2 <| thread_ticks := u32 (thread_ticks k2 + 1) |> in
  if TIME_SLICE <=? thread_ticks k3 then
    i ← intr_yield_on_return (cpu k3); Ret (k3 <| cpu := i |>)
  else Ret k3.
End scheduler.

(** ** Invariants *)

(** Part of the invariant that holds both while a thread runs and while the
    scheduler is choosing one: thread pages are intact, the run queue links each
    READY thread once (the idle thread never), and the idle thread is alive. *)
Record queue_wf (k : kern) : Prop := {
  qw_magic : ∀ t th, threads k !! t = Some th → magic th = THREAD_MAGIC;
  qw_nodup : NoDup (ready_list k);
  qw_ready : ∀ t, t ∈ ready_list k →
    ∃ th, threads k !! t = Some th ∧ status th = THREAD_READY;
  qw_queued : ∀ t th, threads k !! t = Some th → status th = THREAD_READY →
    t ∈ ready_list k ∨ idle_thread k = Some t;
  qw_idle : ∃ i th, idle_thread k = Some i ∧ threads k !! i = Some th ∧
    status th ≠ THREAD_DYING ∧ i ∉ ready_list k
}.

(** A thread is running, and it is the only RUNNING one. *)
Record sched_wf (k : kern) : Prop := {
  sw_queue : queue_wf k;
  sw_running : ∃ th, threads k !! running k = Some th ∧ status th = THREAD_RUNNING;
  sw_single : ∀ t th, threads k !! t = Some th → status th = THREAD_RUNNING → t = running k
}.

(** The state in which [schedule] is called: interrupts are off, and the thread
    that still occupies the CPU has left the RUNNING state. *)
Record sched_pre (k : kern) : Prop := {
  sp_queue : queue_wf k;
  sp_off : if_flag (cpu k) = INTR_OFF;
  sp_cur : is_Some (threads k !! running k);
  sp_none : ∀ t th, threads k !! t = Some th → status th ≠ THREAD_RUNNING
}.

(** What [schedule] does: [k'] runs the idle thread when the queue is empty and
    otherwise a thread of the queue with the greatest priority; the outgoing
    thread's page is freed when it is dying; nothing else changes. *)
Record switched `{KernelList} (k k' : kern) : Prop := {
  st_wf : sched_wf k';
  st_empty : ready_list k = [] → idle_thread k = Some (running k') ∧ ready_list k' = [];
  st_max : ready_list k ≠ [] →
    ready_list k ≡ₚ running k' :: ready_list k' ∧
    ∀ u, u ∈ ready_list k' → priority_key k u ≤ priority_key k (running k');
  st_threads : ∀ t, threads k' !! t =
    if decide (t = running k ∧ t ≠ running k' ∧ t ≠ initial_thread k ∧
               status <$> threads k !! t = Some THREAD_DYING)
    then None
    else (λ th, if decide (t = running k') then th <| status := THREAD_RUNNING |> else th)
           <$> threads k !! t;
  st_rest : k' = k <| threads := threads k' |> <| ready_list := ready_list k' |>
                   <| running := running k' |> <| thread_ticks := 0 |>
}.

Lemma is_thread_live (k : kern) (t : Z) :
  queue_wf k → is_Some (threads k !! t) → is_thread k (Some t) = true.
Proof.
  intros Hwf [th Ht]. simpl. rewrite Ht. apply Z.eqb_eq. by eapply qw_magic.
Qed.

Lemma thread_current_ret (k : kern) : sched_wf k → thread_current k = Ret (running k).
Proof.
  intros [Hq (th & Ht & Hs) _]. unfold thread_current, running_thread.
  rewrite is_thread_live by done. ret. unfold thread_at. rewrite Ht. ret.
  by rewrite Hs.
Qed.

Lemma lookup_alter_status (m : gmap Z thread) (n t : Z) (s : thread_status) :
  alter (λ th, th <| status := s |>) n m !! t =
    (λ th, if decide (t = n) then th <| status := s |> else th) <$> m !! t.
Proof.
  destruct (decide (t = n)) as [->|Hne].
  - rewrite lookup_alter_eq. destruct (m !! n); [|done].
    cbn [fmap option_fmap option_map]. by rewrite ?decide_True.
  - rewrite lookup_alter_ne by done. destruct (m !! t); [|done]. cbn [fmap option_fmap option_map].
    by rewrite ?decide_False.
Qed.

Section schedule.
Context `{KernelList, !KernelListLaws}.

Lemma lower_priority_key (k : kern) : less_by_key (priority_key k) (lower_priority k).
Proof. intros a b. done. Qed.

(** [next_thread_to_run] returns a live thread that is not dying. *)
Lemma next_thread_to_run_spec (k : kern) :
  queue_wf k →
  ∃ n rest, next_thread_to_run k = Ret (Some n, k <| ready_list := rest |>) ∧
    (∃ th, threads k !! n = Some th ∧ status th ≠ THREAD_DYING) ∧
    (ready_list k = [] → idle_thread k = Some n ∧ rest = []) ∧
    (ready_list k ≠ [] → ready_list k ≡ₚ n :: rest ∧
       ∀ u, u ∈ rest → priority_key k u ≤ priority_key k n).
Proof.
  intros Hq. unfold next_thread_to_run. destruct (ready_list k) as [|t l] eqn:El.
  - destruct (qw_idle k Hq) as (i & th & -> & Hi & Hd & _).
    exists i, []. split_and!; [|naive_solver..]. f_equal. f_equal. destruct k; simpl in *.
    by rewrite El.
  - destruct (list_pop_max_spec (priority_key k) (lower_priority k) (t :: l))
      as (n & rest & -> & Hp & Hmax); [apply lower_priority_key|done|].
    exists n, rest. simpl. split_and!; [done| |done|done].
    destruct (qw_ready k Hq n) as (th & Hth & Hs).
    { rewrite El, Hp. set_solver. }
    exists th. split; [done|]. by rewrite Hs.
Qed.

(** The page table of threads after a switch to [n]. *)
Definition threads_after (k : kern) (n : Z) (M : gmap Z thread) : Prop :=
  ∀ t, M !! t =
    if decide (t = running k ∧ t ≠ n ∧ t ≠ initial_thread k ∧
               status <$> threads k !! t = Some THREAD_DYING)
    then None
    else (λ th, if decide (t = n) then th <| status := THREAD_RUNNING |> else th)
           <$> threads k !! t.

Lemma threads_after_inv k n M t th :
  threads_after k n M → M !! t = Some th →
  ∃ th0, threads k !! t = Some th0 ∧ magic th = magic th0 ∧
    (t = n ∧ status th = THREAD_RUNNING ∨ t ≠ n ∧ th = th0).
Proof.
  intros HM Ht. rewrite HM in Ht. case_decide; [done|].
  apply fmap_Some in Ht as (th0 & Ht0 & ->). exists th0.
  case_decide; naive_solver.
Qed.

Lemma threads_after_live k n M t th :
  threads_after k n M → threads k !! t = Some th → status th ≠ THREAD_DYING →
  M !! t = Some (if decide (t = n) then th <| status := THREAD_RUNNING |> else th).
Proof.
  intros HM Ht Hs. rewrite HM, decide_False; [by rewrite Ht|].
  intros (_ & _ & _ & Hd). rewrite Ht in Hd. simpl in Hd. congruence.
Qed.

Lemma switched_intro k n nth rest M :
  sched_pre k → threads k !! n = Some nth → status nth ≠ THREAD_DYING →
  (ready_list k = [] → idle_thread k = Some n ∧ rest = []) →
  (ready_list k ≠ [] → ready_list k ≡ₚ n :: rest ∧
     ∀ u, u ∈ rest → priority_key k u ≤ priority_key k n) →
  threads_after k n M →
  switched k (k <| threads := M |> <| ready_list := rest |>
                <| running := n |> <| thread_ticks := 0 |>).
Proof.
  intros [Hq Hoff Hcur Hnone] Hn Hnd He Hm HM.
  assert (∀ u, u ∈ rest → u ∈ ready_list k ∧ u ≠ n) as Hrest.
  { intros u Hu. destruct (decide (ready_list k = [])) as [E|E].
    - destruct (He E) as [_ ->]. by apply not_elem_of_nil in Hu.
    - destruct (Hm E) as [Hp _]. split; [rewrite Hp; set_solver|].
      pose proof (qw_nodup k Hq) as Hnd'. rewrite Hp in Hnd'. intros ->.
      by apply NoDup_cons in Hnd' as [? _]. }
  split; [|done|done|done|by destruct k].
  split; simpl.
  - split; simpl.
    + intros t th Ht. destruct (threads_after_inv _ _ _ _ _ HM Ht) as (th0 & ? & -> & _).
      by eapply qw_magic.
    + destruct (decide (ready_list k = [])) as [E|E].
      * destruct (He E) as [_ ->]. constructor.
      * destruct (Hm E) as [Hp _]. pose proof (qw_nodup k Hq) as Hnd'.
        rewrite Hp in Hnd'. by apply NoDup_cons in Hnd' as [_ ?].
    + intros u Hu. destruct (Hrest u Hu) as [Hr Hne].
      destruct (qw_ready k Hq u Hr) as (uth & Hu1 & Hu2). exists uth. split; [|done].
      rewrite (threads_after_live _ _ _ _ _ HM Hu1) by (by rewrite Hu2).
      by rewrite decide_False.
    + intros t th Ht Hs.
      destruct (threads_after_inv _ _ _ _ _ HM Ht) as (th0 & Ht0 & _ & [[-> ?]|[Hne ->]]);
        [congruence|].
      destruct (qw_queued k Hq t th0 Ht0 Hs) as [Hin|?]; [|by right]. left.
      destruct (Hm ltac:(by intros E; rewrite E in Hin; apply not_elem_of_nil in Hin)) as [Hp _].
      rewrite Hp in Hin. set_solver.
    + destruct (qw_idle k Hq) as (i & th & Hi & Hti & Hd & Hni).
      exists i. rewrite (threads_after_live _ _ _ _ _ HM Hti Hd). eexists.
      split_and!; [done|done|by case_decide|]. intros Hin. by apply Hni, Hrest.
  - rewrite (threads_after_live _ _ _ _ _ HM Hn Hnd). eexists. split; [done|].
    by rewrite decide_True.
  - intros t th Ht Hs.
    destruct (threads_after_inv _ _ _ _ _ HM Ht) as (th0 & Ht0 & _ & [[-> ?]|[Hne ->]]); [done|].
    by destruct (Hnone t th0).
Qed.

(** [schedule] never fails from a consistent state, and performs a switch. *)
Lemma schedule_spec (k : kern) :
  sched_pre k → ∃ k', schedule k = Ret k' ∧ switched k k'.
Proof.
  intros Hpre. pose proof Hpre as [Hq Hoff [cth Hcur] Hnone].
  destruct (next_thread_to_run_spec k Hq) as (n & rest & Hnext & (nth & Hn & Hnd) & He & Hm).
  unfold schedule, running_thread. rewrite Hnext. ret.
  rewrite bool_decide_eq_true_2 by done. ret. unfold thread_at. simpl threads.
  rewrite Hcur. ret. rewrite bool_decide_eq_true_2 by (by eapply Hnone). ret.
  replace (is_thread _ (Some n)) with true
    by (symmetry; apply (is_thread_live k n Hq); by eexists).
  ret. destruct (Z.eqb_spec (running k) n) as [Heq|Hne]; simpl.
  - unfold thread_schedule_tail, running_thread. simpl.
    rewrite bool_decide_eq_true_2 by done. ret. eexists. split; [done|].
    rewrite Heq.
    replace (k <| ready_list := rest |>) with (k <| ready_list := rest |> <| running := n |>)
      by (rewrite <- Heq; by destruct k).
    apply (switched_intro k n nth rest); [done..|].
    intros t. rewrite decide_False by (intros (? & ? & _); congruence).
    apply lookup_alter_status.
  - unfold thread_schedule_tail, running_thread. simpl.
    rewrite bool_decide_eq_true_2 by done. ret. unfold thread_at. simpl.
    rewrite lookup_alter_ne, Hcur by done. ret.
    destruct (bool_decide (status cth = THREAD_DYING) && negb (running k =? initial_thread k))
      eqn:Hd.
    + bool_to_prop. rewrite bool_decide_eq_true in *.
      rewrite (proj2 (Z.eqb_neq _ _)) by done. ret. eexists. split; [done|].
      apply (switched_intro k n nth rest); [done..|].
      intros t.
      match goal with |- _ = ?r => change (delete (running k)
        (alter (λ th, th <| status := THREAD_RUNNING |>) n (threads k)) !! t = r) end.
      rewrite lookup_delete. case_decide as Ht.
      * subst t. rewrite decide_True; [done|]. rewrite Hcur. simpl. by split_and!; try congruence.
      * rewrite decide_False by (by intros [-> _]). apply lookup_alter_status.
    + eexists. split; [done|]. apply (switched_intro k n nth rest); [done..|].
      intros t. rewrite decide_False; [apply lookup_alter_status|].
      intros (-> & _ & Hini & Hs). rewrite Hcur in Hs. simpl in Hs.
      rewrite bool_decide_eq_true_2 in Hd by congruence.
      rewrite (proj2 (Z.eqb_neq _ _)) in Hd by done. done.
Qed.
End schedule.

(** ** Priorities do not depend on thread status *)

(** What [get_priority] reads of a thread. *)
Definition donation_view (th : thread) : Z * list Z * Z :=
  (base_priority th, held_locks th, priority th).

Definition same_donation (k k' : kern) : Prop :=
  thread_mlfqs k' = thread_mlfqs k ∧ waiters k' = waiters k ∧
  ∀ t, donation_view <$> threads k' !! t = donation_view <$> threads k !! t.

Lemma same_donation_lookup k k' t th' :
  same_donation k k' → threads k' !! t = Some th' →
  ∃ th, threads k !! t = Some th ∧ donation_view th = donation_view th'.
Proof.
  intros (_ & _ & Ht) Hth. specialize (Ht t). rewrite Hth in Ht. simpl in Ht.
  symmetry in Ht. by apply fmap_Some in Ht as (th & ? & ?); exists th.
Qed.

Lemma same_donation_sym k k' : same_donation k k' → same_donation k' k.
Proof. intros (? & ? & ?). split_and!; congruence. Qed.

Lemma same_donation_fuel k k' : same_donation k k' → donors_fuel k' = donors_fuel k.
Proof.
  intros Hs. unfold donors_fuel. f_equal. rewrite <- !size_dom. f_equal.
  apply set_eq. intros t. rewrite !elem_of_dom. split; intros [th Hth].
  - destruct (same_donation_lookup k k' t th Hs Hth) as (? & ? & _). eauto.
  - destruct (same_donation_lookup k' k t th (same_donation_sym _ _ Hs) Hth) as (? & ? & _). eauto.
Qed.

Lemma donors_loop_same fuel k k' donors m :
  same_donation k k' → donors_loop fuel k' donors m = donors_loop fuel k donors m.
Proof.
  intros Hs. revert donors m. induction fuel as [|fuel IH]; intros donors m; [done|].
  simpl. destruct donors as [|t rest]; [done|]. unfold thread_at.
  destruct Hs as (Hm & Hw & Ht). specialize (Ht t).
  destruct (threads k' !! t) as [th'|], (threads k !! t) as [th|]; simplify_eq/=; [|done].
  unfold direct_donors, lock_waiters. rewrite Hw.
  unfold donation_view in Ht. simplify_eq.
  replace (held_locks th') with (held_locks th) by congruence.
  replace (base_priority th') with (base_priority th) by congruence.
  destruct (push_donors _ _); [apply IH|done..].
Qed.

Lemma get_priority_same k k' t :
  same_donation k k' → get_priority k' t = get_priority k t.
Proof.
  intros Hs. unfold get_priority. rewrite (same_donation_fuel k k' Hs).
  rewrite (donors_loop_same _ k k' _ _ Hs). destruct Hs as (-> & _ & Ht).
  destruct (thread_mlfqs k); [|done]. unfold thread_at. specialize (Ht t).
  destruct (threads k' !! t), (threads k !! t); simplify_eq/=; congruence.
Qed.

Lemma priority_key_same k k' t :
  same_donation k k' → priority_key k' t = priority_key k t.
Proof. intros Hs. unfold priority_key. by rewrite (get_priority_same k k'). Qed.

Lemma same_donation_status k n s :
  same_donation k (upd_thread n (λ th, th <| status := s |>) k).
Proof.
  split_and!; [done..|]. intros t. simpl. rewrite lookup_alter_status.
  destruct (threads k !! t); [|done]. simpl. by case_decide.
Qed.

Lemma effective_priority_unique k t p q :
  effective_priority k t p → effective_priority k t q → p = q.
Proof.
  intros [Hp (u & uth & ? & ? & <-)] [Hq (v & vth & ? & ? & <-)].
  pose proof (Hp v vth). pose proof (Hq u uth). naive_solver lia.
Qed.

Lemma priority_key_effective k t p :
  thread_mlfqs k = false → wait_graph_wf k →
  (∀ u uth, threads k !! u = Some uth → PRI_MIN ≤ base_priority uth) →
  is_Some (threads k !! t) → effective_priority k t p ↔ priority_key k t = p.
Proof.
  intros Hm Hwf Hmin [th Ht].
  destruct (donors_loop_effective k t th Hwf Ht (Hmin t th Ht)) as (q & Heq & Heff).
  assert (priority_key k t = q) as -> by (unfold priority_key, get_priority; by rewrite Hm, Heq).
  split; [|by intros <-]. intros Hp. by eapply effective_priority_unique.
Qed.

(** ** Leaving the CPU *)

(** The running thread takes status [s]; it is queued when it becomes READY
    unless it is the idle thread. *)
Definition requeue (k : kern) (s : thread_status) : list Z :=
  if bool_decide (s = THREAD_READY ∧ idle_thread k ≠ Some (running k))
  then ready_list k ++ [running k] else ready_list k.

Lemma requeue_elem k s u :
  u ∈ requeue k s ↔
    u ∈ ready_list k ∨ (u = running k ∧ s = THREAD_READY ∧ idle_thread k ≠ Some (running k)).
Proof. unfold requeue. case_bool_decide; set_solver. Qed.

Lemma sched_pre_leave (k : kern) (s : thread_status) (c : intr) (r : gmap Z intr_level) al :
  sched_wf k → s ≠ THREAD_RUNNING → if_flag c = INTR_OFF →
  (s = THREAD_DYING → idle_thread k ≠ Some (running k)) →
  sched_pre (upd_thread (running k) (λ t, t <| status := s |>)
    (k <| cpu := c |> <| all_list := al |> <| ready_list := requeue k s |>
       <| resume_level := r |>)).
Proof.
  intros [Hq (cth & Hcur & Hrun) Hone] Hs Hc Hdy.
  assert (running k ∉ ready_list k) as Hnr.
  { intros Hin. destruct (qw_ready k Hq _ Hin) as (th & Hth & ?). congruence. }
  assert (∀ t th, alter (λ t, t <| status := s |>) (running k) (threads k) !! t = Some th →
    ∃ th0, threads k !! t = Some th0 ∧ magic th = magic th0 ∧
      (t = running k ∧ status th = s ∨ t ≠ running k ∧ th = th0)) as Hinv.
  { intros t th. rewrite lookup_alter_status. intros (th0 & Ht & ->)%fmap_Some.
    exists th0. case_decide; naive_solver. }
  assert (∀ t th, t ≠ running k → threads k !! t = Some th →
    alter (λ t, t <| status := s |>) (running k) (threads k) !! t = Some th) as Hkeep.
  { intros t th Hne Ht. by rewrite lookup_alter_ne. }
  split; simpl; [|done| |].
  - split; simpl.
    + intros t th (th0 & ? & -> & _)%Hinv. by eapply qw_magic.
    + pose proof (qw_nodup k Hq). unfold requeue. case_bool_decide; [|done].
      apply NoDup_app. split_and!; [done| |apply NoDup_singleton].
      intros u Hu ->%list_elem_of_singleton. done.
    + intros u [Hu|(-> & -> & _)]%requeue_elem.
      * destruct (qw_ready k Hq u Hu) as (uth & ? & ?). exists uth.
        split; [|done]. apply Hkeep; [by intros ->|done].
      * rewrite lookup_alter_status, Hcur. eexists. split; [done|]. by rewrite decide_True.
    + intros t th Ht Hst. destruct (Hinv t th Ht) as (th0 & Ht0 & _ & [[-> ?]|[Hne ->]]).
      * destruct (decide (idle_thread k = Some (running k))); [by right|left].
        apply requeue_elem. right. by split_and!; try congruence.
      * destruct (qw_queued k Hq t th0 Ht0 Hst); [left|by right].
        apply requeue_elem. by left.
    + destruct (qw_idle k Hq) as (i & ith & Hi & Hti & Hd & Hni). exists i.
      rewrite lookup_alter_status, Hti. eexists. split_and!; [done|done| |].
      * case_decide as Heq; [|done]. subst i. simpl. intros ->. by apply Hdy.
      * intros [?|(-> & _ & ?)]%requeue_elem; done.
  - rewrite lookup_alter_status, Hcur. by eexists.
  - intros t th (th0 & Ht0 & _ & [[-> ?]|[Hne ->]])%Hinv; [congruence|].
    intros Hst. by apply Hne, (Hone t th0).
Qed.

(** The thread that runs after [k] was left with status [s]: the head of the
    property for every operation that ends in [schedule]. *)
Record resumed `{KernelList} (k : kern) (s : thread_status) (k' : kern) : Prop := {
  rs_wf : sched_wf k';
  rs_empty : requeue k s = [] → idle_thread k = Some (running k') ∧ ready_list k' = [];
  rs_max : requeue k s ≠ [] →
    requeue k s ≡ₚ running k' :: ready_list k' ∧
    ∀ u, u ∈ ready_list k' → priority_key k u ≤ priority_key k (running k');
  rs_level : if_flag (cpu k') = (if decide (running k' = running k) then if_flag (cpu k')
                                 else default INTR_OFF (resume_level k !! running k'));
  rs_lists : waiters k' = waiters k ∧ idle_thread k' = idle_thread k ∧
    asleep_list k' = asleep_list k ∧ ticks k' = ticks k;
  rs_ctx : in_external_intr (cpu k') = false;
  rs_others : ∀ t, t ≠ running k → t ≠ running k' → threads k' !! t = threads k !! t;
  rs_left : s ≠ THREAD_DYING → running k' ≠ running k →
    threads k' !! running k = (λ th, th <| status := s |>) <$> threads k !! running k;
  rs_same : s ≠ THREAD_DYING → same_donation k k';
  rs_keep : s ≠ THREAD_DYING → next_tid k' = next_tid k ∧
    ∀ t th th', threads k !! t = Some th → threads k' !! t = Some th' →
      tid th' = tid th ∧ base_priority th' = base_priority th
}.

Lemma sched_wf_frame k k' :
  threads k' = threads k → ready_list k' = ready_list k → idle_thread k' = idle_thread k →
  running k' = running k → sched_wf k → sched_wf k'.
Proof.
  intros Ht Hr Hi Hru [[] ? ?]. split; [split|..];
    rewrite ?Ht, ?Hr, ?Hi, ?Hru; done.
Qed.

Section operations.
Context `{KernelList, !KernelListLaws}.

(** [schedule] followed by the resumption of the next thread, from a state in
    which no external interrupt is being handled. *)
Lemma leave_and_switch (k : kern) (s : thread_status) (c : intr) (r : gmap Z intr_level) al :
  sched_wf k → s ≠ THREAD_RUNNING → if_flag c = INTR_OFF → in_external_intr c = false →
  (s = THREAD_DYING → idle_thread k ≠ Some (running k)) →
  (∀ t, t ≠ running k → r !! t = resume_level k !! t) →
  ∃ k2 k', schedule (upd_thread (running k) (λ t, t <| status := s |>)
      (k <| cpu := c |> <| all_list := al |> <| ready_list := requeue k s |>
         <| resume_level := r |>)) = Ret k2 ∧
    finish_switch k2 = Ret k' ∧ resumed k s k'.
Proof.
  intros Hwf Hs Hc Hext Hdy Hr.
  destruct (schedule_spec _ (sched_pre_leave k s c r al Hwf Hs Hc Hdy)) as (k2 & Hk2 & Hsw).
  set (k1 := upd_thread _ _ _) in *.
  assert (same_donation k k1) as Hsame.
  { split_and!; [done..|]. intros t. subst k1. simpl. rewrite lookup_alter_status.
    destruct (threads k !! t); [|done]. simpl. by case_decide. }
  destruct Hsw as [Hwf2 He Hm Hth Hrest].
  assert (s ≠ THREAD_DYING → same_donation k k2) as Hsame2.
  { intros Hnd. split; [by rewrite Hrest|]. split; [by rewrite Hrest|]. intros t.
    rewrite Hth. destruct Hsame as (_ & _ & Hs1). rewrite <- Hs1.
    rewrite decide_False.
    - destruct (threads k1 !! t); [|done]. simpl. by case_decide.
    - intros (-> & _ & _ & Hdy'). subst k1. simpl in Hdy'. rewrite lookup_alter_eq in Hdy'.
      destruct (threads k !! running k); simplify_eq/=. }
  assert (s ≠ THREAD_DYING → next_tid k2 = next_tid k ∧
    ∀ t th th', threads k !! t = Some th → threads k2 !! t = Some th' →
      tid th' = tid th ∧ base_priority th' = base_priority th) as Hkeep.
  { intros _. split; [by rewrite Hrest|]. intros t th th' Ht. rewrite Hth.
    case_decide; [done|]. subst k1. simpl. rewrite lookup_alter_status, Ht. simpl.
    intros [= <-]. by repeat case_decide. }
  assert (cpu k2 = c ∧ resume_level k2 = r ∧ idle_thread k2 = idle_thread k ∧
          waiters k2 = waiters k ∧ asleep_list k2 = asleep_list k ∧ ticks k2 = ticks k)
    as (Ec & Er & Ei & Ew & Ea & Et) by (rewrite Hrest; done).
  assert (∃ i, finish_switch k2 = Ret (k2 <| cpu := i |>
      <| resume_level := delete (running k2) (resume_level k2) |>) ∧
    if_flag i = default INTR_OFF (r !! running k2) ∧ in_external_intr i = false)
    as (i & Hk' & Hi & Hie).
  { unfold finish_switch. rewrite Ec, Er.
    destruct (r !! running k2) as [[]|]; simpl; unfold intr_enable, intr_context;
      rewrite ?Hext; simpl; eexists; split_and!; done. }
  assert (∀ t, t ≠ running k → t ≠ running k2 → threads k2 !! t = threads k !! t) as Hoth.
  { intros t Hn1 Hn2. rewrite Hth, decide_False by naive_solver.
    subst k1. simpl. rewrite lookup_alter_ne by done.
    destruct (threads k !! t); [|done]. simpl. by rewrite decide_False. }
  assert (s ≠ THREAD_DYING → running k2 ≠ running k →
    threads k2 !! running k = (λ th, th <| status := s |>) <$> threads k !! running k) as Hleft.
  { intros Hnd Hne. subst k1. rewrite Hth. simpl. rewrite lookup_alter_eq. rewrite decide_False.
    - destruct (threads k !! running k); [|done]. simpl. by rewrite decide_False.
    - intros (_ & _ & _ & Hdy'). destruct (threads k !! running k); simplify_eq/=. }
  eexists k2, _. split; [done|]. split; [done|]. split; simpl.
  - by apply (sched_wf_frame k2).
  - apply He.
  - intros Hne. destruct (Hm Hne) as [Hp Hmax]. split; [done|].
    intros u Hu. specialize (Hmax u Hu). by rewrite !(priority_key_same k k1) in Hmax by done.
  - case_decide as Hd; [done|]. by rewrite Hi, Hr.
  - done.
  - done.
  - done.
  - done.
  - done.
  - done.
Qed.

(** [thread_yield] requeues the running thread. *)
Lemma thread_yield_spec (k : kern) :
  sched_wf k → in_external_intr (cpu k) = false →
  ∃ k', thread_yield k = Ret k' ∧ resumed k THREAD_READY k'.
Proof.
  intros Hwf Hext. unfold thread_yield. rewrite thread_current_ret by done. ret.
  unfold intr_context. rewrite Hext. ret. unfold intr_disable, intr_get_level.
  destruct (leave_and_switch k THREAD_READY ((cpu k) <| if_flag := INTR_OFF |>)
    (<[running k := if_flag (cpu k)]> (resume_level k)) (all_list k))
    as (k2 & k' & Hk2 & Hk' & Hres); [done..| |].
  { intros t Ht. by rewrite lookup_insert_ne. }
  exists k'. split; [|done]. revert Hk2. unfold requeue. simpl.
  destruct (decide (idle_thread k = Some (running k))) as [Hi|Hi].
  - rewrite (bool_decide_eq_false_2 (_ ∧ _)) by naive_solver.
    rewrite bool_decide_eq_true_2 by done. intros Hk2.
    by replace (schedule _) with (Ret k2) by (rewrite <- Hk2; by destruct k).
  - rewrite (bool_decide_eq_true_2 (_ ∧ _)) by done.
    rewrite bool_decide_eq_false_2 by done. intros Hk2.
    by replace (schedule _) with (Ret k2) by (rewrite <- Hk2; by destruct k).
Qed.

(** [thread_block] and [thread_exit] leave the CPU without requeueing. *)
Lemma thread_block_spec (l : intr_level) (k : kern) :
  sched_wf k → in_external_intr (cpu k) = false → if_flag (cpu k) = INTR_OFF →
  ∃ k', thread_block l k = Ret k' ∧ resumed k THREAD_BLOCKED k'.
Proof.
  intros Hwf Hext Hoff. unfold thread_block, intr_context, intr_get_level.
  rewrite Hext, Hoff. ret. rewrite thread_current_ret by done. ret.
  destruct (leave_and_switch k THREAD_BLOCKED (cpu k)
    (<[running k := l]> (resume_level k)) (all_list k))
    as (k2 & k' & Hk2 & Hk' & Hres); [done..| |].
  { intros t Ht. by rewrite lookup_insert_ne. }
  exists k'. split; [|done].
  by replace (schedule _) with (Ret k2) by (rewrite <- Hk2; by destruct k).
Qed.

Lemma thread_exit_spec (k : kern) cth :
  sched_wf k → in_external_intr (cpu k) = false → idle_thread k ≠ Some (running k) →
  threads k !! running k = Some cth → held_locks cth = [] →
  ∃ k', thread_exit k = Ret k' ∧ resumed k THREAD_DYING k'.
Proof.
  intros Hwf Hext Hidle Hc Hheld. unfold thread_exit, intr_context, thread_at.
  rewrite Hext. ret. rewrite thread_current_ret by done. ret. rewrite Hc. ret.
  rewrite bool_decide_eq_true_2 by done. ret. unfold intr_disable, intr_get_level.
  destruct (leave_and_switch k THREAD_DYING ((cpu k) <| if_flag := INTR_OFF |>)
    (resume_level k) (list_remove (running k) (all_list k)))
    as (k2 & k' & Hk2 & Hk' & Hres); [done..|].
  exists k'. split; [|done].
  by replace (schedule _) with (Ret k2) by (rewrite <- Hk2; by destruct k).
Qed.

Lemma with_intr_off_ret body k k1 :
  body (k <| cpu ::= λ i, i <| if_flag := INTR_OFF |> |>) = Ret k1 →
  cpu k1 = (cpu k) <| if_flag := INTR_OFF |> →
  in_external_intr (cpu k) = false ∨ if_flag (cpu k) = INTR_OFF →
  with_intr_off body k = Ret (k1 <| cpu := cpu k |>).
Proof.
  intros Hb Hc Hor. unfold with_intr_off, intr_disable.
  replace (body _) with (Ret k1) by (rewrite <- Hb; by destruct k). ret.
  rewrite Hc. unfold intr_get_level, intr_set_level, intr_enable, intr_context, intr_disable.
  destruct (cpu k) as [[] ext yr]; simpl in *; [done|].
  destruct Hor as [->|?]; [done|congruence].
Qed.

(** Updates of a thread that keep its status and magic number. *)
Lemma sched_wf_upd k t g :
  (∀ th, status (g th) = status th ∧ magic (g th) = magic th) →
  sched_wf k → sched_wf (upd_thread t g k).
Proof.
  intros Hg [[Hm Hnd Hr Hqd (i & ith & Hi & Hti & Hd & Hni)] (cth & Hc & Hrun) Hone].
  assert (∀ u uth, alter g t (threads k) !! u = Some uth →
    ∃ th0, threads k !! u = Some th0 ∧ status uth = status th0 ∧ magic uth = magic th0) as Hinv.
  { intros u uth. destruct (decide (u = t)) as [->|].
    - rewrite lookup_alter_eq. intros (th0 & ? & ->)%fmap_Some. exists th0.
      destruct (Hg th0). done.
    - rewrite lookup_alter_ne by done. intros. by exists uth. }
  assert (∀ u th, threads k !! u = Some th →
    ∃ uth, alter g t (threads k) !! u = Some uth ∧ status uth = status th) as Hfwd.
  { intros u th Hu. destruct (decide (u = t)) as [->|].
    - rewrite lookup_alter_eq, Hu. eexists. split; [done|]. by destruct (Hg th).
    - rewrite lookup_alter_ne by done. by exists th. }
  split; [split|..]; simpl.
  - intros u uth (th0 & ? & _ & ->)%Hinv. by eapply Hm.
  - done.
  - intros u Hu. destruct (Hr u Hu) as (th & Hth & Hs).
    destruct (Hfwd u th Hth) as (uth & ? & ?). exists uth. split; congruence.
  - intros u uth (th0 & ? & -> & _)%Hinv. by eapply Hqd.
  - destruct (Hfwd i ith Hti) as (uth & ? & Hs). exists i, uth. by rewrite Hs.
  - destruct (Hfwd _ cth Hc) as (uth & ? & Hs). exists uth. by rewrite Hs.
  - intros u uth (th0 & ? & -> & _)%Hinv. by eapply Hone.
Qed.

(** A new blocked thread on a free page. *)
Lemma sched_wf_insert k t th :
  threads k !! t = None → status th = THREAD_BLOCKED → magic th = THREAD_MAGIC →
  sched_wf k → sched_wf (k <| threads := <[t := th]> (threads k) |>).
Proof.
  intros Hfresh Hs Hmg [[Hm Hnd Hr Hqd (i & ith & Hi & Hti & Hd & Hni)] (cth & Hc & Hrun) Hone].
  assert (∀ u uth, threads k !! u = Some uth → <[t := th]> (threads k) !! u = Some uth) as Hkeep.
  { intros u uth Hu. rewrite lookup_insert_ne; [done|congruence]. }
  split; [split|..]; simpl.
  - intros u uth [[_ <-]|[_ ?]]%lookup_insert_Some; [done|by eapply Hm].
  - done.
  - intros u Hu. destruct (Hr u Hu) as (uth & ? & ?). exists uth. auto.
  - intros u uth [[_ <-]|[_ ?]]%lookup_insert_Some ?; [congruence|by eapply Hqd].
  - exists i, ith. auto.
  - exists cth. auto.
  - intros u uth [[_ <-]|[_ ?]]%lookup_insert_Some ?; [congruence|by eapply Hone].
Qed.

Lemma thread_unblock_spec (t : Z) (k : kern) th :
  sched_wf k → in_external_intr (cpu k) = false ∨ if_flag (cpu k) = INTR_OFF →
  threads k !! t = Some th → status th = THREAD_BLOCKED → idle_thread k ≠ Some t →
  thread_unblock t k =
    Ret (upd_thread t (λ th, th <| status := THREAD_READY |>)
           (k <| ready_list := ready_list k ++ [t] |>)) ∧
  sched_wf (upd_thread t (λ th, th <| status := THREAD_READY |>)
              (k <| ready_list := ready_list k ++ [t] |>)).
Proof.
  intros Hwf Hor Ht Hs Hidle. split.
  - unfold thread_unblock. rewrite (is_thread_live k t); [|apply Hwf|by eexists]. ret.
    rewrite (with_intr_off_ret _ k (upd_thread t (λ th, th <| status := THREAD_READY |>)
      (k <| cpu ::= λ i, i <| if_flag := INTR_OFF |> |>
         <| ready_list := ready_list k ++ [t] |>))); [by destruct k| |done|done].
    unfold thread_at. simpl. rewrite Ht. ret. by rewrite Hs.
  - destruct Hwf as [[Hm Hnd Hr Hqd (i & ith & Hi & Hti & Hd & Hni)] (cth & Hc & Hrun) Hone].
    assert (t ∉ ready_list k) as Hnt by (intros (? & ? & ?)%Hr; congruence).
    split; [split|..]; simpl.
    + intros u uth. rewrite lookup_alter_status. intros (u0 & ? & ->)%fmap_Some.
      case_decide; simpl; by eapply Hm.
    + apply NoDup_app. split_and!; [done| |apply NoDup_singleton].
      by intros u ? ->%list_elem_of_singleton.
    + intros u. rewrite lookup_alter_status. intros [Hu| ->%list_elem_of_singleton]%elem_of_app.
      * destruct (Hr u Hu) as (uth & -> & ?). eexists. split; [done|]. by case_decide.
      * rewrite Ht. eexists. split; [done|]. by rewrite decide_True.
    + intros u uth. rewrite lookup_alter_status. intros (u0 & ? & ->)%fmap_Some Hst.
      case_decide; [left; set_solver|]. destruct (Hqd u u0); [done..|left; set_solver|by right].
    + exists i. rewrite lookup_alter_status, Hti. eexists. split_and!; [done|done| |].
      * by case_decide.
      * intros [?| ->%list_elem_of_singleton]%elem_of_app; done.
    + rewrite lookup_alter_status, Hc. eexists. split; [done|].
      rewrite decide_False; [done|]. intros <-. congruence.
    + intros u uth. rewrite lookup_alter_status. intros (u0 & ? & ->)%fmap_Some.
      case_decide; [done|by eapply Hone].
Qed.

(** The thread page [thread_create] prepares, before the thread is unblocked. *)
Definition fresh_thread (th : thread) (t_tid prio : Z) : Prop :=
  tid th = t_tid ∧ status th = THREAD_BLOCKED ∧ base_priority th = prio ∧
  held_locks th = [] ∧ magic th = THREAD_MAGIC.

Lemma alloc_frame_ret t size k th :
  threads k !! t = Some th → magic th = THREAD_MAGIC → size mod 4 = 0 →
  alloc_frame t size k = Ret (upd_thread t (λ th, th <| stack := u32 (stack th - size) |>) k).
Proof.
  intros Ht Hm Hs. unfold alloc_frame. simpl. rewrite Ht, Hm, Hs. done.
Qed.

Lemma thread_create_unfold sef stf nm prio t k cth :
  sched_wf k → in_external_intr (cpu k) = false → PRI_MIN ≤ prio ≤ PRI_MAX →
  sef mod 4 = 0 → stf mod 4 = 0 → threads k !! running k = Some cth →
  ∃ th, fresh_thread th (next_tid k) prio ∧
    thread_create sef stf nm prio (Some t) k =
      (k7 ← thread_unblock t (k <| threads := <[t := th]> (threads k) |>
               <| all_list := all_list k ++ [t] |> <| next_tid := s32 (next_tid k + 1) |>
               <| resume_level := <[t := INTR_ON]> (resume_level k) |>);
       k8 ← thread_yield k7; Ret (next_tid k, k8)).
Proof.
  intros Hwf Hext Hp Hsef Hstf Hc. unfold thread_create. rewrite thread_current_ret by done.
  ret. unfold thread_at. rewrite Hc. ret. unfold init_thread.
  rewrite (ASSERT_true (_ && _)) by (apply andb_true_intro; split; apply Z.leb_le; lia). ret.
  destruct (update_priority_ret (Thread 0 THREAD_BLOCKED (String.substring 0 15 nm)
    (u32 (t + PGSIZE)) prio [] 0 (nice cth) (recent_cpu cth) 0 THREAD_MAGIC)) as [p ->]. ret.
  erewrite with_intr_off_ret; [|done|done|by left]. ret. unfold allocate_tid. simpl.
  unfold sizeof_kernel_thread_frame.
  erewrite (alloc_frame_ret _ 12); [|simpl; rewrite lookup_alter_eq, lookup_insert_eq; done|done|done].
  ret. unfold upd_thread at 1. simpl. rewrite !alter_insert_eq. simpl.
  erewrite (alloc_frame_ret _ sef); [|simpl; rewrite lookup_insert_eq; done|done|done].
  ret. unfold upd_thread at 1. simpl. rewrite !alter_insert_eq. simpl.
  erewrite (alloc_frame_ret _ stf); [|simpl; rewrite lookup_insert_eq; done|done|done].
  ret. unfold upd_thread at 1. simpl. rewrite !alter_insert_eq. simpl.
  eexists. split; [|by destruct k]. done.
Qed.

(** ** Operations as a step relation *)

Variables sef stf : Z.

Definition quiescent (k : kern) : Prop := sched_wf k ∧ in_external_intr (cpu k) = false.

(** What a thread may do, outside interrupt handlers; the label is the thread that a
    [thread_unblock] wakes.  The idle thread does not exit, it is not woken by
    [thread_unblock], and [palloc_get_page] returns a page that is not in use. *)
Inductive thread_step (k : kern) : option Z → kern → Prop :=
  | step_yield k' : thread_yield k = Ret k' → thread_step k None k'
  | step_block l k' : thread_block l k = Ret k' → thread_step k None k'
  | step_unblock t k' :
      idle_thread k ≠ Some t → thread_unblock t k = Ret k' → thread_step k (Some t) k'
  | step_exit k' :
      idle_thread k ≠ Some (running k) → thread_exit k = Ret k' → thread_step k None k'
  | step_create nm prio t new_tid k' :
      threads k !! t = None →
      thread_create sef stf nm prio (Some t) k = Ret (new_tid, k') → thread_step k None k'
  | step_set_priority p k' : thread_set_priority p k = Ret k' → thread_step k None k'
  | step_set_nice n k' : thread_set_nice n k = Ret k' → thread_step k None k'
  | step_idle_enter k' :
      idle_thread k = Some (running k) → idle_enter k = Ret k' → thread_step k None k'
  | step_intr l old i :
      intr_set_level l (cpu k) = Ret (old, i) → thread_step k None (k <| cpu := i |>).

Definition sched_step (k k' : kern) : Prop := ∃ woken, thread_step k woken k'.

Lemma resumed_quiescent k s k' : resumed k s k' → quiescent k'.
Proof. intros []. by split. Qed.

Lemma yield_quiescent k k' : quiescent k → thread_yield k = Ret k' → quiescent k'.
Proof.
  intros [Hwf Hext] Hy. destruct (thread_yield_spec k Hwf Hext) as (k2 & Hk2 & Hres).
  ret_inj. by eapply resumed_quiescent.
Qed.

Lemma unblock_quiescent t k k' :
  quiescent k → idle_thread k ≠ Some t → thread_unblock t k = Ret k' → quiescent k'.
Proof.
  intros [Hwf Hext] Hidle Hu.
  assert (∃ th, threads k !! t = Some th ∧ status th = THREAD_BLOCKED) as (th & Ht & Hs).
  { unfold thread_unblock, with_intr_off in Hu. inv_bind. unfold thread_at in *. inv_bind.
    rewrite bool_decide_eq_true in *. eauto. }
  destruct (thread_unblock_spec t k th Hwf (or_introl Hext) Ht Hs Hidle) as [Heq Hwf'].
  ret_inj. by split.
Qed.

(** The stages of a [thread_create] that returned: the new page, the wake-up of
    its thread, and the yield. *)
Lemma thread_create_Ret nm prio t k new_tid k' :
  sef mod 4 = 0 → stf mod 4 = 0 →
  quiescent k → threads k !! t = None →
  thread_create sef stf nm prio (Some t) k = Ret (new_tid, k') →
  ∃ th k7, status th = THREAD_BLOCKED ∧
    let k6 := k <| threads := <[t := th]> (threads k) |> <| all_list := all_list k ++ [t] |>
                <| next_tid := s32 (next_tid k + 1) |>
                <| resume_level := <[t := INTR_ON]> (resume_level k) |> in
    quiescent k6 ∧ idle_thread k6 ≠ Some t ∧
    thread_unblock t k6 = Ret k7 ∧ thread_yield k7 = Ret k'.
Proof.
  intros Hsef Hstf [Hwf Hext] Hfresh Hc.
  destruct (sw_running k Hwf) as (cth & Hcur & _).
  assert (PRI_MIN ≤ prio ≤ PRI_MAX) as Hp.
  { unfold thread_create, init_thread in Hc. inv_bind. bool_to_prop. lia. }
  destruct (thread_create_unfold sef stf nm prio t k cth) as (th & Hth & Heq); [done..|].
  rewrite Heq in Hc. destruct Hth as (_ & Hs & _ & _ & Hm).
  apply bind_Ret_inv in Hc as (k7 & H7 & Hc). apply bind_Ret_inv in Hc as (k8 & H8 & Hc).
  simplify_eq. exists th, k7. split; [done|]. split; [|split_and!; [|done|done]].
  - split; [|done].
    apply (sched_wf_frame (k <| threads := <[t := th]> (threads k) |>)); [done..|].
    by apply sched_wf_insert.
  - simpl. intros Hi. destruct (qw_idle k (sw_queue k Hwf)) as (i & ith & Hi' & Hti & _).
    congruence.
Qed.

Lemma create_quiescent nm prio t k new_tid k' :
  sef mod 4 = 0 → stf mod 4 = 0 →
  quiescent k → threads k !! t = None →
  thread_create sef stf nm prio (Some t) k = Ret (new_tid, k') → quiescent k'.
Proof.
  intros Hsef Hstf Hq Hfresh Hc.
  destruct (thread_create_Ret nm prio t k new_tid k') as (th & k7 & _ & Hq6 & ? & ? & ?); [done..|].
  eapply yield_quiescent; [|done]. by eapply unblock_quiescent.
Qed.

(** [thread_set_nice] updates two fields of the caller and yields. *)
Lemma thread_set_nice_Ret n k k' :
  quiescent k → thread_set_nice n k = Ret k' →
  ∃ p, thread_yield (upd_thread (running k) (λ th, th <| nice := n |> <| priority := p |>) k)
         = Ret k'.
Proof.
  intros [Hwf Hext] Hs. unfold thread_set_nice in Hs. rewrite thread_current_ret in Hs by done.
  destruct (sw_running k Hwf) as (cth & Hcur & _). unfold thread_at in Hs.
  apply bind_Ret_inv in Hs as (u & _ & Hs). simpl in Hs. rewrite Hcur in Hs. simpl in Hs.
  destruct (update_priority_ret (cth <| nice := n |>)) as [p Hp]. rewrite Hp in Hs.
  exists p. rewrite <- Hs. cbn [mbind outcome_bind]. unfold upd_thread.
  assert (alter (λ th, th <| nice := n |> <| priority := p |>) (running k) (threads k) =
    alter (λ _, cth <| nice := n |> <| priority := p |>) (running k) (threads k)) as ->; [|done].
  apply map_eq. intros t. destruct (decide (t = running k)) as [->|].
  - by rewrite !lookup_alter_eq, Hcur.
  - by rewrite !lookup_alter_ne.
Qed.

Lemma sched_step_quiescent k k' :
  sef mod 4 = 0 → stf mod 4 = 0 → quiescent k → sched_step k k' → quiescent k'.
Proof.
  intros Hsef Hstf Hq [woken Hstep]. pose proof Hq as [Hwf Hext].
  destruct Hstep as [k' Hs|l k' Hs|t k' Hi Hs|k' Hi Hs|nm prio t new_tid k' Hf Hs|p k' Hs|n k' Hs
                |k' Hi Hs|l old i Hs].
  - by eapply yield_quiescent.
  - assert (if_flag (cpu k) = INTR_OFF) as Hoff.
    { unfold thread_block in Hs. inv_bind. by rewrite bool_decide_eq_true in *. }
    destruct (thread_block_spec l k Hwf Hext Hoff) as (k2 & Hk2 & Hres). ret_inj.
    by eapply resumed_quiescent.
  - by eapply unblock_quiescent.
  - destruct (sw_running k Hwf) as (cth & Hcur & _).
    assert (held_locks cth = []) as Hheld.
    { unfold thread_exit in Hs. rewrite thread_current_ret in Hs by done.
      unfold thread_at in Hs. inv_bind. by rewrite bool_decide_eq_true in *. }
    destruct (thread_exit_spec k cth Hwf Hext Hi Hcur Hheld) as (k2 & Hk2 & Hres).
    ret_inj. by eapply resumed_quiescent.
  - by eapply create_quiescent.
  - unfold thread_set_priority in Hs. inv_bind. eapply yield_quiescent; [|done].
    split; [|done]. by apply sched_wf_upd.
  - destruct (thread_set_nice_Ret n k k') as [q Hy]; [done..|].
    eapply yield_quiescent; [|done]. split; [|done]. by apply sched_wf_upd.
  - unfold idle_enter in Hs. rewrite thread_current_ret in Hs by done. simplify_eq/=.
    split; [|done]. by apply (sched_wf_frame k).
  - split; [by apply (sched_wf_frame k)|]. simpl.
    destruct l; simpl in Hs; unfold intr_enable, intr_disable in Hs; inv_bind; done.
Qed.
End operations.

(** Sanity of the sample kernel of Threads.v as a scheduler state. *)
Lemma sample_wf : sched_wf Sample.kernel.
Proof.
  split; [split|..].
  - change (map_Forall (λ _ th, magic th = THREAD_MAGIC) (threads Sample.kernel)).
    apply (bool_decide_unpack _). vm_compute. exact I.
  - apply NoDup_singleton.
  - intros t ->%list_elem_of_singleton. eexists. split; reflexivity.
  - change (map_Forall (λ t th, status th = THREAD_READY →
      t ∈ [16384] ∨ idle_thread Sample.kernel = Some t) (threads Sample.kernel)).
    apply (bool_decide_unpack _). vm_compute. exact I.
  - exists 8192, (Sample.mk 2 THREAD_BLOCKED "idle" 0 []).
    split_and!; [done..|]. intros ?%list_elem_of_singleton. done.
  - eexists. split; reflexivity.
  - change (map_Forall (λ t th, status th = THREAD_RUNNING → t = 4096) (threads Sample.kernel)).
    apply (bool_decide_unpack _). vm_compute. exact I.
Qed.

Section properties.
Context `{KernelList, !KernelListLaws}.

Lemma yield_max (k k' : kern) (u : Z) :
  sched_wf k → resumed k THREAD_READY k' → u ∈ ready_list k' →
  priority_key k' u ≤ priority_key k' (running k').
Proof.
  intros Hwf Hres Hu. pose proof (rs_same _ _ _ Hres ltac:(done)) as Hsame.
  rewrite !(priority_key_same k k') by done.
  destruct (decide (requeue k THREAD_READY = [])) as [E|E].
  - destruct (rs_empty _ _ _ Hres E) as [_ Hnil]. rewrite Hnil in Hu.
    by apply not_elem_of_nil in Hu.
  - by apply (rs_max _ _ _ Hres E).
Qed.

Lemma same_donation_effective k k' t p :
  same_donation k k' → effective_priority k t p → effective_priority k' t p.
Proof.
  intros Hs.
  assert (∀ k k' x y, same_donation k k' → donates k x y → donates k' x y) as Hd.
  { clear. intros k k' x y Hs (th & Hx & Hy).
    destruct (same_donation_lookup k' k x th (same_donation_sym _ _ Hs) Hx) as (th' & Hx' & Hv).
    exists th'. split; [done|]. unfold direct_donors, lock_waiters in *.
    unfold donation_view in Hv. destruct Hs as (_ & -> & _).
    by replace (held_locks th') with (held_locks th) by congruence. }
  assert (∀ k k' x y, same_donation k k' → rtc (donates k) x y → rtc (donates k') x y) as Hr.
  { clear -Hd. intros k k' x y Hs Hxy. induction Hxy; [done|]. eapply rtc_l; eauto. }
  intros [Hub (v & vth & Hv & Hvth & Hvp)]. split.
  - intros u uth Hu Huth. destruct (same_donation_lookup k k' u uth Hs Huth) as (th & Hth & He).
    unfold donation_view in He. simplify_eq.
    replace (base_priority uth) with (base_priority th) by congruence.
    apply (Hub u th); [|done]. by apply (Hr k' k); [apply same_donation_sym|].
  - destruct (same_donation_lookup k' k v vth (same_donation_sym _ _ Hs) Hvth) as (th & Hth & He).
    exists v, th. split_and!; [by apply (Hr k k')|done|]. unfold donation_view in He. congruence.
Qed.

(** C22. After [thread_yield] the CPU runs the thread whose effective (donated)
    priority is the highest among all runnable threads, and no runnable thread
    is lost: the run queue and the running thread are a permutation of what
    they were before.  The idle thread only runs when nothing else can. *)
Theorem thread_yield_runs_highest (k : kern) (p q u : Z) :
  quiescent k → thread_mlfqs k = false → wait_graph_wf k →
  (∀ t th, threads k !! t = Some th → PRI_MIN ≤ base_priority th) →
  idle_thread k ≠ Some (running k) →
  ∃ k', thread_yield k = Ret k' ∧ sched_wf k' ∧
    running k' :: ready_list k' ≡ₚ running k :: ready_list k ∧
    (u ∈ ready_list k' → effective_priority k' u p →
     effective_priority k' (running k') q → p ≤ q).
Proof.
  intros [Hwf Hext] Hm Hg Hmin Hidle.
  destruct (thread_yield_spec k Hwf Hext) as (k' & Hy & Hres).
  exists k'. split; [done|]. split; [by eapply rs_wf|].
  pose proof (rs_same _ _ _ Hres ltac:(done)) as Hsame.
  assert (requeue k THREAD_READY = ready_list k ++ [running k]) as Hrq
    by (unfold requeue; by rewrite bool_decide_eq_true_2).
  destruct (rs_max _ _ _ Hres) as [Hp _]; [rewrite Hrq; by destruct (ready_list k)|]. split.
  - rewrite <- Hp, Hrq. by rewrite Permutation_app_comm.
  - intros Hu Hpe Hqe. pose proof (yield_max k k' u Hwf Hres Hu) as Hle.
    rewrite !(priority_key_same k k') in Hle by done.
    assert (∀ t, is_Some (threads k' !! t) → is_Some (threads k !! t)) as Hlive.
    { intros t [th Hth]. destruct (same_donation_lookup k k' t th Hsame Hth) as (? & ? & _). eauto. }
    apply (same_donation_effective k' k) in Hpe, Hqe; [|by apply same_donation_sym..].
    apply priority_key_effective in Hpe, Hqe; [lia|done..| |done|done|done|].
    + apply Hlive. destruct (sw_running k' (rs_wf _ _ _ Hres)) as (? & ? & _). eauto.
    + apply Hlive. destruct (qw_ready k' (sw_queue _ (rs_wf _ _ _ Hres)) u Hu) as (? & ? & _). eauto.
Qed.

(** [thread_create] returns [TID_ERROR] and changes nothing when no page is
    available; otherwise it returns the next tid, the state stays consistent,
    the new thread has the requested priority and is queued or already
    running, and the thread now running has the greatest priority. *)
Theorem thread_create_correct (sef stf : Z) (nm : string) (prio t : Z) (k : kern) :
  sef mod 4 = 0 → stf mod 4 = 0 → quiescent k → idle_thread k ≠ Some (running k) →
  PRI_MIN ≤ prio ≤ PRI_MAX → threads k !! t = None →
  thread_create sef stf nm prio None k = Ret (TID_ERROR, k) ∧
  ∃ k' th, thread_create sef stf nm prio (Some t) k = Ret (next_tid k, k') ∧
    quiescent k' ∧ next_tid k' = s32 (next_tid k + 1) ∧
    threads k' !! t = Some th ∧ tid th = next_tid k ∧ base_priority th = prio ∧
    running k' :: ready_list k' ≡ₚ running k :: t :: ready_list k ∧
    ∀ u, u ∈ ready_list k' → priority_key k' u ≤ priority_key k' (running k').
Proof.
  intros Hsef Hstf Hq Hidle Hp Hfresh. split; [done|]. pose proof Hq as [Hwf Hext].
  destruct (sw_running k Hwf) as (cth & Hcur & _).
  destruct (thread_create_unfold sef stf nm prio t k cth) as (th & Hth & Heq); [done..|].
  rewrite Heq. destruct Hth as (Htid & Hs & Hb & Hh & Hmg).
  set (k6 := k <| threads := <[t := th]> (threads k) |> <| all_list := all_list k ++ [t] |>
    <| next_tid := s32 (next_tid k + 1) |> <| resume_level := <[t := INTR_ON]> (resume_level k) |>).
  assert (sched_wf k6) as Hwf6.
  { apply (sched_wf_frame (k <| threads := <[t := th]> (threads k) |>)); [done..|].
    by apply sched_wf_insert. }
  assert (idle_thread k ≠ Some t) as Hit.
  { intros Hi. destruct (qw_idle k (sw_queue k Hwf)) as (i & ith & Hi' & Hti & _). congruence. }
  destruct (thread_unblock_spec t k6 th Hwf6) as [H7 Hwf7];
    [by left|simpl; by rewrite lookup_insert_eq|done|done|].
  rewrite H7. ret. set (k7 := upd_thread _ _ _) in *.
  destruct (thread_yield_spec k7 Hwf7 Hext) as (k8 & H8 & Hres). rewrite H8. ret.
  pose proof (rs_same _ _ _ Hres ltac:(done)) as Hsame.
  assert (threads k7 !! t = Some (th <| status := THREAD_READY |>)) as Ht7.
  { subst k7 k6. simpl. by rewrite lookup_alter_eq, lookup_insert_eq. }
  destruct (same_donation_lookup k8 k7 t _ (same_donation_sym _ _ Hsame) Ht7) as (th8 & Ht8 & Hv).
  pose proof (rs_keep _ _ _ Hres ltac:(done)) as [Hnt Hk].
  destruct (Hk t _ _ Ht7 Ht8) as [Htid8 Hb8].
  exists k8, th8. split; [done|]. split; [by eapply resumed_quiescent|].
  split; [done|]. split; [done|]. split; [by rewrite Htid8|]. split; [by rewrite Hb8|].
  assert (requeue k7 THREAD_READY = (ready_list k ++ [t]) ++ [running k]) as Hrq
    by (unfold requeue; by rewrite bool_decide_eq_true_2).
  split; [|intros u Hu; by eapply yield_max].
  destruct (rs_max _ _ _ Hres) as [Hperm _]; [rewrite Hrq; by destruct (ready_list k)|].
  rewrite <- Hperm, Hrq. solve_Permutation.
Qed.

(** C2. Whatever sequence of yields, blocks, wake-ups, exits, creations, priority
    and nice changes the threads perform, exactly one thread is RUNNING and it
    is the one on the CPU, the run queue holds each READY thread exactly once
    and nothing else, and the idle thread stays available. *)
Theorem scheduler_invariant (sef stf : Z) (k k' : kern) :
  sef mod 4 = 0 → stf mod 4 = 0 → quiescent k → rtc (sched_step sef stf) k k' → quiescent k'.
Proof.
  intros Hsef Hstf Hq Hr. induction Hr as [|k1 k2 k3 Hs _ IH]; [done|].
  apply IH. exact (sched_step_quiescent sef stf k1 k2 Hsef Hstf Hq Hs).
Qed.

(** [thread_set_priority] rejects a priority outside [PRI_MIN..PRI_MAX] with an
    assertion failure; otherwise it changes only the caller's base priority and
    immediately gives the CPU to a thread of greatest priority. *)
Theorem thread_set_priority_correct (p : Z) (k : kern) :
  quiescent k → idle_thread k ≠ Some (running k) →
  (thread_set_priority p k = Panic ↔ ¬ (PRI_MIN ≤ p ≤ PRI_MAX)) ∧
  (PRI_MIN ≤ p ≤ PRI_MAX →
   ∃ k' th, thread_set_priority p k = Ret k' ∧ quiescent k' ∧
     threads k' !! running k = Some th ∧ base_priority th = p ∧
     running k' :: ready_list k' ≡ₚ running k :: ready_list k ∧
     ∀ u, u ∈ ready_list k' → priority_key k' u ≤ priority_key k' (running k')).
Proof.
  intros [Hwf Hext] Hidle.
  assert (PRI_MIN ≤ p ≤ PRI_MAX →
   ∃ k' th, thread_set_priority p k = Ret k' ∧ quiescent k' ∧
     threads k' !! running k = Some th ∧ base_priority th = p ∧
     running k' :: ready_list k' ≡ₚ running k :: ready_list k ∧
     ∀ u, u ∈ ready_list k' → priority_key k' u ≤ priority_key k' (running k')) as Hok.
  { intros Hp. unfold thread_set_priority.
    rewrite ASSERT_true by (apply andb_true_intro; split; apply Z.leb_le; lia). ret.
    rewrite thread_current_ret by done. ret.
    set (k1 := upd_thread _ _ _).
    assert (sched_wf k1) as Hwf1 by by apply sched_wf_upd.
    destruct (thread_yield_spec k1 Hwf1 Hext) as (k' & -> & Hres).
    destruct (sw_running k Hwf) as (cth & Hcur & _).
    assert (threads k1 !! running k = Some (cth <| base_priority := p |>)) as H1.
    { subst k1. simpl. by rewrite lookup_alter_eq, Hcur. }
    pose proof (rs_same _ _ _ Hres ltac:(done)) as Hsame.
    destruct (same_donation_lookup k' k1 _ _ (same_donation_sym _ _ Hsame) H1) as (th' & Ht' & _).
    destruct (rs_keep _ _ _ Hres ltac:(done)) as [_ Hk].
    destruct (Hk _ _ _ H1 Ht') as [_ Hb].
    exists k', th'. split; [done|]. split; [by eapply resumed_quiescent|].
    split; [done|]. split; [done|].
    assert (requeue k1 THREAD_READY = ready_list k ++ [running k]) as Hrq
      by (unfold requeue; by rewrite bool_decide_eq_true_2).
    split; [|intros u Hu; by eapply yield_max].
    destruct (rs_max _ _ _ Hres) as [Hperm _]; [rewrite Hrq; by destruct (ready_list k)|].
    rewrite <- Hperm, Hrq. by rewrite Permutation_app_comm. }
  split; [|done]. split.
  - intros Hpanic Hp. destruct (Hok Hp) as (? & ? & ? & _). congruence.
  - intros Hp. unfold thread_set_priority. unfold ASSERT.
    destruct ((PRI_MIN <=? p) && (p <=? PRI_MAX)) eqn:E; [|done]. bool_to_prop. lia.
Qed.
End properties.

(** ** Witnesses: the sample kernel, with the list operations of [ListModel] *)

#[local] Existing Instances ListModel.ops ListModel.laws.

Lemma sample_quiescent : quiescent Sample.kernel.
Proof. split; [exact sample_wf|reflexivity]. Qed.

Lemma thread_yield_runs_highest_witness :
  ∃ k', thread_yield Sample.kernel = Ret k' ∧ sched_wf k' ∧
    running k' :: ready_list k' ≡ₚ running Sample.kernel :: ready_list Sample.kernel ∧
    (16384 ∈ ready_list k' → effective_priority k' 16384 40 →
     effective_priority k' (running k') 60 → 40 ≤ 60).
Proof.
  apply (thread_yield_runs_highest Sample.kernel 40 60 16384).
  - exact sample_quiescent.
  - reflexivity.
  - exact Sample.kernel_graph.
  - exact Sample.kernel_min.
  - vm_compute. discriminate.
Defined.

Lemma thread_create_correct_witness :
  thread_create 4 28 "worker" 55 None Sample.kernel = Ret (TID_ERROR, Sample.kernel) ∧
  ∃ k' th, thread_create 4 28 "worker" 55 (Some 24576) Sample.kernel
      = Ret (next_tid Sample.kernel, k') ∧
    quiescent k' ∧ next_tid k' = s32 (next_tid Sample.kernel + 1) ∧
    threads k' !! 24576 = Some th ∧ tid th = next_tid Sample.kernel ∧ base_priority th = 55 ∧
    running k' :: ready_list k' ≡ₚ
      running Sample.kernel :: 24576 :: ready_list Sample.kernel ∧
    ∀ u, u ∈ ready_list k' → priority_key k' u ≤ priority_key k' (running k').
Proof.
  apply (thread_create_correct 4 28 "worker" 55 24576 Sample.kernel).
  - reflexivity.
  - reflexivity.
  - exact sample_quiescent.
  - vm_compute. discriminate.
  - split; vm_compute; discriminate.
  - reflexivity.
Defined.

Lemma thread_set_priority_correct_witness :
  (thread_set_priority 5 Sample.kernel = Panic ↔ ¬ (PRI_MIN ≤ 5 ≤ PRI_MAX)) ∧
  (PRI_MIN ≤ 5 ≤ PRI_MAX →
   ∃ k' th, thread_set_priority 5 Sample.kernel = Ret k' ∧ quiescent k' ∧
     threads k' !! running Sample.kernel = Some th ∧ base_priority th = 5 ∧
     running k' :: ready_list k' ≡ₚ running Sample.kernel :: ready_list Sample.kernel ∧
     ∀ u, u ∈ ready_list k' → priority_key k' u ≤ priority_key k' (running k')).
Proof.
  apply (thread_set_priority_correct 5 Sample.kernel).
  - exact sample_quiescent.
  - vm_compute. discriminate.
Defined.

Lemma scheduler_invariant_witness :
  ∃ k', thread_yield Sample.kernel = Ret k' ∧ quiescent k'.
Proof.
  eexists. split; [vm_compute; reflexivity|].
  eapply (scheduler_invariant 4 28 Sample.kernel); [reflexivity|reflexivity|exact sample_quiescent|].
  eapply rtc_l; [|apply rtc_refl]. exists None. apply step_yield. vm_compute. reflexivity.
Defined.
