(* ===== verification/Timer.v ===== *)
(** * The timer (priority-scheduler/devices/timer.c) and interrupt dispatch
    ([intr_handler] of threads/interrupt.c)

    Sleeping threads wait on [asleep_list], sorted by wake-up tick; the timer
    interrupt counts the tick, accounts for it ([thread_tick]) and wakes every
    thread whose tick has come.  The calibration runs on a machine of constant speed,
    which is a parameter: its waiting loops take time, and ticks come at regular
    instants of it.  A delay is the number of rounds that [busy_wait] is asked for. *)
From S2P Require Import Prelude CInt Ext FixedPoint Interrupt Threads Mlfqs Scheduler.
From stdpp Require Import strings relations sorting.
Open Scope Z_scope.

(** ** Sleeping and waking *)

Definition timer_ticks (k : kern) : outcome (Z * kern) :=
  let '(old_level, i) := intr_disable (cpu k) in
  let t := ticks k in
  '(_, i') ← intr_set_level old_level i;
  Ret (t, k <| cpu := i' |>).

Definition timer_elapsed (thn : Z) (k : kern) : outcome (Z * kern) :=
  '(t, k') ← timer_ticks k; Ret (s64 (t - thn), k').

Definition wakeup_key (k : kern) (t : Z) : Z := default 0 (wakeup_ticks <$> threads k !! t).

Definition wakes_up_before (k : kern) (t1 t2 : Z) : bool := wakeup_key k t1 <? wakeup_key k t2.

Section timer.
Context `{KernelList}.

(** [timer_sleep], up to the point where the next thread runs; [intr_enable] is
    what the sleeper does when it is resumed. *)
Definition timer_sleep (n : Z) (k : kern) : outcome kern :=
  '(start, k0) ← timer_ticks k;
  ASSERT (bool_decide (intr_get_level (cpu k0) = INTR_ON));;
  t ← thread_current k0;
  let k1 := upd_thread t (λ th, th <| wakeup_ticks := s64 (start + n) |>) k0 in
  let '(_, i) := intr_disable (cpu k1) in
  let k2 := k1 <| cpu := i |> in
  let k3 := k2 <| asleep_list := list_insert_ordered (wakes_up_before k2) t (asleep_list k2) |> in
  thread_block INTR_ON k3.

(** The loop of [timer_interrupt]; [es] is the rest of [asleep_list] from [e]. *)
Fixpoint wake_loop (es : list Z) (k : kern) : outcome kern :=
  match es with
  | [] => Ret k
  | e :: es' =>
      th ← thread_at k e;
      if ticks k <? wakeup_ticks th then Ret k
      else
        k' ← thread_unblock e k;
        wake_loop es' (k' <| asleep_list := list_remove e (asleep_list k') |>)
  end.

Definition timer_interrupt (k : kern) : outcome kern :=
  let k1 := k <| ticks := s64 (ticks k + 1) |> in
  k2 ← thread_tick k1;
  wake_loop (asleep_list k2) k2.

(** ** Interrupt dispatch

    [log] collects the port writes of the interrupt controller. *)
Definition intr_handler (vec_no : Z) (s : idt_state (kern → outcome kern)) (k : kern)
    : outcome (idt_state (kern → outcome kern) * kern * list (Z * Z)) :=
  let external := (32 <=? vec_no) && (vec_no <? 48) in
  k1 ← (if external then
          ASSERT (bool_decide (intr_get_level (cpu k) = INTR_OFF));;
          ASSERT (negb (intr_context (cpu k)));;
          Ret (k <| cpu := (cpu k) <| in_external_intr := true |>
                                   <| yield_on_return := false |> |>)
        else Ret k);
  '(s2, k2) ← match intr_handlers s !! vec_no with
              | Some handler => k' ← handler k1; Ret (s, k')
              | None =>
                  if (vec_no =? 39) || (vec_no =? 47) then Ret (s, k1)
                  else let '(_, s') := unexpected_interrupt vec_no s in Ret (s', k1)
              end;
  if external then
    ASSERT (bool_decide (intr_get_level (cpu k2) = INTR_OFF));;
    ASSERT (intr_context (cpu k2));;
    let k3 := k2 <| cpu := (cpu k2) <| in_external_intr := false |> |> in
    log ← pic_end_of_interrupt vec_no;
    if yield_on_return (cpu k3) then k4 ← thread_yield k3; Ret (s2, k4, log)
    else Ret (s2, k3, log)
  else Ret (s2, k2, []).

Definition timer_init (sel : Z) (intr_stubs : Z → Z) (s : idt_state (kern → outcome kern))
    (k : kern) : outcome (idt_state (kern → outcome kern) * kern) :=
  s' ← intr_register_ext sel intr_stubs 32 timer_interrupt "8254 Timer" s;
  Ret (s', k <| asleep_list := [] |>).
End timer.

(** ** Delays

    Time is counted in rounds of the waiting loops, and [hz] is the speed of the
    machine: [hz] rounds fit between two ticks, so that the tick count at the
    instant [now] is [now / (hz + 1)].  The functions that wait take the instant at
    which they start and return the one at which they end. *)
Section delays.
Variable hz : Z.







End delays.

(** [real_time_delay]: the iterations [busy_wait] is asked for. *)
Definition real_time_delay (loops_per_tick num denom : Z) : outcome Z :=
  ASSERT (Z.rem denom 1000 =? 0);;
  a ← sdiv64 (s64 (loops_per_tick * num)) 1000;
  d ← sdiv32 denom 1000;
  sdiv64 (s64 (a * TIMER_FREQ)) d.

(** [real_time_sleep]: sleep for a number of ticks, or busy-wait. *)
Inductive pause := Sleep (n : Z) | Busy (loops : Z).

Definition real_time_sleep (loops_per_tick num denom : Z) (i : intr) : outcome pause :=
  n ← sdiv64 (s64 (num * TIMER_FREQ)) denom;
  ASSERT (bool_decide (intr_get_level i = INTR_ON));;
  if 0 <? n then Ret (Sleep n)
  else Busy <$> real_time_delay loops_per_tick num denom.

Definition timer_msleep (lpt ms : Z) (i : intr) := real_time_sleep lpt ms 1000 i.
Definition timer_usleep (lpt us : Z) (i : intr) := real_time_sleep lpt us 1000000 i.
Definition timer_nsleep (lpt ns : Z) (i : intr) := real_time_sleep lpt ns 1000000000 i.
Definition timer_mdelay (lpt ms : Z) := real_time_delay lpt ms 1000.
Definition timer_udelay (lpt us : Z) := real_time_delay lpt us 1000000.
Definition timer_ndelay (lpt ns : Z) := real_time_delay lpt ns 1000000000.

(** ** What accounting leaves alone *)

(** The fields of a thread that scheduling and sleeping depend on. *)
Definition sched_view (th : thread) : thread_status * Z * Z :=
  (status th, wakeup_ticks th, magic th).

(** [k'] differs from [k] only in counters and in the accounting fields of threads. *)
Record account_frame (k k' : kern) : Prop := {
  af_lists : ready_list k' = ready_list k ∧ asleep_list k' = asleep_list k ∧
    idle_thread k' = idle_thread k ∧ running k' = running k ∧ ticks k' = ticks k ∧
    resume_level k' = resume_level k ∧ all_list k' = all_list k;
  af_cpu : if_flag (cpu k') = if_flag (cpu k) ∧
    in_external_intr (cpu k') = in_external_intr (cpu k);
  af_threads : ∀ t, sched_view <$> threads k' !! t = sched_view <$> threads k !! t
}.

#[export] Instance account_frame_preorder : PreOrder account_frame.
Proof.
  split; [done|]. intros k1 k2 k3 [(?&?&?&?&?&?&?) [] Ha] [(?&?&?&?&?&?&?) [] Hb].
  split; [split_and!; congruence..|]. intros t. by rewrite Hb, Ha.
Qed.

Lemma account_frame_upd k t g :
  (∀ th, sched_view (g th) = sched_view th) → account_frame k (upd_thread t g k).
Proof.
  intros Hg. split; [done..|]. intros u. simpl. destruct (decide (u = t)) as [->|].
  - rewrite lookup_alter_eq. destruct (threads k !! t); simpl; by rewrite ?Hg.
  - by rewrite lookup_alter_ne.
Qed.

Lemma account_frame_set k t th th' :
  threads k !! t = Some th → sched_view th' = sched_view th →
  account_frame k (upd_thread t (λ _, th') k).
Proof.
  intros Ht Hv. split; [done..|]. intros u. simpl. destruct (decide (u = t)) as [->|].
  - rewrite lookup_alter_eq, Ht. simpl. by rewrite Hv.
  - by rewrite lookup_alter_ne.
Qed.

Lemma account_frame_lookup k k' t th :
  account_frame k k' → threads k !! t = Some th →
  ∃ th', threads k' !! t = Some th' ∧ sched_view th' = sched_view th.
Proof.
  intros [_ _ Hf] Ht. specialize (Hf t). rewrite Ht in Hf.
  apply fmap_Some in Hf as (th' & ? & ?). by exists th'.
Qed.

Lemma account_frame_sym k k' : account_frame k k' → account_frame k' k.
Proof. intros [(?&?&?&?&?&?&?) [] ?]. by split. Qed.

(** [thread_foreach] with a callback that only writes accounting fields. *)
Lemma foreach_frame func (l : list Z) (k k' : kern) :
  (∀ th th', func th = Ret th' → sched_view th' = sched_view th) →
  foldl (λ mk e, k ← mk; th ← thread_at k e; th' ← func th; Ret (upd_thread e (λ _, th') k))
    (Ret k) l = Ret k' → account_frame k k'.
Proof.
  intros Hf. revert k. induction l as [|e l IH]; intros k.
  - simpl. intros [= ->]. done.
  - simpl. unfold thread_at at 2. destruct (threads k !! e) as [th|] eqn:He; simpl.
    + destruct (func th) as [th'| |] eqn:Hth; simpl.
      * intros Hk. etrans; [|by apply IH]. eapply account_frame_set; eauto.
      * clear IH. induction l; simpl; [done|done].
      * clear IH. induction l; simpl; [done|done].
    + clear IH. induction l; simpl; [done|done].
Qed.

Lemma foreach_ret func (l : list Z) (k : kern) :
  (∀ th, ∃ th', func th = Ret th' ∧ sched_view th' = sched_view th) →
  (∀ e, e ∈ l → is_Some (threads k !! e)) →
  ∃ k', foldl (λ mk e, k ← mk; th ← thread_at k e; th' ← func th;
                 Ret (upd_thread e (λ _, th') k)) (Ret k) l = Ret k'.
Proof.
  intros Hf. revert k. induction l as [|e l IH]; intros k Hl; [by eexists|].
  simpl. unfold thread_at at 2. destruct (Hl e) as [th Hth]; [set_solver|]. rewrite Hth. simpl.
  destruct (Hf th) as (th' & -> & Hv). simpl. apply IH. intros u Hu.
  destruct (Hl u) as [uth Huth]; [set_solver|].
  destruct (account_frame_lookup _ _ _ _ (account_frame_set _ _ _ _ Hth Hv) Huth) as (x & ? & _).
  by eexists.
Qed.

Lemma update_recent_cpu_view load th th' :
  update_recent_cpu load th = Ret th' → sched_view th' = sched_view th.
Proof. unfold update_recent_cpu. intros H. inv_bind. done. Qed.

Lemma update_priority_view th th' :
  update_priority th = Ret th' → sched_view th' = sched_view th.
Proof. destruct (update_priority_ret th) as [p ->]. by intros [= <-]. Qed.

Lemma update_load_avg_frame k k' : update_load_avg k = Ret k' → account_frame k k'.
Proof. unfold update_load_avg. intros H. inv_bind. by split. Qed.

Lemma mlfqs_tick_frame (t : Z) (k k' : kern) : mlfqs_tick t k = Ret k' → account_frame k k'.
Proof.
  unfold mlfqs_tick. intros H. apply bind_Ret_inv in H as (k3 & H3 & H2).
  trans (upd_thread t tick_recent_cpu k); [by apply account_frame_upd|].
  trans k3.
  - destruct (_ =? 0) in H3; [|by simplify_eq]. apply bind_Ret_inv in H3 as (k4 & H4 & H3).
    trans k4; [by apply update_load_avg_frame|]. unfold thread_foreach in H3.
    apply bind_Ret_inv in H3 as (_ & _ & H3). eapply foreach_frame; [|done].
    intros ? ?. apply update_recent_cpu_view.
  - destruct (_ =? 0) in H2; [|by simplify_eq]. unfold thread_foreach in H2.
    apply bind_Ret_inv in H2 as (_ & _ & H2). eapply foreach_frame; [|done].
    intros ? ?. apply update_priority_view.
Qed.

Lemma thread_tick_frame (k k' : kern) : thread_tick k = Ret k' → account_frame k k'.
Proof.
  unfold thread_tick. intros H. apply bind_Ret_inv in H as (t & _ & H). cbn zeta in H.
  set (k1 := if bool_decide _ then _ else _) in *.
  assert (account_frame k k1) as H1 by (subst k1; by case_bool_decide).
  apply bind_Ret_inv in H as (k2 & H2 & H).
  assert (account_frame k1 k2) as H12.
  { destruct (thread_mlfqs k1); [by eapply mlfqs_tick_frame|by simplify_eq]. }
  trans k1; [done|]. trans k2; [done|].
  destruct (TIME_SLICE <=? _); [|by simplify_eq].
  apply bind_Ret_inv in H as (i & Hi & H). unfold intr_yield_on_return in Hi. inv_bind. by split.
Qed.

Lemma account_frame_wf k k' : account_frame k k' → sched_wf k → sched_wf k'.
Proof.
  intros Haf [[Hm Hnd Hr Hqd (i & ith & Hi & Hti & Hd & Hni)] (cth & Hc & Hrun) Hone].
  pose proof (account_frame_sym _ _ Haf) as Hsym.
  destruct (af_lists _ _ Haf) as (Er & _ & Ei & Eru & _).
  split; [split|..]; rewrite ?Er, ?Ei, ?Eru.
  - intros t th Ht. destruct (account_frame_lookup _ _ _ _ Hsym Ht) as (u & Hu & [= _ _ <-]). eauto.
  - done.
  - intros t (th & Ht & Hs)%Hr.
    destruct (account_frame_lookup _ _ _ _ Haf Ht) as (u & Hu & [= E _ _]).
    exists u. split; [done|congruence].
  - intros t th Ht Hs. destruct (account_frame_lookup _ _ _ _ Hsym Ht) as (u & Hu & [= E _ _]).
    apply (Hqd t u); [done|congruence].
  - destruct (account_frame_lookup _ _ _ _ Haf Hti) as (u & Hu & [= E _ _]).
    exists i, u. by rewrite E.
  - destruct (account_frame_lookup _ _ _ _ Haf Hc) as (u & Hu & [= E _ _]).
    exists u. by rewrite E.
  - intros t th Ht Hs. destruct (account_frame_lookup _ _ _ _ Hsym Ht) as (u & Hu & [= E _ _]).
    apply (Hone t u); [done|congruence].
Qed.

(** Under MLFQS the accounting needs the listed threads to be live and the load
    average to be that of at most 1310 threads. *)
Definition accounting_ok (k : kern) : Prop :=
  thread_mlfqs k = true →
  (∀ t, t ∈ all_list k → is_Some (threads k !! t)) ∧
  Z.of_nat (length (ready_list k)) < 1310 ∧ 0 ≤ load_avg k ≤ 1310 * 16384.

Lemma mlfqs_tick_ret (k : kern) :
  sched_wf k → if_flag (cpu k) = INTR_OFF → thread_mlfqs k = true → accounting_ok k →
  ∃ k', mlfqs_tick (running k) k = Ret k'.
Proof.
  intros Hwf Hoff Hm Hok. destruct (Hok Hm) as (Hall & Hlen & Hload). unfold mlfqs_tick.
  set (k1 := upd_thread _ _ k).
  assert (account_frame k k1) as Hk1 by by apply account_frame_upd.
  assert (∀ k2, account_frame k k2 → ∀ t, t ∈ all_list k2 → is_Some (threads k2 !! t)) as Hlive.
  { intros k2 Hk2 t. destruct (af_lists _ _ Hk2) as (_&_&_&_&_&_&->). intros Ht.
    destruct (Hall t Ht) as [th Hth].
    destruct (account_frame_lookup _ _ _ _ Hk2 Hth) as (th' & ? & _). by exists th'. }
  assert (∃ k2, (if Z.rem (ticks k1) TIMER_FREQ =? 0 then
      k' ← update_load_avg k1; thread_foreach (update_recent_cpu (load_avg k')) k'
      else Ret k1) = Ret k2 ∧ account_frame k k2) as (k2 & -> & Hk2).
  { destruct (_ =? 0); [|by exists k1].
    destruct (update_load_avg_ret k1 1310 (running k1)) as (l & El & Hl);
      [lia|apply thread_current_ret; by apply (account_frame_wf k)|done|done|].
    rewrite El. ret. unfold thread_foreach, intr_get_level. simpl. rewrite Hoff. ret.
    assert (account_frame k (k1 <| load_avg := l |>)) as Hk1' by (trans k1; [done|by split]).
    destruct (foreach_ret (update_recent_cpu l) (all_list k) (k1 <| load_avg := l |>))
      as [k2 Hk2].
    - intros th. destruct (update_recent_cpu_ret l th) as [c ->]; [lia|]. by eexists.
    - exact (Hlive _ Hk1').
    - exists k2. split; [exact Hk2|]. trans (k1 <| load_avg := l |>); [done|].
      eapply foreach_frame; [|exact Hk2]. intros ? ?. apply update_recent_cpu_view. }
  ret. destruct (_ =? 0); [|by eexists]. unfold thread_foreach, intr_get_level.
  destruct (af_cpu _ _ Hk2) as [-> _]. rewrite Hoff. ret.
  apply foreach_ret; [|exact (Hlive _ Hk2)].
  intros th. destruct (update_priority_ret th) as [p ->]. by eexists.
Qed.

Lemma thread_tick_ret (k : kern) :
  sched_wf k → if_flag (cpu k) = INTR_OFF → in_external_intr (cpu k) = true →
  accounting_ok k → ∃ k', thread_tick k = Ret k'.
Proof.
  intros Hwf Hoff Hext Hok. unfold thread_tick. rewrite thread_current_ret by done. ret.
  set (k1 := if bool_decide _ then _ else _).
  assert (∃ k2, (if thread_mlfqs k1 then mlfqs_tick (running k) k1 else Ret k1) = Ret k2 ∧
    in_external_intr (cpu k2) = true) as (k2 & -> & Hk2).
  { assert (account_frame k k1 ∧ thread_mlfqs k1 = thread_mlfqs k ∧ running k1 = running k ∧
      (accounting_ok k → accounting_ok k1)) as (Hf & Em & Eru & Hok1)
      by (subst k1; by case_bool_decide).
    destruct (thread_mlfqs k1) eqn:Ek1.
    - rewrite <- Eru. destruct (mlfqs_tick_ret k1) as [k2 Hk2]; [|..|auto|].
      + by apply (account_frame_wf k).
      + destruct (af_cpu _ _ Hf) as [-> _]. done.
      + done.
      + exists k2. split; [done|]. trans (in_external_intr (cpu k)); [|done].
        destruct (af_cpu _ _ (mlfqs_tick_frame _ _ _ Hk2)) as [_ ->].
        by destruct (af_cpu _ _ Hf) as [_ ->].
    - exists k1. split; [done|]. by destruct (af_cpu _ _ Hf) as [_ ->]. }
  ret. destruct (TIME_SLICE <=? _); [|by eexists].
  unfold intr_yield_on_return, intr_context. simpl. rewrite Hk2. by eexists.
Qed.

(** ** The list of sleepers *)

(** [asleep_list] links blocked threads once each, sorted by wake-up tick. *)
Record sleepers_wf (k : kern) : Prop := {
  sl_nodup : NoDup (asleep_list k);
  sl_blocked : ∀ t, t ∈ asleep_list k →
    ∃ th, threads k !! t = Some th ∧ status th = THREAD_BLOCKED;
  sl_idle : ∀ t, t ∈ asleep_list k → idle_thread k ≠ Some t;
  sl_sorted : StronglySorted (λ a b, wakeup_key k a ≤ wakeup_key k b) (asleep_list k)
}.

Lemma sorted_key_ext (k k' : kern) l :
  (∀ t, t ∈ l → wakeup_key k' t = wakeup_key k t) →
  StronglySorted (λ a b, wakeup_key k a ≤ wakeup_key k b) l →
  StronglySorted (λ a b, wakeup_key k' a ≤ wakeup_key k' b) l.
Proof.
  intros He. induction 1 as [|x l Hs IH Hx]; [constructor|]. constructor.
  - apply IH. intros t Ht. apply He. by right.
  - rewrite Forall_forall in *. intros y Hy. rewrite !He; [by apply Hx|by right|by left].
Qed.

(** Steps that touch neither the sleepers nor their list keep it well formed. *)
Lemma sleepers_wf_frame (k k' : kern) :
  asleep_list k' = asleep_list k → idle_thread k' = idle_thread k →
  (∀ t, t ∈ asleep_list k → sched_view <$> threads k' !! t = sched_view <$> threads k !! t) →
  sleepers_wf k → sleepers_wf k' ∧ ∀ t, t ∈ asleep_list k → wakeup_key k' t = wakeup_key k t.
Proof.
  intros Ea Ei Hv [Hnd Hb Hi Hs].
  assert (∀ t, t ∈ asleep_list k → wakeup_key k' t = wakeup_key k t) as Hkey.
  { intros t Ht. specialize (Hv t Ht). unfold wakeup_key.
    destruct (threads k !! t), (threads k' !! t); simplify_eq/=; congruence. }
  split; [|done]. split; rewrite ?Ea, ?Ei; [done| |done|].
  - intros t Ht. destruct (Hb t Ht) as (th & Hth & Hst). specialize (Hv t Ht).
    rewrite Hth in Hv. apply fmap_Some in Hv as (th' & Hth' & [= E _ _]).
    exists th'. split; [done|congruence].
  - by apply (sorted_key_ext k).
Qed.

Lemma account_frame_sleepers k k' :
  account_frame k k' → sleepers_wf k →
  sleepers_wf k' ∧ ∀ t, wakeup_key k' t = wakeup_key k t.
Proof.
  intros Hf Hsl. destruct (af_lists _ _ Hf) as (_ & Ea & Ei & _). split.
  - apply (sleepers_wf_frame k); [done..| |done]. intros. apply (af_threads _ _ Hf).
  - intros t. pose proof (af_threads _ _ Hf t) as Hv. unfold wakeup_key.
    destruct (threads k !! t), (threads k' !! t); simplify_eq/=; congruence.
Qed.

Definition due (k : kern) (t : Z) : Prop := wakeup_key k t ≤ ticks k.
#[export] Instance due_dec k t : Decision (due k t).
Proof. unfold due. apply _. Defined.

(** [unblock_state k t] is [k] after [thread_unblock] and [list_remove]. *)
Definition unblock_state (k : kern) (t : Z) : kern :=
  upd_thread t (λ th, th <| status := THREAD_READY |>)
    (k <| ready_list := ready_list k ++ [t] |> <| asleep_list := list_remove t (asleep_list k) |>).

Lemma unblock_state_key k t u : wakeup_key (unblock_state k t) u = wakeup_key k u.
Proof.
  unfold wakeup_key, unblock_state. simpl. rewrite lookup_alter_status.
  destruct (threads k !! u); [|done]. simpl. by case_decide.
Qed.

Lemma list_remove_head {A} `{EqDecision A} (x : A) l : NoDup (x :: l) → list_remove x (x :: l) = l.
Proof.
  intros [Hx _]%NoDup_cons. unfold list_remove. rewrite filter_cons_False by naive_solver.
  by apply list_remove_not_elem.
Qed.

Lemma unblock_state_sleepers k t l :
  asleep_list k = t :: l → sleepers_wf k →
  sleepers_wf (unblock_state k t) ∧ asleep_list (unblock_state k t) = l.
Proof.
  intros El [Hnd Hb Hi Hs]. rewrite El in *.
  assert (asleep_list (unblock_state k t) = l) as Ea
    by (simpl; rewrite El; by apply list_remove_head).
  split; [|done]. apply NoDup_cons in Hnd as [Hnt Hnd]. apply StronglySorted_inv in Hs as [Hs _].
  split; rewrite ?Ea; [done|..].
  - intros u Hu. destruct (Hb u) as (th & Hth & ?); [by right|]. exists th. split; [|done].
    simpl. by rewrite lookup_alter_ne by congruence.
  - intros u Hu. apply Hi. by right.
  - eapply sorted_key_ext; [|done]. intros u _. apply unblock_state_key.
Qed.

Lemma filter_none {A} (P : A → Prop) `{∀ x, Decision (P x)} (l : list A) :
  (∀ x, x ∈ l → ¬ P x) → filter P l = [].
Proof.
  intros Hl. induction l as [|x l IH]; [done|]. rewrite filter_cons_False by (apply Hl; by left).
  apply IH. intros y Hy. apply Hl. by right.
Qed.

Lemma filter_all {A} (P : A → Prop) `{∀ x, Decision (P x)} (l : list A) :
  (∀ x, x ∈ l → P x) → filter P l = l.
Proof.
  intros Hl. induction l as [|x l IH]; [done|]. rewrite filter_cons_True by (apply Hl; by left).
  f_equal. apply IH. intros y Hy. apply Hl. by right.
Qed.

Section specs.
Context `{KernelList, !KernelListLaws}.

(** The loop wakes the sleepers that are due, in order, and stops at the first
    one that is not. *)
Lemma wake_loop_spec (l : list Z) (k : kern) :
  asleep_list k = l → sched_wf k → sleepers_wf k → if_flag (cpu k) = INTR_OFF →
  ∃ k', wake_loop l k = Ret k' ∧ sched_wf k' ∧ sleepers_wf k' ∧
    ready_list k' = ready_list k ++ filter (due k) l ∧
    asleep_list k' = filter (λ t, ¬ due k t) l ∧
    (∀ t, wakeup_key k' t = wakeup_key k t) ∧
    (running k', ticks k', idle_thread k', cpu k') = (running k, ticks k, idle_thread k, cpu k) ∧
    (∀ t, t ∉ l → threads k' !! t = threads k !! t).
Proof.
  revert k. induction l as [|t l IH]; intros k El Hwf Hsl Hoff.
  { exists k. rewrite !filter_nil, app_nil_r. by split_and!. }
  pose proof Hsl as [Hnd Hb Hi Hs]. rewrite El in *.
  destruct (Hb t) as (th & Hth & Hst); [by left|]. simpl. unfold thread_at. rewrite Hth. ret.
  assert (wakeup_key k t = wakeup_ticks th) as Hkt by (unfold wakeup_key; by rewrite Hth).
  destruct (Z.ltb_spec (ticks k) (wakeup_ticks th)) as [Hlt|Hge].
  - assert (∀ u, u ∈ t :: l → ¬ due k u) as Hnone.
    { intros u [->|Hu]%elem_of_cons; unfold due; [lia|].
      apply StronglySorted_inv in Hs as [_ Hall]. rewrite Forall_forall in Hall.
      specialize (Hall u Hu). simpl in Hall. lia. }
    exists k. rewrite (filter_none (due k)) by done.
    rewrite (filter_all (λ u, ¬ due k u)) by done. rewrite app_nil_r. by split_and!.
  - destruct (thread_unblock_spec t k th Hwf) as [-> Hwf']; [by right|done|done|apply Hi; by left|].
    ret.
    change (_ <| asleep_list := _ |>) with (unblock_state k t).
    destruct (unblock_state_sleepers k t l) as [Hsl' Ea']; [done..|].
    assert (sched_wf (unblock_state k t)) as Hwf'' by (by eapply sched_wf_frame; [..|exact Hwf']).
    destruct (IH (unblock_state k t)) as (k' & -> & H1 & H2 & H3 & H4 & H5 & H6 & H7); [done..|].
    assert (∀ u, due (unblock_state k t) u ↔ due k u) as Hdue
      by (intros u; unfold due; by rewrite unblock_state_key).
    exists k'. split; [done|]. split; [done|]. split; [done|]. split_and!.
    + rewrite H3. simpl. rewrite (filter_cons_True (due k)) by (unfold due; lia).
      rewrite <- app_assoc. simpl. do 2 f_equal.
      apply list_filter_iff. done.
    + rewrite H4, (filter_cons_False (λ u, ¬ due k u)) by (unfold due; lia).
      apply list_filter_iff. intros u. by rewrite Hdue.
    + intros u. rewrite H5. apply unblock_state_key.
    + rewrite H6. done.
    + intros u Hu. rewrite H7 by set_solver. simpl. rewrite lookup_alter_ne; set_solver.
Qed.

(** [k'] has the sleepers of [k], all still asleep with the same wake-up tick. *)
Definition sleep_frame (k k' : kern) : Prop :=
  sleepers_wf k' ∧ asleep_list k' = asleep_list k ∧ ticks k' = ticks k ∧
  ∀ t, t ∈ asleep_list k → wakeup_key k' t = wakeup_key k t.

Lemma sleep_frame_trans k1 k2 k3 :
  sleep_frame k1 k2 → sleep_frame k2 k3 → sleep_frame k1 k3.
Proof.
  intros (_ & E1 & T1 & K1) (S2 & E2 & T2 & K2). split; [done|]. split; [congruence|].
  split; [congruence|]. intros t Ht. rewrite K2; [auto|congruence].
Qed.

Lemma sleep_frame_intro k k' :
  sleepers_wf k → asleep_list k' = asleep_list k → ticks k' = ticks k →
  idle_thread k' = idle_thread k →
  (∀ t, t ∈ asleep_list k → sched_view <$> threads k' !! t = sched_view <$> threads k !! t) →
  sleep_frame k k'.
Proof.
  intros Hsl Ea Et Ei Hv. destruct (sleepers_wf_frame k k') as [? ?]; [done..|]. by split_and!.
Qed.

Lemma sleep_frame_upd k t g :
  (∀ th, sched_view (g th) = sched_view th) → sleepers_wf k → sleep_frame k (upd_thread t g k).
Proof.
  intros Hg Hsl. apply sleep_frame_intro; [done..|]. intros u _.
  apply (af_threads _ _ (account_frame_upd k t g Hg)).
Qed.

(** A sleeper is neither the running thread nor queued. *)
Lemma sleeper_not_running k t :
  sched_wf k → sleepers_wf k → t ∈ asleep_list k → t ≠ running k ∧ t ∉ ready_list k.
Proof.
  intros Hwf Hsl Ht. destruct (sl_blocked _ Hsl t Ht) as (th & Hth & Hs). split.
  - intros ->. destruct (sw_running k Hwf) as (? & ? & ?). congruence.
  - intros Hr. destruct (qw_ready k (sw_queue k Hwf) t Hr) as (? & ? & ?). congruence.
Qed.

Lemma resumed_others k s k' t :
  resumed k s k' → t ≠ running k → t ∉ ready_list k → idle_thread k ≠ Some t →
  t ≠ running k'.
Proof.
  intros Hres Hr Hq Hi ->. destruct (decide (requeue k s = [])) as [E|E].
  - by destruct (rs_empty _ _ _ Hres E).
  - destruct (rs_max _ _ _ Hres E) as [Hp _].
    assert (running k' ∈ requeue k s) as [?|[? _]]%requeue_elem by (rewrite Hp; by left); done.
Qed.

Lemma resumed_sleepers k s k' :
  sched_wf k → sleepers_wf k → resumed k s k' → sleep_frame k k'.
Proof.
  intros Hwf Hsl Hres. destruct (rs_lists _ _ _ Hres) as (_ & Ei & Ea & Et).
  apply sleep_frame_intro; [done..|]. intros t Ht. f_equal.
  destruct (sleeper_not_running k t) as [? ?]; [done..|].
  apply (rs_others _ _ _ Hres); [done|].
  eapply resumed_others; [done..|]. by apply sl_idle.
Qed.

Lemma yield_sleepers k k' :
  quiescent k → sleepers_wf k → thread_yield k = Ret k' → sleep_frame k k'.
Proof.
  intros [Hwf Hext] Hsl Hy. destruct (thread_yield_spec k Hwf Hext) as (k2 & ? & ?). ret_inj.
  by eapply resumed_sleepers.
Qed.

Lemma unblock_sleepers t k k' :
  quiescent k → sleepers_wf k → idle_thread k ≠ Some t → t ∉ asleep_list k →
  thread_unblock t k = Ret k' → sleep_frame k k'.
Proof.
  intros [Hwf Hext] Hsl Hidle Hna Hu.
  assert (∃ th, threads k !! t = Some th ∧ status th = THREAD_BLOCKED) as (th & Ht & Hs).
  { unfold thread_unblock, with_intr_off in Hu. inv_bind. unfold thread_at in *. inv_bind.
    rewrite bool_decide_eq_true in *. eauto. }
  destruct (thread_unblock_spec t k th Hwf (or_introl Hext) Ht Hs Hidle) as [Heq _]. ret_inj.
  apply sleep_frame_intro; [done..|]. intros u Hu'. simpl. by rewrite lookup_alter_ne by congruence.
Qed.

(** One operation of a thread, other than waking a sleeper. *)
Lemma thread_step_sleepers (sef stf : Z) (k k' : kern) (woken : option Z) :
  sef mod 4 = 0 → stf mod 4 = 0 → quiescent k → sleepers_wf k →
  thread_step sef stf k woken k' →
  (∀ t, woken = Some t → t ∉ asleep_list k) →
  sleep_frame k k'.
Proof.
  intros Hsef Hstf Hq Hsl Hstep Hwoken. pose proof Hq as [Hwf Hext].
  destruct Hstep as [k' Hs|l k' Hs|t k' Hi Hs|k' Hi Hs|nm prio t new_tid k' Hf Hs|p k' Hs|n k' Hs
                |k' Hi Hs|l old i Hs].
  - by eapply yield_sleepers.
  - assert (if_flag (cpu k) = INTR_OFF) as Hoff.
    { unfold thread_block in Hs. inv_bind. by rewrite bool_decide_eq_true in *. }
    destruct (thread_block_spec l k Hwf Hext Hoff) as (k2 & Hk2 & Hres). ret_inj.
    by eapply resumed_sleepers.
  - eapply unblock_sleepers; [done..| |done]. by apply Hwoken.
  - destruct (sw_running k Hwf) as (cth & Hcur & _).
    assert (held_locks cth = []) as Hheld.
    { unfold thread_exit in Hs. rewrite thread_current_ret in Hs by done.
      unfold thread_at in Hs. inv_bind. by rewrite bool_decide_eq_true in *. }
    destruct (thread_exit_spec k cth Hwf Hext Hi Hcur Hheld) as (k2 & Hk2 & Hres).
    ret_inj. by eapply resumed_sleepers.
  - destruct (thread_create_Ret sef stf nm prio t k new_tid k')
      as (th & k7 & Hst & Hq6 & Hi & Hu & Hy); [done..|]. cbv zeta in *.
    assert (t ∉ asleep_list k) as Hna.
    { intros Hin. destruct (sl_blocked _ Hsl t Hin) as (? & ? & _). congruence. }
    set (k6 := k <| threads := _ |> <| all_list := _ |> <| next_tid := _ |>
                 <| resume_level := _ |>) in *.
    assert (sleep_frame k k6) as H6.
    { apply sleep_frame_intro; [done..|]. intros u Hu'. subst k6. simpl.
      rewrite lookup_insert_ne; [done|congruence]. }
    assert (sleep_frame k6 k7) as H7.
    { eapply unblock_sleepers; [exact Hq6|apply H6|exact Hi| |exact Hu].
      by destruct H6 as (_ & -> & _). }
    assert (quiescent k7) as Hq7 by (by eapply unblock_quiescent).
    eapply sleep_frame_trans; [exact H6|]. eapply sleep_frame_trans; [exact H7|].
    by eapply yield_sleepers; [|apply H7|].
  - unfold thread_set_priority in Hs. inv_bind.
    eapply sleep_frame_trans; [|eapply yield_sleepers; [| |done]].
    + by apply sleep_frame_upd.
    + split; [by apply sched_wf_upd|done].
    + by apply sleep_frame_upd.
  - destruct (thread_set_nice_Ret n k k') as [q Hy]; [done..|].
    eapply sleep_frame_trans; [|eapply yield_sleepers; [| |done]].
    + by apply sleep_frame_upd.
    + split; [by apply sched_wf_upd|done].
    + by apply sleep_frame_upd.
  - unfold idle_enter in Hs. rewrite thread_current_ret in Hs by done. simplify_eq/=.
    by apply sleep_frame_intro.
  - by apply sleep_frame_intro.
Qed.

(** What one tick does, once its accounting has returned. *)
Record ticked (k k' : kern) : Prop := {
  tk_wf : sched_wf k';
  tk_sleepers : sleepers_wf k';
  tk_ticks : ticks k' = ticks k + 1;
  tk_ready : ready_list k' =
    ready_list k ++ filter (λ t, wakeup_key k t ≤ ticks k + 1) (asleep_list k);
  tk_asleep : asleep_list k' = filter (λ t, ticks k + 1 < wakeup_key k t) (asleep_list k);
  tk_key : ∀ t, wakeup_key k' t = wakeup_key k t;
  tk_rest : running k' = running k ∧ idle_thread k' = idle_thread k ∧
    if_flag (cpu k') = if_flag (cpu k) ∧
    in_external_intr (cpu k') = in_external_intr (cpu k)
}.

Lemma timer_interrupt_spec (k k2 : kern) :
  sched_wf k → sleepers_wf k → if_flag (cpu k) = INTR_OFF →
  0 ≤ ticks k < 9223372036854775807 →
  thread_tick (k <| ticks := ticks k + 1 |>) = Ret k2 →
  ∃ k', timer_interrupt k = Ret k' ∧ ticked k k'.
Proof.
  intros Hwf Hsl Hoff Ht Htick. unfold timer_interrupt.
  rewrite s64_id by (unfold in_s64; lia). rewrite Htick. ret.
  pose proof (thread_tick_frame _ _ Htick) as Hf.
  set (k1 := k <| ticks := _ |>) in *.
  assert (sched_wf k1) as Hwf1 by (by apply (sched_wf_frame k)).
  assert (sleepers_wf k1) as Hsl1 by (by destruct Hsl).
  destruct (account_frame_sleepers k1 k2 Hf Hsl1) as [Hsl2 Hkey2].
  pose proof (account_frame_wf _ _ Hf Hwf1) as Hwf2.
  destruct (af_lists _ _ Hf) as (Er & Ea & Ei & Eru & Et & _). destruct (af_cpu _ _ Hf) as [Ef Ee].
  simpl in Er, Ea, Ei, Eru, Et, Ef, Ee.
  destruct (wake_loop_spec (asleep_list k2) k2) as (k' & -> & H1 & H2 & H3 & H4 & H5 & H6 & _);
    [done..|by rewrite Ef|].
  assert (∀ t, wakeup_key k2 t = wakeup_key k t) as Hkey by done.
  assert (∀ t, due k2 t ↔ wakeup_key k t ≤ ticks k + 1) as Hdue
    by (intros t; unfold due; by rewrite Hkey, Et).
  exists k'. split; [done|]. split; [done|done|..].
  - simplify_eq. congruence.
  - rewrite H3, Er, Ea. f_equal. by apply list_filter_iff.
  - rewrite H4, Ea. apply list_filter_iff. intros t. rewrite Hdue. lia.
  - intros t. by rewrite H5.
  - injection H6 as -> _ -> ->. by split_and!.
Qed.

(** [timer_sleep] inserts the caller in order and gives up the CPU. *)
Record slept (n : Z) (k k' : kern) : Prop := {
  sp_quiescent : quiescent k';
  sp_sleepers : sleepers_wf k';
  sp_asleep : asleep_list k' ≡ₚ running k :: asleep_list k;
  sp_keys : ∀ t, t ∈ asleep_list k → wakeup_key k' t = wakeup_key k t;
  sp_key : wakeup_key k' (running k) = ticks k + n;
  sp_ticks : ticks k' = ticks k;
  sp_gone : running k' ≠ running k ∧ running k ∉ ready_list k'
}.

Lemma timer_ticks_ret (k : kern) :
  in_external_intr (cpu k) = false → timer_ticks k = Ret (ticks k, k).
Proof.
  intros Hext. unfold timer_ticks. destruct k as []; simpl in *. destruct cpu as [[] [] ?]; done.
Qed.

Lemma timer_sleep_spec (n : Z) (k : kern) :
  quiescent k → sleepers_wf k → if_flag (cpu k) = INTR_ON →
  idle_thread k ≠ Some (running k) → in_s64 (ticks k + n) →
  ∃ k', timer_sleep n k = Ret k' ∧ slept n k k'.
Proof.
  intros [Hwf Hext] Hsl Hon Hidle Hn. unfold timer_sleep. rewrite timer_ticks_ret by done. ret.
  unfold intr_get_level. rewrite Hon. ret. rewrite thread_current_ret by done. ret.
  rewrite s64_id by done. unfold intr_disable. cbn zeta.
  set (g := λ th : thread, th <| wakeup_ticks := ticks k + n |>).
  set (k1 := upd_thread (running k) g k).
  set (k2 := k1 <| cpu := _ |>). set (k3 := k2 <| asleep_list := _ |>).
  assert (running k ∉ asleep_list k) as Hna.
  { intros Hin. by destruct (sleeper_not_running k (running k)). }
  destruct (sw_running k Hwf) as (cth & Hcur & Hrun).
  assert (∀ t, t ≠ running k → wakeup_key k3 t = wakeup_key k t) as Hkne.
  { intros t Ht. unfold wakeup_key, k3, k2, k1. simpl. by rewrite lookup_alter_ne. }
  assert (wakeup_key k3 (running k) = ticks k + n) as Hkr.
  { unfold wakeup_key, k3, k2, k1. simpl. by rewrite lookup_alter_eq, Hcur. }
  assert (asleep_list k3 ≡ₚ running k :: asleep_list k) as Hp by apply list_insert_ordered_perm.
  assert (StronglySorted (λ a b, wakeup_key k3 a ≤ wakeup_key k3 b) (asleep_list k3)) as Hsort.
  { apply list_insert_ordered_sorted; [done|]. change (asleep_list k2) with (asleep_list k).
    apply (sorted_key_ext k); [|by apply sl_sorted]. intros t Ht. apply Hkne. by intros ->. }
  assert (sched_wf k3) as Hwf3.
  { apply (sched_wf_frame k1); [done..|]. by apply sched_wf_upd. }
  destruct (thread_block_spec INTR_ON k3) as (k' & -> & Hres); [done..|].
  destruct (rs_lists _ _ _ Hres) as (_ & Ei & Ea & Et).
  assert (running k ∉ ready_list k) as Hnr.
  { intros Hr. destruct (qw_ready k (sw_queue k Hwf) _ Hr) as (? & ? & ?). congruence. }
  assert (requeue k3 THREAD_BLOCKED = ready_list k) as Hrq.
  { unfold requeue. by rewrite bool_decide_eq_false_2 by naive_solver. }
  assert (running k' ≠ running k ∧ running k ∉ ready_list k') as [Hne Hnr'].
  { destruct (decide (ready_list k = [])) as [E|E].
    - rewrite <- Hrq in E. destruct (rs_empty _ _ _ Hres E) as [Hi ->].
      split; [|apply not_elem_of_nil]. intros He. apply Hidle. by rewrite <- He.
    - rewrite <- Hrq in E. destruct (rs_max _ _ _ Hres E) as [Hp' _]. rewrite Hrq in Hp'.
      rewrite Hp' in Hnr. set_solver. }
  assert (∀ t, t ∈ asleep_list k → threads k' !! t = threads k !! t) as Hoth.
  { intros t Ht. destruct (sleeper_not_running k t) as [? ?]; [done..|].
    rewrite (rs_others _ _ _ Hres); [|done|].
    - simpl. by rewrite lookup_alter_ne.
    - apply (resumed_others k3 _ _ t Hres); [done..|]. by apply (sl_idle k). }
  assert (threads k' !! running k = Some ((g cth) <| status := THREAD_BLOCKED |>)) as Hself.
  { change (running k) with (running k3). rewrite (rs_left _ _ _ Hres); [|done..]. simpl. by rewrite lookup_alter_eq, Hcur. }
  assert (∀ t, t ∈ asleep_list k → wakeup_key k' t = wakeup_key k t) as Hkeys.
  { intros t Ht. unfold wakeup_key. by rewrite Hoth. }
  assert (wakeup_key k' (running k) = ticks k + n) as Hkey.
  { unfold wakeup_key. by rewrite Hself. }
  exists k'. split; [done|]. split; [by eapply resumed_quiescent| |by rewrite Ea|done|done|done|done].
  split; rewrite ?Ea, ?Ei.
  - rewrite Hp. apply NoDup_cons. split; [done|by apply sl_nodup].
  - intros t. rewrite Hp. intros [->|Ht]%elem_of_cons; [by eexists|].
    rewrite Hoth by done. by apply sl_blocked.
  - intros t. rewrite Hp. intros [->|Ht]%elem_of_cons; [done|]. by apply (sl_idle k).
  - apply (sorted_key_ext k3); [|done]. intros t. rewrite Hp.
    intros [->|Ht]%elem_of_cons; [congruence|]. rewrite Hkeys, Hkne; [done| |done].
    by intros ->.
Qed.

(** ** The timer interrupt as the CPU delivers it *)

(** The CPU clears IF when it takes the interrupt. *)
Definition irq_entry (k : kern) : kern := k <| cpu := (cpu k) <| if_flag := INTR_OFF |> |>.

(** After the whole interrupt, the yield on return included. *)
Record tick_done (k k' : kern) : Prop := {
  td_quiescent : quiescent k';
  td_sleepers : sleepers_wf k';
  td_ticks : ticks k' = ticks k + 1;
  td_asleep : asleep_list k' = filter (λ t, ticks k + 1 < wakeup_key k t) (asleep_list k);
  td_key : ∀ t, t ∈ asleep_list k' → wakeup_key k' t = wakeup_key k t
}.

Definition in_handler (k : kern) : kern :=
  (irq_entry k) <| cpu := (cpu (irq_entry k)) <| in_external_intr := true |>
                                              <| yield_on_return := false |> |>.

Lemma intr_handler_timer (s : idt_state (kern → outcome kern)) (k k2 : kern) :
  quiescent k → sleepers_wf k → intr_handlers s !! 32 = Some timer_interrupt →
  0 ≤ ticks k < 9223372036854775807 →
  thread_tick ((in_handler k) <| ticks := ticks k + 1 |>) = Ret k2 →
  ∃ k', intr_handler 32 s (irq_entry k) = Ret (s, k', [(PIC0_CTRL, 32)]) ∧ tick_done k k'.
Proof.
  intros [Hwf Hext] Hsl Hs Ht Htick.
  destruct (timer_interrupt_spec (in_handler k) k2) as (k3 & Hk3 & Hd); [..|done|done|].
  { by apply (sched_wf_frame k). }
  { by destruct Hsl. }
  { done. }
  unfold intr_handler. unfold intr_context at 1. unfold intr_get_level. simpl. rewrite Hext. simpl.
  rewrite Hs. change (timer_interrupt _) with (timer_interrupt (in_handler k)).
  destruct Hd as [Hwf3 Hsl3 Ht3 _ Ha3 Hkey3 (_ & _ & Hf & He)].
  assert (∃ k', (if yield_on_return (cpu k3) then
      k4 ← thread_yield (k3 <| cpu := (cpu k3) <| in_external_intr := false |> |>);
      Ret (s, k4, [(PIC0_CTRL, 32)])
    else Ret (s, k3 <| cpu := (cpu k3) <| in_external_intr := false |> |>, [(PIC0_CTRL, 32)]))
    = Ret (s, k', [(PIC0_CTRL, 32)]) ∧ tick_done k k') as (k' & Hk' & Hdone).
  { set (k4 := k3 <| cpu := _ |>).
    assert (tick_done k k4) as H4.
    { split; [|by destruct Hsl3|done|done|intros t _; exact (Hkey3 t)].
      split; [|done]. by apply (sched_wf_frame k3). }
    destruct (yield_on_return _); [|by exists k4].
    destruct H4 as [Hq4 Hsl4 Ht4 Ha4 Hkey4].
    destruct (thread_yield_spec k4) as (k5 & H5 & Hres); [apply Hq4|done|]. rewrite H5.
    exists k5. split; [done|]. destruct (yield_sleepers k4 k5) as (? & Ea & Et & Hkey); [done..|].
    split; [by eapply resumed_quiescent|done|congruence|congruence|].
    intros t. rewrite Ea. intros Hin. rewrite Hkey by done. by apply Hkey4. }
  exists k'. split; [|done]. rewrite <- Hk'. ret. rewrite Hk3. ret. unfold intr_context.
  rewrite Hf, He. simpl. done.
Qed.

(** Everything that can happen to the timer's state: a thread runs an operation of
    the scheduler, goes to sleep, or is interrupted by a tick.  The one demand is on
    the caller of [thread_unblock], which for threads other than sleepers is
    [sema_up]: the thread it wakes is not one that [timer_sleep] has put to sleep (it
    waits on the semaphore instead). *)
Variables sef stf : Z.

Inductive timer_step (k : kern) : kern → Prop :=
  | timer_step_sched woken k' :
      thread_step sef stf k woken k' → (∀ t, woken = Some t → t ∉ asleep_list k) → timer_step k k'
  | timer_step_sleep n k' :
      if_flag (cpu k) = INTR_ON → idle_thread k ≠ Some (running k) → in_s64 (ticks k + n) →
      timer_sleep n k = Ret k' → timer_step k k'
  | timer_step_tick s k' s' log :
      if_flag (cpu k) = INTR_ON → intr_handlers s !! 32 = Some timer_interrupt →
      0 ≤ ticks k < 9223372036854775807 →
      intr_handler 32 s (irq_entry k) = Ret (s', k', log) → timer_step k k'.

Definition timer_wf (k : kern) : Prop := quiescent k ∧ sleepers_wf k.

Lemma intr_handler_tick_inv s k k' s' log :
  quiescent k → sleepers_wf k → intr_handlers s !! 32 = Some timer_interrupt →
  0 ≤ ticks k < 9223372036854775807 →
  intr_handler 32 s (irq_entry k) = Ret (s', k', log) → tick_done k k'.
Proof.
  intros Hq Hsl Hs Ht Hh.
  assert (∃ k2, thread_tick ((in_handler k) <| ticks := ticks k + 1 |>) = Ret k2) as [k2 Hk2].
  { pose proof Hq as [_ Hext]. unfold intr_handler, intr_context, intr_get_level in Hh.
    simpl in Hh. rewrite Hext in Hh. simpl in Hh. rewrite Hs in Hh.
    change (timer_interrupt _) with (timer_interrupt (in_handler k)) in Hh.
    apply bind_Ret_inv in Hh as (x & Hx & _). apply bind_Ret_inv in Hx as (k1 & Hk1 & _).
    unfold timer_interrupt in Hk1. apply bind_Ret_inv in Hk1 as (k2 & Hk2 & _).
    rewrite s64_id in Hk2 by (unfold in_s64; simpl; lia). by exists k2. }
  destruct (intr_handler_timer s k k2) as (k3 & Hk3 & Hd); [done..|].
  rewrite Hk3 in Hh. by simplify_eq.
Qed.

(** One step keeps each sleeper asleep unless its time has come. *)
Lemma timer_step_sleeper (k k' : kern) (t : Z) :
  sef mod 4 = 0 → stf mod 4 = 0 → timer_wf k → timer_step k k' →
  timer_wf k' ∧ ticks k ≤ ticks k' ∧
  (t ∈ asleep_list k →
     (t ∈ asleep_list k' ∧ wakeup_key k' t = wakeup_key k t) ∨ wakeup_key k t ≤ ticks k').
Proof.
  intros Hsef Hstf [Hq Hsl]. destruct 1 as [woken k' Hs Hno|n k' Hon Hi Hn Hs|s k' s' log Hon Hs Ht Hh].
  - destruct (thread_step_sleepers sef stf k k' woken) as (Hsl' & Ea & Et & Hkey); [done..|].
    split; [split; [by apply (sched_step_quiescent sef stf k); [..|exists woken]|done]|]. split; [lia|].
    intros Hin. left. rewrite Ea. auto.
  - destruct (timer_sleep_spec n k) as (k2 & Hk2 & Hsp); [done..|]. ret_inj.
    destruct Hsp as [? ? Hp Hkey _ Et _]. split; [done|]. split; [lia|]. intros Hin. left.
    rewrite Hp. split; [by right|by apply Hkey].
  - destruct (intr_handler_tick_inv s k k' s' log) as [? ? Et Ea Hkey]; [done..|].
    split; [done|]. split; [lia|]. intros Hin.
    destruct (Z.lt_ge_cases (ticks k + 1) (wakeup_key k t)) as [Hlt|]; [left|right; lia].
    assert (t ∈ asleep_list k') as Hin' by (rewrite Ea; by apply list_elem_of_filter).
    split; [done|by apply Hkey].
Qed.

(** ** Properties *)

(** C23. The timer interrupt wakes exactly the sleepers whose tick has come, in order
    of their wake-up ticks, and dispatching it through [intr_handler] returns
    with the interrupt acknowledged, the scheduler consistent and the
    remaining sleepers in order. *)
Theorem timer_interrupt_wakes_due (s : idt_state (kern → outcome kern)) (k : kern) :
  timer_wf k → accounting_ok k → intr_handlers s !! 32 = Some timer_interrupt →
  0 ≤ ticks k < 9223372036854775807 →
  (∃ k1, timer_interrupt (in_handler k) = Ret k1 ∧
     ready_list k1 = ready_list k ++ filter (λ t, wakeup_key k t ≤ ticks k + 1) (asleep_list k)) ∧
  ∃ k', intr_handler 32 s (irq_entry k) = Ret (s, k', [(PIC0_CTRL, 32)]) ∧
    timer_wf k' ∧ ticks k' = ticks k + 1 ∧
    asleep_list k' = filter (λ t, ticks k + 1 < wakeup_key k t) (asleep_list k).
Proof.
  intros [Hq Hsl] Hok Hs Ht. pose proof Hq as [Hwf Hext].
  assert (sched_wf (in_handler k)) as Hwf1 by (by apply (sched_wf_frame k)).
  destruct (thread_tick_ret ((in_handler k) <| ticks := ticks k + 1 |>)) as [k2 Hk2];
    [by apply (sched_wf_frame k)|done|done|done|].
  split.
  - destruct (timer_interrupt_spec (in_handler k) k2) as (k1 & Hk1 & Hd);
      [done|by destruct Hsl|done|done|done|].
    exists k1. split; [done|]. apply Hd.
  - destruct (intr_handler_timer s k k2) as (k' & Hk' & [? ? ? ? _]); [done..|].
    exists k'. split; [done|]. split; [by split|]. by split.
Qed.

(** [timer_sleep (n)] requires interrupts on; it then puts the caller, and no one
    else, to sleep until tick [ticks + n], hands the CPU to another thread, and
    keeps the list of sleepers sorted. *)
Theorem timer_sleep_correct (n : Z) (k : kern) :
  timer_wf k → idle_thread k ≠ Some (running k) → in_s64 (ticks k + n) →
  (if_flag (cpu k) = INTR_OFF → timer_sleep n k = Panic) ∧
  (if_flag (cpu k) = INTR_ON →
   ∃ k', timer_sleep n k = Ret k' ∧ timer_wf k' ∧
     asleep_list k' ≡ₚ running k :: asleep_list k ∧
     wakeup_key k' (running k) = ticks k + n ∧
     (∀ t, t ∈ asleep_list k → wakeup_key k' t = wakeup_key k t) ∧
     running k' ≠ running k ∧ running k ∉ ready_list k').
Proof.
  intros [Hq Hsl] Hidle Hn. split.
  - intros Hoff. unfold timer_sleep. rewrite timer_ticks_ret by apply Hq. ret.
    unfold intr_get_level. by rewrite Hoff.
  - intros Hon. destruct (timer_sleep_spec n k) as (k' & Hk' & [? ? ? ? ? ? [? ?]]); [done..|].
    exists k'. split; [done|]. split; [by split|]. by split_and!.
Qed.

(** C26. No thread wakes early: whatever the other threads do (yield, block, exit, create
    threads, change priorities, go to sleep, wake threads that wait on a semaphore) and
    however the timer interrupts them, a thread that sleeps until tick [w] is still
    asleep, blocked and off the run queue, as long as fewer than [w] ticks have
    passed. *)
Theorem sleeper_never_wakes_early (t : Z) (k k' : kern) :
  sef mod 4 = 0 → stf mod 4 = 0 → timer_wf k → rtc timer_step k k' →
  t ∈ asleep_list k → ticks k' < wakeup_key k t →
  timer_wf k' ∧ t ∈ asleep_list k' ∧ wakeup_key k' t = wakeup_key k t ∧
  t ≠ running k' ∧ t ∉ ready_list k'.
Proof.
  intros Hsef Hstf Hwf Hr.
  assert (∀ k1 k2, rtc timer_step k1 k2 → timer_wf k1 → timer_wf k2 ∧ ticks k1 ≤ ticks k2) as Hmono.
  { induction 1 as [|k1 k2 k3 Hs _ IH]; [split; [done|lia]|]. intros Hw.
    destruct (timer_step_sleeper k1 k2 t) as (Hw2 & ? & _); [done..|].
    destruct (IH Hw2). split; [done|lia]. }
  induction Hr as [k|k k1 k' Hs Hr IH]; intros Hin Hlt.
  - split; [done|]. split; [done|]. split; [done|]. destruct Hwf as [[] ?].
    by apply sleeper_not_running.
  - destruct (timer_step_sleeper k k1 t) as (Hw1 & Hle & Hor); [done..|].
    destruct (Hmono k1 k' Hr Hw1) as [_ Hle'].
    destruct (Hor Hin) as [[Hin1 E]|]; [|lia]. rewrite <- E. apply IH; [done..|lia].
Qed.
End specs.

(** ** Calibration *)

Section calibration.
Variable hz : Z.






End calibration.

(** ** Delays *)

(** A pause of [num / denom] seconds sleeps for the whole ticks it spans, and
    busy-waits when it spans none, for no longer than was asked for. *)
Theorem real_time_sleep_correct (lpt num d : Z) (i : intr) :
  if_flag i = INTR_ON → 0 ≤ num → num * TIMER_FREQ < 2 ^ 63 → 0 < d ≤ 1000000 →
  0 ≤ lpt < 2 ^ 32 →
  let denom := 1000 * d in
  (denom ≤ num * TIMER_FREQ → ∃ n, real_time_sleep lpt num denom i = Ret (Sleep n) ∧
     n * denom ≤ num * TIMER_FREQ < (n + 1) * denom) ∧
  (num * TIMER_FREQ < denom → ∃ b, real_time_sleep lpt num denom i = Ret (Busy b) ∧
     0 ≤ b ∧ b * denom ≤ lpt * num * TIMER_FREQ).
Proof.
  unfold TIMER_FREQ. intros Hon Hnum Hov Hd Hlpt.
  unfold real_time_sleep, TIMER_FREQ, intr_get_level. rewrite Hon.
  rewrite s64_id by (unfold in_s64; lia). rewrite sdiv64_pos by lia. ret.
  rewrite Z.quot_div_nonneg by lia. split; intros Hle.
  - assert (1 ≤ num * 100 / (1000 * d)) by (apply Z.div_le_lower_bound; lia).
    rewrite (proj2 (Z.ltb_lt _ _)) by lia. eexists. split; [done|].
    Z.to_euclidean_division_equations; lia.
  - rewrite Z.div_small by lia. simpl. unfold real_time_delay, TIMER_FREQ.
    assert (Z.rem (1000 * d) 1000 = 0) as -> by (rewrite Z.mul_comm; by apply Z.rem_mul). ret.
    assert (0 ≤ num < 10000000) by lia.
    assert (0 ≤ lpt * num ≤ 4294967296 * 10000000) by nia.
    rewrite s64_id by (unfold in_s64; lia). rewrite sdiv64_pos by lia. ret.
    rewrite sdiv32_pos by lia. ret.
    rewrite (Z.quot_div_nonneg (lpt * num)) by lia.
    replace (Z.quot (1000 * d) 1000) with d by (rewrite Z.mul_comm, Z.quot_mul; lia).
    assert (0 ≤ lpt * num / 1000 ≤ lpt * num) by (Z.to_euclidean_division_equations; lia).
    rewrite s64_id by (unfold in_s64; lia). rewrite sdiv64_pos by lia. ret.
    rewrite Z.quot_div_nonneg by lia. eexists. split; [done|].
    set (a := lpt * num / 1000) in *.
    assert (1000 * a ≤ lpt * num) by (subst a; Z.to_euclidean_division_equations; lia).
    split; [apply Z.div_pos; lia|].
    pose proof (Z.mul_div_le (a * 100) d). nia.
Qed.

(** ** The hypotheses can hold: a kernel with a sleeper, and ListModel *)

#[local] Existing Instances ListModel.ops ListModel.laws.

(** The sample kernel in which thread 20480 sleeps until tick 3. *)
Definition drowsy : kern :=
  (upd_thread 20480 (λ th, th <| wakeup_ticks := 3 |>) Sample.kernel)
    <| waiters := ∅ |> <| asleep_list := [20480] |>.

Definition timer_idt : idt_state (kern → outcome kern) :=
  IdtState ∅ {[ 32 := timer_interrupt ]} ∅ ∅.

Lemma drowsy_wf : timer_wf drowsy.
Proof.
  split.
  - split; [|reflexivity].
    apply (sched_wf_frame (upd_thread 20480 (λ th, th <| wakeup_ticks := 3 |>) Sample.kernel));
      [done..|]. by apply sched_wf_upd, sample_wf.
  - split.
    + apply NoDup_singleton.
    + intros t ->%list_elem_of_singleton. eexists. split; reflexivity.
    + intros t ->%list_elem_of_singleton. discriminate.
    + repeat constructor.
Qed.

Lemma timer_interrupt_wakes_due_witness :
  (∃ k1, timer_interrupt (in_handler drowsy) = Ret k1 ∧
     ready_list k1 = ready_list drowsy ++
       filter (λ t, wakeup_key drowsy t ≤ ticks drowsy + 1) (asleep_list drowsy)) ∧
  ∃ k', intr_handler 32 timer_idt (irq_entry drowsy) = Ret (timer_idt, k', [(PIC0_CTRL, 32)]) ∧
    timer_wf k' ∧ ticks k' = ticks drowsy + 1 ∧
    asleep_list k' = filter (λ t, ticks drowsy + 1 < wakeup_key drowsy t) (asleep_list drowsy).
Proof.
  apply (timer_interrupt_wakes_due timer_idt drowsy).
  - exact drowsy_wf.
  - discriminate.
  - reflexivity.
  - split; [discriminate|reflexivity].
Defined.

Lemma timer_sleep_correct_witness :
  (if_flag (cpu drowsy) = INTR_OFF → timer_sleep 5 drowsy = Panic) ∧
  (if_flag (cpu drowsy) = INTR_ON →
   ∃ k', timer_sleep 5 drowsy = Ret k' ∧ timer_wf k' ∧
     asleep_list k' ≡ₚ running drowsy :: asleep_list drowsy ∧
     wakeup_key k' (running drowsy) = ticks drowsy + 5 ∧
     (∀ t, t ∈ asleep_list drowsy → wakeup_key k' t = wakeup_key drowsy t) ∧
     running k' ≠ running drowsy ∧ running drowsy ∉ ready_list k').
Proof.
  apply (timer_sleep_correct 5 drowsy).
  - exact drowsy_wf.
  - discriminate.
  - split; vm_compute; congruence.
Defined.

Lemma sleeper_never_wakes_early_witness :
  ∃ k', timer_step 4 28 drowsy k' ∧ timer_wf k' ∧ 20480 ∈ asleep_list k' ∧
    wakeup_key k' 20480 = wakeup_key drowsy 20480 ∧
    20480 ≠ running k' ∧ 20480 ∉ ready_list k'.
Proof.
  destruct (intr_handler_timer timer_idt drowsy
    ((in_handler drowsy) <| ticks := 1 |> <| kernel_ticks := 1 |> <| thread_ticks := 1 |>))
    as (k' & Hh & [_ _ Ht _ _]); [apply drowsy_wf..|reflexivity|by split|reflexivity|].
  exists k'.
  assert (timer_step 4 28 drowsy k') as Hs.
  { eapply (timer_step_tick 4 28 drowsy timer_idt k'); [reflexivity|reflexivity| |exact Hh].
    split; [discriminate|reflexivity]. }
  split; [exact Hs|].
  apply (sleeper_never_wakes_early 4 28 20480 drowsy k').
  - reflexivity.
  - reflexivity.
  - exact drowsy_wf.
  - eapply rtc_l; [exact Hs|apply rtc_refl].
  - by left.
  - rewrite Ht. reflexivity.
Defined.


Lemma real_time_sleep_correct_witness :
  ∃ n, real_time_sleep 98304 25 (1000 * 1) (Intr INTR_ON false false) = Ret (Sleep n) ∧
    n * (1000 * 1) ≤ 25 * TIMER_FREQ < (n + 1) * (1000 * 1).
Proof.
  apply (real_time_sleep_correct 98304 25 1 (Intr INTR_ON false false)).
  - reflexivity.
  - discriminate.
  - reflexivity.
  - split; [reflexivity|discriminate].
  - split; [discriminate|reflexivity].
  - discriminate.
Defined.
