(* ===== verification/Mmu.v ===== *)
(** * Addresses and page tables of the machine

    The interfaces of [threads/vaddr.h] and [threads/pte.h], which are outside the
    repository: the split of a virtual address, the bits of a page table entry,
    and their documented behaviour.  [Ia32] is the layout of [IA32-v3a] 3.7.6. *)
From S2P Require Import Prelude CInt.
Open Scope Z_scope.

Definition PGSIZE : Z := 4096.

(** [vaddr.h]: user addresses are below [PHYS_BASE]; physical memory is mapped from
    [PHYS_BASE] on. *)
Class Vaddr := {
  PHYS_BASE : Z;
  is_user_vaddr : Z → bool;
  pg_ofs : Z → Z;
  pg_round_down : Z → Z;
  vtop : Z → Z;
  ptov : Z → Z
}.

Class VaddrLaws `{Vaddr} : Prop := {
  PHYS_BASE_spec : 0 < PHYS_BASE < 4294967296 ∧ (4194304 | PHYS_BASE);
  is_user_vaddr_spec v : is_user_vaddr v = true ↔ v < PHYS_BASE;
  pg_ofs_spec v : pg_ofs v = v mod PGSIZE;
  pg_round_down_spec v : pg_round_down v = v - v mod PGSIZE;
  vtop_spec v : PHYS_BASE ≤ v < 4294967296 → vtop v = v - PHYS_BASE;
  ptov_spec p : 0 ≤ p < 4294967296 - PHYS_BASE → ptov p = p + PHYS_BASE
}.

(** [pte.h]: entry numbers of an address, and entries. *)
Class Pte := {
  PTE_P : Z; PTE_W : Z; PTE_U : Z; PTE_A : Z; PTE_D : Z;
  PTSHIFT : Z;
  pd_no : Z → nat;
  pt_no : Z → nat;
  pde_create : Z → Z;
  pde_get_pt : Z → Z;
  pte_create_user : Z → bool → Z;
  pte_get_page : Z → Z
}.

(** The address of a page of the kernel. *)
Definition kernel_page `{Vaddr} (p : Z) : Prop :=
  PHYS_BASE ≤ p < 4294967296 ∧ (PGSIZE | p).

(** [(e & flag) != 0] *)
Definition flag_set (flag e : Z) : bool := negb (Z.land e flag =? 0).

(** The address of a page is in the upper 20 bits of the word. *)
Definition same_frame (e e' : Z) : Prop := ∀ i, 12 ≤ i < 32 → Z.testbit e i = Z.testbit e' i.

Class PteLaws `{Vaddr, !Pte} : Prop := {
  pte_flags : PTE_P = 1 ∧ PTE_W = 2 ∧ PTE_U = 4 ∧ PTE_A = 32 ∧ PTE_D = 64;
  PTSHIFT_spec : PTSHIFT = 12;
  pd_no_spec v : pd_no v = Z.to_nat (v / 4194304);
  pt_no_spec v : pt_no v = Z.to_nat (v / PGSIZE mod 1024);
  pde_create_spec pt : kernel_page pt →
    pde_get_pt (pde_create pt) = pt ∧ flag_set PTE_P (pde_create pt) = true;
  pte_create_user_spec k w : kernel_page k →
    let e := pte_create_user k w in
    0 ≤ e < 4294967296 ∧ pte_get_page e = k ∧
    flag_set PTE_P e = true ∧ flag_set PTE_U e = true ∧ flag_set PTE_W e = w ∧
    flag_set PTE_A e = false ∧ flag_set PTE_D e = false;
  pte_get_page_ext e e' : same_frame e e' → pte_get_page e = pte_get_page e';
  pde_get_pt_ext e e' : same_frame e e' → pde_get_pt e = pde_get_pt e'
}.

(** ** Flags *)

(** [e |= flag] and [e &= ~flag] on 32-bit words. *)
Definition set_flag (flag e : Z) : Z := Z.lor e flag.
Definition clear_flag (flag e : Z) : Z := Z.land e (u32 (Z.lnot flag)).

Lemma flag_set_bit (b e : Z) : 0 ≤ b → flag_set (2 ^ b) e = Z.testbit e b.
Proof.
  intros Hb. unfold flag_set. destruct (Z.testbit e b) eqn:Eb.
  - apply negb_true_iff, Z.eqb_neq. intros E.
    assert (Z.testbit (Z.land e (2 ^ b)) b = false) as Hf by (by rewrite E, Z.bits_0).
    by rewrite Z.land_spec, Eb, Z.pow2_bits_true in Hf.
  - apply negb_false_iff, Z.eqb_eq. apply Z.bits_inj'. intros n Hn.
    rewrite Z.land_spec, Z.bits_0. destruct (decide (n = b)) as [->|Hne]; [by rewrite Eb|].
    rewrite Z.pow2_bits_false by lia. apply andb_false_r.
Qed.

Lemma u32_bits x n : 0 ≤ n → Z.testbit (u32 x) n = (n <? 32) && Z.testbit x n.
Proof.
  intros Hn. unfold u32. change 4294967296 with (2 ^ 32). case_bool.
  - by rewrite Z.mod_pow2_bits_low by lia.
  - by rewrite Z.mod_pow2_bits_high by lia.
Qed.

Lemma clear_flag_bits (b e n : Z) : 0 ≤ b < 32 → 0 ≤ n < 32 →
  Z.testbit (clear_flag (2 ^ b) e) n = Z.testbit e n && negb (n =? b).
Proof.
  intros Hb Hn. unfold clear_flag. rewrite Z.land_spec, u32_bits, Z.lnot_spec by lia.
  rewrite Z.pow2_bits_eqb by lia. rewrite (proj2 (Z.ltb_lt n 32)) by lia. by rewrite (Z.eqb_sym b n).
Qed.

Lemma set_flag_bits (b e n : Z) : 0 ≤ b → 0 ≤ n →
  Z.testbit (set_flag (2 ^ b) e) n = Z.testbit e n || (n =? b).
Proof.
  intros Hb Hn. unfold set_flag. rewrite Z.lor_spec, Z.pow2_bits_eqb by lia.
  by rewrite (Z.eqb_sym b n).
Qed.

(** Changing a flag other than [PTE_P] keeps the frame and the presence. *)
Lemma set_flag_same (b e : Z) : 0 < b < 12 →
  same_frame e (set_flag (2 ^ b) e) ∧ flag_set 1 (set_flag (2 ^ b) e) = flag_set 1 e.
Proof.
  intros Hb. split.
  - intros i Hi. rewrite set_flag_bits, (proj2 (Z.eqb_neq _ _)) by lia. by rewrite orb_false_r.
  - change 1 with (2 ^ 0). rewrite !flag_set_bit, set_flag_bits by lia.
    rewrite (proj2 (Z.eqb_neq _ _)) by lia. by rewrite orb_false_r.
Qed.

Lemma clear_flag_same (b e : Z) : 0 < b < 12 →
  same_frame e (clear_flag (2 ^ b) e) ∧ flag_set 1 (clear_flag (2 ^ b) e) = flag_set 1 e.
Proof.
  intros Hb. split.
  - intros i Hi. rewrite clear_flag_bits, (proj2 (Z.eqb_neq _ _)) by lia. by rewrite andb_true_r.
  - change 1 with (2 ^ 0). rewrite !flag_set_bit, clear_flag_bits by lia.
    rewrite (proj2 (Z.eqb_neq _ _)) by lia. by rewrite andb_true_r.
Qed.

(** ** The layout of IA-32, with three gigabytes of user space *)

Module Ia32.
#[local] Instance vaddr : Vaddr := {|
  PHYS_BASE := 3221225472;
  is_user_vaddr v := v <? 3221225472;
  pg_ofs v := v mod PGSIZE;
  pg_round_down v := v - v mod PGSIZE;
  vtop v := v - 3221225472;
  ptov p := p + 3221225472
|}.

#[local] Instance vaddr_laws : VaddrLaws.
Proof.
  split; intros; simpl; try done.
  - split; [done|]. by exists 768.
  - apply Z.ltb_lt.
Qed.

#[local] Instance pte : Pte := {|
  PTE_P := 1; PTE_W := 2; PTE_U := 4; PTE_A := 32; PTE_D := 64;
  PTSHIFT := 12;
  pd_no v := Z.to_nat (v / 4194304);
  pt_no v := Z.to_nat (v / PGSIZE mod 1024);
  pde_create pt := vtop pt + 7;
  pde_get_pt e := ptov (Z.shiftl (Z.shiftr (u32 e) 12) 12);
  pte_create_user k w := vtop k + (if w : bool then 7 else 5);
  pte_get_page e := ptov (Z.shiftl (Z.shiftr (u32 e) 12) 12)
|}.

Lemma shift_page (a f : Z) : 0 ≤ f < 4096 → Z.shiftl (Z.shiftr (a * 4096 + f) 12) 12 = a * 4096.
Proof.
  intros. rewrite Z.shiftr_div_pow2, Z.shiftl_mul_pow2 by lia. change (2 ^ 12) with 4096.
  rewrite Z.div_add_l by lia. rewrite Z.div_small by lia. lia.
Qed.

Lemma low_bits (a f b : Z) : 0 ≤ b < 12 → 0 ≤ f < 4096 →
  Z.testbit (a * 4096 + f) b = Z.testbit f b.
Proof.
  intros. rewrite <- (Z.mod_pow2_bits_low _ 12) by lia. f_equal. change (2 ^ 12) with 4096.
  by rewrite Z.add_comm, Z.mod_add, Z.mod_small by lia.
Qed.

Lemma frame_bits e e' : same_frame e e' →
  Z.shiftl (Z.shiftr (u32 e) 12) 12 = Z.shiftl (Z.shiftr (u32 e') 12) 12.
Proof.
  intros He. apply Z.bits_inj'. intros n Hn.
  destruct (Z.lt_ge_cases n 12); [by rewrite !Z.shiftl_spec_low|].
  rewrite !Z.shiftl_spec_high, !Z.shiftr_spec, !u32_bits by lia.
  case_bool; [|done]. simpl. apply He. lia.
Qed.

#[local] Instance pte_laws : PteLaws.
Proof.
  split; try done.
  - intros pt [Hr [a Ha]]. unfold pde_get_pt, pde_create, flag_set, PTE_P, vtop, ptov; simpl in *.
    unfold PGSIZE in Ha.
    replace (pt - 3221225472 + 7) with ((a - 786432) * 4096 + 7) by lia.
    rewrite u32_id by (unfold in_u32; lia). rewrite shift_page by lia. split; [lia|]. change 1 with (2 ^ 0).
    change (flag_set (2 ^ 0) ((a - 786432) * 4096 + 7) = true).
    rewrite flag_set_bit, low_bits by lia. done.
  - intros k w [Hr [a Ha]]. unfold PGSIZE in Ha. simpl in *.
    set (f := if w : bool then 7 else 5). assert (0 ≤ f < 8) as Hf by (subst f; destruct w; lia).
    replace (k - 3221225472 + f) with ((a - 786432) * 4096 + f) by lia.
    rewrite u32_id by (unfold in_u32; lia). rewrite shift_page by lia.
    change 1 with (2 ^ 0). change 4 with (2 ^ 2). change 2 with (2 ^ 1). change 32 with (2 ^ 5).
    change 64 with (2 ^ 6). rewrite !flag_set_bit, !low_bits by lia.
    split_and!; try lia; by destruct w.
  - intros e e' He. unfold pte_get_page. simpl. f_equal. by apply frame_bits.
  - intros e e' He. unfold pde_get_pt. simpl. f_equal. by apply frame_bits.
Qed.
End Ia32.
