(* ===== verification/RunQueue.v ===== *)
(** * An abstract FIFO run queue

    What a round-robin scheduler promises, without pages, interrupts or address
    spaces: the status of each thread, the queue, the idle thread and the thread
    on the CPU.  RoundRobin.v is proved to implement it in RoundRobinSpec.v. *)
From S2P Require Import Prelude Threads.
From stdpp Require Import relations.
Open Scope Z_scope.

Record rq := Rq {
  sts : gmap Z thread_status;
  queue : list Z;
  idle : option Z;
  run : Z;
  initial : Z
}.
#[export] Instance eta_rq : Eta rq := λ q, Rq (sts q) (queue q) (idle q) (run q) (initial q).

Implicit Types (q : rq) (s : thread_status) (t : Z).

(** The queue after the running thread took status [s]. *)
Definition requeue s q : list Z :=
  if bool_decide (s = THREAD_READY ∧ idle q ≠ Some (run q)) then queue q ++ [run q] else queue q.

(** The running thread takes status [s] and the CPU goes to the front of the queue,
    or to the idle thread.  A dead thread disappears, the initial one excepted. *)
Definition leave s q : rq :=
  let '(n, rest) := match requeue s q with
                    | [] => (default 0 (idle q), [])
                    | x :: l => (x, l)
                    end in
  let m := <[n := THREAD_RUNNING]> (<[run q := s]> (sts q)) in
  Rq (if bool_decide (s = THREAD_DYING ∧ run q ≠ initial q) then delete (run q) m else m)
    rest (idle q) n (initial q).

(** A blocked thread becomes ready, behind the others. *)
Definition wake t q : rq := q <| sts ::= <[t := THREAD_READY]> |> <| queue ::= λ l, l ++ [t] |>.

(** A new blocked thread. *)
Definition spawn t q : rq := q <| sts ::= <[t := THREAD_BLOCKED]> |>.

(** One thread runs, the queue links each READY thread once, and the idle thread, if
    there is one, never. *)
Record rq_ok q : Prop := {
  rq_nodup : NoDup (queue q);
  rq_ready t : t ∈ queue q → sts q !! t = Some THREAD_READY;
  rq_queued t : sts q !! t = Some THREAD_READY → t ∈ queue q ∨ idle q = Some t;
  rq_idle_off i : idle q = Some i → ∃ s, sts q !! i = Some s ∧ s ≠ THREAD_DYING ∧ i ∉ queue q;
  rq_run : sts q !! run q = Some THREAD_RUNNING;
  rq_single t : sts q !! t = Some THREAD_RUNNING → t = run q
}.

(** The idle thread is there to run when the queue is empty. *)
Record rq_wf q : Prop := {
  rq_base :> rq_ok q;
  rq_has_idle : is_Some (idle q)
}.

(** There is a thread to run after the running one took status [s]. *)
Definition has_next s q : Prop := requeue s q ≠ [] ∨ is_Some (idle q).

Lemma wf_has_next s q : rq_wf q → has_next s q.
Proof. intros [_ ?]. by right. Qed.

#[export] Hint Extern 0 (rq_ok _) => (apply rq_base; assumption) : core.
#[export] Hint Extern 0 (has_next _ _) => (apply wf_has_next; assumption) : core.

Lemma rq_idle q : rq_wf q → ∃ i s, idle q = Some i ∧ sts q !! i = Some s ∧ s ≠ THREAD_DYING ∧ i ∉ queue q.
Proof. intros [Hq [i Hi]]. destruct (rq_idle_off q Hq i Hi) as (s & ?). eauto. Qed.

Lemma run_not_queued q : rq_ok q → run q ∉ queue q.
Proof. intros Hq Hin. pose proof (rq_run q Hq). rewrite (rq_ready q Hq) in * by done. done. Qed.

Lemma rq_requeue_elem s q t :
  t ∈ requeue s q ↔ t ∈ queue q ∨ t = run q ∧ s = THREAD_READY ∧ idle q ≠ Some (run q).
Proof. unfold requeue. case_bool_decide; set_solver. Qed.

Lemma requeue_NoDup s q : rq_ok q → NoDup (requeue s q).
Proof.
  intros Hq. unfold requeue. case_bool_decide; [|apply Hq]. apply NoDup_app.
  split; [apply Hq|]. split; [|apply NoDup_singleton].
  intros t Ht ->%list_elem_of_singleton. by apply (run_not_queued q).
Qed.

(** The next thread, and the rest of the queue. *)
Lemma leave_next s q :
  match requeue s q with
  | [] => idle q = Some (run (leave s q)) ∨ idle q = None
  | x :: _ => x = run (leave s q)
  end ∧ queue (leave s q) = tail (requeue s q).
Proof. unfold leave. destruct (requeue s q); simpl; [|done]. destruct (idle q); eauto. Qed.

Lemma leave_rest s q : idle (leave s q) = idle q ∧ initial (leave s q) = initial q.
Proof. unfold leave. by destruct (requeue s q). Qed.

Lemma leave_run_elem s q :
  has_next s q → run (leave s q) ∈ requeue s q ∨ requeue s q = [] ∧ idle q = Some (run (leave s q)).
Proof.
  intros Hx. unfold has_next in Hx. destruct (leave_next s q) as [Hn _]. destruct (requeue s q) as [|x l].
  - right. split; [done|]. destruct Hn as [|Hi]; [done|]. rewrite Hi in Hx. by destruct Hx as [|[? ?]].
  - left. rewrite Hn. by left.
Qed.

(** A dying thread is not chosen again. *)
Lemma leave_run_dying q :
  rq_ok q → has_next THREAD_DYING q → idle q ≠ Some (run q) → run (leave THREAD_DYING q) ≠ run q.
Proof.
  intros Hq Hx Hi E. destruct (leave_run_elem THREAD_DYING q Hx) as [Hin|[_ Hid]]; [|congruence].
  apply rq_requeue_elem in Hin as [Hin|(_ & ? & _)]; [|done].
  rewrite E in Hin. by apply (run_not_queued q).
Qed.

Lemma leave_status s q t :
  rq_ok q → has_next s q → (s = THREAD_DYING → idle q ≠ Some (run q)) →
  sts (leave s q) !! t =
    if decide (t = run (leave s q)) then Some THREAD_RUNNING
    else if decide (t = run q)
    then if decide (s = THREAD_DYING ∧ run q ≠ initial q) then None else Some s
    else sts q !! t.
Proof.
  intros Hq Hx Hd.
  assert (s = THREAD_DYING → run (leave s q) ≠ run q) as Hne.
  { intros ->. apply leave_run_dying; [done..|by apply Hd]. }
  assert (∃ n rest, leave s q = Rq
    (if bool_decide (s = THREAD_DYING ∧ run q ≠ initial q)
     then delete (run q) (<[n := THREAD_RUNNING]> (<[run q := s]> (sts q)))
     else <[n := THREAD_RUNNING]> (<[run q := s]> (sts q))) rest (idle q) n (initial q))
    as (n & rest & E) by (unfold leave; destruct (requeue s q); eauto).
  rewrite E in *. simpl in *. case_bool_decide as Hb.
  - rewrite lookup_delete. case_decide as Ht.
    + subst t. rewrite decide_False by (intros Hn; apply Hne; [apply Hb|done]).
      by rewrite !decide_True.
    + destruct (decide (t = n)) as [->|]; [by rewrite lookup_insert_eq|].
      rewrite !lookup_insert_ne by done. by rewrite !decide_False.
  - destruct (decide (t = n)) as [->|]; [by rewrite lookup_insert_eq|].
    rewrite lookup_insert_ne by done. destruct (decide (t = run q)) as [->|].
    + rewrite lookup_insert_eq. by rewrite (decide_False (P := _ ∧ _)).
    + by rewrite lookup_insert_ne.
Qed.

(** The initial thread stays, dead or alive. *)
Lemma leave_initial s q :
  rq_ok q → has_next s q → (s = THREAD_DYING → idle q ≠ Some (run q)) →
  is_Some (sts q !! initial q) → is_Some (sts (leave s q) !! initial q).
Proof.
  intros Hq Hx Hd Hm. rewrite leave_status by done.
  destruct (decide (initial q = run (leave s q))); [by eexists|].
  destruct (decide (initial q = run q)) as [E|]; [|done]. rewrite decide_False by naive_solver. by eexists.
Qed.

Lemma leave_ok s q :
  rq_ok q → has_next s q → s ≠ THREAD_RUNNING → (s = THREAD_DYING → idle q ≠ Some (run q)) →
  rq_ok (leave s q).
Proof.
  intros Hq Hx Hs Hd. pose proof (leave_run_elem s q Hx) as Hn.
  destruct (leave_next s q) as [_ Hrest]. destruct (leave_rest s q) as [Hid _].
  pose proof (λ t, leave_status s q t Hq Hx Hd) as Hst. pose proof (requeue_NoDup s q Hq) as Hnd.
  assert (∀ t, t ∈ queue (leave s q) → t ∈ requeue s q ∧ t ≠ run (leave s q)) as Htail.
  { intros t. rewrite Hrest. destruct (leave_next s q) as [Hnx _].
    destruct (requeue s q) as [|x l]; [by intros ?%elem_of_nil|]. simpl.
    apply NoDup_cons in Hnd as [Hx' _]. intros Ht. split; [by right|]. intros ->. congruence. }
  split.
  - rewrite Hrest. destruct (requeue s q); [constructor|]. by apply NoDup_cons in Hnd as [_ ?].
  - intros t [Ht Hne]%Htail. rewrite Hst, decide_False by done.
    apply rq_requeue_elem in Ht as [Ht|(-> & -> & _)].
    + rewrite decide_False; [by apply (rq_ready q)|]. intros ->. by apply (run_not_queued q).
    + rewrite decide_True by done. by rewrite decide_False by (by intros [? _]).
  - intros t. rewrite Hst, Hid. destruct (decide (t = run (leave s q))) as [E|E]; [done|].
    assert (t ∈ requeue s q → t ∈ queue (leave s q)) as Hin.
    { intros Ht. rewrite Hrest. destruct (leave_next s q) as [Hnx _].
      destruct (requeue s q) as [|x l]; [done|]. apply elem_of_cons in Ht as [->|Ht]; [done|done]. }
    destruct (decide (t = run q)) as [E2|E2].
    + intros Hs'. assert (s = THREAD_READY) as -> by (case_decide; congruence). subst t.
      destruct (decide (idle q = Some (run q))); [by right|left].
      apply Hin, rq_requeue_elem. by right.
    + intros [Ht|Ht]%(rq_queued q Hq); [|by right]. left. apply Hin, rq_requeue_elem. by left.
  - intros i. rewrite Hid. intros Hi. destruct (rq_idle_off q Hq i Hi) as (si & Hsi & Hdi & Hni).
    rewrite Hst. assert (i ∉ queue (leave s q)) as Hni'.
    { intros [Hin _]%Htail. apply rq_requeue_elem in Hin as [?|(-> & _ & ?)]; done. }
    destruct (decide (i = run (leave s q))); [by eexists|].
    destruct (decide (i = run q)) as [E|]; [|by eexists]. subst i.
    exists s. rewrite decide_False by (by intros [? _]; apply Hd). split_and!; [done| |done].
    intros ->. by apply Hd.
  - rewrite Hst. by rewrite decide_True.
  - intros t. rewrite Hst. destruct (decide (t = run (leave s q))); [done|].
    destruct (decide (t = run q)).
    + case_decide; congruence.
    + intros Ht. apply (rq_single q Hq) in Ht. congruence.
Qed.

Lemma leave_wf s q :
  rq_wf q → s ≠ THREAD_RUNNING → (s = THREAD_DYING → idle q ≠ Some (run q)) → rq_wf (leave s q).
Proof.
  intros Hq Hs Hd. split; [by apply leave_ok|]. destruct (leave_rest s q) as [-> _]. apply (rq_has_idle q Hq).
Qed.

Lemma wake_ok t q :
  rq_ok q → sts q !! t = Some THREAD_BLOCKED → idle q ≠ Some t → rq_ok (wake t q).
Proof.
  intros Hq Ht Hi. pose proof Hq as [Hnd Hr Hqd Hid Hrun Hone].
  assert (t ∉ queue q) as Hnt by (intros Hin%Hr; congruence).
  split; simpl.
  - apply NoDup_app. split_and!; [done| |apply NoDup_singleton].
    by intros u ? ->%list_elem_of_singleton.
  - intros u [Hu| ->%list_elem_of_singleton]%elem_of_app; [|by rewrite lookup_insert_eq].
    rewrite lookup_insert_ne by (by intros <-). by apply Hr.
  - intros u. destruct (decide (u = t)) as [->|]; [left; set_solver|].
    rewrite lookup_insert_ne by done. intros [?|?]%Hqd; [left; set_solver|by right].
  - intros i Hi'. destruct (Hid i Hi') as (si & Hsi & Hdi & Hni). exists si.
    rewrite lookup_insert_ne by congruence. set_solver.
  - rewrite lookup_insert_ne; [done|]. congruence.
  - intros u. destruct (decide (u = t)) as [->|]; [by rewrite lookup_insert_eq|].
    rewrite lookup_insert_ne by done. apply Hone.
Qed.

Lemma wake_wf t q :
  rq_wf q → sts q !! t = Some THREAD_BLOCKED → idle q ≠ Some t → rq_wf (wake t q).
Proof. intros Hq Ht Hi. split; [by apply wake_ok|apply (rq_has_idle q Hq)]. Qed.

Lemma spawn_ok t q : rq_ok q → sts q !! t = None → rq_ok (spawn t q).
Proof.
  intros [Hnd Hr Hqd Hid Hrun Hone] Ht.
  assert (∀ u s, sts q !! u = Some s → <[t := THREAD_BLOCKED]> (sts q) !! u = Some s) as Hkeep.
  { intros u s Hu. rewrite lookup_insert_ne; [done|congruence]. }
  split; simpl; [done|by auto| | |by auto|].
  - intros u. destruct (decide (u = t)) as [->|]; [by rewrite lookup_insert_eq|].
    rewrite lookup_insert_ne by done. apply Hqd.
  - intros i Hi. destruct (Hid i Hi) as (si & Hsi & ?). eauto.
  - intros u. destruct (decide (u = t)) as [->|]; [by rewrite lookup_insert_eq|].
    rewrite lookup_insert_ne by done. apply Hone.
Qed.

Lemma spawn_wf t q : rq_wf q → sts q !! t = None → rq_wf (spawn t q).
Proof. intros Hq Ht. split; [by apply spawn_ok|apply (rq_has_idle q Hq)]. Qed.

(** The abstract scheduler: the thread on the CPU leaves it, a blocked thread is
    woken, a thread is created. *)
Inductive rq_step q : rq → Prop :=
  | rq_leave s : s ≠ THREAD_RUNNING → (s = THREAD_DYING → idle q ≠ Some (run q)) →
      rq_step q (leave s q)
  | rq_wake t : sts q !! t = Some THREAD_BLOCKED → idle q ≠ Some t → rq_step q (wake t q)
  | rq_spawn t : sts q !! t = None → rq_step q (spawn t q).

Lemma rq_step_wf q q' : rq_wf q → rq_step q q' → rq_wf q'.
Proof. intros Hq [s ? ?|t ? ?|t ?]; [by apply leave_wf|by apply wake_wf|by apply spawn_wf]. Qed.

(** A thread is created and woken. *)
Lemma spawn_wake_steps q t : rq_wf q → sts q !! t = None → rtc rq_step q (wake t (spawn t q)).
Proof.
  intros Hq Ht. eapply rtc_l; [by apply (rq_spawn _ t)|]. apply rtc_once, rq_wake; simpl.
  - by rewrite lookup_insert_eq.
  - intros Hi. destruct (rq_idle _ Hq) as (i & si & Hid & Hsi & _). congruence.
Qed.

(** ** Waiting in the queue *)

(** [t] waits behind [pre]. *)
Definition waits_behind q (pre : list Z) t : Prop := ∃ post, queue q = pre ++ t :: post.

Lemma wake_waits u q pre t : waits_behind q pre t → waits_behind (wake u q) pre t.
Proof. intros [post E]. exists (post ++ [u]). simpl. rewrite E. by rewrite <- app_assoc. Qed.

(** A switch runs the front of the queue, and everyone behind moves up. *)
Lemma leave_waits s q pre t :
  waits_behind q pre t →
  match pre with
  | [] => run (leave s q) = t
  | x :: pre' => run (leave s q) = x ∧ waits_behind (leave s q) pre' t
  end.
Proof.
  intros [post E].
  assert (∃ post', requeue s q = pre ++ t :: post') as [post' E'].
  { unfold requeue. case_bool_decide; [|by exists post]. exists (post ++ [run q]).
    rewrite E. by rewrite <- app_assoc. }
  destruct (leave_next s q) as [Hn Hr]. rewrite E' in Hn, Hr. destruct pre as [|x pre]; [done|].
  split; [done|]. by exists post'.
Qed.
