(* ===== verification/RoundRobin.v ===== *)
(** * The round-robin scheduler
    (virtual-memory/threads/thread.h, thread.c; user-programs/threads/thread.c is
    the same code)

    The thread system of the sub-projects that run user programs: a FIFO run
    queue, preemption at the end of a time slice, and the hooks through which a
    switch activates an address space and an exiting thread releases its
    process.  The conventions are those of Scheduler.v: a function that calls
    [schedule ()] is modelled up to the point where the next thread runs. *)
From S2P Require Import Prelude CInt Interrupt Threads Mmu.
From stdpp Require Import strings relations.
Open Scope Z_scope.

(** ** Data *)

(** [struct thread], without the fields of [#ifdef USERPROG], which are in the
    state of [UserThreads]. *)
Record thread := Thread {
  tid : Z;
  status : thread_status;
  name : string;
  stack : Z;
  priority : Z;
  magic : Z
}.
#[export] Instance eta_thread : Eta thread := λ t,
  Thread (tid t) (status t) (name t) (stack t) (priority t) (magic t).

(** What thread.c asks of userprog/process.c, on the state [P] of the processes:
    zeroing the user fields of a new [struct thread], freeing them with its page,
    whether [t->pagedir] is set, [process_activate], and the user part of
    [thread_exit] ([process_exit], [file_close] of the executable and
    [sema_up (&self->terminated)]), which names the threads it wakes. *)
Class UserThreads (P : Type) := {
  user_init : Z → P → P;
  user_free : Z → P → P;
  has_pagedir : Z → P → bool;
  process_activate : Z → P → outcome P;
  process_leave : Z → P → outcome (P * list Z)
}.

(** Activating the address space of a live thread succeeds, and no hook loses
    another thread. *)
Class UserThreadsLaws (P : Type) `{UserThreads P} := {
  user_ok : P → Z → Prop;
  user_init_ok t u x : user_ok u x ∨ x = t → user_ok (user_init t u) x;
  user_free_ok t u x : x ≠ t → user_ok u x → user_ok (user_free t u) x;
  process_activate_ok t u : user_ok u t →
    ∃ u', process_activate t u = Ret u' ∧ ∀ x, user_ok u x → user_ok u' x;
  process_leave_ok t u u' l x : process_leave t u = Ret (u', l) → user_ok u x → user_ok u' x
}.

(** A kernel built without [USERPROG]. *)
#[export] Instance no_user : UserThreads unit := {|
  user_init _ u := u; user_free _ u := u; has_pagedir _ _ := false;
  process_activate _ u := Ret u; process_leave _ u := Ret (u, [])
|}.
#[export] Instance no_user_laws : UserThreadsLaws unit.
Proof. refine {| user_ok _ _ := True |}; naive_solver. Defined.

(** The static variables of thread.c, with the conventions of [Threads.kern]. *)
Record kern (P : Type) := Kern {
  threads : gmap Z thread;
  ready_list : list Z;
  all_list : list Z;
  idle_thread : option Z;
  initial_thread : Z;
  running : Z;
  next_tid : Z;
  thread_ticks : Z;
  idle_ticks : Z;
  kernel_ticks : Z;
  user_ticks : Z;
  cpu : intr;
  resume_level : gmap Z intr_level;
  user : P
}.
Arguments Kern {P} _ _ _ _ _ _ _ _ _ _ _ _ _ _.
Arguments threads {P} _.
Arguments ready_list {P} _.
Arguments all_list {P} _.
Arguments idle_thread {P} _.
Arguments initial_thread {P} _.
Arguments running {P} _.
Arguments next_tid {P} _.
Arguments thread_ticks {P} _.
Arguments idle_ticks {P} _.
Arguments kernel_ticks {P} _.
Arguments user_ticks {P} _.
Arguments cpu {P} _.
Arguments resume_level {P} _.
Arguments user {P} _.
#[export] Instance eta_kern {P} : Eta (kern P) := λ k,
  Kern (threads k) (ready_list k) (all_list k) (idle_thread k) (initial_thread k) (running k)
    (next_tid k) (thread_ticks k) (idle_ticks k) (kernel_ticks k) (user_ticks k) (cpu k)
    (resume_level k) (user k).

Definition TIME_SLICE : Z := 4.

Section round_robin.
Context {P : Type} `{UserThreads P}.
Implicit Types (k : kern P) (t : Z).

Definition thread_at k t : outcome thread := deref (threads k !! t).
Definition upd_thread t (g : thread → thread) k : kern P := k <| threads ::= alter g t |>.

Definition running_thread k : Z := running k.

Definition is_thread k (t : option Z) : bool :=
  match t with
  | None => false
  | Some p => match threads k !! p with
              | Some th => magic th =? THREAD_MAGIC
              | None => false
              end
  end.

Definition thread_current k : outcome Z :=
  let t := running_thread k in
  ASSERT (is_thread k (Some t));;
  th ← thread_at k t;
  ASSERT (bool_decide (status th = THREAD_RUNNING));;
  Ret t.

Definition thread_tid k : outcome Z := t ← thread_current k; th ← thread_at k t; Ret (tid th).
Definition thread_name k : outcome string := t ← thread_current k; th ← thread_at k t; Ret (name th).

(** [old_level = intr_disable (); ...; intr_set_level (old_level);] *)
Definition with_intr_off (body : kern P → outcome (kern P)) k : outcome (kern P) :=
  let '(old_level, i) := intr_disable (cpu k) in
  k1 ← body (k <| cpu := i |>);
  '(_, i') ← intr_set_level old_level (cpu k1);
  Ret (k1 <| cpu := i' |>).

(** ** The context switch *)

Definition next_thread_to_run k : option Z * kern P :=
  match ready_list k with
  | [] => (idle_thread k, k)
  | t :: rest => (Some t, k <| ready_list := rest |>)
  end.

Definition thread_schedule_tail (prev : option Z) k : outcome (kern P) :=
  let cur := running_thread k in
  ASSERT (bool_decide (intr_get_level (cpu k) = INTR_OFF));;
  let k1 := upd_thread cur (λ th, th <| status := THREAD_RUNNING |>) k in
  let k2 := k1 <| thread_ticks := 0 |> in
  u ← process_activate cur (user k2);
  let k3 := k2 <| user := u |> in
  match prev with
  | None => Ret k3
  | Some p =>
      pth ← thread_at k3 p;
      if bool_decide (status pth = THREAD_DYING) && negb (p =? initial_thread k3) then
        ASSERT (negb (p =? cur));;
        Ret (k3 <| threads ::= delete p |> <| user ::= user_free p |>)
      else Ret k3
  end.

Definition schedule k : outcome (kern P) :=
  let cur := running_thread k in
  let '(next, k1) := next_thread_to_run k in
  ASSERT (bool_decide (intr_get_level (cpu k1) = INTR_OFF));;
  cth ← thread_at k1 cur;
  ASSERT (bool_decide (status cth ≠ THREAD_RUNNING));;
  ASSERT (is_thread k1 next);;
  n ← deref next;
  if negb (cur =? n) then thread_schedule_tail (Some cur) (k1 <| running := n |>)
  else thread_schedule_tail None k1.

(** What the thread now running does after its own call of [schedule]. *)
Definition finish_switch k : outcome (kern P) :=
  '(_, i) ← intr_set_level (default INTR_OFF (resume_level k !! running k)) (cpu k);
  Ret (k <| cpu := i |> <| resume_level ::= delete (running k) |>).

(** ** Blocking, waking, yielding, exiting *)

(** [resume] is the level the caller sets after [thread_block] returns. *)
Definition thread_block (resume : intr_level) k : outcome (kern P) :=
  ASSERT (negb (intr_context (cpu k)));;
  ASSERT (bool_decide (intr_get_level (cpu k) = INTR_OFF));;
  cur ← thread_current k;
  let k1 := upd_thread cur (λ th, th <| status := THREAD_BLOCKED |>) k in
  k2 ← schedule (k1 <| resume_level ::= <[cur := resume]> |>);
  finish_switch k2.

Definition thread_unblock t k : outcome (kern P) :=
  ASSERT (is_thread k (Some t));;
  with_intr_off (λ k,
    th ← thread_at k t;
    ASSERT (bool_decide (status th = THREAD_BLOCKED));;
    let k1 := k <| ready_list ::= λ l, l ++ [t] |> in
    Ret (upd_thread t (λ th, th <| status := THREAD_READY |>) k1)) k.

Definition thread_yield k : outcome (kern P) :=
  cur ← thread_current k;
  ASSERT (negb (intr_context (cpu k)));;
  let '(old_level, i) := intr_disable (cpu k) in
  let k1 := k <| cpu := i |> in
  let k2 := if bool_decide (Some cur = idle_thread k1) then k1
            else k1 <| ready_list ::= λ l, l ++ [cur] |> in
  let k3 := upd_thread cur (λ th, th <| status := THREAD_READY |>) k2 in
  k4 ← schedule (k3 <| resume_level ::= <[cur := old_level]> |>);
  finish_switch k4.

(** The threads woken by [sema_up] in the user part of [thread_exit]. *)
Fixpoint unblock_all (l : list Z) k : outcome (kern P) :=
  match l with
  | [] => Ret k
  | t :: l' => k1 ← thread_unblock t k; unblock_all l' k1
  end.

Definition thread_exit k : outcome (kern P) :=
  ASSERT (negb (intr_context (cpu k)));;
  cur ← thread_current k;
  '(u, woken) ← process_leave cur (user k);
  k1 ← unblock_all woken (k <| user := u |>);
  let '(_, i) := intr_disable (cpu k1) in
  let k2 := k1 <| cpu := i |> <| all_list ::= list_remove cur |> in
  k3 ← schedule (upd_thread cur (λ th, th <| status := THREAD_DYING |>) k2);
  finish_switch k3.

(** ** Creation *)

Definition init_thread t (nm : string) (prio : Z) k : outcome (kern P) :=
  ASSERT ((PRI_MIN <=? prio) && (prio <=? PRI_MAX));;
  let th := Thread 0 THREAD_BLOCKED (String.substring 0 15 nm) (u32 (t + PGSIZE)) prio
              THREAD_MAGIC in
  with_intr_off (λ k, Ret (k <| all_list ::= λ l, l ++ [t] |>))
    (k <| threads ::= <[t := th]> |> <| user ::= user_init t |>).

Definition allocate_tid k : Z * kern P :=
  (next_tid k, k <| next_tid := s32 (next_tid k + 1) |>).

Definition alloc_frame t (size : Z) k : outcome (kern P) :=
  ASSERT (is_thread k (Some t));;
  ASSERT (size mod 4 =? 0);;
  Ret (upd_thread t (λ th, th <| stack := u32 (stack th - size) |>) k).

(** Sizes of the frames; the last two structures are declared in
    [threads/switch.h]. *)
Variables sizeof_switch_entry_frame sizeof_switch_threads_frame : Z.
Definition sizeof_kernel_thread_frame : Z := 12.

(** [mem] is what [palloc_get_page (PAL_ZERO)] returned. *)
Definition thread_create (nm : string) (prio : Z) (mem : option Z) k : outcome (Z * kern P) :=
  match mem with
  | None => Ret (TID_ERROR, k)
  | Some t =>
      k1 ← init_thread t nm prio k;
      let '(new_tid, k2) := allocate_tid k1 in
      let k3 := upd_thread t (λ th, th <| tid := new_tid |>) k2 in
      k4 ← alloc_frame t sizeof_kernel_thread_frame k3;
      k5 ← alloc_frame t sizeof_switch_entry_frame k4;
      k6 ← alloc_frame t sizeof_switch_threads_frame k5;
      k7 ← thread_unblock t (k6 <| resume_level ::= <[t := INTR_ON]> |>);
      Ret (new_tid, k7)
  end.

(** [thread_init]: [k] gives the CPU and the page under the stack pointer; every
    static variable is still zero. *)
Definition thread_init k : outcome (kern P) :=
  ASSERT (bool_decide (intr_get_level (cpu k) = INTR_OFF));;
  let k1 := k <| ready_list := [] |> <| all_list := [] |> in
  let k2 := k1 <| initial_thread := running_thread k1 |> in
  k3 ← init_thread (initial_thread k2) "main" PRI_DEFAULT k2;
  let k4 := upd_thread (initial_thread k3) (λ th, th <| status := THREAD_RUNNING |>) k3 in
  let '(new_tid, k5) := allocate_tid k4 in
  Ret (upd_thread (initial_thread k5) (λ th, th <| tid := new_tid |>) k5).

(** [idle]: the assignment of [idle_thread] on entry, and one round of the loop. *)
Definition idle_enter k : outcome (kern P) :=
  t ← thread_current k; Ret (k <| idle_thread := Some t |>).

Definition idle_round k : outcome (kern P) :=
  let '(_, i) := intr_disable (cpu k) in
  thread_block INTR_ON (k <| cpu := i |>).

Definition thread_foreach (func : thread → thread) k : outcome (kern P) :=
  ASSERT (bool_decide (intr_get_level (cpu k) = INTR_OFF));;
  Ret (foldl (λ k t, upd_thread t func k) k (all_list k)).

(** ** Priorities: stored, never used *)

Definition thread_set_priority (new_priority : Z) k : outcome (kern P) :=
  cur ← thread_current k;
  Ret (upd_thread cur (λ th, th <| priority := new_priority |>) k).

Definition thread_get_priority k : outcome Z :=
  t ← thread_current k; th ← thread_at k t; Ret (priority th).

Definition thread_set_nice (nice : Z) k : kern P := k.
Definition thread_get_nice k : Z := 0.
Definition thread_get_load_avg k : Z := 0.
Definition thread_get_recent_cpu k : Z := 0.

(** ** The timer tick *)

Definition thread_tick k : outcome (kern P) :=
  t ← thread_current k;
  let k1 := if bool_decide (Some t = idle_thread k)
            then k <| idle_ticks := s64 (idle_ticks k + 1) |>
            else if has_pagedir t (user k)
            then k <| user_ticks := s64 (user_ticks k + 1) |>
            else k <| kernel_ticks := s64 (kernel_ticks k + 1) |> in
  let k2 := k1 <| thread_ticks := u32 (thread_ticks k1 + 1) |> in
  if TIME_SLICE <=? thread_ticks k2 then
    i ← intr_yield_on_return (cpu k2); Ret (k2 <| cpu := i |>)
  else Ret k2.

(** The external interrupt of the timer: [intr_handler] of threads/interrupt.c
    around [thread_tick], with the yield on return.  The interrupted thread has
    interrupts on again when it executes [iret], now or when it is resumed. *)
Definition tick_interrupt k : outcome (kern P) :=
  let cur := running_thread k in
  ASSERT (bool_decide (if_flag (cpu k) = INTR_ON));;
  k1 ← thread_tick (k <| cpu := Intr INTR_OFF true false |>);
  let y := yield_on_return (cpu k1) in
  let k2 := k1 <| cpu := Intr INTR_OFF false y |> in
  k3 ← (if y then thread_yield k2 else Ret k2);
  Ret (if running_thread k3 =? cur then k3 <| cpu := (cpu k3) <| if_flag := INTR_ON |> |>
       else k3 <| resume_level ::= <[cur := INTR_ON]> |>).
End round_robin.
