(* ===== verification/RoundRobinSpec.v ===== *)
(** * Correctness of the round-robin scheduler

    RoundRobin.v implements the abstract run queue of RunQueue.v: every switch is
    [leave], every wake-up is [wake].  From it: the queue invariant under every
    operation and interrupt, and that no thread starves. *)
From S2P Require Import Prelude CInt Interrupt Threads Mmu RunQueue RoundRobin.
From stdpp Require Import strings relations.
Open Scope Z_scope.

Section spec.
Context {P : Type} `{UserThreadsLaws P}.
Implicit Types (k : kern P) (t : Z) (s : thread_status).

(** The run queue that the kernel state represents. *)
Definition view k : rq :=
  Rq (status <$> threads k) (ready_list k) (idle_thread k) (running k) (initial_thread k).

(** Thread pages are intact, and the processes know every live thread. *)
Record pages_wf k : Prop := {
  pw_magic t th : threads k !! t = Some th → magic th = THREAD_MAGIC;
  pw_user t : is_Some (threads k !! t) → user_ok (user k) t
}.

(** The state between operations; also while the system starts, without an idle
    thread yet. *)
Record rr_ok k : Prop := {
  ok_queue : rq_ok (view k);
  ok_pages : pages_wf k;
  ok_ctx : in_external_intr (cpu k) = false;
  ok_ticks : 0 ≤ thread_ticks k ≤ TIME_SLICE
}.

Record rr_wf k : Prop := {
  rr_queue : rq_wf (view k);
  rr_pages : pages_wf k;
  rr_ctx : in_external_intr (cpu k) = false;
  rr_ticks : 0 ≤ thread_ticks k ≤ TIME_SLICE
}.

Lemma rr_wf_ok k : rr_wf k → rr_ok k.
Proof. intros [? ? ? ?]. by split. Qed.

Coercion rr_wf_ok : rr_wf >-> rr_ok.

Lemma rr_ok_wf k : rr_ok k → is_Some (idle_thread k) → rr_wf k.
Proof. intros [? ? ? ?] ?. by split. Qed.

Lemma rr_ok_idle k k' : rr_wf k → rr_ok k' → idle (view k') = idle (view k) → rr_wf k'.
Proof. intros [? _ _ _] Hok E. apply rr_ok_wf; [done|]. simpl in E. rewrite E. by apply (rq_has_idle (view k)). Qed.

Lemma rr_wf_next s k : rr_wf k → has_next s (view k).
Proof. intros [? _ _ _]. done. Qed.

#[local] Hint Extern 0 (rr_ok _) => (apply rr_wf_ok; assumption) : core.
#[local] Hint Extern 0 (has_next _ (view _)) => (apply rr_wf_next; assumption) : core.

Lemma view_status k t : sts (view k) !! t = status <$> threads k !! t.
Proof. apply lookup_fmap. Qed.

Lemma view_live k t s : sts (view k) !! t = Some s → ∃ th, threads k !! t = Some th ∧ status th = s.
Proof. rewrite view_status. intros (th & ? & ->)%fmap_Some. eauto. Qed.

Lemma running_live k : rq_ok (view k) → ∃ th, threads k !! running k = Some th ∧ status th = THREAD_RUNNING.
Proof. intros Hq. apply view_live. apply (rq_run _ Hq). Qed.

Lemma rr_is_thread_live k t : pages_wf k → is_Some (threads k !! t) → is_thread k (Some t) = true.
Proof. intros Hp [th Ht]. simpl. rewrite Ht. apply Z.eqb_eq. by eapply pw_magic. Qed.

Lemma rr_thread_current_ret k : rq_ok (view k) → pages_wf k → thread_current k = Ret (running k).
Proof.
  intros Hq Hp. destruct (running_live k Hq) as (th & Ht & Hs). unfold thread_current, running_thread.
  rewrite rr_is_thread_live by (done || by eexists). ret. unfold thread_at. rewrite Ht. ret. by rewrite Hs.
Qed.

(** Setting the status of a live thread, on the status map. *)
Lemma fmap_set_status (m : gmap Z thread) t s :
  is_Some (m !! t) → status <$> alter (λ th, th <| status := s |>) t m = <[t := s]> (status <$> m).
Proof.
  intros [th Ht]. apply map_eq. intros u. rewrite lookup_fmap.
  destruct (decide (u = t)) as [->|].
  - by rewrite lookup_alter_eq, lookup_insert_eq, Ht.
  - by rewrite lookup_alter_ne, lookup_insert_ne, lookup_fmap.
Qed.

Lemma fmap_keep_status (m : gmap Z thread) t g :
  (∀ th, status (g th) = status th) → status <$> alter g t m = status <$> m.
Proof.
  intros Hg. apply map_eq. intros u. rewrite !lookup_fmap. destruct (decide (u = t)) as [->|].
  - rewrite lookup_alter_eq. destruct (m !! t); simpl; by rewrite ?Hg.
  - by rewrite lookup_alter_ne.
Qed.

(** An update that keeps the magic number keeps the pages well formed. *)
Lemma pages_wf_upd k t g :
  (∀ th, magic (g th) = magic th) → pages_wf k → pages_wf (upd_thread t g k).
Proof.
  intros Hg [Hm Hu]. split; simpl.
  - intros u th. destruct (decide (u = t)) as [->|].
    + rewrite lookup_alter_eq. intros (th0 & ? & ->)%fmap_Some. rewrite Hg. by eapply Hm.
    + rewrite lookup_alter_ne by done. apply Hm.
  - intros u. destruct (decide (u = t)) as [->|].
    + rewrite lookup_alter_eq, fmap_is_Some. apply Hu.
    + rewrite lookup_alter_ne by done. apply Hu.
Qed.

Lemma pages_wf_frame k k' :
  threads k' = threads k → user k' = user k → pages_wf k → pages_wf k'.
Proof. intros E1 E2 []. split; by rewrite ?E1, ?E2. Qed.

(** The counters and lists that a switch leaves alone. *)
Definition frame_eq k k' : Prop :=
  all_list k' = all_list k ∧ next_tid k' = next_tid k ∧ idle_ticks k' = idle_ticks k ∧
  kernel_ticks k' = kernel_ticks k ∧ user_ticks k' = user_ticks k.

(** The level at which [t] runs, or goes on when it runs again. *)
Definition level_of k t : intr_level :=
  if decide (t = running k) then if_flag (cpu k) else default INTR_OFF (resume_level k !! t).

(** [k1] is about to call [schedule]: the thread on the CPU of [k] has taken
    status [s], and goes on at level [l]. *)
Record leaving s l k k1 : Prop := {
  lv_ok : rq_ok (view k);
  lv_next : has_next s (view k);
  lv_status : s ≠ THREAD_RUNNING;
  lv_idle : s = THREAD_DYING → idle_thread k ≠ Some (running k);
  lv_view : view k1 = (view k) <| sts ::= <[running k := s]> |> <| queue := requeue s (view k) |>;
  lv_pages : pages_wf k1;
  lv_user : user k1 = user k;
  lv_off : if_flag (cpu k1) = INTR_OFF;
  lv_ctx : in_external_intr (cpu k1) = false;
  lv_level t : default INTR_OFF (resume_level k1 !! t) = if decide (t = running k) then l else level_of k t
}.

(** What a switch to [n] does to the processes: the address space of [n], and the user
    fields of a dead thread go with its page. *)
Definition user_switch s k n (u' : P) : Prop :=
  ∃ u, process_activate n (user k) = Ret u ∧
    u' = if bool_decide (s = THREAD_DYING ∧ running k ≠ initial_thread k) then user_free (running k) u else u.

(** The end of a switch to [n]. *)
Lemma schedule_tail_ret s l k k1 n rest (prev : option Z) :
  leaving s l k k1 → leave s (view k) =
    Rq (if bool_decide (s = THREAD_DYING ∧ running k ≠ initial_thread k)
        then delete (running k) (<[n := THREAD_RUNNING]> (sts (view k1)))
        else <[n := THREAD_RUNNING]> (sts (view k1))) rest (idle_thread k) n (initial_thread k) →
  is_Some (threads k1 !! n) → prev = (if n =? running k then None else Some (running k)) →
  ∃ k2, thread_schedule_tail prev (k1 <| ready_list := rest |> <| running := n |>) = Ret k2 ∧
    view k2 = leave s (view k) ∧ pages_wf k2 ∧ thread_ticks k2 = 0 ∧ cpu k2 = cpu k1 ∧
    resume_level k2 = resume_level k1 ∧ frame_eq k1 k2 ∧ user_switch s k n (user k2).
Proof.
  intros [Hq Hx Hs Hi Hv Hp Huk1 Hoff _ _] Hl Hn Hprev. unfold thread_schedule_tail, running_thread.
  set (k0 := k1 <| ready_list := rest |> <| running := n |>).
  change (cpu k0) with (cpu k1). unfold intr_get_level. rewrite bool_decide_eq_true_2 by done. ret.
  set (k2 := (upd_thread _ _ k0) <| thread_ticks := 0 |>).
  change (running k0) with n in *.
  assert (pages_wf k2) as Hp2.
  { apply (pages_wf_frame (upd_thread n (λ th, th <| status := THREAD_RUNNING |>) k1)); [done..|].
    by apply pages_wf_upd. }
  destruct (process_activate_ok n (user k2)) as (u & Hu & Huk).
  { apply (pw_user k1); [done|done]. }
  rewrite Hu. ret. change (user k2) with (user k1) in Hu. rewrite Huk1 in Hu.
  assert (status <$> threads k2 = <[n := THREAD_RUNNING]> (sts (view k1))) as Ests
    by (by apply fmap_set_status).
  pose proof (f_equal run Hv) as Erun. pose proof (f_equal initial Hv) as Eini.
  pose proof (f_equal idle Hv) as Eidl. simpl in Erun, Eini, Eidl.
  assert (∀ k3, k3 = k2 <| user := u |> → pages_wf k3) as Hp3.
  { intros k3 ->. destruct Hp2 as [Hm2 Hu2]. split; [exact Hm2|]. intros t Ht. by apply Huk, Hu2. }
  subst prev. destruct (Z.eqb_spec n (running k)) as [En|En].
  - assert (¬ (s = THREAD_DYING ∧ running k ≠ initial_thread k)) as Hno.
    { intros [-> _]. pose proof (leave_run_dying (view k) Hq Hx (Hi eq_refl)) as Hne.
      rewrite Hl in Hne. by apply Hne. }
    eexists. split; [done|]. rewrite Hl. unfold user_switch. rewrite (bool_decide_eq_false_2 _ Hno).
    split; [|by split_and!; [apply Hp3|..|exists u]].
    unfold view. simpl. f_equal; [exact Ests|done..].
  - assert (sts (view k1) !! running k = Some s) as Hsk by (rewrite Hv; simpl; by rewrite lookup_insert_eq).
    destruct (view_live _ _ _ Hsk) as (pth & Hpth & Hps).
    assert (threads (k2 <| user := u |>) !! running k = Some pth) as Hpth2.
    { change (alter (λ th, th <| status := THREAD_RUNNING |>) n (threads k1) !! running k = Some pth).
      by rewrite lookup_alter_ne. }
    unfold thread_at. rewrite Hpth2. ret. rewrite Hps.
    change (initial_thread (k2 <| user := u |>)) with (initial_thread k1). rewrite Eini.
    destruct (decide (s = THREAD_DYING ∧ running k ≠ initial_thread k)) as [[-> Hne]|Hno].
    + rewrite bool_decide_eq_true_2 by done. rewrite (proj2 (Z.eqb_neq _ _)) by done. ret.
      rewrite (proj2 (Z.eqb_neq _ _)) by done. ret. eexists. split; [done|].
      rewrite Hl. unfold user_switch. rewrite bool_decide_eq_true_2 by done.
      split; [|split; [|by split_and!; [..|exists u]]].
      * unfold view. simpl. f_equal; [|done..].
        etrans; [apply fmap_delete|]. f_equal. exact Ests.
      * destruct (Hp3 _ eq_refl) as [Hm3 Hu3]. split.
        -- intros t th. change (delete (running k) (threads k2) !! t = Some th → magic th = THREAD_MAGIC).
           intros [_ Ht]%lookup_delete_Some. by eapply Hm3.
        -- intros t. change (is_Some (delete (running k) (threads k2) !! t) →
             user_ok (user_free (running k) u) t).
           intros [th [Hnt Ht]%lookup_delete_Some]. apply user_free_ok; [done|].
           apply Hu3. by exists th.
    + replace (bool_decide (s = THREAD_DYING) && negb (running k =? initial_thread k)) with false.
      2: { symmetry. apply andb_false_iff. rewrite bool_decide_eq_false, negb_false_iff, Z.eqb_eq.
           destruct (decide (s = THREAD_DYING)); [right|by left].
           destruct (decide (running k = initial_thread k)); [done|naive_solver]. }
      eexists. split; [done|]. rewrite Hl. unfold user_switch. rewrite bool_decide_eq_false_2 by done.
      split; [|by split_and!; [apply Hp3|..|exists u]].
      unfold view. simpl. f_equal; [exact Ests|done..].
Qed.

(** [schedule] is [leave]. *)
Lemma schedule_ret s l k k1 :
  leaving s l k k1 →
  ∃ k2, schedule k1 = Ret k2 ∧ view k2 = leave s (view k) ∧ pages_wf k2 ∧ thread_ticks k2 = 0 ∧
    cpu k2 = cpu k1 ∧ resume_level k2 = resume_level k1 ∧ frame_eq k1 k2 ∧
    user_switch s k (running k2) (user k2).
Proof.
  intros Hlv. pose proof Hlv as [Hq Hx Hs Hi Hv Hp Huk1 Hoff Hctx _].
  assert (ready_list k1 = requeue s (view k)) as Er by (exact (f_equal queue Hv)).
  assert (idle_thread k1 = idle_thread k) as Ei by (exact (f_equal idle Hv)).
  assert (running k1 = running k) as Eu by (exact (f_equal run Hv)).
  destruct (view_live k1 (running k) s) as (cth & Hc & Hcs).
  { rewrite Hv. simpl. by rewrite lookup_insert_eq. }
  assert (∃ n rest, next_thread_to_run k1 = (Some n, k1 <| ready_list := rest |>) ∧
    leave s (view k) =
    Rq (if bool_decide (s = THREAD_DYING ∧ running k ≠ initial_thread k)
        then delete (running k) (<[n := THREAD_RUNNING]> (sts (view k1)))
        else <[n := THREAD_RUNNING]> (sts (view k1))) rest (idle_thread k) n (initial_thread k))
    as (n & rest & Hnext & Hl).
  { unfold next_thread_to_run, leave. rewrite Er, Ei, Hv. simpl.
    unfold has_next in Hx. destruct (requeue s (view k)) as [|x rest]; [|by exists x, rest].
    destruct Hx as [|[i Hid]]; [done|]. simpl in Hid. rewrite Hid. exists i, [].
    split; [|done]. rewrite <- Er. by destruct k1. }
  assert (is_Some (threads k1 !! n)) as Hn.
  { pose proof (leave_run_elem s _ Hx) as Hr. rewrite Hl in Hr. simpl in Hr.
    assert (∃ s', sts (view k1) !! n = Some s') as (s' & Hs'); [|by apply view_live in Hs' as (? & ? & _); eexists].
    rewrite Hv. simpl. destruct (decide (n = running k)) as [->|Hne]; [rewrite lookup_insert_eq; eauto|].
    rewrite lookup_insert_ne by done. destruct Hr as [Hr|[_ Hr]].
    - apply rq_requeue_elem in Hr as [Hr|(? & _)]; [|done]. eexists. by apply (rq_ready _ Hq).
    - destruct (rq_idle_off _ Hq n Hr) as (si & ? & _). by eexists. }
  unfold schedule, running_thread. rewrite Hnext.
  change (cpu (k1 <| ready_list := rest |>)) with (cpu k1). unfold intr_get_level.
  rewrite bool_decide_eq_true_2 by done. ret. unfold thread_at.
  change (threads (k1 <| ready_list := rest |>)) with (threads k1). rewrite Eu, Hc. ret.
  rewrite bool_decide_eq_true_2 by congruence. ret.
  rewrite (rr_is_thread_live (k1 <| ready_list := rest |>) n) by (done || by apply (pages_wf_frame k1)).
  ret. destruct (schedule_tail_ret s l k k1 n rest (if n =? running k then None else Some (running k)))
    as (k2 & Hk2 & Hv2 & Hrest); [done..|]. exists k2.
  assert (running k2 = n) as -> by (pose proof (f_equal run Hv2) as E; rewrite Hl in E; exact E).
  split; [|by split]. rewrite <- Hk2.
  rewrite (Z.eqb_sym (running k)). destruct (Z.eqb_spec n (running k)) as [En|]; [|done].
  simpl. f_equal. rewrite En, <- Eu. by destruct k1.
Qed.

(** After a switch: the abstract step, a fresh time slice, and each thread at its
    level. *)
Record switched s l k k' : Prop := {
  sw_view : view k' = leave s (view k);
  sw_ok : rr_ok k';
  sw_ticks : thread_ticks k' = 0;
  sw_next_tid : next_tid k' = next_tid k;
  sw_user : user_switch s k (running k') (user k');
  sw_level t : level_of k' t = if decide (t = running k) then l else level_of k t
}.

Lemma switch_ret s l k k1 :
  leaving s l k k1 → next_tid k1 = next_tid k →
  ∃ k2 k', schedule k1 = Ret k2 ∧ finish_switch k2 = Ret k' ∧ switched s l k k'.
Proof.
  intros Hlv Hnt. destruct (schedule_ret s l k k1 Hlv) as (k2 & Hk2 & Hv & Hp & Ht & Ec & Er & Hf & Hu).
  pose proof Hlv as [Hq Hx Hs Hi _ _ _ Hoff Hctx Hlev].
  assert (∃ i, finish_switch k2 = Ret (k2 <| cpu := i |> <| resume_level ::= delete (running k2) |>)
    ∧ in_external_intr i = false ∧ if_flag i = default INTR_OFF (resume_level k2 !! running k2)) as (i & Hfin & Hie & Hif).
  { unfold finish_switch, intr_set_level, intr_enable, intr_disable, intr_context.
    rewrite Ec, Hctx. case_match; eexists; (split; [reflexivity|done]). }
  exists k2. eexists. split; [done|]. split; [exact Hfin|]. split.
  - exact Hv.
  - split; [|by apply (pages_wf_frame k2)|done|simpl; rewrite Ht; done].
    change (rq_ok (view k2)). rewrite Hv. by apply leave_ok.
  - exact Ht.
  - destruct Hf as (_ & E & _). simpl. by rewrite E.
  - exact Hu.
  - intros t. rewrite <- Hlev, <- Er. unfold level_of. simpl. case_decide as E; [by subst|].
    by rewrite lookup_delete_ne.
Qed.

Lemma switched_wf s l k k' : rr_wf k → switched s l k k' → rr_wf k'.
Proof.
  intros Hwf [Hv Hok _ _ _ _]. apply (rr_ok_idle k); [done..|]. rewrite Hv. apply leave_rest.
Qed.

(** ** The operations *)

Lemma leaving_intro s l k c r al :
  rr_ok k → has_next s (view k) → s ≠ THREAD_RUNNING → (s = THREAD_DYING → idle_thread k ≠ Some (running k)) →
  if_flag c = INTR_OFF → in_external_intr c = false →
  (∀ t, default INTR_OFF (r !! t) = if decide (t = running k) then l else default INTR_OFF (resume_level k !! t)) →
  leaving s l k (upd_thread (running k) (λ th, th <| status := s |>)
    (k <| cpu := c |> <| all_list := al |> <| ready_list := requeue s (view k) |>
       <| resume_level := r |>)).
Proof.
  intros [Hq Hp _ _] Hx Hs Hi Hoff Hctx Hr. destruct (running_live k Hq) as (th & Ht & _).
  split; [done..| | |done|done|done|].
  - unfold view. simpl. f_equal. apply fmap_set_status. by eexists.
  - apply pages_wf_upd; [done|]. by apply (pages_wf_frame k).
  - intros t. simpl. rewrite Hr. unfold level_of. by case_decide.
Qed.

Lemma resume_insert (r : gmap Z intr_level) t l u :
  default INTR_OFF (<[t := l]> r !! u) = if decide (u = t) then l else default INTR_OFF (r !! u).
Proof. case_decide; [subst; by rewrite lookup_insert_eq|by rewrite lookup_insert_ne]. Qed.

Lemma thread_yield_ret k :
  rr_ok k → has_next THREAD_READY (view k) → ∃ k', thread_yield k = Ret k' ∧ switched THREAD_READY (if_flag (cpu k)) k k'.
Proof.
  intros Hok Hx. pose proof Hok as [Hq Hp Hctx _]. unfold thread_yield.
  rewrite rr_thread_current_ret by done. ret. unfold intr_context. rewrite Hctx. ret.
  unfold intr_disable, intr_get_level.
  destruct (switch_ret _ _ _ _ (leaving_intro THREAD_READY _ k ((cpu k) <| if_flag := INTR_OFF |>)
    (<[running k := if_flag (cpu k)]> (resume_level k)) (all_list k) Hok Hx ltac:(done)
    ltac:(done) eq_refl Hctx (resume_insert _ _ _))) as (k2 & k' & Hk2 & Hk' & Hsw); [done|].
  exists k'. split; [|done]. revert Hk2. unfold requeue. simpl.
  destruct (decide (idle_thread k = Some (running k))) as [Hi|Hi].
  - rewrite (bool_decide_eq_false_2 (_ ∧ _)) by naive_solver.
    rewrite bool_decide_eq_true_2 by done. intros Hk2.
    by replace (schedule _) with (Ret k2) by (rewrite <- Hk2; by destruct k).
  - rewrite (bool_decide_eq_true_2 (_ ∧ _)) by done.
    rewrite bool_decide_eq_false_2 by done. intros Hk2.
    by replace (schedule _) with (Ret k2) by (rewrite <- Hk2; by destruct k).
Qed.

Lemma thread_block_ret l k :
  rr_ok k → has_next THREAD_BLOCKED (view k) → if_flag (cpu k) = INTR_OFF →
  ∃ k', thread_block l k = Ret k' ∧ switched THREAD_BLOCKED l k k'.
Proof.
  intros Hok Hx Hoff. pose proof Hok as [Hq Hp Hctx _]. unfold thread_block, intr_context, intr_get_level.
  rewrite Hctx, Hoff. ret. rewrite rr_thread_current_ret by done. ret.
  destruct (switch_ret _ _ _ _ (leaving_intro THREAD_BLOCKED l k (cpu k)
    (<[running k := l]> (resume_level k)) (all_list k) Hok Hx ltac:(done)
    ltac:(done) Hoff Hctx (resume_insert _ _ _))) as (k2 & k' & Hk2 & Hk' & Hsw); [done|].
  exists k'. split; [|done].
  by replace (schedule _) with (Ret k2) by (rewrite <- Hk2; by destruct k).
Qed.

Lemma rr_with_intr_off_ret (body : kern P → outcome (kern P)) k k1 :
  body (k <| cpu ::= λ i, i <| if_flag := INTR_OFF |> |>) = Ret k1 →
  cpu k1 = (cpu k) <| if_flag := INTR_OFF |> → in_external_intr (cpu k) = false →
  with_intr_off body k = Ret (k1 <| cpu := cpu k |>).
Proof.
  intros Hb Hc Hctx. unfold with_intr_off, intr_disable.
  replace (body _) with (Ret k1) by (rewrite <- Hb; by destruct k). ret.
  rewrite Hc. unfold intr_get_level, intr_set_level, intr_enable, intr_context, intr_disable.
  destruct (cpu k) as [[] ext yr]; simpl in *; by subst.
Qed.

(** [thread_unblock] is [wake]. *)
Lemma thread_unblock_ret t k :
  rr_ok k → sts (view k) !! t = Some THREAD_BLOCKED → idle_thread k ≠ Some t →
  ∃ k', thread_unblock t k = Ret k' ∧ rr_ok k' ∧ view k' = wake t (view k) ∧
    k' = k <| threads := threads k' |> <| ready_list := ready_list k' |>.
Proof.
  intros [Hq Hp Hctx Ht] Hs Hi. destruct (view_live _ _ _ Hs) as (th & Hth & Hst).
  unfold thread_unblock. rewrite rr_is_thread_live by (done || by eexists). ret.
  set (k1 := upd_thread t (λ th, th <| status := THREAD_READY |>) (k <| ready_list ::= λ l, l ++ [t] |>)).
  rewrite (rr_with_intr_off_ret _ k (k1 <| cpu := (cpu k) <| if_flag := INTR_OFF |> |>)); [| |done|done].
  2: { unfold thread_at. simpl. rewrite Hth. ret. rewrite Hst. subst k1. by destruct k. }
  assert (view k1 = wake t (view k)) as Hv.
  { unfold view, wake. simpl. f_equal. apply fmap_set_status. by eexists. }
  exists k1. split; [subst k1; by destruct k|]. split; [|split; [done|subst k1; by destruct k]].
  split; [rewrite Hv; by apply wake_ok| |done|done].
  apply pages_wf_upd; [done|]. by apply (pages_wf_frame k).
Qed.

Lemma thread_unblock_inv t k k' :
  rr_wf k → thread_unblock t k = Ret k' → sts (view k) !! t = Some THREAD_BLOCKED.
Proof.
  intros _ Hu. unfold thread_unblock, with_intr_off in Hu. inv_bind. unfold thread_at in *. inv_bind.
  rewrite bool_decide_eq_true in *. rewrite lookup_fmap. simpl in *.
  match goal with E : threads k !! t = Some _ |- _ => rewrite E end. simpl. congruence.
Qed.

(** [user] and [cpu] changes that keep the state well formed. *)
Lemma rr_wf_frame k k' :
  threads k' = threads k → ready_list k' = ready_list k → idle_thread k' = idle_thread k →
  running k' = running k → thread_ticks k' = thread_ticks k →
  in_external_intr (cpu k') = false → initial_thread k' = initial_thread k →
  (∀ x, user_ok (user k) x → user_ok (user k') x) → rr_wf k → rr_wf k'.
Proof.
  intros E1 E2 E3 E4 E5 Hc E6 Hu [Hq [Hm Huser] _ Ht].
  assert (view k' = view k) as Ev by (unfold view; congruence).
  split; [by rewrite Ev| |done|by rewrite E5]. split; rewrite E1; [done|]. intros t Hl. by apply Hu, Huser.
Qed.

Lemma unblock_all_Ret l k k' :
  rr_wf k → unblock_all l k = Ret k' → (∀ t, t ∈ l → idle_thread k ≠ Some t) →
  rr_wf k' ∧ view k' = foldl (λ q t, wake t q) (view k) l ∧
  k' = k <| threads := threads k' |> <| ready_list := ready_list k' |>.
Proof.
  revert k. induction l as [|t l IH]; intros k Hwf Hu Hi; simpl in Hu.
  { simplify_eq. split; [done|]. split; [done|]. by destruct k'. }
  apply bind_Ret_inv in Hu as (k1 & H1 & Hu).
  destruct (thread_unblock_ret t k) as (k2 & H2 & Hok2 & Hv2 & E2);
    [done|by eapply thread_unblock_inv|apply Hi; by left|]. ret_inj.
  assert (rr_wf k2) as Hwf2 by (apply (rr_ok_idle k); [done..|by rewrite Hv2]).
  destruct (IH k2 Hwf2 Hu) as (Hwf' & Hv & E).
  { intros u Hul. rewrite E2. apply Hi. by right. }
  split; [done|]. split; [by rewrite Hv, Hv2|]. rewrite E at 1. by rewrite E2.
Qed.

Lemma foldl_wake_rest l (q : rq) :
  queue (foldl (λ q t, wake t q) q l) = queue q ++ l ∧ run (foldl (λ q t, wake t q) q l) = run q.
Proof.
  revert q. induction l as [|t l IH]; intros q; simpl; [by rewrite app_nil_r|].
  destruct (IH (wake t q)) as [-> ->]. simpl. by rewrite <- app_assoc.
Qed.

Lemma rr_alloc_frame_ret t size k th :
  threads k !! t = Some th → magic th = THREAD_MAGIC → size mod 4 = 0 →
  alloc_frame t size k = Ret (upd_thread t (λ th, th <| stack := u32 (stack th - size) |>) k).
Proof. intros Ht Hm Hs. unfold alloc_frame. simpl. rewrite Ht, Hm, Hs. done. Qed.

Variables sef stf : Z.
Hypotheses (sef_words : sef mod 4 = 0) (stf_words : stf mod 4 = 0).

(** [thread_create] adds a thread and wakes it. *)
Lemma thread_create_ret nm prio t k :
  rr_ok k → threads k !! t = None → PRI_MIN ≤ prio ≤ PRI_MAX →
  ∃ k' th, thread_create sef stf nm prio (Some t) k = Ret (next_tid k, k') ∧ rr_ok k' ∧
    view k' = wake t (spawn t (view k)) ∧ thread_ticks k' = thread_ticks k ∧
    threads k' !! t = Some th ∧ tid th = next_tid k ∧ priority th = prio ∧
    name th = String.substring 0 15 nm ∧ user k' = user_init t (user k) ∧ cpu k' = cpu k ∧
    resume_level k' = <[t := INTR_ON]> (resume_level k).
Proof.
  intros [Hq [Hm Hu] Hctx Ht] Hfresh Hp. unfold thread_create, init_thread.
  rewrite (ASSERT_true (_ && _)) by (apply andb_true_intro; split; apply Z.leb_le; lia). ret.
  erewrite rr_with_intr_off_ret; [|done|done|done]. ret. unfold allocate_tid. simpl.
  unfold sizeof_kernel_thread_frame.
  erewrite (rr_alloc_frame_ret _ 12); [|simpl; rewrite lookup_alter_eq, lookup_insert_eq; done|done|done].
  ret. unfold upd_thread at 1. simpl. rewrite !alter_insert_eq. simpl.
  erewrite (rr_alloc_frame_ret _ sef); [|simpl; rewrite lookup_insert_eq; done|done|done].
  ret. unfold upd_thread at 1. simpl. rewrite !alter_insert_eq. simpl.
  erewrite (rr_alloc_frame_ret _ stf); [|simpl; rewrite lookup_insert_eq; done|done|done].
  ret. unfold upd_thread at 1. simpl. rewrite !alter_insert_eq. simpl.
  set (th := Thread _ _ _ _ _ _).
  match goal with |- context [thread_unblock t ?x] => set (k6 := x) end.
  assert (view k6 = spawn t (view k)) as Hv6.
  { unfold view, spawn. simpl. f_equal. apply fmap_insert. }
  assert (sts (view k) !! t = None) as Hst by (by rewrite view_status, Hfresh).
  assert (idle_thread k6 ≠ Some t) as Hi.
  { simpl. intros Hi. destruct (rq_idle_off _ Hq t Hi) as (si & Hsi & _). congruence. }
  assert (pages_wf k6) as Hp6.
  { split; simpl.
    - intros u uth [[_ <-]|[_ ?]]%lookup_insert_Some; [done|by eapply Hm].
    - intros u Hlive. apply user_init_ok. destruct (decide (u = t)); [by right|left].
      rewrite lookup_insert_ne in Hlive by done. by apply Hu. }
  destruct (thread_unblock_ret t k6) as (k7 & H7 & Hwf7 & Hv7 & E7).
  { split; [|done|done|done]. rewrite Hv6. by apply spawn_ok. }
  { rewrite Hv6. simpl. by rewrite lookup_insert_eq. }
  { done. }
  rewrite H7. ret. 
  assert (∃ th', threads k7 !! t = Some th' ∧ tid th' = next_tid k ∧ priority th' = prio ∧
    name th' = String.substring 0 15 nm) as (th' & Hth' & ? & ? & ?).
  { unfold thread_unblock, with_intr_off in H7. inv_bind. unfold thread_at in *. inv_bind.
    simpl. rewrite lookup_alter_eq, lookup_insert_eq. eexists. split; [done|]. done. }
  exists k7, th'. split; [done|]. split; [done|]. split; [by rewrite Hv7, Hv6|].
  split_and!; [by rewrite E7|done..|by rewrite E7|by rewrite E7|by rewrite E7].
Qed.

(** ** Events *)

(** What the thread on the CPU may do, and the timer interrupt. *)
Inductive rr_event :=
  | Yield
  | Block (l : intr_level)
  | Unblock (t : Z)
  | Exit
  | Create (nm : string) (prio t : Z)
  | SetPriority (p : Z)
  | SetLevel (l : intr_level)
  | Tick.

Definition run_event (ev : rr_event) k : outcome (kern P) :=
  match ev with
  | Yield => thread_yield k
  | Block l => thread_block l k
  | Unblock t => thread_unblock t k
  | Exit => thread_exit k
  | Create nm prio t => '(_, k') ← thread_create sef stf nm prio (Some t) k; Ret k'
  | SetPriority p => thread_set_priority p k
  | SetLevel l => '(_, i) ← intr_set_level l (cpu k); Ret (k <| cpu := i |>)
  | Tick => tick_interrupt k
  end.

(** The idle thread does not exit and no one wakes it; [palloc_get_page] returns a
    page that is not in use. *)
Definition event_ok (ev : rr_event) k : Prop :=
  match ev with
  | Unblock t => idle_thread k ≠ Some t
  | Exit => idle_thread k ≠ Some (running k) ∧
      ∀ u l t, process_leave (running k) (user k) = Ret (u, l) → t ∈ l → idle_thread k ≠ Some t
  | Create _ _ t => threads k !! t = None
  | _ => True
  end.

Definition ticks_of (ev : rr_event) : Z := match ev with Tick => 1 | _ => 0 end.

(** The effect on the queue of something that takes [n] ticks, none or one: threads were
    appended and the same thread runs on, or there was also a switch, which after a
    tick ends a time slice. *)
Definition moved (n : Z) k k' : Prop :=
  0 ≤ n ≤ 1 ∧ ∃ new,
    (ready_list k' = ready_list k ++ new ∧ thread_ticks k' = thread_ticks k + n) ∨
    (∃ s q, queue q = ready_list k ++ new ∧ view k' = leave s q ∧ thread_ticks k' = 0 ∧
       (n = 1 → thread_ticks k = TIME_SLICE - 1)).

Lemma switched_moved s l k k' : switched s l k k' → moved 0 k k'.
Proof.
  intros [Hv _ Ht _ _ _]. split; [done|]. exists []. right. exists s, (view k). by rewrite app_nil_r.
Qed.

Lemma same_view_moved n k k' :
  0 ≤ n ≤ 1 → view k' = view k → thread_ticks k' = thread_ticks k + n → moved n k k'.
Proof. intros Hn Hv Ht. split; [done|]. exists []. left. rewrite app_nil_r. split; [exact (f_equal queue Hv)|done]. Qed.

(** The time slice is not used up between events. *)
Definition in_slice k : Prop := thread_ticks k < TIME_SLICE.

(** The interrupted thread has interrupts on when it executes [iret]. *)
Definition iret (cur : Z) k : kern P :=
  if running_thread k =? cur then k <| cpu := (cpu k) <| if_flag := INTR_ON |> |>
  else k <| resume_level ::= <[cur := INTR_ON]> |>.

Lemma iret_ok cur k : rr_ok k → rr_ok (iret cur k).
Proof. intros [Hq Hp Hctx Ht]. unfold iret. case_match; (split; [exact Hq|by apply (pages_wf_frame k)|done|done]). Qed.

Lemma iret_view cur k :
  view (iret cur k) = view k ∧ thread_ticks (iret cur k) = thread_ticks k ∧
  user (iret cur k) = user k ∧ running (iret cur k) = running k.
Proof. unfold iret. by case_match. Qed.

Lemma iret_level cur k t : level_of (iret cur k) t = if decide (t = cur) then INTR_ON else level_of k t.
Proof.
  unfold iret, running_thread, level_of. destruct (Z.eqb_spec (running k) cur) as [<-|Hne]; simpl.
  - by case_decide.
  - rewrite resume_insert. repeat case_decide; congruence.
Qed.

(** [thread_tick] in the handler of the interrupt. *)
Lemma rr_thread_tick_ret k :
  rq_ok (view k) → pages_wf k → 0 ≤ thread_ticks k < TIME_SLICE → in_external_intr (cpu k) = true →
  ∃ k', thread_tick k = Ret k' ∧ view k' = view k ∧ pages_wf k' ∧
    thread_ticks k' = thread_ticks k + 1 ∧ if_flag (cpu k') = if_flag (cpu k) ∧
    yield_on_return (cpu k') = yield_on_return (cpu k) || (thread_ticks k =? TIME_SLICE - 1) ∧
    user k' = user k ∧ resume_level k' = resume_level k.
Proof.
  intros Hq Hp Ht Hctx. unfold thread_tick. rewrite rr_thread_current_ret by done. ret.
  match goal with |- context [u32 (thread_ticks ?x + 1)] => set (k1 := x) end.
  assert (thread_ticks k1 = thread_ticks k ∧ cpu k1 = cpu k ∧ view k1 = view k ∧
    threads k1 = threads k ∧ user k1 = user k ∧ resume_level k1 = resume_level k) as (Et & Ec & Ev & Eth & Eu & Er)
    by (subst k1; by repeat case_match).
  rewrite Et, u32_id by (unfold in_u32, TIME_SLICE in *; lia).
  set (k2 := k1 <| thread_ticks := thread_ticks k + 1 |>).
  change (thread_ticks k2) with (thread_ticks k + 1).
  destruct (Z.leb_spec TIME_SLICE (thread_ticks k + 1)).
  - unfold intr_yield_on_return, intr_context. change (cpu k2) with (cpu k1). rewrite Ec, Hctx. ret.
    eexists. split; [done|]. split; [exact Ev|]. split; [by apply (pages_wf_frame k)|].
    split; [done|]. split; [done|]. split; [|by split]. simpl.
    rewrite (proj2 (Z.eqb_eq _ _)) by lia. by rewrite orb_true_r.
  - eexists. split; [done|]. split; [exact Ev|]. split; [by apply (pages_wf_frame k)|].
    split; [done|]. change (cpu k2) with (cpu k1). rewrite Ec. split; [done|]. split; [|by split].
    rewrite (proj2 (Z.eqb_neq _ _)) by lia. by rewrite orb_false_r.
Qed.

(** [tick_interrupt] while the time slice lasts, and at its end. *)
Lemma tick_interrupt_ret k :
  rr_ok k → has_next THREAD_READY (view k) → in_slice k → if_flag (cpu k) = INTR_ON →
  ∃ k', tick_interrupt k = Ret k' ∧ rr_ok k' ∧ in_slice k' ∧ moved 1 k k' ∧
    view k' = (if thread_ticks k =? TIME_SLICE - 1 then leave THREAD_READY (view k) else view k) ∧
    (user k' = user k ∨ process_activate (running k') (user k) = Ret (user k')) ∧
    (∀ t, level_of k' t = level_of k t).
Proof.
  intros [Hq Hp Hctx Ht] Hx Hsl Hon. unfold in_slice in *. unfold tick_interrupt.
  rewrite Hon, bool_decide_eq_true_2 by done. ret.
  set (k0 := k <| cpu := Intr INTR_OFF true false |>).
  destruct (rr_thread_tick_ret k0) as (k1 & -> & Hv1 & Hp1 & Ht1 & Hf1 & Hy1 & Hu1 & Hr1);
    [done|by apply (pages_wf_frame k)|by split; [apply Ht|]|done|]. ret.
  change (yield_on_return (cpu k0)) with false in Hy1. rewrite orb_false_l in Hy1.
  change (thread_ticks k0) with (thread_ticks k) in *. change (user k0) with (user k) in Hu1. rewrite Hy1.
  set (k2 := k1 <| cpu := _ |>).
  assert (rr_ok k2) as Hok2.
  { split; [|by apply (pages_wf_frame k1)|done|].
    - change (view k2) with (view k1). by rewrite Hv1.
    - change (thread_ticks k2) with (thread_ticks k1). lia. }
  assert (view k2 = view k) as Hv2 by exact Hv1.
  assert (∀ t, level_of k t = if decide (t = running k) then INTR_ON else level_of k2 t) as Hlev.
  { intros t. unfold level_of. change (running k2) with (running k1). change (resume_level k2) with (resume_level k1).
    pose proof (f_equal run Hv1) as Er. simpl in Er. rewrite Hr1, Er. by repeat case_decide. }
  destruct (Z.eqb_spec (thread_ticks k) (TIME_SLICE - 1)) as [Hlast|Hlast].
  - destruct (thread_yield_ret k2 Hok2) as (k3 & -> & [Hv3 Hok3 Ht3 _ (u & Hu & Eu) Hlev3]); [by rewrite Hv2|]. ret.
    rewrite bool_decide_eq_false_2 in Eu by naive_solver. subst u. change (user k2) with (user k1) in Hu.
    change (running_thread k) with (running k). exists (iret (running k) k3).
    destruct (iret_view (running k) k3) as (Ev & Et & Eu & Er). rewrite Hv2 in Hv3. unfold in_slice.
    split; [done|]. split; [by apply iret_ok|]. rewrite Ev, Et, Ht3, Eu, Er, <- Hu1.
    split; [done|]. split.
    2: { split; [done|]. split; [by right|]. intros t. rewrite iret_level, Hlev. case_decide; [done|].
      rewrite Hlev3, decide_False; [done|]. intros ->. by apply (f_equal run) in Hv2. }
    split; [done|]. exists []. right. exists THREAD_READY, (view k). rewrite app_nil_r. unfold TIME_SLICE in *.
    split_and!; [done|congruence|congruence|by intros _].
  - ret. exists (iret (running k) k2). destruct (iret_view (running k) k2) as (Ev & Et & Eu & _). unfold in_slice.
    split; [done|]. split; [by apply iret_ok|]. rewrite Ev, Et, Eu. change (thread_ticks k2) with (thread_ticks k1).
    split; [lia|]. split.
    2: { split; [done|]. split; [by left|]. intros t. by rewrite iret_level, Hlev. }
    apply same_view_moved; [done|congruence|]. rewrite Et. exact Ht1.
Qed.

(** ** Every event is an abstract step *)

(** What an operation of [n] ticks preserves and does. *)
Record effect (n : Z) k k' : Prop := {
  ef_wf : rr_wf k';
  ef_slice : in_slice k';
  ef_steps : rtc rq_step (view k) (view k');
  ef_moved : moved n k k'
}.

Lemma switched_effect s l k k' :
  rr_wf k → s ≠ THREAD_RUNNING → (s = THREAD_DYING → idle_thread k ≠ Some (running k)) →
  switched s l k k' → effect 0 k k'.
Proof.
  intros Hwf Hs Hi Hsw. pose proof Hsw as [Hv _ Ht _ _ _]. split; [by eapply switched_wf| | |by eapply switched_moved].
  - unfold in_slice. by rewrite Ht.
  - rewrite Hv. by apply rtc_once, rq_leave.
Qed.

Lemma tick_effect k k' :
  rr_wf k → in_slice k → tick_interrupt k = Ret k' →
  effect 1 k k' ∧ (view k' = view k ∨ view k' = leave THREAD_READY (view k)) ∧
  (user k' = user k ∨ process_activate (running k') (user k) = Ret (user k')).
Proof.
  intros Hwf Hsl Ht. assert (if_flag (cpu k) = INTR_ON) as Hon.
  { unfold tick_interrupt in Ht. inv_bind. by rewrite bool_decide_eq_true in *. }
  destruct (tick_interrupt_ret k) as (k2 & H2 & Hok & Hsl2 & Hm & Hv & Hu & _); [done..|]. ret_inj.
  assert (view k2 = view k ∨ view k2 = leave THREAD_READY (view k)) as Hv'
    by (rewrite Hv; case_match; [by right|by left]).
  split; [|done]. split; [|done| |done].
  - apply (rr_ok_idle k); [done..|]. destruct Hv' as [->| ->]; [done|apply leave_rest].
  - destruct Hv' as [->| ->]; [done|]. by apply rtc_once, rq_leave.
Qed.

Lemma same_view_effect k k' :
  in_slice k → rr_wf k' → view k' = view k → thread_ticks k' = thread_ticks k → effect 0 k k'.
Proof.
  intros Hsl Hwf Hv Ht. split; [done| | |].
  - unfold in_slice in *. by rewrite Ht.
  - by rewrite Hv.
  - apply same_view_moved; [done..|]. rewrite Ht. lia.
Qed.

Lemma wake_effect t q k k' :
  in_slice k → rr_wf k' → view k' = wake t q → queue q = ready_list k →
  thread_ticks k' = thread_ticks k → rtc rq_step (view k) (wake t q) → effect 0 k k'.
Proof.
  intros Hsl Hwf Hv Hq Ht Hr. split; [done| |by rewrite Hv|].
  - unfold in_slice in *. by rewrite Ht.
  - split; [done|]. exists [t]. left. split; [|lia].
    change (queue (view k') = ready_list k ++ [t]). rewrite Hv. simpl. by rewrite Hq.
Qed.

(** What happened before and left the queue alone does not count. *)
Lemma effect_from n k0 k k' :
  view k0 = view k → thread_ticks k0 = thread_ticks k → effect n k0 k' → effect n k k'.
Proof.
  intros Ev Et [Hwf Hsl Hst [Hn (new & Hm)]]. split; [done..|by rewrite <- Ev|]. split; [done|]. exists new.
  pose proof (f_equal queue Ev) as Eq. simpl in Eq. by rewrite <- Eq, <- Et.
Qed.

Lemma foldl_wake_steps l k k' :
  rr_wf k → unblock_all l k = Ret k' → (∀ t, t ∈ l → idle_thread k ≠ Some t) →
  rtc rq_step (view k) (view k').
Proof.
  revert k. induction l as [|t l IH]; intros k Hwf Hu Hi; simpl in Hu; [by simplify_eq|].
  apply bind_Ret_inv in Hu as (k1 & H1 & Hu).
  pose proof (thread_unblock_inv t k k1 Hwf H1) as Hb.
  assert (idle_thread k ≠ Some t) as Hit by (apply Hi; by left).
  destruct (thread_unblock_ret t k Hwf Hb Hit) as (k2 & H2 & Hok2 & Hv2 & E2). ret_inj.
  eapply rtc_l; [by apply (rq_wake (view k) t)|]. rewrite <- Hv2.
  apply IH; [by apply (rr_ok_idle k); [..|rewrite Hv2]|done|].
  intros u Hu2. rewrite E2. apply Hi. by right.
Qed.

(** [thread_exit] wakes whoever waits for the process, then leaves the CPU. *)
Lemma thread_exit_inv k k' :
  rr_wf k → event_ok Exit k → thread_exit k = Ret k' →
  ∃ u woken k1, process_leave (running k) (user k) = Ret (u, woken) ∧
    rr_wf (k <| user := u |>) ∧ unblock_all woken (k <| user := u |>) = Ret k1 ∧
    rr_wf k1 ∧ view k1 = foldl (λ q t, wake t q) (view k) woken ∧
    k1 = k <| user := u |> <| threads := threads k1 |> <| ready_list := ready_list k1 |> ∧
    ∃ l, switched THREAD_DYING l k1 k'.
Proof.
  intros Hwf [Hi Hl] Hx. pose proof Hwf as [Hq Hp Hctx Ht]. unfold thread_exit in Hx.
  unfold intr_context in Hx. rewrite Hctx in Hx. revert Hx. ret. rewrite rr_thread_current_ret by done. ret.
  intros Hx. apply bind_Ret_inv in Hx as ([u woken] & Hleave & Hx).
  apply bind_Ret_inv in Hx as (k1 & Hall & Hx). exists u, woken, k1.
  set (k0 := k <| user := u |>) in *.
  assert (rr_wf k0) as Hwf0.
  { apply (rr_wf_frame k); try done. intros x. by eapply process_leave_ok. }
  assert (∀ t, t ∈ woken → idle_thread k0 ≠ Some t) as Hl0 by (intros t; by apply (Hl u woken)).
  destruct (unblock_all_Ret woken k0 k1 Hwf0 Hall Hl0) as (Hwf1 & Hv1 & E1).
  split_and!; [done..|].
  assert (running k1 = running k ∧ idle_thread k1 = idle_thread k) as [Er Ei] by (by rewrite E1).
  assert (in_external_intr (cpu k1) = false) as Hctx1 by apply Hwf1.
  destruct (switch_ret _ _ _ _ (leaving_intro THREAD_DYING (default INTR_OFF (resume_level k1 !! running k1)) k1 ((cpu k1) <| if_flag := INTR_OFF |>)
    (resume_level k1) (list_remove (running k) (all_list k1)) Hwf1 ltac:(done) ltac:(done)
    ltac:(rewrite Ei, Er; done) eq_refl Hctx1 ltac:(intros t; by case_decide; subst))) as (k2 & k3 & Hk2 & Hk3 & Hsw); [done|].
  unfold intr_disable in Hx.
  assert (finish_switch k2 = Ret k') as Hfin.
  { rewrite <- Hx. replace (schedule _) with (Ret k2); [done|].
    rewrite <- Hk2. f_equal. unfold requeue. rewrite bool_decide_eq_false_2 by naive_solver.
    rewrite Er. by destruct k1. }
  ret_inj. by eexists.
Qed.

Lemma exit_effect k k' :
  rr_wf k → event_ok Exit k → thread_exit k = Ret k' → effect 0 k k'.
Proof.
  intros Hwf Hok Hx.
  destruct (thread_exit_inv k k' Hwf Hok Hx) as (u & woken & k1 & Hleave & Hwf0 & Hall & Hwf1 & Hv1 & E1 & l & Hsw).
  destruct Hok as [Hi Hl]. pose proof Hsw as [Hv _ Ht' _ _ _].
  pose proof (foldl_wake_steps woken _ k1 Hwf0 Hall (λ t, Hl u woken t Hleave)) as Hsteps.
  split; [by eapply switched_wf| | |split; [done|]].
  - unfold in_slice. by rewrite Ht'.
  - etrans; [exact Hsteps|]. rewrite Hv. apply rtc_once, rq_leave; [done|]. intros _. simpl. rewrite E1. exact Hi.
  - exists woken. right. exists THREAD_DYING, (view k1). split; [|done].
    rewrite Hv1. apply foldl_wake_rest.
Qed.

Lemma event_effect ev k k' :
  rr_wf k → in_slice k → event_ok ev k → run_event ev k = Ret k' → effect (ticks_of ev) k k'.
Proof.
  intros Hwf Hsl Hok Hrun. destruct ev as [|l|t| |nm prio t|p|l|]; cbn [run_event] in Hrun; simpl in Hok.
  - destruct (thread_yield_ret k) as (k2 & H2 & Hsw); [done..|]. ret_inj. by eapply switched_effect; [..|exact Hsw].
  - assert (if_flag (cpu k) = INTR_OFF) as Hoff.
    { unfold thread_block in Hrun. inv_bind. by rewrite bool_decide_eq_true in *. }
    destruct (thread_block_ret l k) as (k2 & H2 & Hsw); [done..|]. ret_inj. by eapply switched_effect; [..|exact Hsw].
  - pose proof (thread_unblock_inv t k k' Hwf Hrun) as Hb.
    destruct (thread_unblock_ret t k Hwf Hb Hok) as (k2 & H2 & Hok2 & Hv & E). ret_inj.
    eapply (wake_effect t (view k)); [done|by apply (rr_ok_idle k); [..|rewrite Hv]|done..|by rewrite E|]. by apply rtc_once, rq_wake.
  - by apply exit_effect.
  - assert (PRI_MIN ≤ prio ≤ PRI_MAX) as Hp.
    { unfold thread_create, init_thread in Hrun. inv_bind. bool_to_prop. lia. }
    destruct (thread_create_ret nm prio t k Hwf Hok Hp) as (k2 & th & H2 & Hok2 & Hv & Ht & _).
    rewrite H2 in Hrun. revert Hrun. ret. intros [= ->].
    eapply (wake_effect t (spawn t (view k))); [done|by apply (rr_ok_idle k); [..|rewrite Hv]|done..|]. apply spawn_wake_steps; [apply Hwf|]. by rewrite view_status, Hok.
  - unfold thread_set_priority in Hrun. rewrite rr_thread_current_ret in Hrun by apply Hwf.
    simplify_eq/=.
    assert (view (upd_thread (running k) (λ th, th <| priority := p |>) k) = view k) as Hv
      by (unfold view; simpl; f_equal; by apply fmap_keep_status).
    apply same_view_effect; [done| |done|done]. destruct Hwf as [Hq Hpg Hc Ht].
    split; [by rewrite Hv|by apply pages_wf_upd|done|done].
  - apply bind_Ret_inv in Hrun as ([o i] & Hl & [= <-]). apply same_view_effect; [done| |done|done].
    apply (rr_wf_frame k); try done. pose proof (rr_ctx k Hwf).
    destruct l; simpl in Hl; unfold intr_enable, intr_disable in Hl; inv_bind; done.
  - by apply tick_effect.
Qed.

(** A run: the events and the states after each of them. *)
Inductive rr_run : kern P → list rr_event → list (kern P) → Prop :=
  | run_nil k : rr_run k [] []
  | run_cons k ev k' evs ks :
      event_ok ev k → run_event ev k = Ret k' → rr_run k' evs ks → rr_run k (ev :: evs) (k' :: ks).

Definition count_ticks (evs : list rr_event) : Z := foldr (λ ev n, ticks_of ev + n) 0 evs.

(** ** No one starves

    For any steps that have such an effect: the events above, or those of a kernel
    with processes. *)

Inductive run_of (R : Z → kern P → kern P → Prop) : kern P → Z → list (kern P) → Prop :=
  | of_nil k : run_of R k 0 []
  | of_cons k n k' m ks : R n k k' → run_of R k' m ks → run_of R k (n + m) (k' :: ks).

(** [t] waits behind [pre], in a situation [Q] that lasts until it runs. *)
Lemma runs_within (R : Z → kern P → kern P → Prop) (Q : kern P → Prop) t k n ks pre :
  (∀ n k k', rr_wf k → in_slice k → Q k → R n k k' → effect n k k') →
  (∀ n k k', running k ≠ t → Q k → R n k k' → Q k') →
  run_of R k n ks → rr_wf k → in_slice k → Q k → running k ≠ t → waits_behind (view k) pre t →
  TIME_SLICE * (Z.of_nat (length pre) + 1) ≤ n + thread_ticks k →
  ∃ k', k' ∈ ks ∧ running k' = t ∧ Q k'.
Proof.
  intros Heff HQ Hr. revert pre. induction Hr as [k|k n k' m ks HR Hr IH]; intros pre Hwf Hsl Hk Hne Hw Hn.
  { unfold in_slice, TIME_SLICE in *. lia. }
  destruct (Heff n k k') as [Hwf' Hsl' _ [Hn01 (new & Hm)]]; [done..|].
  assert (Q k') as Hk' by (by eapply HQ).
  destruct (decide (running k' = t)) as [|Hne']; [exists k'; split; [by left|done]|].
  assert (∃ pre', waits_behind (view k') pre' t ∧
    TIME_SLICE * (Z.of_nat (length pre') + 1) ≤ m + thread_ticks k') as (pre' & Hw' & Hm').
  { destruct Hm as [[Hq Ht]|(s & q & Hq & Hv & Ht & Hlast)].
    - exists pre. split; [|lia]. destruct Hw as [post Hpost]. exists (post ++ new).
      change (ready_list k' = pre ++ t :: post ++ new). rewrite Hq. simpl in Hpost. rewrite Hpost.
      by rewrite <- app_assoc.
    - assert (waits_behind q pre t) as Hw0.
      { destruct Hw as [post Hpost]. exists (post ++ new). rewrite Hq. simpl in Hpost. rewrite Hpost.
        by rewrite <- app_assoc. }
      pose proof (leave_waits s q pre t Hw0) as Hl. rewrite <- Hv in Hl.
      destruct pre as [|x pre]; [done|]. destruct Hl as [_ Hl]. exists pre. split; [done|].
      unfold in_slice, TIME_SLICE in *. simpl length in Hn.
      assert (n = 0 ∨ n = 1) as [->| ->] by lia; [lia|]. specialize (Hlast eq_refl). lia. }
  destruct (IH pre' Hwf' Hsl' Hk' Hne' Hw' Hm') as (k2 & Hin & H2). exists k2. split; [by right|done].
Qed.

Lemma rr_run_of k evs ks :
  rr_run k evs ks →
  run_of (λ n k k', ∃ ev, n = ticks_of ev ∧ event_ok ev k ∧ run_event ev k = Ret k') k (count_ticks evs) ks.
Proof. induction 1; simpl; [constructor|]. econstructor; [|done]. eauto. Qed.

(** C10. Every operation of the scheduler, and the timer interrupt with the preemption it
    causes, is a sequence of steps of the abstract FIFO run queue, keeps the
    invariant, and cannot fail where it yields, blocks or is interrupted. *)
Theorem round_robin_refines k :
  rr_wf k → in_slice k →
  (∀ ev k', event_ok ev k → run_event ev k = Ret k' →
     rr_wf k' ∧ in_slice k' ∧ rq_wf (view k') ∧ rtc rq_step (view k) (view k')) ∧
  (∃ k', thread_yield k = Ret k' ∧ view k' = leave THREAD_READY (view k)) ∧
  (∀ l, if_flag (cpu k) = INTR_OFF →
     ∃ k', thread_block l k = Ret k' ∧ view k' = leave THREAD_BLOCKED (view k)) ∧
  (if_flag (cpu k) = INTR_ON →
     ∃ k', tick_interrupt k = Ret k' ∧
       view k' = if thread_ticks k =? TIME_SLICE - 1 then leave THREAD_READY (view k) else view k).
Proof.
  intros Hwf Hsl. split; [|split; [|split]].
  - intros ev k' Hok Hrun. destruct (event_effect ev k k') as [Hwf' Hsl' Hst _]; [done..|].
    by pose proof (rr_queue k' Hwf').
  - destruct (thread_yield_ret k) as (k' & ? & []); eauto.
  - intros l Hoff. destruct (thread_block_ret l k) as (k' & ? & []); eauto.
  - intros Hon. destruct (tick_interrupt_ret k) as (k' & ? & _ & _ & _ & ? & _); eauto.
Qed.

(** C9. No ready thread starves: behind [n] others it gets the CPU within
    [TIME_SLICE * (n + 1)] timer ticks, whatever the running threads do and however
    many threads are woken or created meanwhile. *)
Theorem ready_thread_runs k evs ks pre t post :
  rr_wf k → in_slice k → ready_list k = pre ++ t :: post → rr_run k evs ks →
  TIME_SLICE * (Z.of_nat (length pre) + 1) ≤ count_ticks evs →
  ∃ k', k' ∈ ks ∧ running k' = t.
Proof.
  intros Hwf Hsl Hq Hr Hticks. pose proof (rr_ticks k Hwf).
  destruct (runs_within (λ n k k', ∃ ev, n = ticks_of ev ∧ event_ok ev k ∧ run_event ev k = Ret k') (λ _, True)
    t k (count_ticks evs) ks pre) as (k' & ? & ? & _); try done; [|by apply rr_run_of| |by exists post|lia|by exists k'].
  - intros n k1 k2 Hwf1 Hsl1 _ (ev & -> & Hok & Hrun). by apply event_effect.
  - intros <-. apply (run_not_queued (view k)); [apply Hwf|]. simpl. rewrite Hq. set_solver.
Qed.
End spec.

(** ** Witnesses: [main] runs, two workers wait, no user programs *)

Definition mk (i : Z) (s : thread_status) (nm : string) : thread :=
  Thread i s nm 0 PRI_DEFAULT THREAD_MAGIC.

Definition sample : kern unit := Kern
  (list_to_map [(4096, mk 1 THREAD_RUNNING "main"); (8192, mk 2 THREAD_BLOCKED "idle");
                (12288, mk 3 THREAD_READY "first"); (16384, mk 4 THREAD_READY "second")])
  [12288; 16384] [4096; 8192; 12288; 16384] (Some 8192) 4096 4096 5 0 0 0 0
  (Intr INTR_ON false false)
  (list_to_map [(12288, INTR_ON); (16384, INTR_ON); (8192, INTR_ON)]) tt.

Lemma rr_sample_wf : rr_wf sample.
Proof.
  split; [split; [split|by eexists]|split|reflexivity|by split].
  - apply (bool_decide_unpack _). vm_compute. exact I.
  - intros t [->|[->|[]%elem_of_nil]%elem_of_cons]%elem_of_cons; reflexivity.
  - intros t Ht. refine (map_Forall_lookup_1 (λ t s, s = THREAD_READY → t ∈ [12288; 16384] ∨
      Some 8192 = Some t) (sts (view sample)) t _ _ Ht eq_refl).
    apply (bool_decide_unpack _). vm_compute. exact I.
  - intros i [= <-]. exists THREAD_BLOCKED. split_and!; [done..|]. apply (bool_decide_unpack _). vm_compute. exact I.
  - reflexivity.
  - intros t Ht. refine (map_Forall_lookup_1 (λ t s, s = THREAD_RUNNING → t = 4096)
      (sts (view sample)) t _ _ Ht eq_refl).
    apply (bool_decide_unpack _). vm_compute. exact I.
  - change (map_Forall (λ _ th, magic th = THREAD_MAGIC) (threads sample)).
    apply (bool_decide_unpack _). vm_compute. exact I.
  - done.
Qed.

(** The states after each event. *)
Fixpoint run_trace (evs : list rr_event) (k : kern unit) : outcome (list (kern unit)) :=
  match evs with
  | [] => Ret []
  | ev :: evs' => k' ← run_event 4 28 ev k; ks ← run_trace evs' k'; Ret (k' :: ks)
  end.

Lemma run_trace_ticks n k ks :
  run_trace (replicate n Tick) k = Ret ks → rr_run 4 28 k (replicate n Tick) ks.
Proof.
  revert k ks. induction n as [|n IH]; intros k ks Ht; simpl in Ht; [simplify_eq; constructor|].
  apply bind_Ret_inv in Ht as (k' & Hk & Ht). apply bind_Ret_inv in Ht as (ks' & Hks & [= <-]).
  econstructor; [done|exact Hk|]. by apply IH.
Qed.

Definition after_ticks : list (kern unit) :=
  match run_trace (replicate 8 Tick) sample with Ret ks => ks | _ => [] end.

Lemma ready_thread_runs_witness : ∃ k', k' ∈ after_ticks ∧ running k' = 16384.
Proof.
  apply (ready_thread_runs 4 28 eq_refl eq_refl sample (replicate 8 Tick) after_ticks [12288] 16384 []).
  - exact rr_sample_wf.
  - reflexivity.
  - reflexivity.
  - apply run_trace_ticks. vm_compute. reflexivity.
  - vm_compute. discriminate.
Defined.

Lemma round_robin_refines_witness :
  ∃ k', thread_yield sample = Ret k' ∧ view k' = leave THREAD_READY (view sample).
Proof.
  destruct (round_robin_refines 4 28 eq_refl eq_refl sample rr_sample_wf eq_refl) as (_ & Hy & _).
  exact Hy.
Defined.
