(* ===== verification/Startup.v ===== *)
(** * Starting the thread system
    (virtual-memory/threads/thread.c: thread_init, thread_start and idle)

    [thread_start] creates the idle thread, turns interrupts on and waits on the
    semaphore that the idle thread raises.  Each of the two threads is cut where it can
    be interrupted; the timer may switch between them at any such place.  The theorem:
    [thread_start] returns, after at most five steps of the two threads, to a kernel that
    satisfies the invariant of RoundRobinSpec.v. *)
From S2P Require Import Prelude CInt Ext Interrupt Threads Mmu RunQueue RoundRobin RoundRobinSpec.
From stdpp Require Import strings relations.
Open Scope Z_scope.

(** Where the main thread is in [thread_start]: before [sema_down (&idle_started)], in it
    (the level it found on entry is restored at the end), or past it. *)
Inductive start_pc := StartDown | StartWait (old_level : intr_level) | Started.

(** Where the idle thread is in [idle]: before the assignment of [idle_thread], before
    [sema_up (idle_started)], or at the head of the loop. *)
Inductive idle_pc := IdleSet | IdleUp | IdleLoop.

#[export] Instance start_pc_eq_dec : EqDecision start_pc.
Proof. solve_decision. Defined.
#[export] Instance idle_pc_eq_dec : EqDecision idle_pc.
Proof. solve_decision. Defined.

(** The kernel, the semaphore [idle_started] (its value and its list of waiters), and the
    places of the two threads. *)
Record boot (P : Type) := Boot {
  kernel : kern P;
  idle_started : Z;
  started_waiters : list Z;
  main_at : start_pc;
  idle_at : idle_pc
}.
Arguments Boot {P} _ _ _ _ _.
Arguments kernel {P} _.
Arguments idle_started {P} _.
Arguments started_waiters {P} _.
Arguments main_at {P} _.
Arguments idle_at {P} _.
#[export] Instance eta_boot {P} : Eta (boot P) := λ b,
  Boot (kernel b) (idle_started b) (started_waiters b) (main_at b) (idle_at b).

Section startup.
Context {P : Type} `{UserThreadsLaws P}.
Variables sizeof_switch_entry_frame sizeof_switch_threads_frame : Z.
Implicit Types (k : kern P) (b : boot P) (q : rq).

(** [thread_start] up to its [sema_down].  [mem] is the page for the idle thread. *)
Definition thread_start (mem : option Z) k : outcome (boot P) :=
  '(_, k1) ← thread_create sizeof_switch_entry_frame sizeof_switch_threads_frame "idle" PRI_MIN mem k;
  '(_, i) ← intr_enable (cpu k1);
  Ret (Boot (k1 <| cpu := i |>) (sema_init 0) [] StartDown IdleSet).

(** [sema_down (&idle_started)] with interrupts off: one round of its loop. *)
Definition start_down (old_level : intr_level) b : outcome (boot P) :=
  let k := kernel b in
  match sema_down (idle_started b) with
  | Some v =>
      '(_, i) ← intr_set_level old_level (cpu k);
      Ret (b <| kernel := k <| cpu := i |> |> <| idle_started := v |> <| main_at := Started |>)
  | None =>
      cur ← thread_current k;
      k' ← thread_block INTR_OFF k;
      Ret (b <| kernel := k' |> <| started_waiters ::= λ l, l ++ [cur] |>
             <| main_at := StartWait old_level |>)
  end.

Definition main_step b : outcome (boot P) :=
  match main_at b with
  | StartDown =>
      ASSERT (negb (intr_context (cpu (kernel b))));;
      let '(old_level, i) := intr_disable (cpu (kernel b)) in
      start_down old_level (b <| kernel ::= λ k, k <| cpu := i |> |>)
  | StartWait old_level => start_down old_level b
  | Started => Stuck
  end.

(** [sema_up (idle_started)]. *)
Definition idle_up b : outcome (boot P) :=
  let '(old_level, i) := intr_disable (cpu (kernel b)) in
  let k := (kernel b) <| cpu := i |> in
  let '(woken, rest) := match started_waiters b with [] => ([], []) | t :: l => ([t], l) end in
  k1 ← unblock_all woken k;
  '(_, i1) ← intr_set_level old_level (cpu k1);
  Ret (b <| kernel := k1 <| cpu := i1 |> |> <| idle_started ::= sema_up |>
         <| started_waiters := rest |> <| idle_at := IdleLoop |>).

Definition idle_step b : outcome (boot P) :=
  match idle_at b with
  | IdleSet => k ← idle_enter (kernel b); Ret (b <| kernel := k |> <| idle_at := IdleUp |>)
  | IdleUp => idle_up b
  | IdleLoop => k ← idle_round (kernel b); Ret (b <| kernel := k |>)
  end.

(** The thread on the CPU goes on. *)
Definition boot_step b : outcome (boot P) :=
  if running (kernel b) =? initial_thread (kernel b) then main_step b else idle_step b.

Definition boot_tick b : outcome (boot P) :=
  k ← tick_interrupt (kernel b); Ret (b <| kernel := k |>).

(** Runs of [n] steps, until [thread_start] returns, with any number of ticks. *)
Inductive start_run b0 : nat → boot P → Prop :=
  | start_here : start_run b0 0 b0
  | start_step n b b' :
      start_run b0 n b → main_at b ≠ Started → boot_step b = Ret b' → start_run b0 (S n) b'
  | start_tick n b b' :
      start_run b0 n b → main_at b ≠ Started → boot_tick b = Ret b' → start_run b0 n b'.

(** The loader hands over with interrupts off; every static variable is zero. *)
Record power_on k : Prop := {
  po_threads : threads k = ∅;
  po_idle : idle_thread k = None;
  po_ticks : thread_ticks k = 0;
  po_level : resume_level k = ∅;
  po_off : if_flag (cpu k) = INTR_OFF;
  po_ctx : in_external_intr (cpu k) = false
}.

(** ** Two threads on the queue

    The main thread [m] and the idle thread [i]: [waiting], the main thread sleeps in
    [sema_down]; [looping], the idle thread has raised the semaphore. *)
Record two m i (waiting looping : bool) (q : rq) : Prop := {
  two_ok : rq_ok q;
  two_initial : initial q = m;
  two_ne : m ≠ i;
  two_only t : is_Some (sts q !! t) → t = m ∨ t = i;
  two_main : ∃ s, sts q !! m = Some s ∧ s ≠ THREAD_DYING ∧ (s = THREAD_BLOCKED ↔ waiting = true);
  two_idle : ∃ s, sts q !! i = Some s ∧ s ≠ THREAD_DYING ∧ (s = THREAD_BLOCKED → looping = true);
  two_set : idle q = Some i ∨ idle q = None ∧ looping = false
}.

Lemma ready_has_next q : has_next THREAD_READY q.
Proof.
  unfold has_next, requeue. destruct (idle q) as [i|] eqn:E; [by right|left].
  rewrite bool_decide_eq_true_2 by done. by destruct (queue q).
Qed.

Section two.
Context (m i : Z).
Implicit Types (w l : bool).

Lemma two_run w l q : two m i w l q → run q = m ∨ run q = i.
Proof. intros Hq. apply (two_only _ _ _ _ _ Hq). rewrite (rq_run _ (two_ok _ _ _ _ _ Hq)). by eexists. Qed.

(** What a switch that keeps the running thread alive does to the two. *)
Lemma two_leave s w l w' l' q :
  two m i w l q → has_next s q → s ≠ THREAD_RUNNING → s ≠ THREAD_DYING → (l = true → l' = true) →
  (run q = m → (s = THREAD_BLOCKED ↔ w' = true)) →
  (run q = i → (s = THREAD_BLOCKED → l' = true) ∧ w' = w) → (idle q = None → l' = false) →
  two m i w' l' (leave s q).
Proof.
  intros [Hok Hini Hne Honly (sm & Hm & Hmd & Hmw) (si & Hi & Hid & Hil) Hset] Hx Hr Hd Hll Hrm Hri Hsl.
  destruct (leave_rest s q) as [Ei En].
  assert (∀ t, sts (leave s q) !! t = if decide (t = run (leave s q)) then Some THREAD_RUNNING
    else if decide (t = run q) then Some s else sts q !! t) as Hst.
  { intros t. rewrite leave_status by naive_solver. by rewrite (decide_False (P := s = THREAD_DYING ∧ _)) by naive_solver. }
  assert (sts q !! run (leave s q) = Some THREAD_BLOCKED → run (leave s q) = i) as Hnb.
  { intros Hb. destruct (leave_run_elem s q Hx) as [[Hin|(E & _)]%rq_requeue_elem|[_ Hid']].
    - by rewrite (rq_ready _ Hok _ Hin) in Hb.
    - by rewrite E, (rq_run _ Hok) in Hb.
    - naive_solver. }
  assert (run q = m → s = THREAD_BLOCKED → run (leave s q) ≠ m) as Hsleep.
  { intros E -> E'. destruct (leave_run_elem _ q Hx) as [[Hin|(_ & ? & _)]%rq_requeue_elem|[_ Hid']]; [|done|].
    - rewrite E', <- E in Hin. by apply (run_not_queued q).
    - naive_solver. }
  assert (run q = m ∨ run q = i) as Hrun by (apply Honly; rewrite (rq_run _ Hok); by eexists).
  split; [by apply leave_ok|congruence|done| | | |rewrite Ei; naive_solver].
  - intros t. rewrite Hst. repeat case_decide; subst; [|done|by apply Honly].
    intros _. destruct (leave_run_elem s q Hx) as [[Hin|(E & _)]%rq_requeue_elem|[_ Hid']]; [|congruence|naive_solver].
    apply Honly. rewrite (rq_ready _ Hok _ Hin). by eexists.
  - rewrite Hst. destruct (decide (m = run (leave s q))) as [E|E].
    + eexists. split; [done|]. split; [done|]. split; [done|]. intros Hw'. destruct Hrun as [Er|Er].
      * destruct (Hsleep Er); [by apply Hrm|done].
      * destruct (Hri Er) as [_ ->]. destruct Hne. rewrite E. apply Hnb. rewrite <- E, Hm. f_equal. by apply Hmw.
    + destruct (decide (m = run q)) as [Er|Er]; [exists s; naive_solver|]. exists sm.
      destruct Hrun as [?|Er']; [congruence|]. destruct (Hri Er') as [_ ->]. done.
  - rewrite Hst. repeat case_decide; [by eexists|exists s|exists si]; [|naive_solver].
    split; [done|]. split; [done|]. destruct Hrun as [?|Er']; [congruence|]. by apply Hri.
Qed.

Lemma two_yield w l q : two m i w l q → two m i w l (leave THREAD_READY q).
Proof.
  intros Hq. pose proof Hq as [Hok _ Hne _ (sm & Hm & _ & Hmw) (si & Hi & _ & Hil) Hset].
  apply (two_leave _ w l); [done|apply ready_has_next|done|done|done| |done|naive_solver].
  intros E. rewrite <- E, (rq_run _ Hok) in Hm. naive_solver.
Qed.

(** A sleeping thread stays asleep. *)
Lemma blocked_stays w l q t :
  two m i w l q → sts q !! t = Some THREAD_BLOCKED → sts (leave THREAD_READY q) !! t = Some THREAD_BLOCKED.
Proof.
  intros Hq Hb. pose proof (two_ok _ _ _ _ _ Hq) as Hok. pose proof (rq_run _ Hok) as Hr.
  assert (t ≠ run q) by (intros ->; congruence).
  rewrite leave_status by (done || apply ready_has_next). rewrite decide_False, decide_False; [done|done|].
  intros ->. destruct (leave_run_elem THREAD_READY q (ready_has_next q)) as [[Hin|(E & _)]%rq_requeue_elem|[E Hid]].
  - by rewrite (rq_ready _ Hok _ Hin) in Hb.
  - congruence.
  - unfold requeue in E. rewrite bool_decide_eq_true_2 in E by (split; [done|]; congruence).
    by destruct (queue q).
Qed.

(** The main thread goes to sleep. *)
Lemma two_sleep l q :
  two m i false l q → run q = m →
  has_next THREAD_BLOCKED q ∧ two m i true l (leave THREAD_BLOCKED q).
Proof.
  intros Hq Hr. pose proof Hq as [Hok _ Hne _ _ (si & Hi & Hid & Hil) Hset].
  assert (has_next THREAD_BLOCKED q) as Hx.
  { destruct Hset as [Hset|[Hset ->]]; [right; by rewrite Hset|left].
    assert (i ∈ queue q) as Hin.
    { destruct si; [|..|done].
      - destruct Hne. rewrite <- Hr. symmetry. by apply (rq_single _ Hok).
      - destruct (rq_queued _ Hok i Hi); [done|congruence].
      - by discriminate Hil. }
    unfold requeue. case_bool_decide; intros E; [by destruct (queue q)|]. rewrite E in Hin. by apply elem_of_nil in Hin. }
  split; [done|]. apply (two_leave _ false l); [done..|congruence|naive_solver].
Qed.

(** The idle thread goes to sleep, and the main thread runs. *)
Lemma two_park q :
  two m i false true q → run q = i →
  two m i false true (leave THREAD_BLOCKED q) ∧ sts (leave THREAD_BLOCKED q) !! i = Some THREAD_BLOCKED.
Proof.
  intros Hq Hr. pose proof Hq as [Hok _ Hne _ (sm & Hm & Hmd & Hmw) _ Hset].
  assert (idle q = Some i) as Hid by naive_solver.
  assert (has_next THREAD_BLOCKED q) as Hx by (right; by rewrite Hid).
  split; [apply (two_leave _ false true); [done..|congruence|done|congruence]|].
  assert (m ∈ queue q) as Hin.
  { destruct sm; [| | |done].
    - destruct Hne. rewrite <- Hr. by apply (rq_single _ Hok).
    - destruct (rq_queued _ Hok m Hm); [done|congruence].
    - by discriminate (proj1 Hmw eq_refl). }
  assert (requeue THREAD_BLOCKED q = queue q) as Eq by (unfold requeue; by rewrite bool_decide_eq_false_2 by naive_solver).
  rewrite leave_status by done. rewrite decide_False.
  - rewrite decide_True by done. by rewrite decide_False by naive_solver.
  - intros E. destruct (leave_run_elem _ q Hx) as [Hn|[En _]]; rewrite Eq in *; [|by rewrite En in Hin; apply elem_of_nil in Hin].
    rewrite <- E, <- Hr in Hn. by apply (run_not_queued q).
Qed.

(** The main thread is woken. *)
Lemma two_wake l q : two m i true l q → two m i false l (wake m q).
Proof.
  intros [Hok Hini Hne Honly (sm & Hm & Hmd & Hmw) (si & Hi & Hid & Hil) Hset].
  assert (sm = THREAD_BLOCKED) as -> by (by apply Hmw). split; simpl.
  - apply wake_ok; [done..|]. destruct Hset as [->|[-> _]]; congruence.
  - done.
  - done.
  - intros t. destruct (decide (t = m)) as [->|]; [by left|]. rewrite lookup_insert_ne by done. apply Honly.
  - rewrite lookup_insert_eq. naive_solver.
  - rewrite lookup_insert_ne by done. eauto.
  - done.
Qed.

(** The idle thread names itself. *)
Lemma two_enter w q :
  two m i w false q → run q = i → two m i w false (q <| idle := Some i |>).
Proof.
  intros [[Hnd Hrd Hqd Hoff Hrun Hone] Hini Hne Honly Hm Hi Hset] Hr. split; [split|..]; simpl; try done.
  - intros t Ht. destruct (Hqd t Ht) as [|E]; [by left|]. naive_solver.
  - intros ? [= <-]. rewrite <- Hr. eexists. split; [done|]. split; [done|]. intros Hin%Hrd. congruence.
  - by left.
Qed.

Lemma two_loop w l q : two m i w l q → idle q = Some i → two m i w true q.
Proof. intros [Hok Hini Hne Honly Hm (si & Hi & Hid & _) Hset] E. split; try done; [by exists si|by left]. Qed.
End two.


(** ** The invariant of the start *)

Definition looping b : bool := bool_decide (idle_at b = IdleLoop).
Definition waiting b : bool :=
  match main_at b with StartWait _ => negb (looping b) | _ => false end.

(** The processes, after any number of activations of an address space. *)
Definition activated : P → P → Prop := rtc (λ u u', ∃ t, process_activate t u = Ret u').

Lemma switched_activated s lv k k' u :
  s ≠ THREAD_DYING → switched s lv k k' → activated u (user k) → activated u (user k').
Proof.
  intros Hs Hsw Hu. destruct (sw_user _ _ _ _ Hsw) as (u' & Ha & E).
  rewrite bool_decide_eq_false_2 in E by naive_solver. subst u'. eapply rtc_r; [done|by eexists].
Qed.

(** [u] is what the two calls of [init_thread] left. *)
Record starting u m i b : Prop := {
  st_ok : rr_ok (kernel b);
  st_slice : in_slice (kernel b);
  st_two : two m i (waiting b) (looping b) (view (kernel b));
  st_idle : idle_thread (kernel b) = match idle_at b with IdleSet => None | _ => Some i end;
  st_sema : idle_started b = if looping b && bool_decide (main_at b ≠ Started) then 1 else 0;
  st_waiters : started_waiters b = if waiting b then [m] else [];
  st_level : level_of (kernel b) m = match main_at b with StartWait _ => INTR_OFF | _ => INTR_ON end;
  st_old l : main_at b = StartWait l → l = INTR_ON;
  st_done : main_at b = Started → looping b = true ∧ running (kernel b) = m;
  st_user : activated u (user (kernel b))
}.

(** The steps that are left; the idle thread goes through its loop once. *)
Definition loop_left i q : nat := if bool_decide (sts q !! i = Some THREAD_BLOCKED) then 0 else 1.
#[local] Arguments loop_left : simpl never.

Lemma loop_left_eq i q q' : sts q = sts q' → loop_left i q = loop_left i q'.
Proof. unfold loop_left. by intros ->. Qed.

Lemma loop_left_le i q : (loop_left i q ≤ 1)%nat.
Proof. unfold loop_left. destruct (bool_decide _); lia. Qed.

Lemma loop_left_mono i q q' :
  (sts q !! i = Some THREAD_BLOCKED → sts q' !! i = Some THREAD_BLOCKED) → (loop_left i q' ≤ loop_left i q)%nat.
Proof.
  intros Hb. unfold loop_left. destruct (decide (sts q !! i = Some THREAD_BLOCKED)) as [E|E].
  - by rewrite !bool_decide_eq_true_2 by auto.
  - rewrite (bool_decide_eq_false_2 _ E). case_bool_decide; lia.
Qed.

Definition steps_left i b : nat :=
  match main_at b with StartDown => 2 | StartWait _ => 1 | Started => 0 end +
  match idle_at b with
  | IdleSet => 3
  | IdleUp => 2
  | IdleLoop => loop_left i (view (kernel b))
  end.

Lemma rr_ok_cpu k c : in_external_intr c = false → rr_ok k → rr_ok (k <| cpu := c |>).
Proof. intros Hc [Hq Hp _ Ht]. split; [exact Hq|by apply (pages_wf_frame k)|done|done]. Qed.

Lemma set_level_ret l c :
  in_external_intr c = false → intr_set_level l c = Ret (if_flag c, c <| if_flag := l |>).
Proof. intros Hc. destruct c, l; simpl in *; by subst. Qed.

Lemma level_cpu k c t : t ≠ running k → level_of (k <| cpu := c |>) t = level_of k t.
Proof. intros Ht. unfold level_of. simpl. by rewrite !decide_False. Qed.

Lemma level_running k : level_of k (running k) = if_flag (cpu k).
Proof. unfold level_of. by rewrite decide_True. Qed.

Lemma tick_starting u m i b :
  starting u m i b → main_at b ≠ Started → if_flag (cpu (kernel b)) = INTR_ON →
  ∃ b', boot_tick b = Ret b' ∧ starting u m i b' ∧ (steps_left i b' ≤ steps_left i b)%nat ∧ main_at b' = main_at b.
Proof.
  intros [Hok Hsl Htwo Hid Hs Hw Hl Ho Hd Hu] Hns Hon.
  destruct (tick_interrupt_ret (kernel b) Hok (ready_has_next _) Hsl Hon)
    as (k' & Hk' & Hok' & Hsl' & _ & Hv & Hu' & Hlev).
  unfold boot_tick. rewrite Hk'. ret. eexists. split; [done|].
  assert (two m i (waiting b) (looping b) (view k')) as Htwo' by (rewrite Hv; case_match; [by apply two_yield|done]).
  assert (idle_thread k' = idle_thread (kernel b)) as Hid'.
  { change (idle (view k') = idle (view (kernel b))). rewrite Hv. case_match; [apply leave_rest|done]. }
  split; [|split; [|done]].
  - split; try done; simpl; [by rewrite Hid'|by rewrite Hlev|].
    destruct Hu' as [->|Hu']; [done|]. eapply rtc_r; [done|by eexists].
  - unfold steps_left. simpl. destruct (idle_at b) eqn:Eb; try lia.
    assert (loop_left i (view k') ≤ loop_left i (view (kernel b)))%nat; [|lia]. rewrite Hv. case_match; [|done].
    apply loop_left_mono. by apply (blocked_stays m i (waiting b) (looping b)).
Qed.

(** [sema_down] in the main thread: the semaphore is taken, or the thread waits. *)
Lemma down_taken u m i b :
  starting u m i b → main_at b ≠ Started → running (kernel b) = m → looping b = true →
  let b0 := b <| kernel ::= λ k, k <| cpu := (cpu (kernel b)) <| if_flag := INTR_OFF |> |> |> in
  ∃ b', start_down INTR_ON b0 = Ret b' ∧ starting u m i b' ∧ (steps_left i b' < steps_left i b)%nat.
Proof.
  intros [Hok Hsl Htwo Hid Hs Hw Hl Ho Hd Hu] Hns Hr Eloop b0.
  assert (rr_ok (kernel b0)) as Hok0 by (by apply rr_ok_cpu; [apply Hok|]).
  assert (view (kernel b0) = view (kernel b)) as Hv0 by done. rewrite Eloop in Htwo, Hs.
  unfold start_down. change (idle_started b0) with (idle_started b). rewrite Hs, (bool_decide_eq_true_2 _ Hns), andb_true_r.
  change (sema_down (if true then 1 else 0)) with (Some 0). cbv iota.
  rewrite set_level_ret by apply Hok. ret. eexists. split; [done|].
  assert (waiting b = false) as Ew by (unfold waiting; rewrite Eloop; by destruct (main_at b)).
  rewrite Ew in Htwo, Hw. assert (idle_at b = IdleLoop) as Ei by (by apply bool_decide_eq_true in Eloop).
  split; [split; try done|].
  - by apply rr_ok_cpu; [apply Hok|].
  - unfold waiting. simpl. unfold looping in *. simpl. by rewrite Eloop.
  - simpl. by rewrite andb_false_r.
  - simpl. rewrite <- Hr. unfold level_of. simpl. by rewrite decide_True.
  - unfold steps_left. simpl. rewrite Ei. rewrite (loop_left_eq i _ (view (kernel b))) by done.
    destruct (main_at b); try done; lia.
Qed.

Lemma down_sleeps u m i b :
  starting u m i b → main_at b ≠ Started → running (kernel b) = m → looping b = false →
  let b0 := b <| kernel ::= λ k, k <| cpu := (cpu (kernel b)) <| if_flag := INTR_OFF |> |> |> in
  ∃ b', start_down INTR_ON b0 = Ret b' ∧ starting u m i b' ∧ (steps_left i b' < steps_left i b)%nat.
Proof.
  intros [Hok Hsl Htwo Hid Hs Hw Hl Ho Hd Hu] Hns Hr Eloop b0.
  assert (rr_ok (kernel b0)) as Hok0 by (by apply rr_ok_cpu; [apply Hok|]).
  assert (view (kernel b0) = view (kernel b)) as Hv0 by done. rewrite Eloop in Htwo, Hs.
  unfold start_down. change (idle_started b0) with (idle_started b). rewrite Hs, (bool_decide_eq_true_2 _ Hns), andb_true_r.
  change (sema_down (if false then 1 else 0)) with (@None Z). cbv iota.
  assert (waiting b = false) as Ew.
  { destruct (waiting b) eqn:Ew; [|done]. destruct (two_main _ _ _ _ _ Htwo) as (sm & Hm & _ & Hmw).
    rewrite <- Hr in Hm. pose proof (rq_run _ (two_ok _ _ _ _ _ Htwo)) as Hrun. simpl in Hm, Hrun.
    rewrite Hrun in Hm. injection Hm as <-. by discriminate (proj2 Hmw eq_refl). }
  rewrite Ew in Htwo, Hw. assert (main_at b = StartDown) as Em.
  { unfold waiting in Ew. rewrite Eloop in Ew. by destruct (main_at b). }
  destruct (two_sleep m i _ _ Htwo Hr) as [Hx Htwo'].
  rewrite rr_thread_current_ret by apply Hok0. ret.
  destruct (thread_block_ret INTR_OFF (kernel b0) Hok0 Hx eq_refl) as (k' & Hk' & Hsw). rewrite Hk'. ret.
  eexists. split; [done|]. pose proof Hsw as [Hv' Hok' Ht' _ _ Hlev]. rewrite Hv0 in Hv'.
  split; [split; try done|].
  - unfold in_slice. simpl. by rewrite Ht'.
  - simpl. rewrite Hv'. unfold waiting, looping in *. simpl. by rewrite Eloop.
  - simpl. change (idle (view k') = match idle_at b with IdleSet => None | _ => Some i end).
    rewrite Hv'. by rewrite (proj1 (leave_rest _ _)).
  - simpl. unfold looping in *. simpl. by rewrite Eloop.
  - simpl. rewrite Hw. unfold waiting, looping in *. simpl. rewrite Eloop. change (running _) with (running (kernel b)). by rewrite Hr.
  - simpl. rewrite Hlev, decide_True; done.
  - simpl. by intros ? [= <-].
  - apply (switched_activated THREAD_BLOCKED INTR_OFF (kernel b0)); [done|exact Hsw|exact Hu].
  - unfold steps_left. simpl. unfold looping in Eloop. apply bool_decide_eq_false in Eloop. rewrite Em. destruct (idle_at b); try done; lia.
Qed.

Lemma down_starting u m i b l c :
  starting u m i b → main_at b ≠ Started → running (kernel b) = m →
  c = (cpu (kernel b)) <| if_flag := INTR_OFF |> → l = INTR_ON →
  ∃ b', start_down l (b <| kernel ::= λ k, k <| cpu := c |> |>) = Ret b' ∧ starting u m i b' ∧
    (steps_left i b' < steps_left i b)%nat.
Proof. intros Hb Hns Hr -> ->. destruct (looping b) eqn:E; [by apply down_taken|by apply down_sleeps]. Qed.

(** The idle thread names itself. *)
Lemma set_starting u m i b :
  starting u m i b → main_at b ≠ Started → running (kernel b) = i → idle_at b = IdleSet →
  ∃ b', idle_step b = Ret b' ∧ starting u m i b' ∧ (steps_left i b' < steps_left i b)%nat.
Proof.
  intros [Hok Hsl Htwo Hid Hs Hw Hl Ho Hd Hu] Hns Hr Ei. unfold idle_step, idle_enter. rewrite Ei in *.
  assert (looping b = false) as Eloop by (unfold looping; by rewrite Ei). rewrite Eloop in *.
  rewrite rr_thread_current_ret by apply Hok. ret. eexists. split; [done|]. rewrite Hr.
  assert (waiting (b <| idle_at := IdleUp |>) = waiting b) as Ew by (unfold waiting; by rewrite Eloop).
  pose proof (two_enter m i _ _ Htwo Hr) as Htwo'. rewrite <- Ew in Htwo', Hw. split; [split; try done|].
  - destruct Hok as [Hq Hp Hctx Ht]. split; [apply Htwo'|by apply (pages_wf_frame (kernel b))|done|done].
  - unfold steps_left. simpl. rewrite Ei. destruct (main_at b); lia.
Qed.

(** The semaphore is raised, and the main thread woken if it sleeps. *)
Lemma up_starting u m i b :
  starting u m i b → main_at b ≠ Started → running (kernel b) = i → idle_at b = IdleUp →
  ∃ b', idle_step b = Ret b' ∧ starting u m i b' ∧ (steps_left i b' < steps_left i b)%nat.
Proof.
  intros [Hok Hsl Htwo Hid Hs Hw Hl Ho Hd Hu] Hns Hr Ei. unfold idle_step, idle_up. rewrite Ei in *.
  assert (looping b = false) as Eloop by (unfold looping; by rewrite Ei). rewrite Eloop in *.
  unfold intr_disable. set (k := (kernel b) <| cpu := _ |>).
  assert (rr_ok k) as Hok0 by (by apply rr_ok_cpu; [apply Hok|]).
  assert (∃ k1 rest, (let '(woken, rest) := match started_waiters b with [] => ([], []) | t :: l => ([t], l) end in
      k1 ← unblock_all woken k; Ret (k1, rest)) = Ret (k1, rest) ∧ rest = [] ∧ rr_ok k1 ∧
      two m i false true (view k1) ∧ k1 = k <| threads := threads k1 |> <| ready_list := ready_list k1 |>)
    as (k1 & rest & E & -> & Hok1 & Htwo1 & Ek1).
  { rewrite Hw. destruct (waiting b).
    - destruct (two_main _ _ _ _ _ Htwo) as (sm & Hm & _ & Hmw).
      destruct (thread_unblock_ret m k Hok0) as (k1 & Hk1 & Hok1 & Hv1 & Ek1).
      + change (sts (view (kernel b)) !! m = Some THREAD_BLOCKED). rewrite Hm. f_equal. by apply Hmw.
      + change (idle_thread (kernel b) ≠ Some m). rewrite Hid. intros [= E]. by apply (two_ne _ _ _ _ _ Htwo).
      + exists k1, []. simpl. rewrite Hk1. ret. split_and!; [done..| |done]. rewrite Hv1.
        apply (two_loop m i false false); [by apply two_wake|exact Hid].
    - exists k, []. split_and!; [done..| |by destruct k]. by apply (two_loop m i false false). }
  destruct (match started_waiters b with [] => _ | t :: l => _ end) as [woken rest0].
  apply bind_Ret_inv in E as (k1' & -> & [= -> ->]). ret.
  assert (cpu k1 = (cpu (kernel b)) <| if_flag := INTR_OFF |>) as Ec by (by rewrite Ek1).
  assert (in_external_intr (cpu k1) = false) as Hctx by apply Hok1.
  rewrite set_level_ret by done. ret. eexists. split; [done|].
  assert (m ≠ running k1) as Hm by (rewrite Ek1; simpl; rewrite Hr; apply (two_ne _ _ _ _ _ Htwo)).
  split; [split; try done|].
  - by apply rr_ok_cpu.
  - unfold in_slice. simpl. by rewrite Ek1.
  - unfold waiting, looping. simpl. by destruct (main_at b).
  - simpl. by rewrite Ek1.
  - simpl. rewrite Hs, bool_decide_eq_true_2 by done. done.
  - unfold waiting, looping. simpl. by destruct (main_at b).
  - simpl. rewrite level_cpu by done. rewrite <- Hl, Ek1. simpl.
    by rewrite <- (level_cpu (kernel b) ((cpu (kernel b)) <| if_flag := INTR_OFF |>)) by (by rewrite Ek1 in Hm).
  - simpl. by rewrite Ek1.
  - unfold steps_left. simpl. rewrite Ei. match goal with |- context [loop_left i ?q] => pose proof (loop_left_le i q) end.
    destruct (main_at b); lia.
Qed.

(** The idle thread goes to sleep. *)
Lemma loop_starting u m i b :
  starting u m i b → main_at b ≠ Started → running (kernel b) = i → idle_at b = IdleLoop →
  ∃ b', idle_step b = Ret b' ∧ starting u m i b' ∧ (steps_left i b' < steps_left i b)%nat.
Proof.
  intros [Hok Hsl Htwo Hid Hs Hw Hl Ho Hd Hu] Hns Hr Ei. unfold idle_step, idle_round. rewrite Ei in *.
  assert (looping b = true) as Eloop by (unfold looping; by rewrite Ei).
  assert (waiting b = false) as Ew by (unfold waiting; rewrite Eloop; by destruct (main_at b)).
  rewrite Eloop, Ew in *. unfold intr_disable. set (k := (kernel b) <| cpu := _ |>).
  assert (rr_ok k) as Hok0 by (by apply rr_ok_cpu; [apply Hok|]).
  assert (has_next THREAD_BLOCKED (view k)) as Hx by (right; simpl; by rewrite Hid).
  destruct (thread_block_ret INTR_ON k Hok0 Hx eq_refl) as (k' & -> & Hsw). ret.
  pose proof Hsw as [Hv' Hok' Ht' _ _ Hlev]. change (view k) with (view (kernel b)) in Hv'.
  destruct (two_park m i _ Htwo Hr) as [Htwo' Hb]. rewrite <- Hv' in Htwo', Hb.
  eexists. split; [done|]. split; [split; try done|].
  - unfold in_slice. simpl. by rewrite Ht'.
  - unfold waiting, looping in *. simpl. by rewrite Ew, Eloop.
  - simpl. rewrite Ei. change (idle (view k') = Some i). rewrite Hv', (proj1 (leave_rest _ _)). exact Hid.
  - unfold looping in *. simpl. by rewrite Eloop.
  - simpl. unfold waiting, looping in *. simpl. by rewrite Ew.
  - assert (m ≠ running (kernel b)) as Hm by (rewrite Hr; apply (two_ne _ _ _ _ _ Htwo)).
    simpl. rewrite Hlev, decide_False by done. by rewrite <- Hl; apply level_cpu.
  - apply (switched_activated THREAD_BLOCKED INTR_ON k); [done|exact Hsw|exact Hu].
  - unfold steps_left. simpl. rewrite Ei. unfold loop_left. rewrite (bool_decide_eq_true_2 _ Hb).
    rewrite bool_decide_eq_false_2; [lia|]. rewrite <- Hr. pose proof (rq_run _ (ok_queue _ Hok)) as E. simpl in E |- *. by rewrite E.
Qed.

Lemma boot_step_starting u m i b :
  starting u m i b → main_at b ≠ Started →
  ∃ b', boot_step b = Ret b' ∧ starting u m i b' ∧ (steps_left i b' < steps_left i b)%nat.
Proof.
  intros Hb Hns. pose proof (st_two _ _ _ _ Hb) as Htwo. pose proof (two_initial _ _ _ _ _ Htwo) as Em.
  pose proof (two_ne _ _ _ _ _ Htwo) as Hne. simpl in Em. unfold boot_step.
  destruct (two_run _ _ _ _ _ Htwo) as [Hr|Hr]; simpl in Hr; rewrite Em, Hr.
  - rewrite Z.eqb_refl. unfold main_step. destruct (main_at b) as [|l|] eqn:Ep; [| |done].
    + unfold intr_context. rewrite (ok_ctx _ (st_ok _ _ _ _ Hb)). ret.
      apply (down_starting u m i); [done|congruence|done|done|].
      pose proof (st_level _ _ _ _ Hb) as Hl. rewrite Ep, <- Hr, level_running in Hl. exact Hl.
    + destruct (down_starting u m i b l (cpu (kernel b))) as (b' & E & Hb'); [done|congruence|done| |by apply (st_old _ _ _ _ Hb)|].
      * pose proof (st_level _ _ _ _ Hb) as Hl. rewrite Ep, <- Hr, level_running in Hl.
        destruct (cpu (kernel b)) as [[] ? ?]; done.
      * exists b'. split; [|done]. rewrite <- E. destruct b as [k ? ? ? ?]. by destruct k.
  - rewrite (proj2 (Z.eqb_neq _ _)) by congruence. destruct (idle_at b) eqn:Ei.
    + by apply set_starting.
    + by apply up_starting.
    + by apply loop_starting.
Qed.

Lemma start_run_starting u m i b0 n b :
  starting u m i b0 → start_run b0 n b → starting u m i b ∧ (n + steps_left i b ≤ steps_left i b0)%nat.
Proof.
  intros Hb0. induction 1 as [|n b b' _ [Hb Hn] Hns E|n b b' _ [Hb Hn] Hns E]; [by split; [|lia]|..].
  - destruct (boot_step_starting u m i b Hb Hns) as (b2 & E2 & Hb2 & Hlt). ret_inj. split; [done|lia].
  - assert (if_flag (cpu (kernel b)) = INTR_ON) as Hon.
    { unfold boot_tick, tick_interrupt in E. inv_bind. by rewrite bool_decide_eq_true in *. }
    destruct (tick_starting u m i b Hb Hns Hon) as (b2 & E2 & Hb2 & Hle & _). ret_inj. split; [done|lia].
Qed.

(** What [thread_start] leaves. *)
Lemma started_ok u m i b :
  starting u m i b → main_at b = Started →
  (rr_wf (kernel b) ∧ in_slice (kernel b) ∧ running (kernel b) = m ∧ initial_thread (kernel b) = m ∧
   idle_thread (kernel b) = Some i ∧ if_flag (cpu (kernel b)) = INTR_ON) ∧
  two m i false true (view (kernel b)) ∧ activated u (user (kernel b)).
Proof.
  intros [Hok Hsl Htwo Hid _ _ Hl _ Hd Hu] Hst. destruct (Hd Hst) as [Eloop Hr].
  assert (idle_at b = IdleLoop) as Ei by (by apply bool_decide_eq_true in Eloop).
  assert (waiting b = false) as Ew by (unfold waiting; by rewrite Hst). rewrite Ei in Hid. rewrite Eloop, Ew in Htwo.
  split; [|done]. split_and!; [by apply rr_ok_wf; [|rewrite Hid]|done|done|exact (two_initial _ _ _ _ _ Htwo)|done|].
  rewrite Hst, <- Hr, level_running in Hl. done.
Qed.

(** ** Where it starts *)

Lemma single_ok m : rq_ok (Rq {[m := THREAD_RUNNING]} [] None m m).
Proof.
  split; simpl; try done.
  - constructor.
  - intros t Ht. by apply elem_of_nil in Ht.
  - intros t. by intros [_ ?]%lookup_singleton_Some.
  - by rewrite lookup_singleton_eq.
  - intros t. by intros [-> _]%lookup_singleton_Some.
Qed.

Lemma two_start m i : i ≠ m → two m i false false (wake i (spawn i (Rq {[m := THREAD_RUNNING]} [] None m m))).
Proof.
  intros Hne. split; try done; simpl.
  - apply wake_ok; [apply spawn_ok; [apply single_ok|]| |done]; simpl.
    + by rewrite lookup_singleton_ne.
    + by rewrite lookup_insert_eq.
  - intros t [? [[-> _]|[_ [[-> _]|[_ [-> _]%lookup_singleton_Some]]%lookup_insert_Some]]%lookup_insert_Some]; auto.
  - exists THREAD_RUNNING. by rewrite !lookup_insert_ne, lookup_singleton_eq.
  - exists THREAD_READY. by rewrite lookup_insert_eq.
  - by right.
Qed.

(** [thread_init] leaves the main thread alone in the system. *)
Lemma thread_init_ret k :
  power_on k → ∃ k1, thread_init k = Ret k1 ∧ rr_ok k1 ∧ in_slice k1 ∧
    view k1 = Rq {[running k := THREAD_RUNNING]} [] None (running k) (running k) ∧
    cpu k1 = cpu k ∧ resume_level k1 = ∅ ∧ user k1 = user_init (running k) (user k).
Proof.
  intros [Ht Hi Hticks Hl Hoff Hctx]. unfold thread_init, intr_get_level. rewrite Hoff, bool_decide_eq_true_2 by done. ret.
  unfold init_thread. rewrite (ASSERT_true (_ && _)) by done. ret.
  erewrite rr_with_intr_off_ret; [|done|done|done]. ret. eexists. split; [done|].
  match goal with |- rr_ok ?x ∧ _ => set (k1 := x) end.
  assert (∃ th, threads k1 = <[running k := th]> ∅ ∧ status th = THREAD_RUNNING ∧ magic th = THREAD_MAGIC)
    as (th & Eth & Hs & Hm).
  { eexists. split; [subst k1; simpl; rewrite Ht, !alter_insert_eq; done|done]. }
  assert (view k1 = Rq {[running k := THREAD_RUNNING]} [] None (running k) (running k)) as Hv.
  { unfold view. rewrite Eth, fmap_insert, fmap_empty, Hs. simpl. by rewrite Hi. }
  split; [|split; [|by split]].
  - split; [rewrite Hv; apply single_ok|split|done|].
    + intros t th'. rewrite Eth. by intros [[_ <-]|[_ ?]]%lookup_insert_Some.
    + intros t. rewrite Eth. intros [th' [[<- _]|[_ ?]]%lookup_insert_Some]; [|done]. apply user_init_ok. by right.
    + simpl. rewrite Hticks. done.
  - unfold in_slice. simpl. by rewrite Hticks.
Qed.

Hypotheses (sef_words : sizeof_switch_entry_frame mod 4 = 0) (stf_words : sizeof_switch_threads_frame mod 4 = 0).

Lemma thread_start_ret i m k1 u :
  rr_ok k1 → in_slice k1 → view k1 = Rq {[m := THREAD_RUNNING]} [] None m m → i ≠ m → resume_level k1 = ∅ →
  user k1 = u →
  ∃ b0, thread_start (Some i) k1 = Ret b0 ∧ starting (user_init i u) m i b0 ∧ steps_left i b0 = 5%nat.
Proof.
  intros Hok Hsl Hv Hne Hres Hu.
  assert (threads k1 !! i = None) as Hi.
  { pose proof (view_status k1 i) as E. rewrite Hv in E. simpl in E. rewrite lookup_singleton_ne in E by done.
    by destruct (threads k1 !! i). }
  destruct (thread_create_ret _ _ sef_words stf_words "idle" PRI_MIN i k1 Hok Hi ltac:(done))
    as (k2 & th & E & Hok2 & Hv2 & Ht2 & _ & _ & _ & _ & Eu & Ec & Er).
  unfold thread_start. rewrite E. ret. unfold intr_enable, intr_context. rewrite (ok_ctx _ Hok2). ret.
  eexists. split; [done|]. split; [|done]. rewrite Hv in Hv2.
  assert (running k2 = m) as Em by (exact (f_equal run Hv2)).
  split; simpl; try done.
  - apply rr_ok_cpu; [apply Hok2|done].
  - unfold in_slice in *. simpl. by rewrite Ht2.
  - change (two m i false false (view k2)). rewrite Hv2. by apply two_start.
  - change (idle (view k2) = None). by rewrite Hv2.
  - rewrite <- Em. unfold level_of. simpl. by rewrite decide_True.
  - rewrite Eu, Hu. constructor.
Qed.

(** A thread that blocks when there is no other. *)
Lemma thread_block_alone l k :
  rr_ok k → ready_list k = [] → idle_thread k = None → if_flag (cpu k) = INTR_OFF → thread_block l k = Panic.
Proof.
  intros Hok Hq Hi Hoff. unfold thread_block, intr_context, intr_get_level.
  rewrite (ok_ctx _ Hok), Hoff, bool_decide_eq_true_2 by done. ret. rewrite rr_thread_current_ret by apply Hok. ret.
  unfold schedule, next_thread_to_run. simpl. rewrite Hq, Hi. unfold intr_get_level. simpl.
  rewrite Hoff, bool_decide_eq_true_2 by done. ret. unfold thread_at, running_thread. simpl.
  destruct (running_live k (ok_queue _ Hok)) as (th & Eth & _). rewrite lookup_alter_eq, Eth. done.
Qed.

(** Without a page for the idle thread, the main thread has no one to wait for. *)
Lemma thread_start_no_page m k1 :
  rr_ok k1 → view k1 = Rq {[m := THREAD_RUNNING]} [] None m m →
  ∃ b0, thread_start None k1 = Ret b0 ∧ boot_step b0 = Panic.
Proof.
  intros Hok Hv. pose proof (f_equal run Hv) as Er. pose proof (f_equal queue Hv) as Eq.
  pose proof (f_equal idle Hv) as Ei. pose proof (f_equal initial Hv) as Em. simpl in Er, Eq, Ei, Em.
  assert (in_external_intr (cpu k1) = false) as Hctx by apply Hok.
  unfold thread_start. simpl. unfold intr_enable, intr_context. rewrite Hctx. ret.
  eexists. split; [done|]. unfold boot_step. simpl. rewrite Em, Er, Z.eqb_refl.
  unfold main_step. simpl. unfold intr_context. simpl. rewrite Hctx. ret.
  unfold start_down. change (sema_down _) with (@None Z). cbv iota.
  match goal with |- context [thread_current ?x] => set (k := x) end.
  assert (rr_ok k) as Hok0 by (by apply (rr_ok_cpu k1)).
  rewrite rr_thread_current_ret by apply Hok0. ret. by rewrite (thread_block_alone INTR_OFF k).
Qed.

(** C11. From the loader's hand-over, [thread_init] and [thread_start] return: whenever the
    timer interrupts the two threads, they never get stuck or fail, and after at most five
    of their steps [thread_start] is over.  Then the main thread runs with interrupts on,
    the idle thread is known, and the scheduler's invariant holds. *)
Theorem kernel_starts k i :
  power_on k → i ≠ running k →
  ∃ k1 b0, thread_init k = Ret k1 ∧ thread_start (Some i) k1 = Ret b0 ∧
  ∀ n b, start_run b0 n b →
    (n ≤ 5)%nat ∧ (n = 5%nat → main_at b = Started) ∧
    (main_at b ≠ Started → ∃ b', boot_step b = Ret b') ∧
    (main_at b ≠ Started → if_flag (cpu (kernel b)) = INTR_ON → ∃ b', boot_tick b = Ret b') ∧
    (main_at b = Started →
       rr_wf (kernel b) ∧ in_slice (kernel b) ∧ running (kernel b) = running k ∧
       initial_thread (kernel b) = running k ∧ idle_thread (kernel b) = Some i ∧
       if_flag (cpu (kernel b)) = INTR_ON).
Proof.
  intros Hk Hi. destruct (thread_init_ret k Hk) as (k1 & E1 & Hok1 & Hsl1 & Hv1 & _ & Hr1 & Hu1).
  destruct (thread_start_ret i (running k) k1 _ Hok1 Hsl1 Hv1 Hi Hr1 Hu1) as (b0 & E0 & H0' & Hn0).
  exists k1, b0. split; [done|]. split; [done|]. intros n b Hrun.
  destruct (start_run_starting _ _ _ _ _ _ H0' Hrun) as [Hb Hn]. rewrite Hn0 in Hn.
  split; [lia|]. split; [|split; [|split]].
  - intros ->. unfold steps_left in Hn. destruct (main_at b); [lia|lia|done].
  - intros Hns. destruct (boot_step_starting _ _ _ _ Hb Hns) as (b' & ? & _). by exists b'.
  - intros Hns Hon. destruct (tick_starting _ _ _ _ Hb Hns Hon) as (b' & ? & _). by exists b'.
  - intros Hst. by destruct (started_ok _ _ _ _ Hb Hst).
Qed.
End startup.

(** ** Witness: a kernel without user programs, interrupted twice *)

Definition loader : kern unit :=
  Kern ∅ [] [] None 0 4096 1 0 0 0 0 (Intr INTR_OFF false false) ∅ tt.

Lemma loader_power_on : power_on loader.
Proof. by split. Qed.

(** The boot state of a computation that succeeds. *)
Definition boot_of {P} `{UserThreads P} k (o : outcome (boot P)) : boot P :=
  match o with Ret b => b | _ => Boot k 0 [] StartDown IdleSet end.

(** [false]: a tick; [true]: the thread on the CPU goes on. *)
Fixpoint boot_trace {P} `{UserThreads P} (l : list bool) (b : boot P) : boot P :=
  match l with
  | [] => b
  | s :: l' => boot_trace l' (boot_of (kernel b) ((if s then boot_step else boot_tick) b))
  end.

Fixpoint trace_ok {P} `{UserThreads P} (l : list bool) (b : boot P) : bool :=
  match l with
  | [] => true
  | s :: l' => bool_decide (main_at b ≠ Started) &&
      match (if s then boot_step else boot_tick) b with Ret b' => trace_ok l' b' | _ => false end
  end.

Definition steps_of (l : list bool) : nat := length (filter (λ s, s = true) l).

Lemma trace_run {P} `{UserThreads P} l n (b0 b : boot P) :
  start_run b0 n b → trace_ok l b = true → start_run b0 (n + steps_of l) (boot_trace l b).
Proof.
  revert n b. induction l as [|[] l IH]; intros n b Hr; simpl.
  - intros _. by rewrite Nat.add_0_r.
  - intros [Hns Hok]%andb_prop. apply bool_decide_eq_true in Hns. destruct (boot_step b) as [b'| |] eqn:E; [|done..].
    unfold steps_of. rewrite filter_cons_True by done. simpl. rewrite Nat.add_succ_r.
    apply (IH (S n)); [|done]. by apply (start_step _ n b).
  - intros [Hns Hok]%andb_prop. apply bool_decide_eq_true in Hns. destruct (boot_tick b) as [b'| |] eqn:E; [|done..].
    unfold steps_of. rewrite filter_cons_False by done. apply (IH n); [|done]. by apply (start_tick _ n b).
Qed.

(** The slice of the main thread ends before it waits, that of the idle thread before it
    raises the semaphore. *)
Definition interrupted : list bool :=
  [false; false; false; false; true; false; false; false; false; true; true; true; true].

Definition first : boot unit := boot_of loader (k1 ← thread_init loader; thread_start 4 28 (Some 8192) k1).

Lemma kernel_starts_witness :
  ∃ b, start_run first 5 b ∧ main_at b = Started ∧ rr_wf (kernel b) ∧ idle_thread (kernel b) = Some 8192.
Proof.
  destruct (kernel_starts 4 28 eq_refl eq_refl loader 8192 loader_power_on ltac:(done))
    as (k1 & b0 & E1 & E0 & Hall).
  assert (first = b0) as <- by (unfold first; rewrite E1; simpl; by rewrite E0).
  assert (start_run first 5 (boot_trace interrupted first)) as Hr.
  { apply (trace_run interrupted 0 first first); [constructor|by vm_compute]. }
  exists (boot_trace interrupted first).
  destruct (Hall _ _ Hr) as (_ & Hst & _ & _ & Hend). specialize (Hst eq_refl).
  destruct (Hend Hst) as (Hwf & _ & _ & _ & Hid & _). exact (conj Hr (conj Hst (conj Hwf Hid))).
Defined.
