(* ===== verification/Store.v ===== *)
(** * The interface of the buffer cache (file-system/filesys/cache.h)

    What inode.c and free-map.c rely on: [cache_read], [cache_write] and
    [cache_zero] behave like operations on an array of sectors.  Cache.v
    implements the interface; the other components are proved against it. *)
From S2P Require Import Prelude CInt Ext.
Open Scope Z_scope.

(** The observers of the specification are [store_wf], the number of sectors, and
    [sview], the current contents of a sector. *)
Class SectorStore (store : Type) := {
  cache_read : Z → Z → Z → store → outcome (list Z * store);
  cache_write : Z → list Z → Z → Z → store → outcome store;
  cache_zero : Z → store → outcome store;
  store_wf : store → Prop;
  store_size : store → Z;
  sview : store → Z → list Z
}.

Class SectorStoreLaws (store : Type) `{SectorStore store} : Prop := {
  sview_length st s : store_wf st → 0 ≤ s < store_size st → length (sview st s) = 512%nat;
  (** [cache_read (sector, buffer, size, offset)] *)
  cache_read_spec st s size ofs :
    store_wf st → 0 ≤ s < store_size st → 0 ≤ size → 0 ≤ ofs → ofs + size ≤ 512 →
    ∃ st', cache_read s size ofs st = Ret (slice (Z.to_nat ofs) (Z.to_nat size) (sview st s), st') ∧
      store_wf st' ∧ store_size st' = store_size st ∧ ∀ x, sview st' x = sview st x;
  (** [cache_write (sector, buffer, size, offset)] *)
  cache_write_spec st s b size ofs :
    store_wf st → 0 ≤ s < store_size st → 0 ≤ ofs → ofs + size ≤ 512 →
    size = Z.of_nat (length b) →
    ∃ st', cache_write s b size ofs st = Ret st' ∧
      store_wf st' ∧ store_size st' = store_size st ∧
      ∀ x, sview st' x = if decide (x = s) then splice (Z.to_nat ofs) b (sview st s) else sview st x;
  cache_zero_spec st s :
    store_wf st → 0 ≤ s < store_size st →
    ∃ st', cache_zero s st = Ret st' ∧ store_wf st' ∧ store_size st' = store_size st ∧
      ∀ x, sview st' x = if decide (x = s) then zero_sector else sview st x
}.
