(* ===== verification/Cache.v ===== *)
(** * The buffer cache (file-system/filesys/cache.c)

    Sixty-four cached sectors in front of the block device, replaced by a clock
    scan that starts at entry 0, written back on eviction and by the
    write-behind thread.  The operations are those of one thread of control: a
    lock is a boolean, and waiting for a lock that is held is [Stuck]. *)
From S2P Require Import Prelude CInt Ext Store.
From stdpp Require Import strings.
Open Scope Z_scope.

Definition CACHE_SIZE : nat := 64.
Definition WRITE_BEHIND_PERIOD : Z := 15.
Definition WRITE_BEHIND_PRIORITY : Z := 31.

(** [(block_sector_t) -1] *)
Definition NO_SECTOR : Z := u32 (-1).

Record cache_entry := CacheEntry {
  sector : Z;
  block_lock : bool;
  dirty : bool;
  accessed : bool;
  data : list Z
}.
#[export] Instance eta_cache_entry : Eta cache_entry := λ e,
  CacheEntry (sector e) (block_lock e) (dirty e) (accessed e) (data e).

(** [buffer_cache], [buffer_lock] and the device [fs_device]. *)
Record cache (dev : Type) := Cache {
  buffer_cache : list cache_entry;
  buffer_lock : bool;
  fs_device : dev
}.
Arguments Cache {dev} _ _ _.
Arguments buffer_cache {dev} _.
Arguments buffer_lock {dev} _.
Arguments fs_device {dev} _.
#[export] Instance eta_cache {dev} : Eta (cache dev) := λ c,
  Cache (buffer_cache c) (buffer_lock c) (fs_device c).

Section cache.
Context {dev : Type} `{BlockDevice dev}.
Implicit Types (c : cache dev) (i : nat).

Definition entry_at c i : outcome cache_entry := deref (buffer_cache c !! i).

(** [cache_e->field = ...] *)
Definition upd_entry i (g : cache_entry → cache_entry) c : cache dev :=
  c <| buffer_cache := alter g i (buffer_cache c) |>.

Definition lock_buffer c : outcome (cache dev) :=
  b ← lock_acquire (buffer_lock c); Ret (c <| buffer_lock := b |>).
Definition unlock_buffer c : outcome (cache dev) :=
  b ← lock_release (buffer_lock c); Ret (c <| buffer_lock := b |>).
Definition lock_entry i c : outcome (cache dev) :=
  e ← entry_at c i; b ← lock_acquire (block_lock e);
  Ret (upd_entry i (λ e, e <| block_lock := b |>) c).
Definition unlock_entry i c : outcome (cache dev) :=
  e ← entry_at c i; b ← lock_release (block_lock e);
  Ret (upd_entry i (λ e, e <| block_lock := b |>) c).

(** The clock loop of [next_cache_entry]: the entry it stops at, and the entries
    with their accessed bits cleared on the way.  When every bit was set it
    stops at the last entry. *)
Fixpoint clock_scan (l : list cache_entry) : nat * list cache_entry :=
  match l with
  | [] => (0%nat, [])
  | e :: l' =>
      if accessed e then
        let e' := e <| accessed := false |> in
        match l' with
        | [] => (0%nat, [e'])
        | _ => let '(i, r) := clock_scan l' in (S i, e' :: r)
        end
      else (0%nat, l)
  end.

Fixpoint next_cache_entry (fuel : nat) c : outcome (nat * cache dev) :=
  match fuel with
  | O => Stuck
  | S fuel' =>
      c1 ← lock_buffer c;
      let '(i, l) := clock_scan (buffer_cache c1) in
      c2 ← unlock_buffer (c1 <| buffer_cache := l |>);
      c3 ← lock_entry i c2;
      e ← entry_at c3 i;
      if negb (accessed e) then
        c4 ← (if dirty e then
                d ← block_write (sector e) (data e) (fs_device c3);
                Ret (upd_entry i (λ e, e <| dirty := false |>) (c3 <| fs_device := d |>))
              else Ret c3);
        Ret (i, c4)
      else
        c4 ← unlock_entry i c3;
        next_cache_entry fuel' c4
  end.

Fixpoint find_cache_entry (fuel : nat) (s : Z) c : outcome (nat * cache dev) :=
  match fuel with
  | O => Stuck
  | S fuel' =>
      c1 ← lock_buffer c;
      let found := list_find (λ e, sector e = s) (buffer_cache c1) in
      c2 ← unlock_buffer c1;
      match found with
      | None =>
          '(i, c3) ← next_cache_entry fuel c2;
          let c4 := upd_entry i (λ e, e <| sector := s |>) c3 in
          b ← block_read s (fs_device c4);
          Ret (i, upd_entry i (λ e, e <| data := b |>) c4)
      | Some (i, _) =>
          c3 ← lock_entry i c2;
          e ← entry_at c3 i;
          if sector e =? s then Ret (i, c3)
          else c4 ← unlock_entry i c3; find_cache_entry fuel' s c4
      end
  end.

(** One thread alone needs a single round of either loop. *)
Definition CACHE_FUEL : nat := 1.

Definition allocate_cache c : cache dev :=
  c <| buffer_cache := (λ e, e <| block_lock := false |> <| dirty := false |>
         <| accessed := false |> <| sector := NO_SECTOR |>) <$> buffer_cache c |>.

(** The assertions on the range, with the sum of two [int]s. *)
Definition range_ok (size offset : Z) : outcome unit :=
  ASSERT (0 <=? size);; ASSERT (0 <=? offset);; ASSERT (s32 (offset + size) <=? BLOCK_SECTOR_SIZE).

Definition cache_write (s : Z) (buffer : list Z) (size offset : Z) c : outcome (cache dev) :=
  range_ok size offset;;
  '(i, c1) ← find_cache_entry CACHE_FUEL s c;
  let c2 := upd_entry i (λ e, e <| dirty := true |>) c1 in
  let c3 := upd_entry i (λ e, e <| accessed := true |>) c2 in
  let c4 := upd_entry i (λ e, e <| data :=
    splice (Z.to_nat offset) (take (Z.to_nat size) buffer) (data e) |>) c3 in
  unlock_entry i c4.

Definition cache_read (s size offset : Z) c : outcome (list Z * cache dev) :=
  range_ok size offset;;
  '(i, c1) ← find_cache_entry CACHE_FUEL s c;
  let c2 := upd_entry i (λ e, e <| accessed := true |>) c1 in
  e ← entry_at c2 i;
  c3 ← unlock_entry i c2;
  Ret (slice (Z.to_nat offset) (Z.to_nat size) (data e), c3).

Definition cache_zero (s : Z) c : outcome (cache dev) :=
  '(i, c1) ← find_cache_entry CACHE_FUEL s c;
  let c2 := upd_entry i (λ e, e <| data := zero_sector |>) c1 in
  let c3 := upd_entry i (λ e, e <| dirty := true |>) c2 in
  let c4 := upd_entry i (λ e, e <| accessed := true |>) c3 in
  unlock_entry i c4.

(** The body of the loop of [cache_save], and the loop. *)
Definition save_entry i c : outcome (cache dev) :=
  c1 ← lock_entry i c;
  e ← entry_at c1 i;
  c2 ← (if dirty e then
          d ← block_write (sector e) (data e) (fs_device c1);
          Ret (upd_entry i (λ e, e <| dirty := false |>) (c1 <| fs_device := d |>))
        else Ret c1);
  unlock_entry i c2.

Fixpoint save_entries (ixs : list nat) c : outcome (cache dev) :=
  match ixs with
  | [] => Ret c
  | i :: ixs' => c' ← save_entry i c; save_entries ixs' c'
  end.

Definition cache_save c : outcome (cache dev) := save_entries (seq 0 CACHE_SIZE) c.

(** [cache_init] starts the write-behind thread, whose body is [write_behind];
    the kernel it runs on is the sub-project's own, outside the repository. *)
Section kernel.
Context {kernel : Type}.
Variable thread_create : string → Z → kernel → outcome (Z * kernel).
Variable timer_sleep : Z → kernel → outcome kernel.

Definition cache_init c (k : kernel) : outcome (cache dev * kernel) :=
  let c1 := c <| buffer_lock := false |> in
  let c2 := allocate_cache c1 in
  '(_, k') ← thread_create "write-behind" WRITE_BEHIND_PRIORITY k;
  Ret (c2, k').

(** [n] rounds of the endless loop. *)
Fixpoint write_behind (n : nat) c (k : kernel) : outcome (cache dev * kernel) :=
  match n with
  | O => Ret (c, k)
  | S n' =>
      k' ← timer_sleep WRITE_BEHIND_PERIOD k;
      c' ← cache_save c;
      write_behind n' c' k'
  end.
End kernel.
End cache.

(** ** Invariant and abstract view *)

Section invariant.
Context {dev : Type} `{BlockDevice dev, !BlockDeviceLaws dev}.
Implicit Types (c : cache dev) (i j : nat) (e : cache_entry) (s : Z).

Definition no_entry c s : Prop := ∀ i e, buffer_cache c !! i = Some e → sector e ≠ s.

Definition valid_sector c s : Prop := 0 ≤ s < block_size (fs_device c).

(** What each entry satisfies; [l] says whether its lock is held. *)
Record entry_ok c (l : bool) e : Prop := {
  eo_lock : block_lock e = l;
  eo_length : length (data e) = 512%nat;
  eo_sector : sector e = NO_SECTOR ∧ dirty e = false ∨ valid_sector c (sector e);
  eo_clean : dirty e = false → valid_sector c (sector e) →
    data e = sector_data (fs_device c) (sector e)
}.

(** [o] is the entry whose lock the current operation holds. *)
Record cache_inv (o : option nat) c : Prop := {
  ci_size : length (buffer_cache c) = CACHE_SIZE;
  ci_lock : buffer_lock c = false;
  ci_dev : block_wf (fs_device c) ∧ block_size (fs_device c) ≤ NO_SECTOR;
  ci_entry : ∀ i e, buffer_cache c !! i = Some e → entry_ok c (bool_decide (o = Some i)) e;
  ci_unique : ∀ i j e e', buffer_cache c !! i = Some e → buffer_cache c !! j = Some e' →
    sector e = sector e' → valid_sector c (sector e) → i = j
}.

(** The contents of sector [s]: the cached copy, or else the device's. *)
Definition cview c s : list Z :=
  match list_find (λ e, sector e = s) (buffer_cache c) with
  | Some (_, e) => data e
  | None => sector_data (fs_device c) s
  end.

Lemma cview_cached o c i e :
  cache_inv o c → buffer_cache c !! i = Some e → valid_sector c (sector e) →
  cview c (sector e) = data e.
Proof.
  intros Hc Hi Hv. unfold cview. destruct (list_find _ _) as [[j e']|] eqn:E.
  - apply list_find_Some in E as (Hj & Hs & _).
    rewrite <- Hs in Hv. assert (j = i) as -> by (eapply (ci_unique o c); eauto). congruence.
  - apply list_find_None in E. rewrite Forall_forall in E. exfalso.
    by eapply E; [eapply list_elem_of_lookup_2|].
Qed.

Lemma cview_uncached c s : no_entry c s → cview c s = sector_data (fs_device c) s.
Proof.
  intros Hn. unfold cview. destruct (list_find _ _) as [[j e']|] eqn:E; [|done].
  apply list_find_Some in E as (Hj & Hs & _). by destruct (Hn j e').
Qed.

Lemma cached_or_not c s :
  (∃ i e, buffer_cache c !! i = Some e ∧ sector e = s) ∨ no_entry c s.
Proof.
  destruct (list_find (λ e, sector e = s) (buffer_cache c)) as [[j e']|] eqn:E.
  - apply list_find_Some in E as (Hj & Hs & _). left. eauto.
  - right. apply list_find_None in E. rewrite Forall_forall in E.
    intros i e Hi. apply E. by eapply list_elem_of_lookup_2.
Qed.

Lemma not_valid_none c : cache_inv None c → ¬ valid_sector c NO_SECTOR.
Proof. intros Hc. destruct (ci_dev _ _ Hc). unfold valid_sector. lia. Qed.

(** The view only depends on what each entry caches. *)
Lemma cview_ext o c o' c' s :
  cache_inv o c → cache_inv o' c' → valid_sector c s → valid_sector c' s →
  (∀ i e, buffer_cache c !! i = Some e → sector e = s →
     ∃ e', buffer_cache c' !! i = Some e' ∧ sector e' = s ∧ data e' = data e) →
  (no_entry c s → no_entry c' s ∧ sector_data (fs_device c') s = sector_data (fs_device c) s) →
  cview c' s = cview c s.
Proof.
  intros Hc Hc' Hv Hv' H1 H2. destruct (cached_or_not c s) as [(i & e & Hi & <-)|Hn].
  - destruct (H1 i e Hi eq_refl) as (e' & Hi' & Es & Ed).
    rewrite (cview_cached o c i e) by done. rewrite <- Es in Hv' |- *.
    by rewrite (cview_cached o' c' i e').
  - destruct (H2 Hn) as [Hn' Ed]. by rewrite !cview_uncached.
Qed.

Lemma lookup_upd i g c j :
  buffer_cache (upd_entry i g c) !! j =
    (λ e, if decide (j = i) then g e else e) <$> buffer_cache c !! j.
Proof.
  unfold upd_entry. simpl. destruct (decide (j = i)) as [->|Hne].
  - by rewrite list_lookup_alter_eq.
  - rewrite list_lookup_alter_ne by done. by destruct (buffer_cache c !! j).
Qed.

Lemma upd_entry_const i g c e :
  buffer_cache c !! i = Some e → upd_entry i g c = upd_entry i (λ _, g e) c.
Proof.
  intros He. unfold upd_entry. destruct c as [l b d]. simpl in *. f_equal.
  apply list_eq. intros j. destruct (decide (j = i)) as [->|].
  - by rewrite !list_lookup_alter_eq, He.
  - by rewrite !list_lookup_alter_ne.
Qed.

Lemma upd_entry_twice i g h c : upd_entry i g (upd_entry i h c) = upd_entry i (λ e, g (h e)) c.
Proof.
  unfold upd_entry. destruct c as [l b d]. simpl. f_equal.
  apply list_eq. intros j. destruct (decide (j = i)) as [->|].
  - rewrite !list_lookup_alter_eq. by destruct (l !! i).
  - by rewrite !list_lookup_alter_ne.
Qed.

(** Rewriting entry [i], whose lock [o] may change, while the device [d] keeps the
    sectors of the other clean entries and of the uncached sectors. *)
Lemma cache_inv_upd o o' c i e e' d :
  cache_inv o c → buffer_cache c !! i = Some e →
  (∀ j, j ≠ i → bool_decide (o' = Some j) = bool_decide (o = Some j)) →
  block_wf d → block_size d = block_size (fs_device c) →
  (∀ s, s ≠ sector e → sector_data d s = sector_data (fs_device c) s) →
  entry_ok (c <| fs_device := d |>) (bool_decide (o' = Some i)) e' →
  (sector e' = sector e ∨ no_entry c (sector e')) →
  cache_inv o' (upd_entry i (λ _, e') (c <| fs_device := d |>)).
Proof.
  intros Hc Hi Ho Hd Hsz Hdata He' Hs. split.
  - unfold upd_entry. simpl. rewrite length_alter. apply (ci_size _ _ Hc).
  - apply (ci_lock _ _ Hc).
  - simpl. rewrite Hsz. split; [done|]. apply (ci_dev _ _ Hc).
  - intros j ej. rewrite lookup_upd. simpl. intros (e0 & Hj & ->)%fmap_Some.
    destruct (decide (j = i)) as [->|E].
    + by destruct He'.
    + destruct (ci_entry _ _ Hc j e0 Hj) as [Hl Hlen Hsec Hclean]. split.
      * by rewrite Ho.
      * done.
      * unfold valid_sector in *. simpl. by rewrite Hsz.
      * unfold valid_sector in *. simpl. rewrite Hsz. intros ? Hv. rewrite Hdata; [auto|].
        intros Heq. apply E. by eapply (ci_unique _ _ Hc).
  - intros j k ej ek. rewrite !lookup_upd. simpl. unfold valid_sector. simpl. rewrite Hsz.
    intros (e1 & Hj & ->)%fmap_Some (e2 & Hk & ->)%fmap_Some Heq Hv.
    destruct (decide (j = i)) as [->|Hji], (decide (k = i)) as [->|Hki]; [done|..].
    + destruct Hs as [E|Hn]; [|by destruct (Hn k e2)].
      symmetry. eapply (ci_unique _ _ Hc k i e2 e); [done..|congruence|]. unfold valid_sector.
      by rewrite <- Heq.
    + destruct Hs as [E|Hn]; [|by destruct (Hn j e1)].
      eapply (ci_unique _ _ Hc j i e1 e); [done..|congruence|done].
    + by eapply (ci_unique _ _ Hc j k).
Qed.

Lemma cache_dev_eta c : c <| fs_device := fs_device c |> = c.
Proof. by destruct c. Qed.

Lemma cache_inv_upd_entry o o' c i e e' :
  cache_inv o c → buffer_cache c !! i = Some e →
  (∀ j, j ≠ i → bool_decide (o' = Some j) = bool_decide (o = Some j)) →
  entry_ok c (bool_decide (o' = Some i)) e' →
  (sector e' = sector e ∨ no_entry c (sector e')) →
  cache_inv o' (upd_entry i (λ _, e') c).
Proof.
  intros Hc Hi Ho He' Hs. rewrite <- (cache_dev_eta c).
  eapply cache_inv_upd; [done..|apply Hc|done|done| |done]. by rewrite cache_dev_eta.
Qed.

Lemma only_lock (o : option nat) i j : j ≠ i → (o = None ∨ o = Some i) →
  bool_decide (o = Some j) = false.
Proof. intros. apply bool_decide_eq_false_2. naive_solver. Qed.

(** Changing the device or entry [i] without changing what is seen. *)
Lemma cview_upd_same o o' c i e e' d s :
  cache_inv o c → buffer_cache c !! i = Some e →
  cache_inv o' (upd_entry i (λ _, e') (c <| fs_device := d |>)) →
  block_size d = block_size (fs_device c) →
  sector e' = sector e → data e' = data e →
  (∀ x, x ≠ sector e → sector_data d x = sector_data (fs_device c) x) →
  valid_sector c s → cview (upd_entry i (λ _, e') (c <| fs_device := d |>)) s = cview c s.
Proof.
  intros Hc Hi Hc' Hsz Es Ed Hdata Hv. eapply cview_ext; [done..| | |].
  - unfold valid_sector in *. simpl. by rewrite Hsz.
  - intros j ej Hj Hsj. rewrite lookup_upd. simpl. rewrite Hj. eexists. split; [done|].
    destruct (decide (j = i)) as [->|]; [|done]. simplify_eq. split; congruence.
  - intros Hn. split.
    + intros j ej. rewrite lookup_upd. simpl. intros (e0 & Hj & ->)%fmap_Some.
      destruct (decide (j = i)) as [->|]; [|by eapply Hn]. simplify_eq. rewrite Es. by eapply Hn.
    + simpl. apply Hdata. intros ->. by eapply Hn.
Qed.

Lemma cview_upd_entry_same o o' c i e e' s :
  cache_inv o c → buffer_cache c !! i = Some e →
  cache_inv o' (upd_entry i (λ _, e') c) →
  sector e' = sector e → data e' = data e →
  valid_sector c s → cview (upd_entry i (λ _, e') c) s = cview c s.
Proof.
  intros Hc Hi Hc' Es Ed Hv. rewrite <- (cache_dev_eta c) in Hc' |- * at 1.
  by eapply cview_upd_same.
Qed.

(** *** Accessed bits carry no data *)

Definition strip e : cache_entry := e <| accessed := false |>.

Definition same_cached c c' : Prop :=
  strip <$> buffer_cache c' = strip <$> buffer_cache c ∧
  buffer_lock c' = buffer_lock c ∧ fs_device c' = fs_device c.

Lemma same_cached_lookup c c' i e' :
  same_cached c c' → buffer_cache c' !! i = Some e' →
  ∃ e, buffer_cache c !! i = Some e ∧ strip e = strip e'.
Proof.
  intros (Hl & _ & _) Hi.
  assert ((strip <$> buffer_cache c) !! i = Some (strip e')) as E.
  { by rewrite <- Hl, list_lookup_fmap, Hi. }
  rewrite list_lookup_fmap in E. apply fmap_Some in E as (e & ? & ?). by exists e.
Qed.

Lemma same_cached_sym c c' : same_cached c c' → same_cached c' c.
Proof. intros (?&?&?). by split_and!. Qed.

Lemma same_cached_inv o c c' : same_cached c c' → cache_inv o c → cache_inv o c'.
Proof.
  intros Hs Hc. pose proof Hs as (Hl & Hb & Hd). split.
  - rewrite <- (length_fmap strip), Hl, length_fmap. apply (ci_size _ _ Hc).
  - rewrite Hb. apply Hc.
  - rewrite Hd. apply Hc.
  - intros i e' Hi. destruct (same_cached_lookup _ _ _ _ Hs Hi) as (e & He & [= E1 E2 E3 E4]).
    destruct (ci_entry _ _ Hc i e He) as [? ? H3 H4]. unfold valid_sector in *.
    split; unfold valid_sector; rewrite <- ?E1, <- ?E2, <- ?E3, <- ?E4, ?Hd; done.
  - intros i j ei ej Hi Hj.
    destruct (same_cached_lookup _ _ _ _ Hs Hi) as (e1 & He1 & [= E1 _ _ _]).
    destruct (same_cached_lookup _ _ _ _ Hs Hj) as (e2 & He2 & [= E2 _ _ _]).
    unfold valid_sector. rewrite Hd, <- E1, <- E2. by eapply (ci_unique _ _ Hc).
Qed.

Lemma same_cached_view o c c' s :
  same_cached c c' → cache_inv o c → valid_sector c s → cview c' s = cview c s.
Proof.
  intros Hs Hc Hv. pose proof Hs as (Hl & Hb & Hd). eapply cview_ext; [done| |done|..].
  - by eapply same_cached_inv.
  - unfold valid_sector. by rewrite Hd.
  - intros i e Hi Hsec.
    destruct (same_cached_lookup _ _ _ _ (same_cached_sym _ _ Hs) Hi) as (e' & ? & [= ? ? ? ?]).
    exists e'. by split_and!; try congruence.
  - intros Hn. rewrite Hd. split; [|done]. intros i e' Hi.
    destruct (same_cached_lookup _ _ _ _ Hs Hi) as (e & He & [= E _ _ _]). rewrite <- E. by eapply Hn.
Qed.

(** The clock: it stops at the first entry that was not accessed, or at the last
    one, and what it passed over has lost its second chance. *)
Lemma clock_scan_spec (l : list cache_entry) :
  l ≠ [] → ∃ i l' e, clock_scan l = (i, l') ∧ strip <$> l' = strip <$> l ∧
    l' !! i = Some e ∧ accessed e = false ∧
    (∀ j ej, (j < i)%nat → l !! j = Some ej → accessed ej = true) ∧
    (S i = length l ∨ ∃ ei, l !! i = Some ei ∧ accessed ei = false).
Proof.
  induction l as [|e l IH]; [done|]. intros _. cbn [clock_scan].
  destruct (accessed e) eqn:Ea.
  - destruct l as [|e2 l2].
    + exists 0%nat, [e <| accessed := false |>], (e <| accessed := false |>).
      split_and!; [done|done|done|done|lia|by left].
    + destruct IH as (i & l' & x & -> & Hst & Hx & Hax & Hbefore & Hor); [done|].
      exists (S i), (e <| accessed := false |> :: l'), x. split_and!; [done| |done|done| |].
      * rewrite !fmap_cons, Hst. done.
      * intros [|j] ej Hj; simpl; [by intros [= <-]|]. apply Hbefore. lia.
      * destruct Hor as [E|?]; [left; simpl in *; lia|by right].
  - exists 0%nat, (e :: l), e. split_and!; [done|done|done|done|lia|]. right. by exists e.
Qed.

(** *** Taking and releasing an entry's lock *)

Lemma lock_entry_ret c i e :
  cache_inv None c → buffer_cache c !! i = Some e →
  lock_entry i c = Ret (upd_entry i (λ _, e <| block_lock := true |>) c) ∧
  cache_inv (Some i) (upd_entry i (λ _, e <| block_lock := true |>) c).
Proof.
  intros Hc Hi. destruct (ci_entry _ _ Hc i e Hi) as [Hl Hlen Hsec Hclean]. split.
  - unfold lock_entry, entry_at. rewrite Hi. ret. rewrite Hl. simpl. by rewrite (upd_entry_const i _ c e).
  - eapply cache_inv_upd_entry; [done..| | |by left].
    + intros j Hj. by rewrite !(only_lock _ i) by auto.
    + rewrite bool_decide_eq_true_2 by done. by split.
Qed.

Lemma unlock_entry_ret c i e :
  cache_inv (Some i) c → buffer_cache c !! i = Some e →
  unlock_entry i c = Ret (upd_entry i (λ _, e <| block_lock := false |>) c) ∧
  cache_inv None (upd_entry i (λ _, e <| block_lock := false |>) c).
Proof.
  intros Hc Hi. destruct (ci_entry _ _ Hc i e Hi) as [Hl Hlen Hsec Hclean].
  rewrite bool_decide_eq_true_2 in Hl by done. split.
  - unfold unlock_entry, entry_at. rewrite Hi. ret. rewrite Hl. simpl. by rewrite (upd_entry_const i _ c e).
  - eapply cache_inv_upd_entry; [done..| | |by left].
    + intros j Hj. by rewrite !(only_lock _ i) by auto.
    + rewrite bool_decide_eq_false_2 by done. by split.
Qed.

(** An operation that holds entry [i] and left the abstract disk alone. *)
Record held c i c' e : Prop := {
  hd_inv : cache_inv (Some i) c';
  hd_entry : buffer_cache c' !! i = Some e;
  hd_size : block_size (fs_device c') = block_size (fs_device c);
  hd_view : ∀ s, valid_sector c s → cview c' s = cview c s
}.

(** Writing back a dirty entry. *)
Lemma write_back_spec o c i e :
  cache_inv o c → buffer_cache c !! i = Some e →
  ∃ c', (if dirty e then
           d ← block_write (sector e) (data e) (fs_device c);
           Ret (upd_entry i (λ e, e <| dirty := false |>) (c <| fs_device := d |>))
         else Ret c) = Ret c' ∧
    cache_inv o c' ∧ block_size (fs_device c') = block_size (fs_device c) ∧
    (∀ s, valid_sector c s → cview c' s = cview c s) ∧
    buffer_cache c' !! i = Some (e <| dirty := false |>) ∧
    (∀ j, j ≠ i → buffer_cache c' !! j = buffer_cache c !! j) ∧
    ∀ x, sector_data (fs_device c') x =
      if decide (x = sector e ∧ dirty e = true) then data e else sector_data (fs_device c) x.
Proof.
  intros Hc Hi. destruct (ci_entry _ _ Hc i e Hi) as [Hl Hlen Hsec Hclean].
  destruct (dirty e) eqn:Ed.
  - destruct Hsec as [[_ ?]|Hv]; [done|].
    destruct (block_write_spec (fs_device c) (sector e) (data e)) as (d & -> & Hwf & Hsz & Hdata);
      [apply Hc|done|done|]. ret.
    assert (∀ x, x ≠ sector e → sector_data d x = sector_data (fs_device c) x) as Hoth
      by (intros x Hx; by rewrite Hdata, decide_False).
    rewrite (upd_entry_const i _ _ e) by done. set (e' := e <| dirty := false |>).
    assert (cache_inv o (upd_entry i (λ _, e') (c <| fs_device := d |>))) as Hinv.
    { eapply cache_inv_upd; [done..| |by left]. split; [done|done| |].
      - right. unfold valid_sector in *. simpl. by rewrite Hsz.
      - intros _ _. simpl. by rewrite Hdata, decide_True. }
    eexists. split; [done|]. split; [done|]. split; [done|].
    split; [intros s Hs; by eapply cview_upd_same|]. split.
    + rewrite lookup_upd. simpl. rewrite Hi. simpl. by rewrite decide_True.
    + split.
      * intros j Hj. rewrite lookup_upd. simpl. destruct (buffer_cache c !! j); [|done].
        simpl. by rewrite decide_False.
      * intros x. simpl. rewrite Hdata. by repeat case_decide; try naive_solver.
  - exists c. split_and!; [done..| |done|].
    + rewrite Hi. f_equal. destruct e. simpl in *. by subst.
    + intros x. by rewrite decide_False by naive_solver.
Qed.

(** [next_cache_entry] returns a locked clean entry, after one round. *)
Lemma next_cache_entry_spec (n : nat) c :
  cache_inv None c →
  ∃ i c' e e0, next_cache_entry (S n) c = Ret (i, c') ∧ held c i c' e ∧ dirty e = false ∧
    (∀ s, no_entry c s → no_entry c' s) ∧
    buffer_cache c !! i = Some e0 ∧ e = CacheEntry (sector e0) true false false (data e0) ∧
    (∀ j ej, (j < i)%nat → buffer_cache c !! j = Some ej → accessed ej = true) ∧
    (accessed e0 = true → S i = CACHE_SIZE) ∧
    ∀ x, sector_data (fs_device c') x =
      if decide (x = sector e0 ∧ dirty e0 = true) then data e0 else sector_data (fs_device c) x.
Proof.
  intros Hc. cbn [next_cache_entry]. unfold lock_buffer. rewrite (ci_lock _ _ Hc). simpl.
  destruct (clock_scan_spec (buffer_cache c)) as (i & l & x & -> & Hst & Hx & Hax & Hbefore & Hlast).
  { intros E. pose proof (ci_size _ _ Hc) as Hsz. by rewrite E in Hsz. }
  cbn [fst snd]. unfold unlock_buffer. simpl.
  set (c1 := Cache l false (fs_device c)).
  assert (same_cached c c1) as Hsame.
  { split_and!; [done| |done]. by rewrite (ci_lock _ _ Hc). }
  assert (cache_inv None c1) as Hc1 by by eapply same_cached_inv.
  destruct (lock_entry_ret c1 i x) as [Hlk Hc2]; [done..|].
  rewrite Hlk. ret. set (c2 := upd_entry i (λ _, x <| block_lock := true |>) c1) in *.
  assert (buffer_cache c2 !! i = Some (x <| block_lock := true |>)) as Hi2.
  { unfold c2. rewrite lookup_upd. simpl. rewrite Hx. simpl. by rewrite decide_True. }
  unfold entry_at. rewrite Hi2. ret.
  change (accessed (x <| block_lock := true |>)) with (accessed x). rewrite Hax. ret.
  destruct (write_back_spec (Some i) c2 i _ Hc2 Hi2) as (c3 & -> & Hc3 & Hsz & Hview & Hi3 & Hoth & Hdev).
  ret. destruct (same_cached_lookup c c1 i x Hsame Hx) as (e0 & He0 & [= E1 E2 E3 E4]).
  assert (Hxl : block_lock x = false).
  { by destruct (ci_entry _ _ Hc1 i x Hx) as [-> _ _ _]. }
  eexists i, c3, _, e0. split; [done|].
  split; [split; [done|exact Hi3| |]|split; [done|split; [|split_and!]]].
  - by rewrite Hsz.
  - intros s Hs. rewrite Hview by done. unfold c2.
    rewrite <- (same_cached_view None c c1 s) by done.
    eapply cview_upd_entry_same; [exact Hc1|exact Hx|exact Hc2|done..].
  - intros s Hn j ej Hj.
    assert (∃ e1, l !! j = Some e1 ∧ sector e1 = sector ej) as (e1 & He1 & <-).
    { destruct (decide (j = i)) as [->|Hne].
      - simplify_eq. by exists x.
      - rewrite Hoth in Hj by done. unfold c2 in Hj. rewrite lookup_upd in Hj. simpl in Hj.
        apply fmap_Some in Hj as (e1 & ? & ->). exists e1. by rewrite decide_False. }
    destruct (same_cached_lookup c c1 j e1 Hsame He1) as (e2 & He2 & [= E _ _ _]).
    rewrite <- E. by eapply Hn.
  - done.
  - rewrite E1, E4. destruct x. simpl in *. by subst.
  - done.
  - intros Ha. rewrite <- (ci_size _ _ Hc). destruct Hlast as [|(ei & ? & ?)]; [done|congruence].
  - intros y. rewrite Hdev. simpl. by rewrite <- E1, <- E3, <- E4.
Qed.

(** A clean locked entry takes over a sector that is not cached. *)
Lemma refill_spec c i e s :
  cache_inv (Some i) c → buffer_cache c !! i = Some e → dirty e = false →
  no_entry c s → valid_sector c s →
  let c' := upd_entry i (λ _, e <| sector := s |> <| data := sector_data (fs_device c) s |>) c in
  cache_inv (Some i) c' ∧ ∀ x, valid_sector c x → cview c' x = cview c x.
Proof.
  intros Hc Hi Hd Hno Hv. set (e' := e <| sector := s |> <| data := _ |>). intros c'.
  destruct (ci_entry _ _ Hc i e Hi) as [Hl Hlen Hsec Hclean].
  assert (cache_inv (Some i) c') as Hc'.
  { eapply cache_inv_upd_entry; [done..| |by right]. split; [done| |by right|done].
    apply sector_data_length; [apply Hc|done]. }
  split; [done|]. intros x Hx.
  assert (∀ j ej, buffer_cache c' !! j = Some ej → j ≠ i → buffer_cache c !! j = Some ej) as Hoth.
  { intros j ej. unfold c'. rewrite lookup_upd. intros (e0 & Hj & ->)%fmap_Some Hne.
    by rewrite decide_False. }
  assert (buffer_cache c' !! i = Some e') as Hi'.
  { unfold c'. rewrite lookup_upd, Hi. simpl. by rewrite decide_True. }
  destruct (decide (x = s)) as [->|Hxs].
  - rewrite (cview_uncached c) by done. by apply (cview_cached (Some i) c' i e').
  - destruct (decide (x = sector e)) as [->|Hxe].
    + rewrite (cview_cached (Some i) c i e) by done. rewrite Hclean by done.
      rewrite (cview_uncached c'); [done|]. intros j ej Hj Heq.
      destruct (decide (j = i)) as [->|Hne]; [simplify_eq; by apply (Hno i e)|].
      apply Hne. eapply (ci_unique _ _ Hc); [by apply Hoth|done|done|]. by rewrite Heq.
    + eapply cview_ext; [done..| |].
      * intros j ej Hj Hsj. destruct (decide (j = i)) as [->|Hne]; [congruence|].
        exists ej. split; [|done]. unfold c'. rewrite lookup_upd, Hj. simpl. by rewrite decide_False.
      * intros Hn. split; [|done]. intros j ej Hj.
        destruct (decide (j = i)) as [->|Hne]; [by simplify_eq|by eapply Hn, Hoth].
Qed.

Lemma lock_unlock_buffer c :
  buffer_lock c = false →
  lock_buffer c = Ret (c <| buffer_lock := true |>) ∧
  unlock_buffer (c <| buffer_lock := true |>) = Ret c.
Proof.
  intros E. destruct c as [l b d]. simpl in E. subst. done.
Qed.

(** [find_cache_entry] returns the locked entry of the sector. *)
Lemma find_cache_entry_spec (n : nat) c s :
  cache_inv None c → valid_sector c s →
  ∃ i c' e, find_cache_entry (S n) s c = Ret (i, c') ∧ held c i c' e ∧ sector e = s.
Proof.
  intros Hc Hv. cbn [find_cache_entry].
  destruct (lock_unlock_buffer c (ci_lock _ _ Hc)) as [-> Hun]. ret. rewrite Hun. ret.
  change (buffer_cache (c <| buffer_lock := true |>)) with (buffer_cache c).
  destruct (list_find (λ e, sector e = s) (buffer_cache c)) as [[i e]|] eqn:Efind.
  - apply list_find_Some in Efind as (Hi & Hs & _).
    destruct (lock_entry_ret c i e Hc Hi) as [-> Hc2]. ret.
    set (c2 := upd_entry i _ c) in *.
    assert (buffer_cache c2 !! i = Some (e <| block_lock := true |>)) as Hi2.
    { unfold c2. rewrite lookup_upd, Hi. simpl. by rewrite decide_True. }
    unfold entry_at. rewrite Hi2. ret.
    change (sector (e <| block_lock := true |>)) with (sector e).
    rewrite Hs, Z.eqb_refl. eexists i, c2, (e <| block_lock := true |>). split; [done|].
    split; [|exact Hs]. split; [done|exact Hi2|done|]. intros x Hx. unfold c2.
    eapply cview_upd_entry_same; [exact Hc|exact Hi|exact Hc2|done..].
  - assert (no_entry c s) as Hno.
    { apply list_find_None in Efind. rewrite Forall_forall in Efind.
      intros i e Hi. apply Efind. by eapply list_elem_of_lookup_2. }
    destruct (next_cache_entry_spec n c Hc) as (i & c3 & e & _ & -> & [Hc3 Hi3 Hsz Hview] & Hd & Hkeep & _). ret.
    assert (valid_sector c3 s) as Hv3 by (unfold valid_sector; by rewrite Hsz).
    destruct (refill_spec c3 i e s) as [Hc4 Hview4]; [by auto..|].
    change (fs_device (upd_entry i _ c3)) with (fs_device c3).
    rewrite block_read_spec; [|apply Hc3|done]. ret.
    rewrite upd_entry_twice, (upd_entry_const i _ c3 e) by done.
    eexists i, _, (e <| sector := s |> <| data := sector_data (fs_device c3) s |>).
    split; [|split; [split; [exact Hc4| |done|]|done]].
    + done.
    + rewrite lookup_upd, Hi3. simpl. by rewrite decide_True.
    + intros x Hx. rewrite Hview4; [by apply Hview|]. unfold valid_sector. by rewrite Hsz.
Qed.

(** Rewriting the data of a held entry, and releasing it. *)
Lemma finish_spec c i e e' :
  cache_inv (Some i) c → buffer_cache c !! i = Some e → valid_sector c (sector e) →
  sector e' = sector e → block_lock e' = true → length (data e') = 512%nat →
  (dirty e' = false → data e' = sector_data (fs_device c) (sector e)) →
  ∃ c', unlock_entry i (upd_entry i (λ _, e') c) = Ret c' ∧ cache_inv None c' ∧
    block_size (fs_device c') = block_size (fs_device c) ∧
    ∀ x, valid_sector c x → cview c' x = if decide (x = sector e) then data e' else cview c x.
Proof.
  intros Hc Hi Hv Es El Elen Ecl. set (c1 := upd_entry i (λ _, e') c).
  assert (cache_inv (Some i) c1) as Hc1.
  { eapply cache_inv_upd_entry; [done..| |by left]. split; [|done|right; by rewrite Es|].
    - by rewrite bool_decide_eq_true_2.
    - rewrite Es. auto. }
  assert (buffer_cache c1 !! i = Some e') as Hi1.
  { unfold c1. rewrite lookup_upd, Hi. simpl. by rewrite decide_True. }
  destruct (unlock_entry_ret c1 i e' Hc1 Hi1) as [-> Hc2].
  eexists. split; [done|]. split; [done|]. split; [done|]. intros x Hx.
  rewrite (cview_upd_entry_same (Some i) None c1 i e') by done. case_decide as Hxe.
  - subst x. rewrite <- Es in *. by apply (cview_cached (Some i) c1 i e').
  - apply (cview_ext (Some i) _ (Some i)); [done..| |].
    + intros j ej Hj Hsj. exists ej. split; [|done]. unfold c1. rewrite lookup_upd, Hj. simpl.
      rewrite decide_False; [done|]. intros ->. congruence.
    + intros Hn. split; [|done]. intros j ej. unfold c1. rewrite lookup_upd.
      intros (e0 & Hj & ->)%fmap_Some. destruct (decide (j = i)) as [->|]; [congruence|by eapply Hn].
Qed.

Lemma range_ok_true size offset :
  0 ≤ size → 0 ≤ offset → offset + size ≤ 512 → range_ok size offset = Ret tt.
Proof.
  intros. unfold range_ok, BLOCK_SECTOR_SIZE. rewrite s32_id by (unfold in_s32; lia).
  rewrite !(proj2 (Z.leb_le _ _)) by lia. done.
Qed.

Lemma entry_data_length o c i e : cache_inv o c → buffer_cache c !! i = Some e → length (data e) = 512%nat.
Proof. intros Hc Hi. by destruct (ci_entry _ _ Hc i e Hi). Qed.

Lemma held_lock c i c' e : held c i c' e → block_lock e = true.
Proof.
  intros Hh. destruct (ci_entry _ _ (hd_inv _ _ _ _ Hh) i e (hd_entry _ _ _ _ Hh)) as [Hl _ _ _].
  by rewrite bool_decide_eq_true_2 in Hl.
Qed.

Lemma held_valid c i c' e x : held c i c' e → valid_sector c x → valid_sector c' x.
Proof. intros [_ _ Hsz _]. unfold valid_sector. by rewrite Hsz. Qed.

(** [cview] through a held entry, before it is changed. *)
Lemma held_view c i c' e :
  held c i c' e → valid_sector c (sector e) → data e = cview c (sector e).
Proof.
  intros Hh Hv. destruct Hh as [Hinv Hi Hsz Hview] eqn:E. rewrite <- Hview by done.
  symmetry. eapply cview_cached; [done..|]. by eapply held_valid.
Qed.

Lemma cache_read_ret c s size ofs :
  cache_inv None c → valid_sector c s → 0 ≤ size → 0 ≤ ofs → ofs + size ≤ 512 →
  ∃ c', cache_read s size ofs c = Ret (slice (Z.to_nat ofs) (Z.to_nat size) (cview c s), c') ∧
    cache_inv None c' ∧ block_size (fs_device c') = block_size (fs_device c) ∧
    ∀ x, valid_sector c x → cview c' x = cview c x.
Proof.
  intros Hc Hv Hs Ho Hr. unfold cache_read. rewrite range_ok_true by done. ret.
  destruct (find_cache_entry_spec 0 c s Hc Hv) as (i & c1 & e & Hf & Hh & Hsec).
  unfold CACHE_FUEL. rewrite Hf. ret. pose proof Hh as [Hinv Hi Hsz Hview]. subst s.
  pose proof (held_valid _ _ _ _ _ Hh Hv) as Hv1.
  rewrite (upd_entry_const i _ c1 e) by done. set (e' := e <| accessed := true |>).
  unfold entry_at. rewrite lookup_upd, Hi. simpl. rewrite decide_True by done.
  destruct (finish_spec c1 i e e') as (c' & -> & Hc' & Hsz' & Hview'); try done.
  { exact (held_lock _ _ _ _ Hh). }
  { exact (entry_data_length _ _ _ _ Hinv Hi). }
  { intros Hd. destruct (ci_entry _ _ Hinv i e Hi). auto. }
  ret. exists c'. split; [|split; [done|split; [congruence|]]].
  - change (data e') with (data e). by rewrite (held_view c i c1 e).
  - intros x Hx. rewrite Hview' by (by eapply held_valid). case_decide; [|by apply Hview].
    subst. change (data e') with (data e). by apply (held_view c i c1).
Qed.

Lemma cache_write_ret c s b size ofs :
  cache_inv None c → valid_sector c s → 0 ≤ ofs → ofs + size ≤ 512 →
  size = Z.of_nat (length b) →
  ∃ c', cache_write s b size ofs c = Ret c' ∧
    cache_inv None c' ∧ block_size (fs_device c') = block_size (fs_device c) ∧
    ∀ x, valid_sector c x →
      cview c' x = if decide (x = s) then splice (Z.to_nat ofs) b (cview c s) else cview c x.
Proof.
  intros Hc Hv Ho Hr Hb. unfold cache_write. rewrite range_ok_true by lia. ret.
  destruct (find_cache_entry_spec 0 c s Hc Hv) as (i & c1 & e & Hf & Hh & Hsec).
  unfold CACHE_FUEL. rewrite Hf. ret. pose proof Hh as [Hinv Hi Hsz Hview]. subst s.
  pose proof (held_valid _ _ _ _ _ Hh Hv) as Hv1.
  pose proof (entry_data_length _ _ _ _ Hinv Hi) as Hlen.
  rewrite !upd_entry_twice, (upd_entry_const i _ c1 e) by done.
  rewrite firstn_all2 by lia.
  set (e' := e <| dirty := true |> <| accessed := true |> <| data := _ |>).
  destruct (finish_spec c1 i e e') as (c' & -> & Hc' & Hsz' & Hview'); try done.
  { exact (held_lock _ _ _ _ Hh). }
  { simpl. rewrite length_splice; simpl; lia. }
  exists c'. split; [done|]. split; [done|]. split; [congruence|].
  intros x Hx. rewrite Hview' by (by eapply held_valid). case_decide; [|by apply Hview].
  subst. simpl. by rewrite (held_view c i c1 e).
Qed.

Lemma cache_zero_ret c s :
  cache_inv None c → valid_sector c s →
  ∃ c', cache_zero s c = Ret c' ∧
    cache_inv None c' ∧ block_size (fs_device c') = block_size (fs_device c) ∧
    ∀ x, valid_sector c x → cview c' x = if decide (x = s) then zero_sector else cview c x.
Proof.
  intros Hc Hv. unfold cache_zero.
  destruct (find_cache_entry_spec 0 c s Hc Hv) as (i & c1 & e & Hf & Hh & Hsec).
  unfold CACHE_FUEL. rewrite Hf. ret. pose proof Hh as [Hinv Hi Hsz Hview]. subst s.
  pose proof (held_valid _ _ _ _ _ Hh Hv) as Hv1.
  rewrite !upd_entry_twice, (upd_entry_const i _ c1 e) by done.
  set (e' := e <| data := zero_sector |> <| dirty := true |> <| accessed := true |>).
  destruct (finish_spec c1 i e e') as (c' & -> & Hc' & Hsz' & Hview'); try done.
  { exact (held_lock _ _ _ _ Hh). }
  exists c'. split; [done|]. split; [done|]. split; [congruence|].
  intros x Hx. rewrite Hview' by (by eapply held_valid). case_decide; [done|by apply Hview].
Qed.

(** *** Write-back *)

Lemma save_entry_ret c i :
  cache_inv None c → (i < CACHE_SIZE)%nat →
  ∃ c', save_entry i c = Ret c' ∧ cache_inv None c' ∧
    block_size (fs_device c') = block_size (fs_device c) ∧
    (∀ x, valid_sector c x → cview c' x = cview c x) ∧
    ∀ j e', buffer_cache c' !! j = Some e' → dirty e' = true →
      j ≠ i ∧ ∃ e, buffer_cache c !! j = Some e ∧ dirty e = true.
Proof.
  intros Hc Hi. destruct (lookup_lt_is_Some_2 (buffer_cache c) i) as [e He];
    [by rewrite (ci_size _ _ Hc)|].
  unfold save_entry. destruct (lock_entry_ret c i e Hc He) as [-> Hc1]. ret.
  set (c1 := upd_entry i _ c) in *.
  assert (buffer_cache c1 !! i = Some (e <| block_lock := true |>)) as Hi1.
  { unfold c1. rewrite lookup_upd, He. simpl. by rewrite decide_True. }
  unfold entry_at. rewrite Hi1. ret.
  destruct (write_back_spec (Some i) c1 i _ Hc1 Hi1) as (c2 & -> & Hc2 & Hsz & Hview & Hi2 & Hoth & _).
  ret. destruct (unlock_entry_ret c2 i _ Hc2 Hi2) as [-> Hc3].
  eexists. split; [done|]. split; [done|]. split; [done|]. split.
  - intros x Hx. assert (valid_sector c2 x) as Hx2 by (unfold valid_sector; by rewrite Hsz).
    rewrite (cview_upd_entry_same (Some i) None c2 i (e <| block_lock := true |> <| dirty := false |>))
      by done.
    rewrite Hview by done. by apply (cview_upd_entry_same None (Some i) c i e).
  - intros j e'. rewrite lookup_upd. intros (e0 & Hj & ->)%fmap_Some Hd.
    destruct (decide (j = i)) as [->|Hne]; [done|]. split; [done|].
    rewrite Hoth in Hj by done. unfold c1 in Hj. rewrite lookup_upd in Hj.
    apply fmap_Some in Hj as (e1 & Hj & ->). rewrite decide_False in Hd by done. by exists e1.
Qed.

Lemma save_entries_ret (ixs : list nat) c :
  cache_inv None c → (∀ i, i ∈ ixs → (i < CACHE_SIZE)%nat) →
  ∃ c', save_entries ixs c = Ret c' ∧ cache_inv None c' ∧
    block_size (fs_device c') = block_size (fs_device c) ∧
    (∀ x, valid_sector c x → cview c' x = cview c x) ∧
    ∀ j e', buffer_cache c' !! j = Some e' → dirty e' = true →
      j ∉ ixs ∧ ∃ e, buffer_cache c !! j = Some e ∧ dirty e = true.
Proof.
  revert c. induction ixs as [|i ixs IH]; intros c Hc Hixs.
  - exists c. split_and!; [done..|]. intros j e' ? ?. split; [apply not_elem_of_nil|by exists e'].
  - destruct (save_entry_ret c i Hc) as (c1 & Hs1 & Hc1 & Hsz1 & Hv1 & Hd1); [set_solver|].
    destruct (IH c1 Hc1) as (c2 & Hs2 & Hc2 & Hsz2 & Hv2 & Hd2); [set_solver|].
    exists c2. simpl. rewrite Hs1. ret. split_and!; [done|done|congruence| |].
    + intros x Hx. rewrite Hv2; [by apply Hv1|]. unfold valid_sector. by rewrite Hsz1.
    + intros j e' Hj Hd. destruct (Hd2 j e' Hj Hd) as (Hn & e1 & He1 & Hd').
      destruct (Hd1 j e1 He1 Hd') as (? & ?). split; [set_solver|done].
Qed.

(** After [cache_save] the device holds what the cache showed. *)
Lemma cache_save_ret c :
  cache_inv None c →
  ∃ c', cache_save c = Ret c' ∧ cache_inv None c' ∧
    block_size (fs_device c') = block_size (fs_device c) ∧
    (∀ x, valid_sector c x → cview c' x = cview c x) ∧
    ∀ x, valid_sector c x → sector_data (fs_device c') x = cview c x.
Proof.
  intros Hc. destruct (save_entries_ret (seq 0 CACHE_SIZE) c Hc) as (c' & Hs & Hc' & Hsz & Hv & Hd).
  { intros i Hi. apply elem_of_seq in Hi. lia. }
  exists c'. split_and!; [done|done|done|done|]. intros x Hx. rewrite <- Hv by done.
  assert (valid_sector c' x) as Hx' by (unfold valid_sector; by rewrite Hsz).
  destruct (cached_or_not c' x) as [(i & e & Hi & <-)|Hn]; [|by rewrite cview_uncached].
  rewrite (cview_cached None c' i e) by done. symmetry.
  destruct (ci_entry _ _ Hc' i e Hi) as [_ _ _ Hclean]. apply Hclean; [|done].
  destruct (dirty e) eqn:E; [|done]. destruct (Hd i e Hi E) as [Hni _]. exfalso. apply Hni.
  apply elem_of_seq. apply lookup_lt_Some in Hi. rewrite (ci_size _ _ Hc') in Hi. lia.
Qed.

(** An empty cache shows the device. *)
Lemma allocate_cache_inv c :
  length (buffer_cache c) = CACHE_SIZE → (∀ e, e ∈ buffer_cache c → length (data e) = 512%nat) →
  buffer_lock c = false → block_wf (fs_device c) → block_size (fs_device c) ≤ NO_SECTOR →
  cache_inv None (allocate_cache c) ∧
  ∀ x, valid_sector c x → cview (allocate_cache c) x = sector_data (fs_device c) x.
Proof.
  intros Hl Hdata Hb Hwf Hsz.
  assert (∀ i e, buffer_cache (allocate_cache c) !! i = Some e →
    ∃ e0, e0 ∈ buffer_cache c ∧ e = e0 <| block_lock := false |> <| dirty := false |>
      <| accessed := false |> <| sector := NO_SECTOR |>) as Hinv.
  { intros i e. unfold allocate_cache. simpl. rewrite list_lookup_fmap.
    intros (e0 & He0 & ->)%fmap_Some. exists e0. split; [by eapply list_elem_of_lookup_2|done]. }
  split; [split|].
  - unfold allocate_cache. simpl. by rewrite length_fmap.
  - done.
  - done.
  - intros i e (e0 & He0 & ->)%Hinv. split; [done|exact (Hdata e0 He0)|by left|].
    intros _ Hv. unfold valid_sector in Hv. simpl in Hv. lia.
  - intros i j e e' (e0 & _ & ->)%Hinv _ _ Hv. unfold valid_sector in Hv. simpl in Hv. lia.
  - intros x Hx. rewrite cview_uncached; [done|]. intros i e (e0 & _ & ->)%Hinv. simpl.
    unfold valid_sector in Hx. lia.
Qed.
End invariant.

(** ** The cache implements the interface of Store.v *)

#[export] Instance cache_store {dev} `{BlockDevice dev} : SectorStore (cache dev) := {|
  Store.cache_read := cache_read;
  Store.cache_write := cache_write;
  Store.cache_zero := cache_zero;
  store_wf := cache_inv None;
  store_size := λ c, block_size (fs_device c);
  sview := λ c s, if decide (valid_sector c s) then cview c s else []
|}.

Lemma cache_store_view {dev} `{BlockDevice dev} (c : cache dev) s :
  valid_sector c s → sview c s = cview c s.
Proof. intros Hs. simpl. by rewrite decide_True. Qed.

Lemma cache_store_frame {dev} `{BlockDevice dev} (c c' : cache dev) :
  block_size (fs_device c') = block_size (fs_device c) →
  (∀ x, valid_sector c x → cview c' x = cview c x) → ∀ x, sview c' x = sview c x.
Proof.
  intros Hsz Hv x. simpl. unfold valid_sector in *. rewrite Hsz.
  case_decide; [by apply Hv|done].
Qed.

#[export] Instance cache_store_laws {dev} `{BlockDevice dev, !BlockDeviceLaws dev} :
  SectorStoreLaws (cache dev).
Proof.
  split.
  - intros c s Hc Hv. rewrite cache_store_view by done.
    destruct (cached_or_not c s) as [(i & e & Hi & <-)|Hn].
    + rewrite (cview_cached None c i e) by done. exact (entry_data_length None c i e Hc Hi).
    + rewrite cview_uncached by done. apply sector_data_length; [apply Hc|done].
  - intros c s size ofs Hc Hv Hs Ho Hr.
    destruct (cache_read_ret c s size ofs) as (c' & Hr' & Hc' & Hsz & Hview); [done..|].
    exists c'. rewrite cache_store_view by done. split_and!; [done..|].
    by apply cache_store_frame.
  - intros c s b size ofs Hc Hv Ho Hr Hb.
    destruct (cache_write_ret c s b size ofs) as (c' & Hr' & Hc' & Hsz & Hview); [done..|].
    exists c'. split_and!; [done..|]. intros x. rewrite (cache_store_view c s) by done. simpl.
    unfold valid_sector in *. rewrite Hsz.
    destruct (decide (0 ≤ x < _)) as [Hx|Hx]; [by apply Hview|].
    rewrite decide_False; [done|]. by intros ->.
  - intros c s Hc Hv. destruct (cache_zero_ret c s) as (c' & Hr' & Hc' & Hsz & Hview); [done..|].
    exists c'. split_and!; [done..|]. intros x. simpl.
    unfold valid_sector in *. rewrite Hsz.
    destruct (decide (0 ≤ x < _)) as [Hx|Hx]; [by apply Hview|].
    rewrite decide_False; [done|]. by intros ->.
Qed.

(** ** Properties *)

(** The calls of the cache, and what they do on an array of sectors. *)
Inductive cache_op :=
  | OpRead (s size ofs : Z)
  | OpWrite (s : Z) (b : list Z) (ofs : Z)
  | OpZero (s : Z)
  | OpSave.

Definition op_ok (n : Z) (op : cache_op) : Prop :=
  match op with
  | OpRead s size ofs => 0 ≤ s < n ∧ 0 ≤ size ∧ 0 ≤ ofs ∧ ofs + size ≤ 512
  | OpWrite s b ofs => 0 ≤ s < n ∧ 0 ≤ ofs ∧ ofs + Z.of_nat (length b) ≤ 512
  | OpZero s => 0 ≤ s < n
  | OpSave => True
  end.

Definition spec_op (op : cache_op) (m : Z → list Z) : list Z * (Z → list Z) :=
  match op with
  | OpRead s size ofs => (slice (Z.to_nat ofs) (Z.to_nat size) (m s), m)
  | OpWrite s b ofs => ([], λ x, if decide (x = s) then splice (Z.to_nat ofs) b (m s) else m x)
  | OpZero s => ([], λ x, if decide (x = s) then zero_sector else m x)
  | OpSave => ([], m)
  end.

Fixpoint spec_ops (ops : list cache_op) (m : Z → list Z) : list (list Z) * (Z → list Z) :=
  match ops with
  | [] => ([], m)
  | op :: ops' =>
      let '(r, m1) := spec_op op m in
      let '(rs, m2) := spec_ops ops' m1 in (r :: rs, m2)
  end.

Section properties.
Context {dev : Type} `{BlockDevice dev, !BlockDeviceLaws dev}.

Definition run_op (op : cache_op) (c : cache dev) : outcome (list Z * cache dev) :=
  match op with
  | OpRead s size ofs => cache_read s size ofs c
  | OpWrite s b ofs => c' ← cache_write s b (Z.of_nat (length b)) ofs c; Ret ([], c')
  | OpZero s => c' ← cache_zero s c; Ret ([], c')
  | OpSave => c' ← cache_save c; Ret ([], c')
  end.

Fixpoint run_ops (ops : list cache_op) (c : cache dev) : outcome (list (list Z) * cache dev) :=
  match ops with
  | [] => Ret ([], c)
  | op :: ops' =>
      '(r, c1) ← run_op op c;
      '(rs, c2) ← run_ops ops' c1;
      Ret (r :: rs, c2)
  end.

Lemma run_op_refines (op : cache_op) (c : cache dev) (m : Z → list Z) :
  cache_inv None c → op_ok (block_size (fs_device c)) op →
  (∀ x, valid_sector c x → cview c x = m x) →
  ∃ c', run_op op c = Ret (fst (spec_op op m), c') ∧ cache_inv None c' ∧
    block_size (fs_device c') = block_size (fs_device c) ∧
    ∀ x, valid_sector c x → cview c' x = snd (spec_op op m) x.
Proof.
  intros Hc Hop Hm. destruct op as [s size ofs|s b ofs|s|]; simpl in *.
  - destruct Hop as (Hv & ? & ? & ?).
    destruct (cache_read_ret c s size ofs) as (c' & -> & ? & ? & Hview); [done..|].
    exists c'. rewrite Hm by done. split_and!; [done..|]. intros. by rewrite Hview, Hm.
  - destruct Hop as (Hv & ? & ?).
    destruct (cache_write_ret c s b (Z.of_nat (length b)) ofs) as (c' & -> & ? & ? & Hview);
      [done..|]. exists c'. split_and!; [done..|]. intros. rewrite Hview by done.
    case_decide; by rewrite Hm.
  - destruct (cache_zero_ret c s) as (c' & -> & ? & ? & Hview); [done..|].
    exists c'. split_and!; [done..|]. intros. rewrite Hview by done. case_decide; [done|by rewrite Hm].
  - destruct (cache_save_ret c) as (c' & -> & ? & ? & Hview & _); [done..|].
    exists c'. split_and!; [done..|]. intros. by rewrite Hview, Hm.
Qed.

Lemma run_ops_refine (ops : list cache_op) (c : cache dev) (m : Z → list Z) :
  cache_inv None c → Forall (op_ok (block_size (fs_device c))) ops →
  (∀ x, valid_sector c x → cview c x = m x) →
  ∃ c', run_ops ops c = Ret (fst (spec_ops ops m), c') ∧ cache_inv None c' ∧
    block_size (fs_device c') = block_size (fs_device c) ∧
    ∀ x, valid_sector c x → cview c' x = snd (spec_ops ops m) x.
Proof.
  revert c m. induction ops as [|op ops IH]; intros c m Hc Hops Hm.
  - by exists c.
  - apply Forall_cons in Hops as [Hop Hops].
    destruct (run_op_refines op c m) as (c1 & H1 & Hc1 & Hsz1 & Hv1); [done..|].
    simpl. rewrite H1. ret. destruct (spec_op op m) as [r m1]. simpl in *.
    destruct (IH c1 m1) as (c2 & H2 & Hc2 & Hsz2 & Hv2); [done|by rewrite Hsz1| |].
    { intros x. unfold valid_sector. rewrite Hsz1. apply Hv1. }
    rewrite H2. ret. destruct (spec_ops ops m1) as [rs m2]. simpl in *.
    exists c2. split_and!; [done|done|congruence|]. intros x Hx. apply Hv2.
    unfold valid_sector. by rewrite Hsz1.
Qed.

(** C1. The write-back cache is transparent: from [cache_init] on, every sequence of
    reads, writes and clears (with saves at any point) returns exactly what an
    array of sectors would return, no call fails or blocks, and after a final
    [cache_save] the device holds exactly that array. *)
Theorem cache_transparent (kernel : Type) (thread_create : string → Z → kernel → outcome (Z * kernel))
    (c0 c : cache dev) (k k' : kernel) (ops : list cache_op) :
  length (buffer_cache c0) = CACHE_SIZE → (∀ e, e ∈ buffer_cache c0 → length (data e) = 512%nat) →
  block_wf (fs_device c0) → block_size (fs_device c0) ≤ NO_SECTOR →
  cache_init thread_create c0 k = Ret (c, k') →
  Forall (op_ok (block_size (fs_device c0))) ops →
  let '(outs, final) := spec_ops ops (sector_data (fs_device c0)) in
  ∃ c1 c2, run_ops ops c = Ret (outs, c1) ∧ cache_save c1 = Ret c2 ∧
    ∀ x, 0 ≤ x < block_size (fs_device c0) → sector_data (fs_device c2) x = final x.
Proof.
  intros Hlen Hdata Hwf Hsz Hinit Hops.
  unfold cache_init in Hinit. apply bind_Ret_inv in Hinit as ([t k1] & _ & [= <- <-]).
  destruct (allocate_cache_inv (c0 <| buffer_lock := false |>)) as [Hc Hv]; [done..|].
  destruct (run_ops_refine ops _ _ Hc Hops Hv) as (c1 & Hr & Hc1 & Hsz1 & Hv1).
  destruct (cache_save_ret c1 Hc1) as (c2 & Hs & _ & _ & _ & Hdev).
  destruct (spec_ops ops _) as [outs final]. exists c1, c2. split_and!; [done|done|].
  intros x Hx. rewrite Hdev; [by apply Hv1|]. unfold valid_sector. by rewrite Hsz1.
Qed.

(** Replacement: [next_cache_entry] gives up the first entry that was not accessed
    since the clock last passed it (the last entry when all were), writes it
    back to the device exactly when it is dirty, and returns it locked. *)
Theorem next_cache_entry_evicts (n : nat) (c : cache dev) :
  cache_inv None c →
  ∃ i c' e, next_cache_entry (S n) c = Ret (i, c') ∧ buffer_cache c !! i = Some e ∧
    (∀ j ej, (j < i)%nat → buffer_cache c !! j = Some ej → accessed ej = true) ∧
    (accessed e = true → S i = CACHE_SIZE) ∧
    buffer_cache c' !! i = Some (CacheEntry (sector e) true false false (data e)) ∧
    (∀ x, 0 ≤ x < block_size (fs_device c) → sector_data (fs_device c') x =
       if decide (x = sector e ∧ dirty e = true) then data e else sector_data (fs_device c) x) ∧
    ∀ x, valid_sector c x → cview c' x = cview c x.
Proof.
  intros Hc. destruct (next_cache_entry_spec n c Hc)
    as (i & c' & e & e0 & Hn & [_ Hi _ Hview] & _ & _ & He0 & -> & Hbefore & Hlast & Hdev).
  exists i, c', e0. by split_and!.
Qed.
End properties.

(** ** The hypotheses can hold: an eight-sector ram disk *)

#[local] Existing Instances Ramdisk.ops Ramdisk.laws.

Definition small_disk : Ramdisk.disk := Ramdisk.Disk 8 ∅.

Definition boot_cache : cache Ramdisk.disk :=
  Cache (replicate CACHE_SIZE (CacheEntry 0 false false false zero_sector)) false small_disk.

Definition sample_ops : list cache_op :=
  [OpWrite 3 [7; 8; 9] 10; OpRead 3 4 9; OpSave; OpZero 3; OpRead 3 2 10].

Lemma boot_cache_data e : e ∈ buffer_cache boot_cache → length (data e) = 512%nat.
Proof. by intros [-> _]%elem_of_replicate. Qed.

Lemma boot_cache_inv : cache_inv None (allocate_cache boot_cache).
Proof.
  apply (allocate_cache_inv boot_cache); [reflexivity|apply boot_cache_data|reflexivity| |].
  - apply map_Forall_empty.
  - discriminate.
Qed.

Lemma cache_transparent_witness :
  let c := allocate_cache (boot_cache <| buffer_lock := false |>) in
  let '(outs, final) := spec_ops sample_ops (sector_data small_disk) in
  ∃ c1 c2, run_ops sample_ops c = Ret (outs, c1) ∧ cache_save c1 = Ret c2 ∧
    ∀ x, 0 ≤ x < 8 → sector_data (fs_device c2) x = final x.
Proof.
  refine (cache_transparent unit (λ _ _ k, Ret (1, k)) boot_cache
    (allocate_cache (boot_cache <| buffer_lock := false |>)) tt tt sample_ops _ _ _ _ _ _).
  - reflexivity.
  - exact boot_cache_data.
  - apply map_Forall_empty.
  - discriminate.
  - reflexivity.
  - repeat constructor; discriminate.
Defined.

Lemma next_cache_entry_evicts_witness :
  let c := allocate_cache boot_cache in
  ∃ i c' e, next_cache_entry 1 c = Ret (i, c') ∧ buffer_cache c !! i = Some e ∧
    (∀ j ej, (j < i)%nat → buffer_cache c !! j = Some ej → accessed ej = true) ∧
    (accessed e = true → S i = CACHE_SIZE) ∧
    buffer_cache c' !! i = Some (CacheEntry (sector e) true false false (data e)) ∧
    (∀ x, 0 ≤ x < block_size (fs_device c) → sector_data (fs_device c') x =
       if decide (x = sector e ∧ dirty e = true) then data e else sector_data (fs_device c) x) ∧
    ∀ x, valid_sector c x → cview c' x = cview c x.
Proof. apply (next_cache_entry_evicts 0 (allocate_cache boot_cache)). exact boot_cache_inv. Defined.
