(* ===== verification/InodeDisk.v ===== *)
(** * The on-disk inode (file-system/filesys/inode.c, [struct inode_disk])

    The 512 bytes of an inode sector: little-endian fields of fixed width, in
    the order the structure declares them.  [memcpy] of the structure to and
    from a sector is [encode_inode] and [decode_inode]. *)
From S2P Require Import Prelude CInt.
Open Scope Z_scope.

Definition INODE_MAGIC : Z := 1229868868.
Definition NUM_DIRECT : Z := 188.
Definition NUM_INDIRECT : Z := 64.
Definition INDIRECT_LEN : Z := 256.
Definition MAX_INODE_LEN : Z := 8 * 1024 * 1024.

(** [struct inode_disk]; the field [length] is [dk_length]. *)
Record inode_disk := InodeDisk {
  dk_length : Z;
  magic : Z;
  direct : list Z;
  indirect : list Z
}.
#[export] Instance eta_inode_disk : Eta inode_disk := λ d,
  InodeDisk (dk_length d) (magic d) (direct d) (indirect d).

(** [calloc (1, sizeof *disk_inode)] *)
Definition zero_inode : inode_disk :=
  InodeDisk 0 0 (replicate (Z.to_nat NUM_DIRECT) 0) (replicate (Z.to_nat NUM_INDIRECT) 0).

Definition encode_inode (d : inode_disk) : list Z :=
  le 4 (dk_length d) ++ le 4 (magic d) ++ mjoin (le 2 <$> direct d) ++ mjoin (le 2 <$> indirect d).

(** An array of [n] 16-bit fields at byte [ofs]. *)
Definition decode_u16s (ofs n : nat) (b : list Z) : list Z :=
  (λ i, unle (slice (ofs + 2 * i) 2 b)) <$> seq 0 n.

Definition decode_inode (b : list Z) : inode_disk :=
  InodeDisk (s32 (unle (slice 0 4 b))) (unle (slice 4 4 b))
    (decode_u16s 8 (Z.to_nat NUM_DIRECT) b) (decode_u16s 384 (Z.to_nat NUM_INDIRECT) b).

(** The fields fit the C types. *)
Record inode_disk_wf (d : inode_disk) : Prop := {
  dw_length : in_s32 (dk_length d);
  dw_magic : in_u32 (magic d);
  dw_direct : length (direct d) = Z.to_nat NUM_DIRECT ∧ Forall in_u16 (direct d);
  dw_indirect : length (indirect d) = Z.to_nat NUM_INDIRECT ∧ Forall in_u16 (indirect d)
}.

(** ** Blocks of equal size *)

Lemma length_join_blocks {A} (n : nat) (ls : list (list A)) :
  Forall (λ l, length l = n) ls → length (mjoin ls) = (n * length ls)%nat.
Proof. induction 1 as [|l ls Hl _ IH]; simpl; [lia|]. rewrite length_app, IH, Hl. lia. Qed.

Lemma drop_join_blocks {A} (n i : nat) (ls : list (list A)) :
  Forall (λ l, length l = n) ls → (i ≤ length ls)%nat →
  drop (n * i) (mjoin ls) = mjoin (drop i ls).
Proof.
  intros Hls. revert i. induction Hls as [|l ls Hl Hls IH]; intros i Hi; simpl in *.
  { by rewrite !drop_nil. }
  destruct i as [|i]; [by rewrite Nat.mul_0_r|].
  replace (n * S i)%nat with (length l + n * i)%nat by lia. rewrite drop_app_add. apply IH. lia.
Qed.

Lemma take_join_blocks {A} (n i : nat) (ls : list (list A)) :
  Forall (λ l, length l = n) ls → (i ≤ length ls)%nat →
  take (n * i) (mjoin ls) = mjoin (take i ls).
Proof.
  intros Hls. revert i. induction Hls as [|l ls Hl Hls IH]; intros i Hi; simpl in *.
  { by rewrite !take_nil. }
  destruct i as [|i]; [by rewrite Nat.mul_0_r|].
  replace (n * S i)%nat with (length l + n * i)%nat by lia. rewrite take_app_add. simpl.
  f_equal. apply IH. lia.
Qed.

(** A slice that stays inside block [i]. *)
Lemma slice_join_blocks {A} (n i ofs k : nat) (ls : list (list A)) (l : list A) :
  Forall (λ l, length l = n) ls → ls !! i = Some l → (ofs + k ≤ n)%nat →
  slice (n * i + ofs) k (mjoin ls) = slice ofs k l.
Proof.
  intros Hls Hi Hk. pose proof (lookup_lt_Some _ _ _ Hi) as Hlt.
  pose proof (Forall_lookup_1 _ _ _ _ Hls Hi) as Hl; simpl in Hl. unfold slice.
  rewrite <- drop_drop, (drop_join_blocks n) by (done || lia).
  rewrite (drop_S ls l i Hi). simpl. rewrite drop_app_le by lia. apply take_app_le.
  rewrite length_drop. lia.
Qed.

(** Overwriting inside block [i]. *)
Lemma splice_join_blocks {A} (n i ofs : nat) (ls : list (list A)) (l b : list A) :
  Forall (λ l, length l = n) ls → ls !! i = Some l → (ofs + length b ≤ n)%nat →
  splice (n * i + ofs) b (mjoin ls) = mjoin (<[i := splice ofs b l]> ls).
Proof.
  intros Hls Hi Hb. pose proof (lookup_lt_Some _ _ _ Hi) as Hlt.
  pose proof (Forall_lookup_1 _ _ _ _ Hls Hi) as Hl; simpl in Hl.
  rewrite (insert_take_drop ls i) by done. rewrite join_app. simpl.
  rewrite <- (take_join_blocks n i ls) by (done || lia).
  rewrite <- (drop_join_blocks n (S i) ls) by (done || lia).
  assert (mjoin ls = take (n * i) (mjoin ls) ++ l ++ drop (n * S i) (mjoin ls)) as E.
  { rewrite (take_join_blocks n), (drop_join_blocks n) by (done || lia).
    rewrite <- (take_drop_middle ls i l Hi) at 1. by rewrite join_app. }
  assert (length (take (n * i) (mjoin ls)) = n * i)%nat as El.
  { rewrite length_take, (length_join_blocks n) by done. nia. }
  unfold splice. rewrite <- !app_assoc.
  set (p := take (n * i) (mjoin ls)) in *. set (q := drop (n * S i) (mjoin ls)) in *.
  rewrite E. rewrite <- El.
  rewrite take_app_add, <- app_assoc. f_equal. rewrite take_app_le by lia. f_equal. f_equal.
  rewrite <- Nat.add_assoc, drop_app_add. by rewrite drop_app_le by lia.
Qed.

Lemma le_blocks n (l : list Z) : Forall (λ b, length b = n) (le n <$> l).
Proof. apply Forall_fmap, Forall_true. intros x. apply length_le. Qed.

Lemma length_le_blocks n (l : list Z) : length (mjoin (le n <$> l)) = (n * length l)%nat.
Proof. by rewrite (length_join_blocks n), length_fmap by apply le_blocks. Qed.

Lemma length_encode d :
  length (direct d) = Z.to_nat NUM_DIRECT → length (indirect d) = Z.to_nat NUM_INDIRECT →
  length (encode_inode d) = 512%nat.
Proof.
  intros Hd Hi. unfold encode_inode.
  rewrite !length_app, !length_le, !length_le_blocks, Hd, Hi. done.
Qed.

(** Updates of the fields that keep them in range. *)
Lemma inode_disk_wf_length d (len : Z) :
  in_s32 len → inode_disk_wf d → inode_disk_wf (d <| dk_length := len |>).
Proof. intros Hl []. by split. Qed.

Lemma inode_disk_wf_direct d (i : nat) (s : Z) :
  in_u16 s → inode_disk_wf d → inode_disk_wf (d <| direct := <[i := s]> (direct d) |>).
Proof.
  intros Hs [? ? [Hd Hdu] ?]. split; [done|done| |done]. simpl. rewrite length_insert.
  split; [done|]. by apply Forall_insert.
Qed.

(** Reading back an array of 16-bit fields that follows a prefix [p]. *)
Lemma decode_u16s_blocks (p q : list Z) (l : list Z) :
  Forall in_u16 l → decode_u16s (length p) (length l) (p ++ mjoin (le 2 <$> l) ++ q) = l.
Proof.
  intros Hl. apply list_eq. intros i. unfold decode_u16s. rewrite list_lookup_fmap.
  destruct (l !! i) as [x|] eqn:Hx.
  - pose proof (lookup_lt_Some _ _ _ Hx). rewrite lookup_seq_lt by done. cbn [fmap option_fmap option_map]. f_equal.
    rewrite <- (unle_le2 x) by (by eapply Forall_lookup_1). f_equal. unfold slice.
    rewrite Nat.add_0_l, drop_app_add. rewrite drop_app_le by (rewrite length_le_blocks; lia).
    rewrite take_app_le by (rewrite length_drop, length_le_blocks; lia).
    change (take 2 (drop ?k ?b)) with (slice k 2 b).
    rewrite <- (Nat.add_0_r (2 * i)).
    rewrite (slice_join_blocks 2 i 0 2 _ (le 2 x)); [|apply le_blocks| |lia].
    + apply slice_full, length_le.
    + by rewrite list_lookup_fmap, Hx.
  - apply lookup_ge_None in Hx. rewrite lookup_seq_ge by done. done.
Qed.

Lemma slice_app_l {A} (k : nat) (p q : list A) : length p = k → slice 0 k (p ++ q) = p.
Proof. intros <-. unfold slice. by rewrite drop_0, take_app_length. Qed.

Lemma decode_encode (d : inode_disk) : inode_disk_wf d → decode_inode (encode_inode d) = d.
Proof.
  intros Hwf.
  destruct Hwf as [Hlen Hmag [Hd Hdu] [Hi Hiu]]. unfold decode_inode.
  assert (slice 0 4 (encode_inode d) = le 4 (dk_length d)) as E0
    by (unfold encode_inode; by rewrite slice_app_l).
  assert (slice 4 4 (encode_inode d) = le 4 (magic d)) as E1 by done.
  assert (decode_u16s 8 (Z.to_nat NUM_DIRECT) (encode_inode d) = direct d) as E2.
  { rewrite <- Hd. unfold encode_inode. rewrite app_assoc.
    change 8%nat with (length (le 4 (dk_length d) ++ le 4 (magic d))).
    by apply decode_u16s_blocks. }
  assert (decode_u16s 384 (Z.to_nat NUM_INDIRECT) (encode_inode d) = indirect d) as E3.
  { rewrite <- Hi. unfold encode_inode. rewrite !app_assoc.
    rewrite <- (app_nil_r (mjoin (le 2 <$> indirect d))).
    replace 384%nat with
      (length ((le 4 (dk_length d) ++ le 4 (magic d)) ++ mjoin (le 2 <$> direct d)));
      [by apply decode_u16s_blocks|].
    rewrite !length_app, !length_le, length_le_blocks, Hd. done. }
  rewrite E0, E1, E2, E3, !unle_le4, s32_u32, s32_id, u32_id by done. by destruct d.
Qed.

(** ** Property *)

(** An inode written to its sector and read back is the same inode, and it
    occupies exactly one sector: [sizeof (struct inode_disk) == BLOCK_SECTOR_SIZE]. *)
Theorem inode_disk_roundtrip (d : inode_disk) :
  inode_disk_wf d → length (encode_inode d) = 512%nat ∧ decode_inode (encode_inode d) = d.
Proof. intros Hwf. split; [apply length_encode; apply Hwf|by apply decode_encode]. Qed.

Lemma inode_disk_roundtrip_witness :
  let d := zero_inode <| dk_length := 700 |> <| magic := INODE_MAGIC |> in
  length (encode_inode d) = 512%nat ∧ decode_inode (encode_inode d) = d.
Proof.
  apply (inode_disk_roundtrip (zero_inode <| dk_length := 700 |> <| magic := INODE_MAGIC |>)).
  split.
  - split; [discriminate|reflexivity].
  - split; [discriminate|reflexivity].
  - split; [reflexivity|]. apply Forall_replicate. split; [discriminate|reflexivity].
  - split; [reflexivity|]. apply Forall_replicate. split; [discriminate|reflexivity].
Defined.
