(* ===== verification/FreeMap.v ===== *)
(** * The free map (file-system/filesys/free-map.c) and the file-system state

    The state threaded through the file system: the bitmap of used sectors and
    its file, the cached sectors, and the in-memory inodes.  The bitmap is
    stored through [bitmap_write] and [bitmap_read] ([lib/kernel/bitmap.c]) on a
    [struct file] ([filesys/file.c]); both are outside the repository and are
    parameters here, with the law [BitmapFileLaws]. *)
From S2P Require Import Prelude CInt Ext Store InodeDisk.
Open Scope Z_scope.

Definition FREE_MAP_SECTOR : Z := 0.
Definition ROOT_DIR_SECTOR : Z := 1.

(** [struct inode]; [lock] is its lock. *)
Record inode := Inode {
  sector : Z;
  open_cnt : Z;
  removed : bool;
  deny_write_cnt : Z;
  lock : bool;
  data : inode_disk
}.
#[export] Instance eta_inode : Eta inode := λ i,
  Inode (sector i) (open_cnt i) (removed i) (deny_write_cnt i) (lock i) (data i).

(** [free_map], [free_map_file] (an address), the cache, the heap of inodes by
    address, and [open_inodes] from its front. *)
Record fs (store bitmap : Type) := Fs {
  free_map : bitmap;
  free_map_file : option Z;
  sectors : store;
  inodes : gmap Z inode;
  open_inodes : list Z
}.
Arguments Fs {store bitmap} _ _ _ _ _.
Arguments free_map {store bitmap} _.
Arguments free_map_file {store bitmap} _.
Arguments sectors {store bitmap} _.
Arguments inodes {store bitmap} _.
Arguments open_inodes {store bitmap} _.
#[export] Instance eta_fs {store bitmap} : Eta (fs store bitmap) := λ w,
  Fs (free_map w) (free_map_file w) (sectors w) (inodes w) (open_inodes w).

(** The operations on the free map's file: [bitmap_write] and [bitmap_read] return
    their success, [file_open] and [file_close] manage the [struct file]. *)
Class BitmapFile (store bitmap : Type) := {
  bitmap_write : bitmap → Z → fs store bitmap → outcome (bool * fs store bitmap);
  bitmap_read : bitmap → Z → fs store bitmap → outcome (bool * bitmap * fs store bitmap);
  file_open : option Z → fs store bitmap → outcome (option Z * fs store bitmap);
  file_close : option Z → fs store bitmap → outcome (fs store bitmap)
}.

Section free_map.
Context {store bitmap : Type} `{SectorStore store, Bitmap bitmap, BitmapFile store bitmap}.
Implicit Types (w : fs store bitmap).

(** [device_size] is [block_size (fs_device)]. *)
Definition free_map_init (device_size : Z) w : outcome (fs store bitmap) :=
  match bitmap_create device_size with
  | None => Panic
  | Some b => Ret (w <| free_map := bitmap_mark (bitmap_mark b FREE_MAP_SECTOR) ROOT_DIR_SECTOR |>)
  end.

(** [None] is [false]; [Some sector] is [true] with [*sectorp = sector]. *)
Definition free_map_allocate w : outcome (option Z * fs store bitmap) :=
  '(sector, b) ← bitmap_scan_and_flip (free_map w) 0 1 false;
  let w1 := w <| free_map := b |> in
  match sector with
  | None => Ret (None, w1)
  | Some s =>
      '(written, w2) ← match free_map_file w1 with
                       | None => Ret (true, w1)
                       | Some f => bitmap_write (free_map w1) f w1
                       end;
      if written : bool then Ret (Some s, w2)
      else
        b' ← bitmap_set_multiple (free_map w2) s 1 false;
        Ret (None, w2 <| free_map := b' |>)
  end.

Definition free_map_release (s : Z) w : outcome (fs store bitmap) :=
  all ← bitmap_all (free_map w) s 1;
  ASSERT all;;
  b ← bitmap_set_multiple (free_map w) s 1 false;
  let w1 := w <| free_map := b |> in
  f ← deref (free_map_file w1);
  '(_, w2) ← bitmap_write (free_map w1) f w1;
  Ret w2.

(** The three functions below open the inode of the free map through inode.c. *)
Definition open_free_map_file (inode_open : Z → fs store bitmap → outcome (option Z * fs store bitmap))
    w : outcome (Z * fs store bitmap) :=
  '(ino, w1) ← inode_open FREE_MAP_SECTOR w;
  '(file, w2) ← file_open ino w1;
  let w3 := w2 <| free_map_file := file |> in
  f ← deref file;
  Ret (f, w3).

Definition free_map_open (inode_open : Z → fs store bitmap → outcome (option Z * fs store bitmap))
    w : outcome (fs store bitmap) :=
  '(f, w1) ← open_free_map_file inode_open w;
  '(ok, b, w2) ← bitmap_read (free_map w1) f w1;
  ASSERT ok;;
  Ret (w2 <| free_map := b |>).

Definition free_map_close w : outcome (fs store bitmap) := file_close (free_map_file w) w.

Definition free_map_create
    (inode_create : Z → Z → fs store bitmap → outcome (bool * fs store bitmap))
    (inode_open : Z → fs store bitmap → outcome (option Z * fs store bitmap))
    w : outcome (fs store bitmap) :=
  '(ok, w1) ← inode_create FREE_MAP_SECTOR (bitmap_file_size (free_map w)) w;
  ASSERT ok;;
  '(f, w2) ← open_free_map_file inode_open w1;
  '(written, w3) ← bitmap_write (free_map w2) f w2;
  ASSERT written;;
  Ret w3.
End free_map.

(** ** What the file system relies on *)

(** [fm_inode] is the address of the open inode of the free map and [fm_sectors]
    are the data sectors of its file.  Writing the bitmap returns when that
    inode's lock is free; it changes those sectors only.  (It goes through
    [inode_write_at] on a file that already has its full length.) *)
Section laws.
Context {store bitmap : Type} `{SectorStore store, Bitmap bitmap, BitmapFile store bitmap}.
Variable fm_inode : Z.
Variable fm_sectors : list Z.
Implicit Types (w : fs store bitmap).

(** [w'] differs from [w] in the sectors [xs] only. *)
Record sectors_frame (xs : list Z) w w' : Prop := {
  sf_rest : w' = w <| sectors := sectors w' |>;
  sf_wf : store_wf (sectors w');
  sf_size : store_size (sectors w') = store_size (sectors w);
  sf_view : ∀ x, x ∉ xs → sview (sectors w') x = sview (sectors w) x
}.

Definition fm_idle w : Prop := ∃ i, inodes w !! fm_inode = Some i ∧ lock i = false.

Class BitmapFileLaws : Prop := {
  bitmap_write_spec b f w :
    store_wf (sectors w) → fm_idle w →
    ∃ ok w', bitmap_write b f w = Ret (ok, w') ∧ sectors_frame fm_sectors w w'
}.

(** The state is ready for allocation: the bitmap has one bit per sector, the two
    system inodes and the free map's own sectors are in use, its file is open. *)
Record fm_wf w : Prop := {
  fw_store : store_wf (sectors w);
  fw_size : bitmap_size (free_map w) = store_size (sectors w);
  fw_used : ∀ x, x ∈ FREE_MAP_SECTOR :: ROOT_DIR_SECTOR :: fm_sectors →
    bitmap_test (free_map w) x = true;
  fw_idle : fm_idle w;
  fw_file : is_Some (free_map_file w)
}.
End laws.
Arguments BitmapFileLaws store bitmap {_ _} _ _.

Section steps.
Context {store bitmap : Type} `{SectorStore store, Bitmap bitmap}.
Context (fm_inode : Z) (fm_sectors : list Z).
Implicit Types (w : fs store bitmap).

Notation fm_wf := (fm_wf fm_inode fm_sectors).

(** [w'] is [w] with another bitmap, up to the sectors [xs]. *)
Record fm_step (xs : list Z) w w' : Prop := {
  fs_wf : fm_wf w';
  fs_rest : w' = w <| free_map := free_map w' |> <| sectors := sectors w' |>;
  fs_size : store_size (sectors w') = store_size (sectors w);
  fs_view : ∀ x, x ∉ xs → sview (sectors w') x = sview (sectors w) x
}.

Lemma fm_step_refl xs w : fm_wf w → fm_step xs w w.
Proof. intros Hw. split; [done|by destruct w|done|done]. Qed.

Lemma fm_step_trans xs ys w1 w2 w3 :
  fm_step xs w1 w2 → fm_step ys w2 w3 → fm_step (xs ++ ys) w1 w3.
Proof.
  intros [_ E1 S1 V1] [Hw E2 S2 V2]. split; [done| |congruence|].
  - rewrite E2, E1. done.
  - intros x Hx. rewrite V2, V1; [done|set_solver..].
Qed.

Lemma fm_step_weaken xs ys w1 w2 : fm_step xs w1 w2 → xs ⊆ ys → fm_step ys w1 w2.
Proof. intros [? ? ? V] Hs. split; [done..|]. intros x Hx. apply V. set_solver. Qed.

End steps.

Definition marked {store bitmap} `{Bitmap bitmap} (w : fs store bitmap) (s : Z) : Prop :=
  bitmap_test (free_map w) s = true.

Section specs.
Context {store bitmap : Type} `{SectorStoreLaws store, BitmapLaws bitmap}.
Context (fm_inode : Z) (fm_sectors : list Z).
Context `{!BitmapFile store bitmap, !BitmapFileLaws store bitmap fm_inode fm_sectors}.
Implicit Types (w : fs store bitmap).

Notation fm_wf := (fm_wf fm_inode fm_sectors).
Notation fm_step := (fm_step fm_inode fm_sectors).

(** The write that [free_map_allocate] makes when it is called in [w], of the map
    with the first free sector marked, returns false. *)
Definition map_write_fails w : Prop :=
  ∃ s b f w', bitmap_scan_and_flip (free_map w) 0 1 false = Ret (Some s, b) ∧
    free_map_file w = Some f ∧ bitmap_write b f (w <| free_map := b |>) = Ret (false, w').

(** [free_map_allocate] takes the first free sector, or changes nothing: on a full
    map, and when its own write of the map fails. *)
Lemma free_map_allocate_spec w :
  fm_wf w →
  ∃ r w', free_map_allocate w = Ret (r, w') ∧ fm_step fm_sectors w w' ∧
    match r with
    | Some s => 0 ≤ s < store_size (sectors w) ∧ ¬ marked w s ∧
        (∀ j, 0 ≤ j < s → marked w j) ∧
        ∀ j, bitmap_test (free_map w') j = if decide (j = s) then true else bitmap_test (free_map w) j
    | None => (∀ j, bitmap_test (free_map w') j = bitmap_test (free_map w) j) ∧
        ((∀ j, 0 ≤ j < store_size (sectors w) → marked w j) ∨
         map_write_fails w)
    end.
Proof.
  intros Hw. pose proof Hw as [Hst Hsz Hused Hidle [f Hf]]. unfold free_map_allocate.
  destruct (bitmap_scan_and_flip_spec (free_map w) false) as (r & b & Hscan & Hb & Hr). rewrite Hscan. ret.
  destruct r as [s|].
  - destruct Hr as (Hs & Hfree & Hbelow & Htest).
    set (w1 := w <| free_map := b |>). change (free_map_file w1) with (free_map_file w). rewrite Hf.
    destruct (bitmap_write_spec fm_inode fm_sectors (free_map w1) f w1) as (ok & w2 & Hwr & [E Hwf2 Hsz2 Hv]);
      [done|done|].
    rewrite Hwr. ret. change (sectors w1) with (sectors w) in Hsz2, Hv.
    assert (free_map w2 = b) as Eb by (rewrite E; done).
    destruct ok.
    + exists (Some s), w2. split; [done|]. split; [split|]; [split| | |done|].
      * done.
      * rewrite Eb. congruence.
      * intros x Hx. rewrite Eb, Htest. case_decide; [done|by apply Hused].
      * rewrite E. done.
      * rewrite E. by exists f.
      * rewrite E at 1. rewrite Eb. done.
      * done.
      * unfold marked. split_and!; [lia|lia|by rewrite Hfree| |by rewrite Eb].
        intros j Hj. by apply Hbelow.
    + destruct (bitmap_set_multiple_spec (free_map w2) s 1 false) as (b' & -> & Hb' & Ht');
        [lia|lia|rewrite Eb; lia|]. ret.
      assert (∀ j, bitmap_test b' j = bitmap_test (free_map w) j) as Hback.
      { intros j. rewrite Ht', Eb. destruct (decide (j = s)) as [->|].
        - by rewrite decide_True by lia.
        - rewrite decide_False by lia. by rewrite Htest, decide_False. }
      eexists None, _. split; [done|]. split; [split|]; [split| | | |].
      * done.
      * simpl. rewrite Hb', Eb. congruence.
      * intros x Hx. simpl. rewrite Hback. by apply Hused.
      * rewrite E. done.
      * rewrite E. by exists f.
      * rewrite E. done.
      * done.
      * done.
      * split; [done|]. right. by exists s, b, f, w2.
  - destruct Hr as [-> Hfull]. exists None, w. split; [by destruct w|].
    split; [by apply fm_step_refl|]. split; [done|]. left. rewrite <- Hsz. exact Hfull.
Qed.

(** [free_map_release] frees a sector that is in use; releasing a free sector, or
    one past the end of the device, is an assertion failure. *)
Lemma free_map_release_spec w s :
  fm_wf w → 0 ≤ s < store_size (sectors w) →
  s ∉ FREE_MAP_SECTOR :: ROOT_DIR_SECTOR :: fm_sectors → marked w s →
  ∃ w', free_map_release s w = Ret w' ∧ fm_step fm_sectors w w' ∧
    ∀ j, bitmap_test (free_map w') j = if decide (j = s) then false else bitmap_test (free_map w) j.
Proof.
  intros Hw Hs Hres Hm. pose proof Hw as [Hst Hsz Hused Hidle [f Hf]]. unfold free_map_release.
  destruct (bitmap_all_spec (free_map w) s 1) as (r & -> & Hr); [lia..|]. ret.
  rewrite (proj2 Hr) by (intros i Hi; by replace i with s by lia). ret.
  destruct (bitmap_set_multiple_spec (free_map w) s 1 false) as (b & -> & Hb & Hbt); [lia..|]. ret.
  set (w1 := w <| free_map := b |>). change (free_map_file w1) with (free_map_file w). rewrite Hf.
  ret. destruct (bitmap_write_spec fm_inode fm_sectors (free_map w1) f w1)
    as (ok & w2 & Hwr & [E Hwf2 Hsz2 Hv]); [done|done|].
  rewrite Hwr. ret. change (sectors w1) with (sectors w) in Hsz2, Hv. exists w2. split; [done|].
  assert (∀ j, bitmap_test (free_map w2) j =
    if decide (j = s) then false else bitmap_test (free_map w) j) as Htest.
  { intros j. rewrite E. simpl. rewrite Hbt. repeat case_decide; try lia; done. }
  split; [split|done]; [split| |done|done].
  - done.
  - rewrite E. simpl. congruence.
  - intros x Hx. rewrite Htest, decide_False by (by intros ->). by apply Hused.
  - rewrite E. done.
  - rewrite E. by exists f.
  - rewrite E at 1. rewrite E. done.
Qed.

Lemma free_map_release_bad w s :
  fm_wf w → 0 ≤ s → ¬ marked w s ∨ store_size (sectors w) ≤ s → free_map_release s w = Panic.
Proof.
  intros Hw Hs Hbad. pose proof (fw_size _ _ _ Hw) as Hsz. unfold free_map_release.
  destruct (Z.lt_ge_cases s (store_size (sectors w))).
  - destruct (bitmap_all_spec (free_map w) s 1) as (r & -> & Hr); [lia..|]. ret.
    destruct r; [|done]. destruct Hbad as [Hbad|]; [|lia]. exfalso. apply Hbad.
    unfold marked. apply Hr; [done|lia].
  - by rewrite bitmap_all_past by lia.
Qed.
End specs.
