(* ===== verification/Inode.v ===== *)
(** * Inodes (file-system/filesys/inode.c)

    Index lookup, growth, and the operations on in-memory inodes, over the
    interfaces of the buffer cache (Store.v) and the free map (FreeMap.v).  An
    [inode *] is an address in the heap [inodes]; a null pointer is [None].
    Loops carry fuel that the bounds on file sizes make sufficient. *)
From S2P Require Import Prelude CInt Ext Store InodeDisk FreeMap.
Open Scope Z_scope.

Definition UINT16_MAX : Z := 65535.

(** [(block_sector_t) -1] *)
Definition NO_SECTOR : Z := u32 (-1).

Definition bytes_to_sectors (size : Z) : Z := DIV_ROUND_UP size BLOCK_SECTOR_SIZE.

Section inode.
Context {store bitmap : Type} `{SectorStore store, Bitmap bitmap, BitmapFile store bitmap}.
Implicit Types (w : fs store bitmap) (disk : inode_disk) (p : Z).

(** ** Index lookup *)

(** The indirect index is read at byte offset [ind_ofs] of the indirect sector. *)
Definition byte_to_sector_disk disk (pos : Z) w : outcome (Z * fs store bitmap) :=
  ASSERT (0 <=? pos);;
  if dk_length disk <=? pos then Ret (NO_SECTOR, w)
  else
    let idx := Z.quot pos BLOCK_SECTOR_SIZE in
    if idx <? NUM_DIRECT then
      s ← deref (direct disk !! Z.to_nat idx);
      Ret (s, w)
    else
      let ind_idx := Z.quot (idx - NUM_DIRECT) INDIRECT_LEN in
      let ind_ofs := Z.rem (idx - NUM_DIRECT) INDIRECT_LEN in
      s ← deref (indirect disk !! Z.to_nat ind_idx);
      '(b, st) ← cache_read s 2 ind_ofs (sectors w);
      Ret (unle b, w <| sectors := st |>).

(** [inode->field], and the lock of an inode. *)
Definition inode_at w p : outcome inode := deref (inodes w !! p).
Definition upd_inode p (g : inode → inode) w : fs store bitmap :=
  w <| inodes := alter g p (inodes w) |>.

Definition acquire p w : outcome (fs store bitmap) :=
  i ← inode_at w p; b ← lock_acquire (lock i);
  Ret (upd_inode p (λ i, i <| lock := b |>) w).
Definition release p w : outcome (fs store bitmap) :=
  i ← inode_at w p; b ← lock_release (lock i);
  Ret (upd_inode p (λ i, i <| lock := b |>) w).

Definition byte_to_sector p (pos : Z) w : outcome (Z * fs store bitmap) :=
  i ← inode_at w p;
  ASSERT (lock i);;
  byte_to_sector_disk (data i) pos w.

(** ** Growth *)

(** [None] is [false]; [Some s] is [true] with [*shortp = s]. *)
Definition allocate_short w : outcome (option Z * fs store bitmap) :=
  '(r, w1) ← free_map_allocate w;
  match r with
  | None => Ret (None, w1)
  | Some s =>
      if UINT16_MAX <? s then w2 ← free_map_release s w1; Ret (None, w2)
      else
        st ← cache_zero s (sectors w1);
        Ret (Some (u16 s), w1 <| sectors := st |>)
  end.

Definition set_direct (idx s : Z) disk : inode_disk :=
  disk <| direct := <[Z.to_nat idx := s]> (direct disk) |>.
Definition set_indirect (idx s : Z) disk : inode_disk :=
  disk <| indirect := <[Z.to_nat idx := s]> (indirect disk) |>.

Definition append_sector disk w : outcome (bool * inode_disk * fs store bitmap) :=
  let new_length := s32 (ROUND_UP (dk_length disk) BLOCK_SECTOR_SIZE + BLOCK_SECTOR_SIZE) in
  if MAX_INODE_LEN <? new_length then Ret (false, disk, w)
  else
    let idx := Z.quot (new_length - 1) BLOCK_SECTOR_SIZE in
    if idx <? NUM_DIRECT then
      '(r, w1) ← allocate_short w;
      match r with
      | None => Ret (false, disk, w1)
      | Some s => Ret (true, (set_direct idx s disk) <| dk_length := new_length |>, w1)
      end
    else
      let old_idx := Z.quot (dk_length disk - 1) BLOCK_SECTOR_SIZE in
      let old_ind_idx := Z.quot (old_idx - NUM_DIRECT) INDIRECT_LEN in
      let ind_idx := Z.quot (idx - NUM_DIRECT) INDIRECT_LEN in
      '(have, disk1, w1) ←
        (if old_ind_idx <? ind_idx then
           '(r, w1) ← allocate_short w;
           match r with
           | None => Ret (false, disk, w1)
           | Some s => Ret (true, set_indirect ind_idx s disk, w1)
           end
         else Ret (true, disk, w));
      if negb have then Ret (false, disk1, w1)
      else
        ind ← deref (indirect disk1 !! Z.to_nat ind_idx);
        '(r, w2) ← allocate_short w1;
        match r with
        | None =>
            w3 ← (if old_ind_idx <? ind_idx then free_map_release ind w2 else Ret w2);
            Ret (false, disk1, w3)
        | Some dir_idx =>
            let ind_ofs := Z.rem (idx - NUM_DIRECT) INDIRECT_LEN in
            st ← cache_write ind (le 2 dir_idx) 2 ind_ofs (sectors w2);
            Ret (true, disk1 <| dk_length := new_length |>, w2 <| sectors := st |>)
        end.

(** [while (disk->length < length && append_sector (disk))] *)
Fixpoint extend_loop (fuel : nat) disk (length : Z) w : outcome (inode_disk * fs store bitmap) :=
  match fuel with
  | O => Stuck
  | S fuel' =>
      if dk_length disk <? length then
        '(ok, disk', w') ← append_sector disk w;
        if ok : bool then extend_loop fuel' disk' length w' else Ret (disk', w')
      else Ret (disk, w)
  end.

(** Each round adds a sector, and a file has at most [MAX_INODE_LEN / 512]. *)
Definition EXTEND_FUEL : nat := Z.to_nat (MAX_INODE_LEN / BLOCK_SECTOR_SIZE + 1).

Definition extend_disk disk (length : Z) w : outcome (Z * inode_disk * fs store bitmap) :=
  if length <=? dk_length disk then Ret (dk_length disk, disk, w)
  else
    let disk1 := disk <| dk_length := ROUND_UP (dk_length disk) BLOCK_SECTOR_SIZE |> in
    '(disk2, w2) ← extend_loop EXTEND_FUEL disk1 length w;
    let disk3 := if length <? dk_length disk2 then disk2 <| dk_length := length |> else disk2 in
    Ret (dk_length disk3, disk3, w2).

Definition extend p (pos : Z) w : outcome (Z * fs store bitmap) :=
  i ← inode_at w p;
  ASSERT (lock i);;
  '(n, d, w1) ← extend_disk (data i) pos w;
  Ret (n, upd_inode p (λ i, i <| data := d |>) w1).

(** ** Creation *)

(** [for (ofs = 0; ofs < length; ofs += BLOCK_SECTOR_SIZE)
       free_map_release (byte_to_sector_disk (disk, ofs));] *)
Fixpoint release_loop (fuel : nat) disk (ofs : Z) w : outcome (fs store bitmap) :=
  match fuel with
  | O => Stuck
  | S fuel' =>
      if ofs <? dk_length disk then
        '(s, w1) ← byte_to_sector_disk disk ofs w;
        w2 ← free_map_release s w1;
        release_loop fuel' disk (ofs + BLOCK_SECTOR_SIZE) w2
      else Ret w
  end.

(** [mem]: whether [calloc] succeeds. *)
Definition inode_create (mem : bool) (s length : Z) w : outcome (bool * fs store bitmap) :=
  ASSERT (Z.of_nat (List.length (encode_inode zero_inode)) =? BLOCK_SECTOR_SIZE);;
  if mem then
    let disk0 := zero_inode <| dk_length := 0 |> <| magic := INODE_MAGIC |> in
    '(n, disk, w1) ← extend_disk disk0 length w;
    if n <? length then
      w2 ← release_loop EXTEND_FUEL disk 0 w1;
      Ret (false, w2)
    else
      st ← cache_write s (encode_inode disk) BLOCK_SECTOR_SIZE 0 (sectors w1);
      Ret (true, w1 <| sectors := st |>)
  else Ret (false, w).

(** ** In-memory inodes *)

Definition inode_init w : fs store bitmap := w <| open_inodes := [] |>.

Definition inode_reopen (p : option Z) w : outcome (option Z * fs store bitmap) :=
  match p with
  | None => Ret (None, w)
  | Some p =>
      w1 ← acquire p w;
      let w2 := upd_inode p (λ i, i <| open_cnt := s32 (open_cnt i + 1) |>) w1 in
      w3 ← release p w2;
      Ret (Some p, w3)
  end.

Definition has_sector w (s p : Z) : Prop := sector <$> inodes w !! p = Some s.
#[export] Instance has_sector_dec w s p : Decision (has_sector w s p).
Proof. unfold has_sector. apply _. Defined.

(** [mem] is the address [malloc] returns, if any. *)
Definition inode_open (mem : option Z) (s : Z) w : outcome (option Z * fs store bitmap) :=
  match list_find (has_sector w s) (open_inodes w) with
  | Some (_, p) => inode_reopen (Some p) w
  | None =>
      match mem with
      | None => Ret (None, w)
      | Some p =>
          let w1 := w <| open_inodes := p :: open_inodes w |>
                      <| inodes := <[p := Inode s 1 false 0 false zero_inode]> (inodes w) |> in
          '(b, st) ← cache_read s BLOCK_SECTOR_SIZE 0 (sectors w1);
          Ret (Some p, upd_inode p (λ i, i <| data := decode_inode b |>) (w1 <| sectors := st |>))
      end
  end.

Definition inode_get_inumber p w : outcome Z := i ← inode_at w p; Ret (sector i).

(** The release loop of [inode_close], with [byte_to_sector]. *)
Fixpoint close_loop (fuel : nat) p (ofs : Z) w : outcome (fs store bitmap) :=
  match fuel with
  | O => Stuck
  | S fuel' =>
      i ← inode_at w p;
      if ofs <? dk_length (data i) then
        '(s, w1) ← byte_to_sector p ofs w;
        w2 ← free_map_release s w1;
        close_loop fuel' p (ofs + BLOCK_SECTOR_SIZE) w2
      else Ret w
  end.

Definition inode_close (p : option Z) w : outcome (fs store bitmap) :=
  match p with
  | None => Ret w
  | Some p =>
      w1 ← acquire p w;
      let w2 := upd_inode p (λ i, i <| open_cnt := s32 (open_cnt i - 1) |>) w1 in
      i ← inode_at w2 p;
      if open_cnt i =? 0 then
        let w3 := w2 <| open_inodes := list_remove p (open_inodes w2) |> in
        w4 ← (if removed i then
                w' ← free_map_release (sector i) w3;
                close_loop EXTEND_FUEL p 0 w'
              else Ret w3);
        w5 ← release p w4;
        Ret (w5 <| inodes := delete p (inodes w5) |>)
      else release p w2
  end.

Definition inode_remove (p : option Z) w : outcome (fs store bitmap) :=
  p ← deref p;
  w1 ← acquire p w;
  release p (upd_inode p (λ i, i <| removed := true |>) w1).

Definition inode_deny_write p w : outcome (fs store bitmap) :=
  w1 ← acquire p w;
  let w2 := upd_inode p (λ i, i <| deny_write_cnt := s32 (deny_write_cnt i + 1) |>) w1 in
  i ← inode_at w2 p;
  ASSERT (deny_write_cnt i <=? open_cnt i);;
  release p w2.

Definition inode_allow_write p w : outcome (fs store bitmap) :=
  w1 ← acquire p w;
  i ← inode_at w1 p;
  ASSERT (0 <? deny_write_cnt i);;
  ASSERT (deny_write_cnt i <=? open_cnt i);;
  release p (upd_inode p (λ i, i <| deny_write_cnt := s32 (deny_write_cnt i - 1) |>) w1).

Definition inode_length p w : outcome (Z * fs store bitmap) :=
  w1 ← acquire p w;
  i ← inode_at w1 p;
  w2 ← release p w1;
  Ret (dk_length (data i), w2).

(** ** Reading and writing *)

(** The number of bytes of one round of either loop. *)
Definition chunk_size (length size offset : Z) : Z :=
  let sector_ofs := Z.rem offset BLOCK_SECTOR_SIZE in
  let inode_left := length - offset in
  let sector_left := BLOCK_SECTOR_SIZE - sector_ofs in
  let min_left := if inode_left <? sector_left then inode_left else sector_left in
  if size <? min_left then size else min_left.

(** [buffer] collects the bytes read so far. *)
Fixpoint read_loop (fuel : nat) p (size offset : Z) (buffer : list Z) w
    : outcome (list Z * fs store bitmap) :=
  match fuel with
  | O => Stuck
  | S fuel' =>
      i ← inode_at w p;
      if (0 <? size) && (offset <? dk_length (data i)) then
        '(sector_idx, w1) ← byte_to_sector p offset w;
        ASSERT (negb (sector_idx =? NO_SECTOR));;
        let sector_ofs := Z.rem offset BLOCK_SECTOR_SIZE in
        let chunk := chunk_size (dk_length (data i)) size offset in
        if chunk <=? 0 then Ret (buffer, w1)
        else
          '(b, st) ← cache_read sector_idx chunk sector_ofs (sectors w1);
          read_loop fuel' p (size - chunk) (offset + chunk) (buffer ++ b) (w1 <| sectors := st |>)
      else Ret (buffer, w)
  end.

(** Returns the number of bytes read and the bytes. *)
Definition inode_read_at p (size offset : Z) w : outcome (Z * list Z * fs store bitmap) :=
  w1 ← acquire p w;
  '(b, w2) ← read_loop (Z.to_nat size + 1) p size offset [] w1;
  w3 ← release p w2;
  Ret (Z.of_nat (length b), b, w3).

(** [buffer] is what remains to be written. *)
Fixpoint write_loop (fuel : nat) p (buffer : list Z) (size offset bytes_written : Z) w
    : outcome (Z * fs store bitmap) :=
  match fuel with
  | O => Stuck
  | S fuel' =>
      i ← inode_at w p;
      if (0 <? size) && (offset <? dk_length (data i)) then
        '(sector_idx, w1) ← byte_to_sector p offset w;
        ASSERT (negb (sector_idx =? NO_SECTOR));;
        let sector_ofs := Z.rem offset BLOCK_SECTOR_SIZE in
        let chunk := chunk_size (dk_length (data i)) size offset in
        if chunk <=? 0 then Ret (bytes_written, w1)
        else
          st ← cache_write sector_idx (take (Z.to_nat chunk) buffer) chunk sector_ofs (sectors w1);
          write_loop fuel' p (drop (Z.to_nat chunk) buffer) (size - chunk) (offset + chunk)
            (bytes_written + chunk) (w1 <| sectors := st |>)
      else Ret (bytes_written, w)
  end.

Definition inode_write_at p (buffer : list Z) (size offset : Z) w : outcome (Z * fs store bitmap) :=
  w1 ← acquire p w;
  i ← inode_at w1 p;
  if negb (deny_write_cnt i =? 0) then
    w2 ← release p w1;
    Ret (0, w2)
  else
    '(_, w2) ← extend p (s32 (offset + size)) w1;
    '(n, w3) ← write_loop (Z.to_nat size + 1) p buffer size offset 0 w2;
    w4 ← release p w3;
    Ret (n, w4).
End inode.
