(* ===== verification/File.v ===== *)
(** * Files as byte sequences

    What an inode's index means: [content] is the sequence of bytes a file with
    direct sectors only holds in the cache.  Lookup, reading, growing and
    writing (Inode.v) are specified on it.  Files of up to [DIRECT_MAX] bytes
    use direct sectors only; Indirect.v shows what happens beyond. *)
From S2P Require Import Prelude CInt Ext Store InodeDisk FreeMap Inode.
Open Scope Z_scope.

(** The bytes that [NUM_DIRECT] sectors hold. *)
Definition DIRECT_MAX : Z := NUM_DIRECT * BLOCK_SECTOR_SIZE.

Definition n_sectors (d : inode_disk) : nat := Z.to_nat ((dk_length d + 511) / 512).
Definition file_sectors (d : inode_disk) : list Z := take (n_sectors d) (direct d).

Section content.
Context {store bitmap : Type} `{SectorStore store, Bitmap bitmap}.
Implicit Types (w : fs store bitmap) (d : inode_disk).

Definition file_blocks d w : list (list Z) := (λ s, sview (sectors w) s) <$> file_sectors d.

(** The bytes of the file, and all bytes of its sectors. *)
Definition file_bytes d w : list Z := mjoin (file_blocks d w).
Definition content d w : list Z := take (Z.to_nat (dk_length d)) (file_bytes d w).
End content.

Section files.
Context {store bitmap : Type} `{SectorStoreLaws store, BitmapLaws bitmap}.
Context (fm_sectors : list Z).
Implicit Types (w : fs store bitmap) (d : inode_disk) (s p : Z).

Definition reserved : list Z := FREE_MAP_SECTOR :: ROOT_DIR_SECTOR :: fm_sectors.

(** A well-formed file within its direct sectors: at most [DIRECT_MAX] bytes; its
    sectors are its own, in use, addressable in 16 bits, and zero beyond the end of the
    file.  Longer files are the subject of Indirect.v. *)
Record file_ok d w : Prop := {
  fo_length : 0 ≤ dk_length d ≤ DIRECT_MAX;
  fo_direct : length (direct d) = Z.to_nat NUM_DIRECT;
  fo_indirect : length (indirect d) = Z.to_nat NUM_INDIRECT;
  fo_sectors : ∀ s, s ∈ file_sectors d →
    0 ≤ s < store_size (sectors w) ∧ s ≤ UINT16_MAX ∧ s ∉ reserved ∧ marked w s;
  fo_nodup : NoDup (file_sectors d);
  fo_slack : Forall (eq 0) (drop (Z.to_nat (dk_length d)) (file_bytes d w))
}.

Lemma n_sectors_le d w : file_ok d w → (n_sectors d ≤ length (direct d))%nat.
Proof.
  intros Hf. rewrite (fo_direct _ _ Hf). destruct (fo_length _ _ Hf). unfold n_sectors.
  unfold DIRECT_MAX, NUM_DIRECT, BLOCK_SECTOR_SIZE in *. Z.to_euclidean_division_equations; lia.
Qed.

Lemma length_file_sectors d w : file_ok d w → length (file_sectors d) = n_sectors d.
Proof. intros Hf. unfold file_sectors. rewrite length_take. pose proof (n_sectors_le d w Hf). lia. Qed.

Lemma file_blocks_512 d w :
  store_wf (sectors w) → file_ok d w → Forall (λ b, length b = 512%nat) (file_blocks d w).
Proof.
  intros Hw Hf. unfold file_blocks. apply Forall_fmap, Forall_forall. intros s Hs. simpl.
  apply sview_length; [done|]. by destruct (fo_sectors _ _ Hf s Hs).
Qed.

Lemma length_file_bytes d w :
  store_wf (sectors w) → file_ok d w → length (file_bytes d w) = (512 * n_sectors d)%nat.
Proof.
  intros Hw Hf. unfold file_bytes. rewrite (length_join_blocks 512) by by apply file_blocks_512.
  unfold file_blocks. by rewrite length_fmap, (length_file_sectors d w).
Qed.

Lemma n_sectors_covers d : 0 ≤ dk_length d → (Z.to_nat (dk_length d) ≤ 512 * n_sectors d)%nat.
Proof. intros. unfold n_sectors. Z.to_euclidean_division_equations; lia. Qed.

Lemma length_content d w :
  store_wf (sectors w) → file_ok d w → Z.of_nat (length (content d w)) = dk_length d.
Proof.
  intros Hw Hf. pose proof (fo_length _ _ Hf). unfold content.
  rewrite length_take, length_file_bytes by done.
  pose proof (n_sectors_covers d). lia.
Qed.

Lemma file_blocks_ext d w w' :
  (∀ s, s ∈ file_sectors d → sview (sectors w') s = sview (sectors w) s) →
  file_blocks d w' = file_blocks d w.
Proof.
  intros Hv. unfold file_blocks. apply list_fmap_ext. intros i s Hs. apply Hv.
  by eapply list_elem_of_lookup_2.
Qed.

Lemma content_ext d w w' :
  (∀ s, s ∈ file_sectors d → sview (sectors w') s = sview (sectors w) s) →
  content d w' = content d w.
Proof. intros Hv. unfold content, file_bytes. by rewrite (file_blocks_ext d w w'). Qed.

Lemma file_ok_ext d w w' :
  file_ok d w → store_size (sectors w') = store_size (sectors w) →
  (∀ s, s ∈ file_sectors d → sview (sectors w') s = sview (sectors w) s) →
  (∀ s, s ∈ file_sectors d → marked w s → marked w' s) → file_ok d w'.
Proof.
  intros [Hl Hd Hi Hs Hn Hsl] Hsz Hv Hm. split; [done..| |done|].
  - intros s Hin. destruct (Hs s Hin) as (? & ? & ? & ?). rewrite Hsz. auto.
  - unfold file_bytes in *. by rewrite (file_blocks_ext d w w').
Qed.

Lemma file_ok_same d w w' :
  sectors w' = sectors w → free_map w' = free_map w → file_ok d w → file_ok d w'.
Proof.
  intros Es Ef Hf. apply (file_ok_ext d w); [done|by rewrite Es|by rewrite Es|].
  intros s _. unfold marked. by rewrite Ef.
Qed.

(** *** Lookup *)

Lemma quot_512 x : 0 ≤ x → Z.quot x BLOCK_SECTOR_SIZE = x / 512 ∧ Z.rem x BLOCK_SECTOR_SIZE = x mod 512.
Proof.
  intros. unfold BLOCK_SECTOR_SIZE. by rewrite Z.quot_div_nonneg, Z.rem_mod_nonneg by lia.
Qed.

(** Lookup needs the index only, not the state of the sectors. *)
Lemma byte_to_sector_direct d w pos :
  dk_length d ≤ DIRECT_MAX → length (direct d) = Z.to_nat NUM_DIRECT → 0 ≤ pos < dk_length d →
  ∃ s, file_sectors d !! Z.to_nat (pos / 512) = Some s ∧ byte_to_sector_disk d pos w = Ret (s, w).
Proof.
  intros Hl Hd Hpos. unfold DIRECT_MAX, NUM_DIRECT, BLOCK_SECTOR_SIZE in Hl, Hd.
  assert (0 ≤ pos / 512 < 188) by (Z.to_euclidean_division_equations; lia).
  destruct (lookup_lt_is_Some_2 (direct d) (Z.to_nat (pos / 512))) as [s Hs]; [lia|].
  exists s. split.
  - unfold file_sectors. rewrite lookup_take_lt; [done|]. unfold n_sectors.
    Z.to_euclidean_division_equations; lia.
  - unfold byte_to_sector_disk, NUM_DIRECT.
    rewrite (proj2 (Z.leb_le 0 pos)) by lia. ret. rewrite (proj2 (Z.leb_gt _ _)) by lia.
    destruct (quot_512 pos) as [-> _]; [lia|]. rewrite (proj2 (Z.ltb_lt _ _)) by lia.
    by rewrite Hs.
Qed.

Lemma byte_to_sector_small d w pos :
  file_ok d w → 0 ≤ pos < dk_length d →
  ∃ s, file_sectors d !! Z.to_nat (pos / 512) = Some s ∧ byte_to_sector_disk d pos w = Ret (s, w).
Proof. intros [? ? _ _ _ _]. apply byte_to_sector_direct; [lia|done]. Qed.

(** Bytes of one sector as bytes of the file. *)
Lemma content_slice d w s off c :
  store_wf (sectors w) → file_ok d w →
  file_sectors d !! Z.to_nat (off / 512) = Some s →
  0 ≤ off → 0 ≤ c → off mod 512 + c ≤ 512 → off + c ≤ dk_length d →
  slice (Z.to_nat (off mod 512)) (Z.to_nat c) (sview (sectors w) s)
    = slice (Z.to_nat off) (Z.to_nat c) (content d w).
Proof.
  intros Hw Hf Hs Ho Hc Hin Hle. unfold content. rewrite slice_take by lia.
  pose proof (Z.div_mod off 512 ltac:(lia)). pose proof (Z.mod_pos_bound off 512 ltac:(lia)).
  pose proof (Z.div_pos off 512 ltac:(lia) ltac:(lia)).
  replace (Z.to_nat off) with (512 * Z.to_nat (off / 512) + Z.to_nat (off mod 512))%nat by lia.
  unfold file_bytes. symmetry. apply slice_join_blocks; [by apply file_blocks_512| |lia].
  unfold file_blocks. by rewrite list_lookup_fmap, Hs.
Qed.

Lemma chunk_size_spec len size off :
  0 ≤ off < len → 0 < size →
  chunk_size len size off = Z.min size (Z.min (len - off) (512 - off mod 512)) ∧
  0 < chunk_size len size off.
Proof.
  intros Ho Hs. unfold chunk_size. destruct (quot_512 off) as [_ ->]; [lia|].
  unfold BLOCK_SECTOR_SIZE. pose proof (Z.mod_pos_bound off 512 ltac:(lia)).
  destruct (Z.ltb_spec (len - off) (512 - off mod 512)); case_bool; lia.
Qed.

(** *** Reading *)

Lemma sectors_frame_refl xs w : store_wf (sectors w) → sectors_frame xs w w.
Proof. intros. split; [by destruct w|done|done|done]. Qed.

Lemma sectors_frame_trans xs w1 w2 w3 :
  sectors_frame xs w1 w2 → sectors_frame xs w2 w3 → sectors_frame xs w1 w3.
Proof.
  intros [E1 W1 S1 V1] [E2 W2 S2 V2]. split; [|done|congruence|].
  - rewrite E2, E1. done.
  - intros x Hx. by rewrite V2, V1.
Qed.

Lemma sectors_frame_file xs d w w' :
  sectors_frame xs w w' → (∀ s, s ∈ file_sectors d → s ∉ xs) → file_ok d w →
  file_ok d w' ∧ content d w' = content d w.
Proof.
  intros [E W S V] Hd Hf. split.
  - eapply file_ok_ext; [done..| |]; [by auto|]. intros s _. unfold marked. by rewrite E.
  - apply content_ext. auto.
Qed.

Lemma sectors_frame_inode xs w w' p : sectors_frame xs w w' → inodes w' !! p = inodes w !! p.
Proof. intros [E _ _ _]. by rewrite E. Qed.

Lemma read_loop_spec (fuel : nat) p i (size off : Z) (buf : list Z) w :
  store_wf (sectors w) → store_size (sectors w) ≤ NO_SECTOR →
  inodes w !! p = Some i → lock i = true → file_ok (data i) w →
  0 ≤ off → (Z.to_nat size < fuel)%nat →
  ∃ w', read_loop fuel p size off buf w =
      Ret (buf ++ slice (Z.to_nat off) (Z.to_nat (Z.min size (dk_length (data i) - off)))
             (content (data i) w), w') ∧
    sectors_frame [] w w'.
Proof.
  revert size off buf w. induction fuel as [|fuel IH]; intros size off buf w Hw Hns Hi Hl Hf Ho Hfuel;
    [lia|]. set (d := data i) in *. cbn [read_loop]. unfold inode_at. rewrite Hi. ret. fold d.
  destruct ((0 <? size) && (off <? dk_length d)) eqn:Ec; bool_to_prop.
  - destruct (byte_to_sector_small d w off) as (s & Hs & Hb); [done|lia|].
    unfold byte_to_sector, inode_at. rewrite Hi. ret. rewrite Hl. ret. fold d. rewrite Hb. ret.
    destruct (fo_sectors _ _ Hf s) as (Hsv & _ & _ & _); [by eapply list_elem_of_lookup_2|].
    rewrite (proj2 (Z.eqb_neq s NO_SECTOR)) by lia. ret.
    destruct (chunk_size_spec (dk_length d) size off) as [Hc Hcp]; [lia..|].
    set (c := chunk_size _ _ _) in *. rewrite (proj2 (Z.leb_gt c 0)) by lia.
    destruct (quot_512 off) as [_ ->]; [lia|].
    pose proof (Z.mod_pos_bound off 512 ltac:(lia)).
    destruct (cache_read_spec (sectors w) s c (off mod 512)) as (st & -> & Hst & Hsz & Hv);
      [done|lia..|]. ret.
    set (w1 := w <| sectors := st |>).
    assert (sectors_frame [] w w1) as Hfr by (split; [done|done|done|auto]).
    destruct (sectors_frame_file [] d w w1 Hfr) as [Hf1 Hc1]; [set_solver|done|].
    destruct (IH (size - c) (off + c) (buf ++ slice (Z.to_nat (off mod 512)) (Z.to_nat c)
      (sview (sectors w) s)) w1) as (w' & -> & Hfr'); [done|by simpl; rewrite Hsz|done|done|done|lia|lia|].
    exists w'. split; [|by eapply sectors_frame_trans].
    rewrite <- app_assoc. do 3 f_equal. fold d. rewrite Hc1.
    rewrite (content_slice d w s off c) by (done || lia).
    replace (Z.to_nat (off + c)) with (Z.to_nat off + Z.to_nat c)%nat by lia.
    rewrite <- slice_app. f_equal. lia.
  - exists w. split; [|by apply sectors_frame_refl].
    replace (Z.to_nat (Z.min size (dk_length d - off))) with 0%nat; [by rewrite app_nil_r|].
    apply andb_false_iff in Ec as [?|?]; bool_to_prop; lia.
Qed.

(** *** Writing inside the file *)

(** One sector of the file is overwritten from [ofs] on. *)
Lemma file_bytes_write d w w' s (b : list Z) (i ofs : nat) :
  store_wf (sectors w) → file_ok d w → file_sectors d !! i = Some s →
  (ofs + length b ≤ 512)%nat →
  (∀ x, sview (sectors w') x = if decide (x = s) then splice ofs b (sview (sectors w) s)
                               else sview (sectors w) x) →
  file_bytes d w' = splice (512 * i + ofs) b (file_bytes d w).
Proof.
  intros Hw Hf Hi Hb Hv. unfold file_bytes.
  rewrite (splice_join_blocks 512 i ofs _ (sview (sectors w) s));
    [|by apply file_blocks_512|unfold file_blocks; by rewrite list_lookup_fmap, Hi|done].
  f_equal. unfold file_blocks. apply list_eq. intros j. rewrite list_lookup_fmap.
  destruct (decide (j = i)) as [->|Hne].
  - rewrite Hi, list_lookup_insert_eq.
    + simpl. by rewrite Hv, decide_True.
    + rewrite length_fmap. by apply lookup_lt_Some in Hi.
  - rewrite list_lookup_insert_ne by done. rewrite list_lookup_fmap.
    destruct (file_sectors d !! j) as [x|] eqn:Hj; [|done]. simpl. rewrite Hv, decide_False; [done|].
    intros ->. apply Hne. by eapply NoDup_lookup; [apply (fo_nodup _ _ Hf)|..].
Qed.

(** The loop writes [buf] over the bytes of the file from [off] on, as far as the
    file goes. *)
Lemma write_loop_spec (fuel : nat) p i (buf : list Z) (off n0 : Z) w :
  store_wf (sectors w) → store_size (sectors w) ≤ NO_SECTOR →
  inodes w !! p = Some i → lock i = true → file_ok (data i) w →
  0 ≤ off → (length buf < fuel)%nat →
  let n := Z.max 0 (Z.min (Z.of_nat (length buf)) (dk_length (data i) - off)) in
  ∃ w', write_loop fuel p buf (Z.of_nat (length buf)) off n0 w = Ret (n0 + n, w') ∧
    sectors_frame (file_sectors (data i)) w w' ∧ file_ok (data i) w' ∧
    file_bytes (data i) w' = splice (Z.to_nat off) (take (Z.to_nat n) buf) (file_bytes (data i) w).
Proof.
  revert buf off n0 w. induction fuel as [|fuel IH]; intros buf off n0 w Hw Hns Hi Hl Hf Ho Hfuel n;
    [lia|]. subst n. set (d := data i) in *. cbn [write_loop]. unfold inode_at. rewrite Hi. ret. fold d.
  destruct ((0 <? Z.of_nat (length buf)) && (off <? dk_length d)) eqn:Ec; bool_to_prop.
  2: { exists w. replace (Z.max _ _) with 0 by (apply andb_false_iff in Ec as [?|?]; bool_to_prop; lia).
       rewrite Z.add_0_r, take_0, splice_nil. split_and!; [done|by apply sectors_frame_refl|done|done]. }
  destruct (byte_to_sector_small d w off) as (s & Hs & Hb); [done|lia|].
  unfold byte_to_sector, inode_at. rewrite Hi. ret. rewrite Hl. ret. fold d. rewrite Hb. ret.
  destruct (fo_sectors _ _ Hf s) as (Hsv & _); [by eapply list_elem_of_lookup_2|].
  rewrite (proj2 (Z.eqb_neq s NO_SECTOR)) by lia. ret.
  destruct (chunk_size_spec (dk_length d) (Z.of_nat (length buf)) off) as [Hc Hcp]; [lia..|].
  set (c := chunk_size _ _ _) in *. rewrite (proj2 (Z.leb_gt c 0)) by lia.
  destruct (quot_512 off) as [_ ->]; [lia|].
  pose proof (Z.mod_pos_bound off 512 ltac:(lia)). pose proof (Z.div_mod off 512 ltac:(lia)).
  pose proof (Z.div_pos off 512 ltac:(lia) ltac:(lia)).
  assert (length (take (Z.to_nat c) buf) = Z.to_nat c) as Hlt by (rewrite length_take; lia).
  destruct (cache_write_spec (sectors w) s (take (Z.to_nat c) buf) c (off mod 512))
    as (st & -> & Hst & Hsz & Hv); [done|lia..|]. ret.
  set (w1 := w <| sectors := st |>).
  assert (sectors_frame (file_sectors d) w w1) as Hfr.
  { split; [done|done|done|]. intros x Hx. change (sectors w1) with st.
    rewrite Hv, decide_False; [done|]. intros ->. apply Hx. by eapply list_elem_of_lookup_2. }
  assert (file_bytes d w1 = splice (Z.to_nat off) (take (Z.to_nat c) buf) (file_bytes d w)) as Hfb.
  { rewrite (file_bytes_write d w w1 s _ (Z.to_nat (off / 512)) (Z.to_nat (off mod 512)))
      by (done || (rewrite ?Hlt; lia)). f_equal. lia. }
  pose proof (length_file_bytes d w Hw Hf) as Hlb. pose proof (n_sectors_covers d ltac:(lia)).
  assert (file_ok d w1) as Hf1.
  { destruct Hf as [? ? ? Hfs ? Hsl]. split; [done..| |done|].
    - intros x Hx. destruct (Hfs x Hx) as (? & ? & ? & ?). change (sectors w1) with st.
      rewrite Hsz. split_and!; [lia|lia|done|done|done].
    - rewrite Hfb, drop_splice; [done|rewrite Hlt; lia|rewrite Hlt; lia]. }
  assert (Z.of_nat (length (drop (Z.to_nat c) buf)) = Z.of_nat (length buf) - c) as Hld
    by (rewrite length_drop; lia).
  destruct (IH (drop (Z.to_nat c) buf) (off + c) (n0 + c) w1) as (w' & Hw' & Hfr' & Hf' & Hfb');
    [done|by simpl; rewrite Hsz|done|done|done|lia|lia|].
  fold d in Hw', Hfr', Hf', Hfb'. rewrite Hld in Hw', Hfb'. rewrite Hw'.
  set (n := Z.max 0 (Z.min (Z.of_nat (length buf) - c) (dk_length d - (off + c)))) in *.
  replace (Z.max 0 (Z.min (Z.of_nat (length buf)) (dk_length d - off))) with (c + n) by lia.
  exists w'. split; [do 2 f_equal; lia|]. split; [by eapply sectors_frame_trans|]. split; [done|].
  rewrite Hfb', Hfb. replace (Z.to_nat (off + c)) with
    (Z.to_nat off + length (take (Z.to_nat c) buf))%nat by lia.
  rewrite splice_splice_app.
  - f_equal. rewrite take_take_drop. f_equal. lia.
  - rewrite !length_take, !length_drop. lia.
Qed.
End files.

Section growth.
Context {store bitmap : Type} `{SectorStoreLaws store, BitmapLaws bitmap}.
Context (fm_inode : Z) (fm_sectors : list Z).
Context `{!BitmapFile store bitmap, !BitmapFileLaws store bitmap fm_inode fm_sectors}.
Implicit Types (w : fs store bitmap) (d : inode_disk) (s p : Z).

Notation fm_wf := (fm_wf fm_inode fm_sectors).
Notation fm_step := (fm_step fm_inode fm_sectors).
Notation file_ok := (file_ok fm_sectors).

(** The sectors [news] were free in [w] and are the only ones marked since. *)
Definition allocated (news : list Z) w w' : Prop :=
  (∀ s, s ∈ news → 0 ≤ s < store_size (sectors w) ∧ s ≤ UINT16_MAX ∧ ¬ marked w s) ∧
  NoDup news ∧ ∀ j, marked w' j ↔ marked w j ∨ j ∈ news.

(** Why [allocate_short] fails in the state [w]: every sector whose number fits in 16
    bits is in use, or the write of the free map that it makes fails. *)
Definition alloc_fails w : Prop :=
  (∀ j, 0 ≤ j < store_size (sectors w) → j ≤ UINT16_MAX → marked w j) ∨ map_write_fails w.

(** Successive calls of [allocate_short] return the sectors [news] and lead from [w]
    to [w']. *)
Fixpoint allocs (news : list Z) w w' : Prop :=
  match news with
  | [] => w' = w
  | s :: news' => ∃ w1, allocate_short w = Ret (Some s, w1) ∧ allocs news' w1 w'
  end.

(** Growth from [w] got the sectors [news] and was then stopped by an allocation
    that failed, in the state it had reached; [w'] has the free map it left. *)
Definition alloc_stuck (news : list Z) w w' : Prop :=
  ∃ w1 w2, allocs news w w1 ∧ allocate_short w1 = Ret (None, w2) ∧ alloc_fails w1 ∧
    ∀ j, marked w' j ↔ marked w1 j.

Lemma alloc_stuck_cons s (news : list Z) w w1 w' :
  allocate_short w = Ret (Some s, w1) → alloc_stuck news w1 w' → alloc_stuck (s :: news) w w'.
Proof. intros Hs (w2 & w3 & Ha & ?). exists w2, w3. split; [by exists w1|done]. Qed.

Lemma allocated_nil w w' :
  (∀ j, bitmap_test (free_map w') j = bitmap_test (free_map w) j) → allocated [] w w'.
Proof.
  intros Ht. split; [set_solver|]. split; [constructor|]. intros j. unfold marked. rewrite Ht.
  set_solver.
Qed.

Lemma allocated_refl w : allocated [] w w.
Proof. by apply allocated_nil. Qed.

Lemma allocated_trans xs ys w1 w2 w3 :
  store_size (sectors w2) = store_size (sectors w1) →
  allocated xs w1 w2 → allocated ys w2 w3 → allocated (xs ++ ys) w1 w3.
Proof.
  intros Hsz (A1 & N1 & M1) (A2 & N2 & M2). split; [|split].
  - intros s [Hs|Hs]%elem_of_app; [by apply A1|].
    destruct (A2 s Hs) as (? & ? & Hn). rewrite Hsz in *. split_and!; [lia..|].
    intros Hm. apply Hn, M1. by left.
  - apply NoDup_app. split_and!; [done| |done]. intros s Hs Hs'.
    destruct (A2 s Hs') as (_ & _ & Hn). apply Hn, M1. by right.
  - intros j. rewrite M2, M1. set_solver.
Qed.

Lemma reserved_marked w s : fm_wf w → s ∈ reserved fm_sectors → marked w s.
Proof. intros Hw Hs. by apply (fw_used _ _ _ Hw). Qed.

Lemma step_weaken xs ys w1 w2 : fm_step xs w1 w2 → xs ⊆ ys → fm_step ys w1 w2.
Proof. apply fm_step_weaken. Qed.

Lemma step_trans xs ys w1 w2 w3 : fm_step xs w1 w2 → fm_step ys w2 w3 → fm_step (xs ++ ys) w1 w3.
Proof. apply fm_step_trans. Qed.

(** [cache_zero] and [cache_write] in the middle of a step. *)
Lemma fm_step_store xs w st :
  fm_wf w → store_wf st → store_size st = store_size (sectors w) →
  (∀ x, x ∉ xs → sview st x = sview (sectors w) x) → fm_step xs w (w <| sectors := st |>).
Proof.
  intros [Hs Hsz Hu Hi Hf] Hst Hsize Hv. split; [split|done|done|done]; simpl;
    [done|congruence|done|done|done].
Qed.

Lemma allocate_short_spec w :
  fm_wf w →
  ∃ r w', allocate_short w = Ret (r, w') ∧
    match r with
    | Some s => allocated [s] w w' ∧ fm_step (s :: fm_sectors) w w' ∧
        sview (sectors w') s = zero_sector
    | None => allocated [] w w' ∧ fm_step fm_sectors w w' ∧ alloc_fails w
    end.
Proof.
  intros Hw. unfold allocate_short.
  destruct (free_map_allocate_spec fm_inode fm_sectors w Hw) as (r & w1 & -> & Hstep & Hr). ret.
  pose proof Hstep as [Hw1 E1 Hsz1 Hv1]. destruct r as [s|].
  - destruct Hr as (Hs & Hfree & Hbelow & Htest).
    assert (s ∉ reserved fm_sectors) as Hres.
    { intros Hin. by apply Hfree, reserved_marked. }
    destruct (Z.ltb_spec UINT16_MAX s) as [Hbig|Hsmall].
    + destruct (free_map_release_spec fm_inode fm_sectors w1 s) as (w2 & -> & Hstep2 & Htest2);
        [done|by rewrite Hsz1|done|unfold marked; by rewrite Htest, decide_True|].
      ret. exists None, w2. split; [done|].
      assert (∀ j, bitmap_test (free_map w2) j = bitmap_test (free_map w) j) as Hback.
      { intros j. rewrite Htest2, Htest. case_decide; [|done]. subst.
        unfold marked in Hfree. by destruct (bitmap_test _ s). }
      split; [by apply allocated_nil|].
      pose proof (step_trans _ _ _ _ _ Hstep Hstep2) as H12.
      split; [eapply step_weaken; [exact H12|set_solver]|].
      left. intros j Hj Hj16. apply Hbelow. lia.
    + destruct (cache_zero_spec (sectors w1) s) as (st & -> & Hst & Hstsz & Hstv);
        [apply Hw1|by rewrite Hsz1|]. ret.
      assert (u16 s = s) as -> by (apply u16_id; unfold in_u16; unfold UINT16_MAX in *; lia).
      eexists (Some s), _. split; [done|]. split; [split; [|split]|split].
      * intros x ->%list_elem_of_singleton. split_and!; [lia|lia|done|done].
      * apply NoDup_singleton.
      * intros j. unfold marked. simpl. rewrite Htest, list_elem_of_singleton.
        case_decide; [subst; tauto|tauto].
      * assert (fm_step (s :: fm_sectors) w1 (w1 <| sectors := st |>)) as Hst2.
        { apply fm_step_store; [done..|]. intros x Hx. rewrite Hstv, decide_False; [done|set_solver]. }
        eapply step_weaken; [eapply step_trans; [exact Hstep|exact Hst2]|set_solver].
      * simpl. by rewrite Hstv, decide_True.
  - destruct Hr as [Htest Hwhy]. exists None, w1. split; [done|].
    split; [by apply allocated_nil|]. split; [done|].
    destruct Hwhy as [Hfull|?]; [left|by right]. intros j Hj _. by apply Hfull.
Qed.

(** A failed allocation is where the growth stops. *)
Lemma alloc_stuck_nil w w' :
  allocate_short w = Ret (None, w') → allocated [] w w' → alloc_fails w → alloc_stuck [] w w'.
Proof.
  intros Hs (_ & _ & Hm) Hf. exists w, w'. split; [done|]. split; [done|]. split; [done|].
  intros j. rewrite Hm. set_solver.
Qed.

(** Files whose sectors are not touched keep their contents. *)
Lemma file_step_frame d xs news w w' :
  fm_step xs w w' → allocated news w w' → (∀ s, s ∈ file_sectors d → s ∉ xs) → file_ok d w →
  file_ok d w' ∧ file_bytes d w' = file_bytes d w.
Proof.
  intros [_ _ Hsz Hv] (_ & _ & Hm) Hd Hf. split.
  - eapply file_ok_ext; [done|done|by auto|]. intros s _ Hs. apply Hm. by left.
  - unfold file_bytes. by rewrite (file_blocks_ext d w w') by auto.
Qed.

(** The sectors of a file are in use and not reserved, so that an allocation does
    not touch them. *)
Lemma file_sectors_fresh d w w' news :
  file_ok d w → allocated news w w' → ∀ s, s ∈ file_sectors d → s ∉ news ++ fm_sectors.
Proof.
  intros Hf (Hnew & _) s Hs [Hn|Hn]%elem_of_app; destruct (fo_sectors _ _ _ Hf s Hs) as (_ & _ & Hr & Hm).
  - by destruct (Hnew s Hn) as (_ & _ & ?).
  - apply Hr. unfold reserved. set_solver.
Qed.

(** [d'] is [d] with the zeroed sectors [news] appended. *)
Record grown d w (news : list Z) d' w' : Prop := {
  gr_ok : file_ok d' w';
  gr_length : dk_length d' = dk_length d + 512 * Z.of_nat (length news);
  gr_sectors : file_sectors d' = file_sectors d ++ news;
  gr_bytes : file_bytes d' w' = file_bytes d w ++ replicate (512 * length news) 0;
  gr_alloc : allocated news w w';
  gr_step : fm_step (news ++ fm_sectors) w w';
  gr_rest : magic d' = magic d ∧ (inode_disk_wf d → inode_disk_wf d')
}.

Lemma n_sectors_aligned d k : dk_length d = 512 * k → 0 ≤ k → n_sectors d = Z.to_nat k.
Proof. intros E Hk. unfold n_sectors. rewrite E. f_equal. Z.to_euclidean_division_equations; lia. Qed.

Lemma file_ok_aligned d k w :
  file_ok d w → n_sectors d = Z.to_nat k → 0 ≤ k ≤ NUM_DIRECT →
  file_ok (d <| dk_length := 512 * k |>) w.
Proof.
  intros [Hl Hd Hi Hs Hn Hsl] Ek Hk.
  assert (file_sectors (d <| dk_length := 512 * k |>) = file_sectors d) as E.
  { unfold file_sectors. rewrite (n_sectors_aligned _ k) by (done || lia). by rewrite Ek. }
  split; rewrite ?E; [|done..|].
  - unfold DIRECT_MAX, BLOCK_SECTOR_SIZE. simpl. lia.
  - unfold file_bytes, file_blocks in *. rewrite E. simpl.
    change (Z.to_nat (512 * k)) with (Z.to_nat (512 * k)).
    destruct (decide (Z.to_nat (dk_length d) ≤ Z.to_nat (512 * k))%nat).
    + replace (Z.to_nat (512 * k)) with
        (Z.to_nat (dk_length d) + (Z.to_nat (512 * k) - Z.to_nat (dk_length d)))%nat by lia.
      rewrite <- drop_drop. by apply Forall_drop.
    + exfalso. unfold n_sectors in Ek. unfold NUM_DIRECT in *.
      Z.to_euclidean_division_equations; lia.
Qed.

Lemma append_sector_spec d (k : Z) w :
  fm_wf w → file_ok d w → dk_length d = 512 * k → 0 ≤ k < NUM_DIRECT →
  ∃ ok d' w', append_sector d w = Ret (ok, d', w') ∧
    if ok : bool then ∃ s, grown d w [s] d' w' ∧ allocate_short w = Ret (Some s, w')
    else d' = d ∧ allocated [] w w' ∧ fm_step fm_sectors w w' ∧ alloc_stuck [] w w'.
Proof.
  intros Hw Hf El Hk. unfold append_sector.
  destruct (ROUND_UP_spec (dk_length d) BLOCK_SECTOR_SIZE) as (k' & Hk' & -> & Hb & _);
    [done|lia|unfold BLOCK_SECTOR_SIZE, NUM_DIRECT in *; lia|].
  unfold BLOCK_SECTOR_SIZE, NUM_DIRECT in *. assert (k' = k) as -> by lia.
  rewrite s32_id by (unfold in_s32; lia). unfold MAX_INODE_LEN. rewrite (proj2 (Z.ltb_ge _ _)) by lia.
  destruct (quot_512 (k * 512 + 512 - 1)) as [Eq _]; [lia|]. unfold BLOCK_SECTOR_SIZE in Eq. rewrite Eq.
  assert ((k * 512 + 512 - 1) / 512 = k) as -> by (Z.to_euclidean_division_equations; lia).
  rewrite (proj2 (Z.ltb_lt _ _)) by lia.
  destruct (allocate_short_spec w Hw) as (r & w' & Has & Hr). rewrite Has. ret.
  destruct r as [s|].
  2: { destruct Hr as (? & ? & ?). exists false, d, w'. split_and!; [done..|].
       by apply alloc_stuck_nil. }
  destruct Hr as (Halloc & Hstep & Hzero).
  set (d' := (set_direct k s d) <| dk_length := k * 512 + 512 |>).
  exists true, d', w'. split; [done|]. exists s. split; [|done]. clear Has.
  pose proof (n_sectors_aligned d k El ltac:(lia)) as En.
  assert (n_sectors d' = S (n_sectors d)) as En'.
  { rewrite (n_sectors_aligned d' (k + 1)), En; [lia|simpl; lia|lia]. }
  pose proof (fo_direct _ _ _ Hf) as Hdl. unfold NUM_DIRECT in Hdl.
  assert (file_sectors d' = file_sectors d ++ [s]) as Es.
  { unfold file_sectors. rewrite En'. change (direct d') with (<[Z.to_nat k := s]> (direct d)).
    rewrite (take_S_r _ _ s); [|rewrite En; apply list_lookup_insert_eq; lia].
    by rewrite take_insert_ge by lia. }
  destruct (file_step_frame d (s :: fm_sectors) [s] w w' Hstep Halloc) as [Hfw' Hbw']; [|done|].
  { by apply (file_sectors_fresh d w w' [s]). }
  assert (file_bytes d' w' = file_bytes d w ++ replicate (512 * length [s]) 0) as Eb.
  { rewrite <- Hbw'. unfold file_bytes, file_blocks. rewrite Es, fmap_app, join_app. simpl.
    by rewrite Hzero, app_nil_r. }
  split; [| |done|done|done|done|split; [done|]].
  - destruct Hfw' as [_ _ Hind Hfs Hnd _]. split.
    + unfold DIRECT_MAX, NUM_DIRECT, BLOCK_SECTOR_SIZE. simpl. lia.
    + simpl. by rewrite length_insert.
    + done.
    + intros x. rewrite Es. intros [Hx| ->%list_elem_of_singleton]%elem_of_app; [by apply Hfs|].
      destruct Halloc as (Ha & _ & Hm). destruct (Ha s) as (? & ? & Hn); [set_solver|].
      pose proof (fs_size _ _ _ _ _ Hstep) as Hsz. rewrite Hsz. split_and!; [lia|lia|done| |].
      * intros Hr. by apply Hn, reserved_marked.
      * apply Hm. right. set_solver.
    + rewrite Es. apply NoDup_app. split_and!; [done| |apply NoDup_singleton].
      intros x Hx ->%list_elem_of_singleton. destruct Halloc as (Ha & _).
      destruct (Ha s) as (_ & _ & Hn); [set_solver|]. apply Hn.
      by destruct (fo_sectors _ _ _ Hf s Hx) as (_ & _ & _ & ?).
    + rewrite drop_ge; [constructor|]. rewrite Eb, length_app, length_replicate.
      rewrite (length_file_bytes fm_sectors) by (apply Hw || done). rewrite En. simpl. lia.
  - simpl. lia.
  - intros Hdw. apply inode_disk_wf_length; [unfold in_s32; lia|]. apply inode_disk_wf_direct; [|done].
    destruct Halloc as (Ha & _). destruct (Ha s) as (? & ? & _); [set_solver|].
    unfold in_u16, UINT16_MAX in *. lia.
Qed.

Lemma grown_refl d w w' :
  file_ok d w → allocated [] w w' → fm_step fm_sectors w w' → grown d w [] d w'.
Proof.
  intros Hf Ha Hs.
  destruct (file_step_frame d fm_sectors [] w w' Hs Ha) as [Hf' Hb'];
    [apply (file_sectors_fresh d w w' [] Hf Ha)|done|].
  split; [done|simpl; lia|by rewrite app_nil_r|rewrite Hb'; by rewrite app_nil_r|done|done|done].
Qed.

Lemma grown_trans d1 w1 n1 d2 w2 n2 d3 w3 :
  grown d1 w1 n1 d2 w2 → grown d2 w2 n2 d3 w3 → grown d1 w1 (n1 ++ n2) d3 w3.
Proof.
  intros [O1 L1 S1 B1 A1 P1 [M1 I1]] [O2 L2 S2 B2 A2 P2 [M2 I2]]. split.
  - done.
  - rewrite L2, L1, length_app. lia.
  - by rewrite S2, S1, app_assoc.
  - rewrite B2, B1, <- app_assoc, <- replicate_add, length_app. do 2 f_equal. lia.
  - eapply allocated_trans; [|done..]. apply P1.
  - eapply step_weaken; [eapply step_trans; [exact P1|exact P2]|]. set_solver.
  - split; [congruence|auto].
Qed.

(** The loop stops as soon as the file is long enough, or when an allocation fails;
    [n] rounds of fuel are enough for [n - 1] sectors. *)
Lemma extend_loop_spec (fuel : nat) d (k target : Z) w :
  fm_wf w → file_ok d w → dk_length d = 512 * k → 0 ≤ k ≤ NUM_DIRECT →
  target ≤ DIRECT_MAX → NUM_DIRECT - k < Z.of_nat fuel →
  ∃ news d' w', extend_loop fuel d target w = Ret (d', w') ∧ grown d w news d' w' ∧
    (news = [] ∨ dk_length d' < target + 512) ∧ (target ≤ dk_length d' ∨ alloc_stuck news w w').
Proof.
  revert d k w. induction fuel as [|fuel IH]; intros d k w Hw Hf El Hk Ht Hfuel; [lia|].
  cbn [extend_loop]. destruct (Z.ltb_spec (dk_length d) target) as [Hlt|Hge].
  2: { exists [], d, w. split; [done|]. split; [|split; [by left|by left]].
       apply grown_refl; [done|apply allocated_refl|by apply fm_step_refl]. }
  assert (k < NUM_DIRECT) as Hk' by (unfold DIRECT_MAX, BLOCK_SECTOR_SIZE in *; lia).
  destruct (append_sector_spec d k w Hw Hf El ltac:(lia)) as (ok & d1 & w1 & -> & Hr). ret.
  destruct ok.
  - destruct Hr as (s & Hg & Has). pose proof Hg as [Hf1 El1 _ _ _ Hp1 _]. simpl in El1.
    destruct (IH d1 (k + 1) w1) as (news & d2 & w2 & -> & Hg2 & Hle & Hwhy);
      [apply Hp1|done|lia|lia|done|lia|].
    exists (s :: news), d2, w2. split; [done|].
    split; [by apply (grown_trans d w [s] d1 w1 news)|].
    split; [|destruct Hwhy; [by left|right; by eapply alloc_stuck_cons]]. right.
    destruct Hle as [->|?]; [|done]. pose proof (gr_length _ _ _ _ _ Hg2) as E2. simpl in E2. lia.
  - destruct Hr as (-> & Ha & Hs & Hstuck). exists [], d, w1. split; [done|].
    split; [by apply grown_refl|]. split; [by left|by right].
Qed.

(** Changing the length within the last sector. *)
Lemma file_ok_length d w (len : Z) :
  file_ok d w → store_wf (sectors w) → n_sectors (d <| dk_length := len |>) = n_sectors d →
  0 ≤ len ≤ DIRECT_MAX → Forall (eq 0) (drop (Z.to_nat len) (file_bytes d w)) →
  file_ok (d <| dk_length := len |>) w.
Proof.
  intros [Hl Hd Hi Hs Hn Hsl] Hw En Hlen Hz.
  assert (file_sectors (d <| dk_length := len |>) = file_sectors d) as E
    by (unfold file_sectors; by rewrite En).
  split; rewrite ?E; try done. unfold file_bytes, file_blocks in *. by rewrite E.
Qed.

Lemma Forall_zero_replicate (l : list Z) : Forall (eq 0) l → l = replicate (length l) 0.
Proof. induction 1 as [|x l <- _ IH]; [done|]. simpl. by rewrite <- IH. Qed.

(** [extend_disk]: the file gets as long as asked for unless allocation fails; the
    new bytes are zero, the old ones are kept. *)
Record extended d w (target : Z) (news : list Z) d' w' : Prop := {
  ex_ok : file_ok d' w';
  ex_length : dk_length d ≤ dk_length d' ≤ Z.max (dk_length d) target;
  ex_sectors : file_sectors d' = file_sectors d ++ news;
  ex_content : content d' w' =
    content d w ++ replicate (Z.to_nat (dk_length d' - dk_length d)) 0;
  ex_alloc : allocated news w w';
  ex_step : fm_step (news ++ fm_sectors) w w';
  ex_why : target ≤ dk_length d' ∨ alloc_stuck news w w';
  ex_magic : magic d' = magic d ∧ (inode_disk_wf d → inode_disk_wf d')
}.

Lemma content_padded d w (len : Z) :
  store_wf (sectors w) → file_ok d w → dk_length d ≤ len →
  (Z.to_nat len ≤ length (file_bytes d w))%nat →
  take (Z.to_nat len) (file_bytes d w) = content d w ++ replicate (Z.to_nat (len - dk_length d)) 0.
Proof.
  intros Hw Hf Hle Hlen. pose proof (fo_length _ _ _ Hf). unfold content.
  pose proof (Forall_zero_replicate _ (fo_slack _ _ _ Hf)) as Hz.
  rewrite <- (take_drop (Z.to_nat (dk_length d)) (file_bytes d w)) at 1. rewrite Hz.
  rewrite take_app_ge by (rewrite length_take; lia). f_equal.
  rewrite length_take, take_replicate. f_equal. rewrite length_drop. lia.
Qed.

Lemma file_bytes_padded d w :
  store_wf (sectors w) → file_ok d w →
  ∃ m, file_bytes d w = content d w ++ replicate m 0.
Proof.
  intros Hw Hf. exists (length (drop (Z.to_nat (dk_length d)) (file_bytes d w))).
  unfold content. rewrite <- (Forall_zero_replicate _ (fo_slack _ _ _ Hf)). by rewrite take_drop.
Qed.

(** A file whose sectors are those of [d] with zeroed ones appended, cut at a
    length between the old length and the end of its sectors. *)
Lemma grown_cut d w d2 w2 (news : list Z) (m : nat) (len : Z) :
  store_wf (sectors w) → store_wf (sectors w2) → file_ok d w → file_ok d2 w2 →
  file_bytes d2 w2 = file_bytes d w ++ replicate m 0 →
  dk_length d ≤ len ≤ DIRECT_MAX → n_sectors (d2 <| dk_length := len |>) = n_sectors d2 →
  file_ok (d2 <| dk_length := len |>) w2 ∧
  content (d2 <| dk_length := len |>) w2 =
    content d w ++ replicate (Z.to_nat (len - dk_length d)) 0.
Proof.
  intros Hw Hw2 Hf Hf2 Hb Hlen En.
  destruct (file_bytes_padded d w Hw Hf) as (a & Ha).
  pose proof (length_content fm_sectors d w Hw Hf) as Hcl. pose proof (fo_length _ _ _ Hf).
  rewrite Ha, <- app_assoc, <- replicate_add in Hb.
  assert (file_bytes (d2 <| dk_length := len |>) w2 = file_bytes d2 w2) as Eb
    by (unfold file_bytes, file_blocks, file_sectors; by rewrite En).
  assert (Z.to_nat len ≤ length (file_bytes d2 w2))%nat as Hle.
  { rewrite (length_file_bytes fm_sectors) by done. rewrite <- En.
    pose proof (n_sectors_covers (d2 <| dk_length := len |>)) as Hcov. simpl in *. lia. }
  rewrite Hb, length_app, length_replicate in Hle. split.
  - apply file_ok_length; [done|done|done|lia|]. rewrite Hb, drop_app_ge by lia.
    rewrite drop_replicate. apply Forall_replicate. done.
  - unfold content at 1. rewrite Eb, Hb. simpl. rewrite take_app_ge by lia. f_equal.
    rewrite take_replicate. f_equal. lia.
Qed.

Lemma extend_fuel_value : Z.of_nat EXTEND_FUEL = 16385.
Proof. reflexivity. Qed.

Lemma extend_disk_spec d (target : Z) w :
  fm_wf w → file_ok d w → target ≤ DIRECT_MAX →
  ∃ news d' w', extend_disk d target w = Ret (dk_length d', d', w') ∧ extended d w target news d' w'.
Proof.
  intros Hw Hf Ht. pose proof (fo_length _ _ _ Hf) as Hlen. unfold extend_disk.
  destruct (Z.leb_spec target (dk_length d)) as [Hle|Hgt].
  { exists [], d, w. split; [done|]. split; [done|lia|by rewrite app_nil_r| |apply allocated_refl
      |by apply fm_step_refl|by left|done]. rewrite Z.sub_diag. by rewrite app_nil_r. }
  destruct (ROUND_UP_spec (dk_length d) BLOCK_SECTOR_SIZE) as (k & Hk & -> & Hb & _);
    [done|lia|unfold DIRECT_MAX, BLOCK_SECTOR_SIZE, NUM_DIRECT in *; lia|].
  unfold DIRECT_MAX, BLOCK_SECTOR_SIZE, NUM_DIRECT in *.
  assert (n_sectors d = Z.to_nat k) as En
    by (unfold n_sectors; f_equal; Z.to_euclidean_division_equations; lia).
  rewrite (Z.mul_comm k). set (d1 := d <| dk_length := 512 * k |>).
  assert (file_ok d1 w) as Hf1 by (apply file_ok_aligned; unfold NUM_DIRECT; (done || lia)).
  assert (file_sectors d1 = file_sectors d) as Es1
    by (unfold file_sectors; rewrite (n_sectors_aligned d1 k), En; done).
  assert (file_bytes d1 w = file_bytes d w) as Eb1 by (unfold file_bytes, file_blocks; by rewrite Es1).
  destruct (extend_loop_spec EXTEND_FUEL d1 k target w) as (news & d2 & w2 & Hl & Hg & Hstop & Hwhy);
    [done|done|done|unfold NUM_DIRECT; lia|unfold DIRECT_MAX, NUM_DIRECT, BLOCK_SECTOR_SIZE; lia
    |rewrite extend_fuel_value; unfold NUM_DIRECT; lia|].
  rewrite Hl. clear Hl. ret. destruct Hg as [Hf2 El2 Es2 Eb2 Ha2 Hs2 [Em Ei]].
  rewrite Eb1 in Eb2. rewrite Es1 in Es2. simpl in El2.
  set (len := Z.min target (dk_length d2)).
  assert ((if target <? dk_length d2 then d2 <| dk_length := target |> else d2)
    = d2 <| dk_length := len |>) as ->.
  { unfold len. case_bool; [by rewrite Z.min_l by lia|]. rewrite Z.min_r by lia. by destruct d2. }
  assert (dk_length d2 < target + 512) as Hcut by (destruct Hstop as [->|?]; [simpl in El2|]; lia).
  pose proof (fo_length _ _ _ Hf2) as Hl2. unfold DIRECT_MAX, NUM_DIRECT, BLOCK_SECTOR_SIZE in Hl2.
  assert (n_sectors (d2 <| dk_length := len |>) = n_sectors d2) as En2.
  { rewrite (n_sectors_aligned d2 (k + Z.of_nat (length news))) by lia.
    unfold n_sectors, len. simpl. f_equal. Z.to_euclidean_division_equations; lia. }
  destruct (grown_cut d w d2 w2 news (512 * length news) len) as [Hf3 Hc3];
    [apply Hw|apply Hs2|done|done|done|unfold DIRECT_MAX, NUM_DIRECT, BLOCK_SECTOR_SIZE, len; lia|done|].
  exists news, (d2 <| dk_length := len |>), w2. split; [done|]. split.
  - done.
  - simpl. unfold len. lia.
  - unfold file_sectors in *. by rewrite En2.
  - done.
  - done.
  - done.
  - destruct Hwhy; [left; simpl; unfold len; lia|by right].
  - split; [done|]. intros Hdw. apply inode_disk_wf_length; [unfold in_s32, len; lia|].
    apply Ei, inode_disk_wf_length; [unfold in_s32; lia|done].
Qed.
End growth.
