(* ===== verification/InodeSpec.v ===== *)
(** * Correctness of the inode operations, for files with direct sectors

    Reading, writing (with growth, partial failure and denied writes), the
    separation of files, creation with its clean-up, and the life cycle of an
    in-memory inode. *)
From S2P Require Import Prelude CInt Ext Store InodeDisk FreeMap Inode File.
Open Scope Z_scope.

Section ops.
Context {store bitmap : Type} `{SectorStoreLaws store, BitmapLaws bitmap}.
Context (fm_inode : Z) (fm_sectors : list Z).
Context `{!BitmapFile store bitmap, !BitmapFileLaws store bitmap fm_inode fm_sectors}.
Implicit Types (w : fs store bitmap) (d : inode_disk) (i : inode) (s p : Z).

Notation fm_wf := (fm_wf fm_inode fm_sectors).
Notation fm_step := (fm_step fm_inode fm_sectors).
Notation file_ok := (file_ok fm_sectors).

(** ** The lock *)

(** [w] with the lock of [p] held. *)
Definition locked p w : fs store bitmap := upd_inode p (λ i, i <| lock := true |>) w.

Lemma acquire_ret w p i :
  inodes w !! p = Some i → lock i = false → acquire p w = Ret (locked p w).
Proof. intros Hi Hl. unfold acquire, inode_at. rewrite Hi. ret. by rewrite Hl. Qed.

Lemma release_ret w p i :
  inodes w !! p = Some i → lock i = true →
  release p w = Ret (upd_inode p (λ i, i <| lock := false |>) w).
Proof. intros Hi Hl. unfold release, inode_at. rewrite Hi. ret. by rewrite Hl. Qed.

Lemma locked_lookup w p i :
  inodes w !! p = Some i → inodes (locked p w) !! p = Some (i <| lock := true |>).
Proof. intros Hi. simpl. by rewrite lookup_alter_eq, Hi. Qed.

Lemma locked_fm_wf w p : p ≠ fm_inode → fm_wf w → fm_wf (locked p w).
Proof.
  intros Hp [? ? ? (f & Hf & Hl) ?]. split; try done. exists f. simpl.
  by rewrite lookup_alter_ne by done.
Qed.

(** An update of [p] that ends the locked section. *)
Lemma unlock_upd w p i (g : inode → inode) :
  inodes w !! p = Some i →
  alter (λ i, i <| lock := false |>) p (alter g p (alter (λ i, i <| lock := true |>) p (inodes w)))
    = <[p := (g (i <| lock := true |>)) <| lock := false |>]> (inodes w).
Proof.
  intros Hi. apply map_eq. intros q. destruct (decide (q = p)) as [->|].
  - by rewrite !lookup_alter_eq, Hi, lookup_insert_eq.
  - by rewrite !lookup_alter_ne, lookup_insert_ne.
Qed.

(** ** Reading *)

Lemma inode_read_at_ret w p i (size off : Z) :
  store_wf (sectors w) → store_size (sectors w) ≤ NO_SECTOR →
  inodes w !! p = Some i → lock i = false → file_ok (data i) w → 0 ≤ off →
  ∃ w', let b := slice (Z.to_nat off) (Z.to_nat (Z.min size (dk_length (data i) - off)))
                   (content (data i) w) in
    inode_read_at p size off w = Ret (Z.of_nat (length b), b, w') ∧ sectors_frame [] w w'.
Proof.
  intros Hw Hns Hi Hl Hf Ho. unfold inode_read_at. rewrite (acquire_ret w p i) by done. ret.
  destruct (read_loop_spec fm_sectors (Z.to_nat size + 1) p (i <| lock := true |>) size off []
    (locked p w)) as (w2 & -> & [E Hw2 Hsz Hv]); [done|done|by apply locked_lookup|done| |done|lia|];
    [by apply (file_ok_same fm_sectors _ w)|].
  ret. rewrite (release_ret w2 p (i <| lock := true |>)); [|rewrite E; by apply locked_lookup|done].
  ret. eexists. split; [done|]. split; [|done|done|done].
  rewrite E. unfold upd_inode, locked. simpl. destruct w as [fm ff st m l]. simpl in *. f_equal.
  apply map_eq. intros q. destruct (decide (q = p)) as [->|].
  - rewrite !lookup_alter_eq, Hi. destruct i. simpl in *. by subst.
  - by rewrite !lookup_alter_ne.
Qed.

(** ** Writing *)

Record written p i (buf : list Z) (off n : Z) d' (news : list Z) w w' : Prop := {
  wr_inodes : inodes w' = <[p := i <| data := d' |>]> (inodes w);
  wr_open : open_inodes w' = open_inodes w;
  wr_length : dk_length (data i) ≤ dk_length d' ≤
    Z.max (dk_length (data i)) (off + Z.of_nat (length buf));
  wr_count : n = Z.max 0 (Z.min (Z.of_nat (length buf)) (dk_length d' - off));
  wr_content : content d' w' = splice (Z.to_nat off) (take (Z.to_nat n) buf)
    (content (data i) w ++ replicate (Z.to_nat (dk_length d' - dk_length (data i))) 0);
  wr_why : off + Z.of_nat (length buf) ≤ dk_length d' ∨ alloc_stuck news (locked p w) w';
  wr_file : file_ok d' w';
  wr_fm : fm_wf w';
  wr_sectors : file_sectors d' = file_sectors (data i) ++ news;
  wr_alloc : allocated news w w';
  wr_size : store_size (sectors w') = store_size (sectors w);
  wr_view : ∀ x, x ∉ file_sectors d' ++ fm_sectors → sview (sectors w') x = sview (sectors w) x
}.

Lemma inode_write_at_ret w p i (buf : list Z) (off : Z) :
  fm_wf w → store_size (sectors w) ≤ NO_SECTOR → p ≠ fm_inode →
  inodes w !! p = Some i → lock i = false → deny_write_cnt i = 0 → file_ok (data i) w →
  0 ≤ off → off + Z.of_nat (length buf) ≤ DIRECT_MAX →
  ∃ n d' news w', inode_write_at p buf (Z.of_nat (length buf)) off w = Ret (n, w') ∧
    written p i buf off n d' news w w'.
Proof.
  intros Hw Hns Hp Hi Hl Hdeny Hf Ho Hmax. unfold inode_write_at.
  rewrite (acquire_ret w p i) by done. ret.
  unfold inode_at at 1. rewrite (locked_lookup w p i) by done. ret.
  change (deny_write_cnt (i <| lock := true |>)) with (deny_write_cnt i).
  rewrite (proj2 (Z.eqb_eq _ _) Hdeny). ret.
  rewrite s32_id by (unfold in_s32; unfold DIRECT_MAX, NUM_DIRECT, BLOCK_SECTOR_SIZE in *; lia).
  unfold extend, inode_at. rewrite (locked_lookup w p i) by done. ret.
  change (lock (i <| lock := true |>)) with true. ret.
  change (data (i <| lock := true |>)) with (data i).
  pose proof (locked_fm_wf w p Hp Hw) as Hw1.
  destruct (extend_disk_spec fm_inode fm_sectors (data i) (off + Z.of_nat (length buf)) (locked p w))
    as (news & d' & w2 & -> & Hext); [done|by apply (file_ok_same fm_sectors _ w)|done|]. ret.
  destruct Hext as [Hf2 Hlen Hsec Hcont Halloc Hstep Hwhy _].
  pose proof Hstep as [Hw2 E2 Hsz2 Hv2].
  set (w3 := upd_inode p (λ i, i <| data := d' |>) w2).
  set (i3 := i <| lock := true |> <| data := d' |>).
  assert (inodes w3 !! p = Some i3) as Hi3.
  { unfold w3. simpl. rewrite lookup_alter_eq, E2. simpl. by rewrite lookup_alter_eq, Hi. }
  destruct (write_loop_spec fm_sectors (Z.to_nat (Z.of_nat (length buf)) + 1) p i3 buf off 0 w3)
    as (w4 & -> & Hfr & Hf4 & Hb4); [apply Hw2|by simpl; rewrite Hsz2|done|done| |done|lia|];
    [by apply (file_ok_same fm_sectors _ w2)|]. ret.
  change (data i3) with d' in *.
  set (n := Z.max 0 (Z.min (Z.of_nat (length buf)) (dk_length d' - off))) in *.
  pose proof Hfr as [E4 Hst4 Hsz4 Hv4].
  rewrite (release_ret w4 p i3); [|by rewrite E4|done]. ret.
  eexists n, d', news, _. split; [by rewrite Z.add_0_l|]. split.
  - simpl. rewrite E4. simpl. rewrite E2. simpl.
    rewrite (unlock_upd w p i (λ i, i <| data := d' |>)) by done.
    f_equal. destruct i. simpl in *. by subst.
  - simpl. rewrite E4. simpl. rewrite E2. done.
  - done.
  - done.
  - unfold content at 1. simpl. change (file_bytes d' _) with (file_bytes d' w4). rewrite Hb4.
    change (file_bytes d' w3) with (file_bytes d' w2).
    pose proof (fo_length _ _ _ Hf2) as Hl2.
    pose proof (length_file_bytes fm_sectors d' w2 ltac:(apply Hw2) Hf2) as Hlb.
    pose proof (n_sectors_covers d' ltac:(lia)) as Hcov.
    destruct (Z.leb_spec n 0).
    + replace (Z.to_nat n) with 0%nat by lia. rewrite take_0, !splice_nil. exact Hcont.
    + rewrite take_splice; [|rewrite length_take; lia|rewrite length_take; lia].
      f_equal. exact Hcont.
  - destruct Hwhy as [?|(v1 & v2 & ? & ? & ? & Hmk)]; [by left|right; exists v1, v2].
    split_and!; [done..|]. intros j. rewrite <- Hmk. unfold marked. simpl. by rewrite E4.
  - by apply (file_ok_same fm_sectors _ w4).
  - destruct Hw2 as [? Hbs Hu (fi & Hfi & Hfl) Hff]. split; simpl.
    + done.
    + rewrite E4. simpl. rewrite Hsz4. done.
    + intros x Hx. rewrite E4. simpl. by apply Hu.
    + exists fi. simpl. rewrite lookup_alter_ne by done. rewrite E4. simpl.
      by rewrite lookup_alter_ne by done.
    + rewrite E4. done.
  - done.
  - destruct Halloc as (Ha & Hn & Hm). split; [done|]. split; [done|]. intros j.
    unfold marked in *. simpl. rewrite E4. simpl. apply Hm.
  - simpl. by rewrite Hsz4.
  - intros x [Hx1 Hx2]%not_elem_of_app. simpl. rewrite Hv4 by done. apply Hv2.
    rewrite Hsec in Hx1. apply not_elem_of_app in Hx1 as [_ ?]. by apply not_elem_of_app.
Qed.

(** ** Releasing the sectors of a file *)

(** The release loops of [inode_create] and [inode_close] do the same, and free
    exactly the sectors of the file from the [k]-th on. *)
Lemma release_loops_spec (fuel : nat) d (k : Z) w :
  fm_wf w →
  0 ≤ dk_length d ≤ DIRECT_MAX → length (direct d) = Z.to_nat NUM_DIRECT →
  0 ≤ k ≤ NUM_DIRECT → NoDup (file_sectors d) → NUM_DIRECT - k < Z.of_nat fuel →
  (∀ s, s ∈ drop (Z.to_nat k) (file_sectors d) →
     0 ≤ s < store_size (sectors w) ∧ s ∉ reserved fm_sectors ∧ marked w s) →
  ∃ w', release_loop fuel d (512 * k) w = Ret w' ∧
    (∀ p i, inodes w !! p = Some i → lock i = true → data i = d →
       close_loop fuel p (512 * k) w = Ret w') ∧
    fm_step fm_sectors w w' ∧
    ∀ j, marked w' j ↔ marked w j ∧ j ∉ drop (Z.to_nat k) (file_sectors d).
Proof.
  revert k w. induction fuel as [|fuel IH]; intros k w Hw Hl Hdir Hk Hnd Hfuel Hs; [lia|].
  cbn [release_loop close_loop].
  assert (Hcov : (length (file_sectors d) ≤ n_sectors d)%nat)
    by (unfold file_sectors; rewrite length_take; lia).
  destruct (Z.ltb_spec (512 * k) (dk_length d)) as [Hlt|Hge].
  2: { exists w. split; [done|]. split; [|split; [by apply fm_step_refl|]].
       { intros p i Hi _ Hd. unfold inode_at. rewrite Hi. ret. by rewrite Hd, (proj2 (Z.ltb_ge _ _)). }
       rewrite drop_ge; [set_solver|]. unfold n_sectors in Hcov.
       Z.to_euclidean_division_equations; lia. }
  destruct (byte_to_sector_direct d w (512 * k)) as (s & Hsk & Hb); [lia|done|lia|].
  replace (512 * k / 512) with k in Hsk by (rewrite Z.mul_comm, Z.div_mul; lia).
  rewrite Hb. ret. rewrite (drop_S _ s (Z.to_nat k) Hsk) in Hs |- *.
  destruct (Hs s) as (Hv & Hr & Hm); [by left|].
  destruct (free_map_release_spec fm_inode fm_sectors w s) as (w1 & Hrel & Hst & Ht); [done..|].
  rewrite Hrel. ret. pose proof Hst as [Hw1 E1 Hsz1 _].
  assert (∀ j, marked w1 j ↔ marked w j ∧ j ≠ s) as Hm1.
  { intros j. unfold marked. rewrite Ht. case_decide; [subst; split; [done|tauto]|tauto]. }
  assert (NoDup (s :: drop (S (Z.to_nat k)) (file_sectors d))) as Hnd'.
  { rewrite <- (drop_S _ s (Z.to_nat k) Hsk).
    rewrite <- (take_drop (Z.to_nat k) (file_sectors d)) in Hnd.
    by apply NoDup_app in Hnd as (_ & _ & ?). }
  assert (k < NUM_DIRECT) as Hk' by (unfold DIRECT_MAX, BLOCK_SECTOR_SIZE in *; lia).
  apply NoDup_cons in Hnd' as [Hns _].
  replace (S (Z.to_nat k)) with (Z.to_nat (k + 1)) in * by lia.
  destruct (IH (k + 1) w1) as (w2 & Hr1 & Hr2 & Hst2 & Hm2);
    [done|done|done|lia|done|lia| |].
  { intros x Hx. destruct (Hs x) as (? & ? & ?); [by right|]. rewrite Hsz1. split_and!; [lia|lia|done|].
    apply Hm1. split; [done|]. by intros ->. }
  replace (512 * k + BLOCK_SECTOR_SIZE) with (512 * (k + 1)) by (unfold BLOCK_SECTOR_SIZE; lia).
  exists w2. split; [done|]. split; [|split].
  - intros p i Hi Hlk Hd. unfold byte_to_sector, inode_at. rewrite Hi. ret.
    rewrite Hd, (proj2 (Z.ltb_lt _ _)) by done. rewrite Hlk. ret. rewrite Hb. ret. rewrite Hrel. ret.
    apply (Hr2 p i); [by rewrite E1|done..].
  - eapply fm_step_weaken; [eapply fm_step_trans; [exact Hst|exact Hst2]|set_solver].
  - intros j. rewrite Hm2, Hm1. set_solver.
Qed.

(** ** Properties *)

(** C25. For a file within its direct sectors (at most [DIRECT_MAX], 188 * 512 bytes; the
    sectors of a longer one are looked up wrongly, see Indirect.v), [inode_read_at]
    returns exactly the bytes of the file in the range asked for, cut at the end of the
    file, and changes neither the file system nor the locks; a negative offset is an
    assertion failure. *)
Theorem inode_read_at_correct w p i (size off : Z) :
  store_wf (sectors w) → store_size (sectors w) ≤ NO_SECTOR →
  inodes w !! p = Some i → lock i = false → file_ok (data i) w → 0 ≤ size →
  (0 ≤ off →
   ∃ b w', inode_read_at p size off w = Ret (Z.of_nat (length b), b, w') ∧
     b = slice (Z.to_nat off) (Z.to_nat size) (content (data i) w) ∧
     Z.of_nat (length b) = Z.max 0 (Z.min size (dk_length (data i) - off)) ∧
     w' = w <| sectors := sectors w' |> ∧ ∀ x, sview (sectors w') x = sview (sectors w) x) ∧
  (off < 0 → 0 < size → inode_read_at p size off w = Panic).
Proof.
  intros Hw Hns Hi Hl Hf Hsz. split.
  - intros Ho. destruct (inode_read_at_ret w p i size off) as (w' & Hr & [E _ _ Hv]); [done..|].
    pose proof (length_content fm_sectors (data i) w Hw Hf) as Hlc.
    set (b := slice _ _ _) in Hr.
    assert (b = slice (Z.to_nat off) (Z.to_nat size) (content (data i) w)) as Eb.
    { unfold b, slice. destruct (Z.le_gt_cases size (dk_length (data i) - off)).
      - by rewrite Z.min_l.
      - rewrite Z.min_r by lia. rewrite !take_ge; [done|..]; rewrite length_drop; lia. }
    exists b, w'. split; [done|]. split; [done|]. split.
    + rewrite Eb. unfold slice. rewrite length_take, length_drop. lia.
    + split; [done|]. intros x. apply Hv. set_solver.
  - intros Ho Hpos. unfold inode_read_at. rewrite (acquire_ret w p i) by done. ret.
    replace (Z.to_nat size + 1)%nat with (S (Z.to_nat size)) by lia. cbn [read_loop].
    unfold inode_at. rewrite (locked_lookup w p i) by done. ret.
    change (data (i <| lock := true |>)) with (data i). destruct (fo_length _ _ _ Hf).
    rewrite (proj2 (Z.ltb_lt 0 size)), (proj2 (Z.ltb_lt off _)) by lia. simpl.
    unfold byte_to_sector, inode_at. rewrite (locked_lookup w p i) by done. ret.
    unfold byte_to_sector_disk. by rewrite (proj2 (Z.leb_gt 0 off)) by lia.
Qed.

(** C8. [inode_write_at] of a range that ends within the direct sectors (188 * 512
    bytes; what happens beyond them is the subject of Indirect.v): the file grows
    with zeros as far as needed and possible, by sectors [news] that were free, [n]
    bytes of the buffer replace those at the offset and nothing else of the file
    changes.  [n] is the whole buffer, unless after the sectors [news] an allocation
    of this very call failed: every sector with a 16-bit number was in use, or the
    free map could not be written. *)
Theorem inode_write_at_correct w p i (buf : list Z) (off : Z) :
  fm_wf w → store_size (sectors w) ≤ NO_SECTOR → p ≠ fm_inode →
  inodes w !! p = Some i → lock i = false → deny_write_cnt i = 0 → file_ok (data i) w →
  0 ≤ off → off + Z.of_nat (length buf) ≤ DIRECT_MAX →
  ∃ n d' news w', inode_write_at p buf (Z.of_nat (length buf)) off w = Ret (n, w') ∧
    inodes w' = <[p := i <| data := d' |>]> (inodes w) ∧ file_ok d' w' ∧ fm_wf w' ∧
    file_sectors d' = file_sectors (data i) ++ news ∧ allocated news w w' ∧
    0 ≤ n ≤ Z.of_nat (length buf) ∧
    content d' w' = splice (Z.to_nat off) (take (Z.to_nat n) buf)
      (content (data i) w ++ replicate (Z.to_nat (dk_length d' - dk_length (data i))) 0) ∧
    (n = Z.of_nat (length buf) ∧
       dk_length d' = Z.max (dk_length (data i)) (off + Z.of_nat (length buf)) ∨
     dk_length d' < off + Z.of_nat (length buf) ∧ alloc_stuck news (locked p w) w').
Proof.
  intros Hw Hns Hp Hi Hl Hdeny Hf Ho Hmax.
  destruct (inode_write_at_ret w p i buf off) as (n & d' & news & w' & Hr & Hwr); [done..|].
  destruct Hwr as [? _ Hlen Hn ? Hwhy ? ? ? ? ? _].
  exists n, d', news, w'. split_and!; [done..|lia|lia|done|].
  destruct (Z.le_gt_cases (off + Z.of_nat (length buf)) (dk_length d')); [left; lia|].
  right. destruct Hwhy; [lia|done].
Qed.

(** What is written is read back: after a write that returned [n], reading at the
    same offset returns the first [n] bytes of the buffer. *)
Theorem inode_read_after_write w p i (buf : list Z) (off : Z) :
  fm_wf w → store_size (sectors w) ≤ NO_SECTOR → p ≠ fm_inode →
  inodes w !! p = Some i → lock i = false → deny_write_cnt i = 0 → file_ok (data i) w →
  0 ≤ off → off + Z.of_nat (length buf) ≤ DIRECT_MAX →
  ∃ n w1 w2, inode_write_at p buf (Z.of_nat (length buf)) off w = Ret (n, w1) ∧
    inode_read_at p n off w1 = Ret (n, take (Z.to_nat n) buf, w2).
Proof.
  intros Hw Hns Hp Hi Hl Hdeny Hf Ho Hmax.
  destruct (inode_write_at_ret w p i buf off) as (n & d' & news & w1 & Hr & Hwr); [done..|].
  destruct Hwr as [Ein _ Hlen Hn Hc _ Hf' Hfm _ _ Hsz _].
  destruct (inode_read_at_ret w1 p (i <| data := d' |>) n off) as (w2 & Hr2 & _);
    [apply Hfm|by rewrite Hsz|by rewrite Ein, lookup_insert_eq|done|done|done|].
  change (data (i <| data := d' |>)) with d' in Hr2.
  pose proof (length_content fm_sectors d' w1 ltac:(apply Hfm) Hf') as Hlc.
  assert (slice (Z.to_nat off) (Z.to_nat (Z.min n (dk_length d' - off))) (content d' w1)
    = take (Z.to_nat n) buf) as Es.
  { destruct (Z.le_gt_cases n 0).
    - replace (Z.to_nat n) with 0%nat by lia.
      replace (Z.to_nat (Z.min n (dk_length d' - off))) with 0%nat by lia. done.
    - assert (length (take (Z.to_nat n) buf) = Z.to_nat n) as El by (rewrite length_take; lia).
      rewrite Z.min_l by lia. rewrite Hc. rewrite <- El at 1. apply slice_splice_same.
      rewrite El. rewrite Hc in Hlc.
      pose proof (length_content fm_sectors (data i) w ltac:(apply Hw) Hf).
      rewrite length_app, length_replicate. lia. }
  rewrite Es in Hr2. rewrite length_take in Hr2.
  replace (Z.of_nat (Z.to_nat n `min` length buf)) with n in Hr2 by lia. eauto.
Qed.

(** Files are separate: a write leaves the contents of every other file alone. *)
Theorem inode_write_isolated w p i (buf : list Z) (off : Z) (d2 : inode_disk) n w' :
  fm_wf w → store_size (sectors w) ≤ NO_SECTOR → p ≠ fm_inode →
  inodes w !! p = Some i → lock i = false → deny_write_cnt i = 0 → file_ok (data i) w →
  0 ≤ off → off + Z.of_nat (length buf) ≤ DIRECT_MAX →
  file_ok d2 w → file_sectors d2 ## file_sectors (data i) →
  inode_write_at p buf (Z.of_nat (length buf)) off w = Ret (n, w') →
  file_ok d2 w' ∧ content d2 w' = content d2 w.
Proof.
  intros Hw Hns Hp Hi Hl Hdeny Hf Ho Hmax Hf2 Hdisj Hrun.
  destruct (inode_write_at_ret w p i buf off) as (n0 & d' & news & w0 & Hr & Hwr); [done..|].
  rewrite Hrun in Hr. injection Hr as <- <-. destruct Hwr as [_ _ _ _ _ _ _ _ Hsec Halloc Hsz Hv].
  assert (∀ s, s ∈ file_sectors d2 → sview (sectors w') s = sview (sectors w) s) as Hsame.
  { intros s Hs. apply Hv. rewrite Hsec, <- app_assoc. apply not_elem_of_app. split.
    - intros ?. by apply (Hdisj s).
    - by eapply file_sectors_fresh. }
  split; [|by apply content_ext].
  eapply file_ok_ext; [done|done|done|]. intros s _ Hm. destruct Halloc as (_ & _ & Ha).
  apply Ha. by left.
Qed.

(** A write to an inode that denies writes returns 0 and changes nothing. *)
Theorem inode_write_denied w p i (buf : list Z) (size off : Z) :
  inodes w !! p = Some i → lock i = false → deny_write_cnt i ≠ 0 →
  inode_write_at p buf size off w = Ret (0, w).
Proof.
  intros Hi Hl Hd. unfold inode_write_at. rewrite (acquire_ret w p i) by done. ret.
  unfold inode_at. rewrite (locked_lookup w p i) by done. ret.
  change (deny_write_cnt (i <| lock := true |>)) with (deny_write_cnt i).
  rewrite (proj2 (Z.eqb_neq _ _) Hd). ret.
  rewrite (release_ret _ p (i <| lock := true |>)); [|by apply locked_lookup|done]. ret.
  do 2 f_equal. unfold locked, upd_inode. destruct w as [a b c m l]. simpl in *. f_equal.
  apply map_eq. intros q. destruct (decide (q = p)) as [->|].
  - rewrite !lookup_alter_eq, Hi. destruct i. simpl in *. by subst.
  - by rewrite !lookup_alter_ne.
Qed.
End ops.
