(* ===== verification/InodeLife.v ===== *)
(** * The life cycle of an inode

    Creation on disk, opening (shared by all openers), closing, and the release of
    the sectors of a removed file, for files with direct sectors; and the fact
    that the growth of a file is never written back to its inode sector. *)
From S2P Require Import Prelude CInt Ext Store InodeDisk FreeMap Inode File InodeSpec.
Open Scope Z_scope.

Section life.
Context {store bitmap : Type} `{SectorStoreLaws store, BitmapLaws bitmap}.
Context (fm_inode : Z) (fm_sectors : list Z).
Context `{!BitmapFile store bitmap, !BitmapFileLaws store bitmap fm_inode fm_sectors}.
Implicit Types (w : fs store bitmap) (d : inode_disk) (i : inode) (s p : Z).

Notation fm_wf := (fm_wf fm_inode fm_sectors).
Notation fm_step := (fm_step fm_inode fm_sectors).
Notation file_ok := (file_ok fm_sectors).

(** ** Creation *)

Definition new_inode : inode_disk := zero_inode <| dk_length := 0 |> <| magic := INODE_MAGIC |>.

Lemma new_inode_ok w : file_ok new_inode w.
Proof.
  split; [by split|done|done| | |].
  - intros s Hs. by apply not_elem_of_nil in Hs.
  - apply NoDup_nil_2.
  - apply Forall_drop. constructor.
Qed.

Lemma new_inode_wf : inode_disk_wf new_inode.
Proof.
  split; [by split|by split|split; [done|]|split; [done|]]; by apply Forall_replicate.
Qed.

Lemma inode_create_ret w s (length : Z) :
  fm_wf w → 0 ≤ s < store_size (sectors w) → marked w s → s ∉ fm_sectors →
  0 ≤ length ≤ DIRECT_MAX →
  ∃ ok w', inode_create true s length w = Ret (ok, w') ∧ fm_wf w' ∧
    if ok : bool then
      ∃ d news, sview (sectors w') s = encode_inode d ∧ inode_disk_wf d ∧
        dk_length d = length ∧ content d w' = replicate (Z.to_nat length) 0 ∧ file_ok d w' ∧
        file_sectors d = news ∧ allocated news w w' ∧ fm_step (s :: news ++ fm_sectors) w w'
    else (∀ j, marked w' j ↔ marked w j) ∧ inodes w' = inodes w ∧
         store_size (sectors w') = store_size (sectors w) ∧
         (∀ x, marked w x → x ∉ fm_sectors → sview (sectors w') x = sview (sectors w) x) ∧
         ∃ news w1, alloc_stuck news w w1.
Proof.
  intros Hw Hs Hm Hnf Hlen. unfold inode_create.
  destruct (extend_disk_spec fm_inode fm_sectors new_inode length w Hw (new_inode_ok w) ltac:(lia))
    as (news & d & w1 & Hex & Hext).
  change (Z.of_nat (List.length (encode_inode zero_inode)) =? BLOCK_SECTOR_SIZE) with true. ret.
  fold new_inode. rewrite Hex. ret. clear Hex.
  destruct Hext as [Hf El Es Ec Ha Hst Hwhy [_ Hdw]].
  change (file_sectors new_inode) with (@nil Z) in Es. simpl in El, Ec. rewrite Z.sub_0_r in Ec.
  pose proof Hst as [Hw1 E1 Hsz1 Hv1]. pose proof Ha as (Hnew & Hnd & Hmk).
  destruct (Z.ltb_spec (dk_length d) length) as [Hlt|Hge].
  - destruct (release_loops_spec fm_inode fm_sectors EXTEND_FUEL d 0 w1) as (w2 & Hrel & _ & Hst2 & Hm2).
    { done. }
    { apply Hf. }
    { apply Hf. }
    { unfold NUM_DIRECT. lia. }
    { apply Hf. }
    { rewrite extend_fuel_value. unfold NUM_DIRECT. lia. }
    { rewrite drop_0. intros x Hx. destruct (fo_sectors _ _ _ Hf x Hx) as (? & _ & ? & ?). done. }
    change (512 * 0) with 0 in Hrel. rewrite Hrel. clear Hrel. ret. exists false, w2.
    pose proof Hst2 as [Hw2 E2 _ Hv2].
    split; [done|]. split; [done|]. split; [|split; [by rewrite E2, E1|split; [by rewrite (fs_size _ _ _ _ _ Hst2), Hsz1|split]]].
    + intros j. rewrite Hm2, drop_0, Es, Hmk. split; [tauto|]. intros Hj. split; [by left|].
      intros Hin. by destruct (Hnew j Hin) as (_ & _ & ?).
    + intros x Hx Hxf. rewrite Hv2, Hv1; [done| |done].
      intros [Hin|?]%elem_of_app; [|done]. by destruct (Hnew x Hin) as (_ & _ & ?).
    + exists news, w1. destruct Hwhy; [lia|done].
  - assert (dk_length d = length) as El' by lia. clear El Hge.
    destruct (cache_write_spec (sectors w1) s (encode_inode d) BLOCK_SECTOR_SIZE 0)
      as (st & -> & Hst2 & Hsz2 & Hv2);
      [apply Hw1|by rewrite Hsz1|lia|done|by rewrite length_encode by apply Hf|]. ret.
    set (w2 := w1 <| sectors := st |>).
    assert (s ∉ news) as Hsn by (intros Hin; by destruct (Hnew s Hin) as (_ & _ & ?)).
    assert (∀ x, x ∈ file_sectors d → sview (sectors w2) x = sview (sectors w1) x) as Hsame.
    { intros x Hx. simpl. rewrite Hv2, decide_False; [done|]. intros ->. by rewrite Es in Hx. }
    assert (fm_step [s] w1 w2) as Hst12.
    { apply fm_step_store; [done..|]. intros x Hx. rewrite Hv2, decide_False; [done|set_solver]. }
    exists true, w2. split; [done|]. split; [apply Hst12|]. exists d, news. split_and!.
    + simpl. rewrite Hv2, decide_True by done. apply splice_full.
      rewrite length_encode by apply Hf. symmetry. apply sview_length; [apply Hw1|by rewrite Hsz1].
    + apply Hdw, new_inode_wf.
    + done.
    + rewrite (content_ext d w1 w2) by done. by rewrite Ec, El'.
    + by eapply file_ok_ext.
    + done.
    + done.
    + eapply fm_step_weaken; [eapply fm_step_trans; [exact Hst|exact Hst12]|]. set_solver.
Qed.

(** ** Closing *)

Lemma upd_inode_twice p g h w : upd_inode p g (upd_inode p h w) = upd_inode p (λ i, g (h i)) w.
Proof.
  unfold upd_inode. destruct w as [a b c m l]. simpl. f_equal. apply map_eq. intros q.
  destruct (decide (q = p)) as [->|].
  - rewrite !lookup_alter_eq. by destruct (m !! p).
  - by rewrite !lookup_alter_ne.
Qed.

Lemma upd_inode_insert w p i (g : inode → inode) :
  inodes w !! p = Some i → upd_inode p g w = w <| inodes := <[p := g i]> (inodes w) |>.
Proof.
  intros Hi. unfold upd_inode. destruct w as [a b c m l]. simpl in *. f_equal. apply map_eq.
  intros q. destruct (decide (q = p)) as [->|].
  - by rewrite lookup_alter_eq, lookup_insert_eq, Hi.
  - by rewrite lookup_alter_ne, lookup_insert_ne.
Qed.

Lemma upd_inode_lookup w p i g : inodes w !! p = Some i → inodes (upd_inode p g w) !! p = Some (g i).
Proof. intros Hi. simpl. by rewrite lookup_alter_eq, Hi. Qed.

(** The first part of [inode_close]: the count is decremented under the lock. *)
Definition closing p w : fs store bitmap :=
  upd_inode p (λ i, i <| lock := true |> <| open_cnt := s32 (open_cnt i - 1) |>) w.

Lemma inode_close_unfold w p i :
  inodes w !! p = Some i → lock i = false →
  inode_close (Some p) w =
    let w2 := closing p w in
    if s32 (open_cnt i - 1) =? 0 then
      w4 ← (if removed i then
              w' ← free_map_release (sector i) (w2 <| open_inodes := list_remove p (open_inodes w) |>);
              close_loop EXTEND_FUEL p 0 w'
            else Ret (w2 <| open_inodes := list_remove p (open_inodes w) |>));
      w5 ← release p w4;
      Ret (w5 <| inodes := delete p (inodes w5) |>)
    else release p w2.
Proof.
  intros Hi Hl. unfold inode_close. rewrite (acquire_ret w p i) by done. ret.
  unfold locked. rewrite upd_inode_twice. unfold inode_at.
  rewrite (upd_inode_lookup w p i) by done. ret. done.
Qed.

(** Not the last opener: the count is all that changes. *)
Lemma inode_close_shared w p i :
  inodes w !! p = Some i → lock i = false → 1 < open_cnt i < 2147483648 →
  inode_close (Some p) w = Ret (w <| inodes := <[p := i <| open_cnt := open_cnt i - 1 |>]> (inodes w) |>).
Proof.
  intros Hi Hl Hc. rewrite (inode_close_unfold w p i) by done. cbn zeta.
  rewrite s32_id by (unfold in_s32; lia). rewrite (proj2 (Z.eqb_neq _ _)) by lia.
  unfold closing. erewrite release_ret; [|by apply upd_inode_lookup|done].
  rewrite upd_inode_twice, (upd_inode_insert w p i) by done. do 2 f_equal.
  rewrite s32_id by (unfold in_s32; lia). destruct i. simpl in *. by subst.
Qed.

(** The last opener of an inode that was not removed: it leaves memory. *)
Lemma inode_close_last w p i :
  inodes w !! p = Some i → lock i = false → open_cnt i = 1 → removed i = false →
  inode_close (Some p) w =
    Ret (w <| open_inodes := list_remove p (open_inodes w) |> <| inodes := delete p (inodes w) |>).
Proof.
  intros Hi Hl Hc Hr. rewrite (inode_close_unfold w p i) by done. cbn zeta. rewrite Hc, Hr.
  change (s32 (1 - 1) =? 0) with true. ret. unfold closing.
  erewrite release_ret; [|simpl; rewrite lookup_alter_eq, Hi; done|done]. ret. f_equal.
  destruct w as [fm ff st m l]. unfold upd_inode. simpl. f_equal. apply map_eq. intros q. destruct (decide (q = p)) as [->|].
  - by rewrite !lookup_delete_eq.
  - rewrite !lookup_delete_ne by done. by rewrite !lookup_alter_ne.
Qed.

(** The last opener of a removed file: its sectors and its inode's sector are freed. *)
Lemma inode_close_removed w p i :
  fm_wf w → p ≠ fm_inode → inodes w !! p = Some i → lock i = false → open_cnt i = 1 →
  removed i = true → file_ok (data i) w →
  0 ≤ sector i < store_size (sectors w) → sector i ∉ reserved fm_sectors →
  marked w (sector i) → sector i ∉ file_sectors (data i) →
  ∃ w', inode_close (Some p) w = Ret w' ∧ fm_wf w' ∧
    inodes w' = delete p (inodes w) ∧ open_inodes w' = list_remove p (open_inodes w) ∧
    (∀ j, marked w' j ↔ marked w j ∧ j ≠ sector i ∧ j ∉ file_sectors (data i)) ∧
    store_size (sectors w') = store_size (sectors w) ∧
    ∀ x, x ∉ fm_sectors → sview (sectors w') x = sview (sectors w) x.
Proof.
  intros Hw Hp Hi Hl Hc Hrm Hf Hs Hres Hm Hsf.
  rewrite (inode_close_unfold w p i) by done. cbn zeta. rewrite Hc, Hrm.
  change (s32 (1 - 1) =? 0) with true. cbn iota.
  set (w1 := (closing p w) <| open_inodes := list_remove p (open_inodes w) |>).
  assert (fm_wf w1) as Hw1.
  { destruct Hw as [? ? ? (f & Hfm & Hfl) ?]. split; try done. exists f. simpl.
    by rewrite lookup_alter_ne by done. }
  destruct (free_map_release_spec fm_inode fm_sectors w1 (sector i)) as (w2 & -> & Hst2 & Ht2);
    [done..|]. ret. pose proof Hst2 as [Hw2 E2 Hsz2 Hv2].
  assert (∀ j, marked w2 j ↔ marked w j ∧ j ≠ sector i) as Hm2.
  { intros j. unfold marked. rewrite Ht2. case_decide; [subst; split; [done|tauto]|].
    change (free_map w1) with (free_map w). tauto. }
  destruct (release_loops_spec fm_inode fm_sectors EXTEND_FUEL (data i) 0 w2)
    as (w3 & _ & Hcl & Hst3 & Hm3).
  { done. }
  { apply Hf. }
  { apply Hf. }
  { unfold NUM_DIRECT. lia. }
  { apply Hf. }
  { rewrite extend_fuel_value. unfold NUM_DIRECT. lia. }
  { rewrite drop_0. intros x Hx. destruct (fo_sectors _ _ _ Hf x Hx) as ([? ?] & _ & ? & ?).
    rewrite Hsz2. split_and!; [done|done|done|]. apply Hm2. split; [done|]. by intros ->. }
  set (i1 := i <| lock := true |> <| open_cnt := s32 (open_cnt i - 1) |>).
  assert (inodes w2 !! p = Some i1) as Hi2.
  { rewrite E2. simpl. by rewrite lookup_alter_eq, Hi. }
  change (512 * 0) with 0 in Hcl. rewrite (Hcl p i1) by done. clear Hcl. ret.
  pose proof Hst3 as [Hw3 E3 Hsz3 Hv3].
  rewrite (release_ret w3 p i1); [|by rewrite E3|done]. ret.
  eexists. split; [done|].
  assert (inodes w3 = alter (λ i, i <| lock := true |> <| open_cnt := s32 (open_cnt i - 1) |>) p
    (inodes w)) as Ein by (rewrite E3; simpl; rewrite E2; done).
  split_and!.
  - destruct Hw3 as [? ? ? (f & Hfm & Hfl) ?]. split; try done. exists f. simpl.
    rewrite lookup_delete_ne, lookup_alter_ne by done. done.
  - simpl. rewrite Ein. apply map_eq. intros q. destruct (decide (q = p)) as [->|].
    + by rewrite !lookup_delete_eq.
    + rewrite !lookup_delete_ne by done. by rewrite !lookup_alter_ne.
  - simpl. rewrite E3. simpl. rewrite E2. done.
  - intros j. change (marked _ j) with (marked w3 j) at 1. rewrite Hm3, drop_0, Hm2. tauto.
  - simpl. by rewrite Hsz3, Hsz2.
  - intros x Hx. simpl. by rewrite Hv3, Hv2.
Qed.

(** ** Opening *)

Lemma inode_reopen_ret w p i :
  inodes w !! p = Some i → lock i = false →
  inode_reopen (Some p) w =
    Ret (Some p, w <| inodes := <[p := i <| open_cnt := s32 (open_cnt i + 1) |>]> (inodes w) |>).
Proof.
  intros Hi Hl. unfold inode_reopen. rewrite (acquire_ret w p i) by done. ret.
  unfold locked. rewrite upd_inode_twice.
  erewrite release_ret; [|by apply upd_inode_lookup|done]. ret.
  rewrite upd_inode_twice, (upd_inode_insert w p i) by done. do 4 f_equal.
  destruct i. simpl in *. by subst.
Qed.

Lemma inode_open_fresh w q s :
  store_wf (sectors w) → 0 ≤ s < store_size (sectors w) →
  (∀ p, p ∈ open_inodes w → ¬ has_sector w s p) →
  ∃ w', inode_open (Some q) s w = Ret (Some q, w') ∧
    open_inodes w' = q :: open_inodes w ∧
    inodes w' = <[q := Inode s 1 false 0 false (decode_inode (sview (sectors w) s))]> (inodes w) ∧
    free_map w' = free_map w ∧ free_map_file w' = free_map_file w ∧
    store_wf (sectors w') ∧ store_size (sectors w') = store_size (sectors w) ∧
    ∀ x, sview (sectors w') x = sview (sectors w) x.
Proof.
  intros Hw Hs Hno. unfold inode_open.
  replace (list_find (has_sector w s) (open_inodes w)) with (@None (nat * Z)).
  2: { symmetry. apply list_find_None, Forall_forall. intros p Hp. by apply Hno. }
  destruct (cache_read_spec (sectors w) s BLOCK_SECTOR_SIZE 0) as (st & Hr & Hst & Hsz & Hv);
    [done|done|done|done|done|].
  simpl in Hr. simpl. rewrite Hr. ret. eexists. split; [done|]. simpl.
  split; [done|]. split; [|split_and!; done]. rewrite alter_insert_eq. do 2 f_equal.
  unfold rset. simpl. do 2 f_equal. apply slice_full. by apply sview_length.
Qed.

(** ** Properties *)

(** [inode_create] either leaves in the inode's sector an inode of the length asked
    for, whose new sectors were free and read as zeros, or returns false with the
    free map as it was: no sector is leaked and no used sector changes. *)
Theorem inode_create_correct w s (mem : bool) (length : Z) :
  fm_wf w → 0 ≤ s < store_size (sectors w) → marked w s → s ∉ fm_sectors →
  0 ≤ length ≤ DIRECT_MAX →
  ∃ ok w', inode_create mem s length w = Ret (ok, w') ∧ fm_wf w' ∧ inodes w' = inodes w ∧
    (∀ x, marked w x → x ∉ fm_sectors → x ≠ s → sview (sectors w') x = sview (sectors w) x) ∧
    if ok : bool then
      ∃ d, decode_inode (sview (sectors w') s) = d ∧ dk_length d = length ∧ file_ok d w' ∧
        content d w' = replicate (Z.to_nat length) 0 ∧ allocated (file_sectors d) w w'
    else ∀ j, marked w' j ↔ marked w j.
Proof.
  intros Hw Hs Hm Hnf Hlen. destruct mem.
  - destruct (inode_create_ret w s length) as (ok & w' & Hr & Hw' & Hok); [done..|].
    exists ok, w'. split; [done|]. split; [done|]. destruct ok.
    + destruct Hok as (d & news & Hv & Hdw & El & Hc & Hf & Es & Ha & [_ E _ Hview]). subst news.
      split; [by rewrite E|]. split.
      * intros x Hx Hxf Hxs. apply Hview. intros [->|[Hin|?]%elem_of_app]%elem_of_cons; [done| |done].
        destruct Ha as (Ha & _). by destruct (Ha x Hin) as (_ & _ & ?).
      * exists d. split_and!; [|done..]. rewrite Hv. by apply decode_encode.
    + destruct Hok as (Hmk & Ein & _ & Hview & _). split_and!; [done|by auto|done].
  - exists false, w. split; [done|]. by split_and!.
Qed.

(** Opening a sector that is open returns the inode in memory and only counts one
    more opener, whatever the state of memory; closing it again restores the
    state exactly. *)
Theorem inode_open_shared w (mem : option Z) s p i (k : nat) :
  list_find (has_sector w s) (open_inodes w) = Some (k, p) →
  inodes w !! p = Some i → lock i = false → 1 ≤ open_cnt i < 2147483647 →
  ∃ w', inode_open mem s w = Ret (Some p, w') ∧
    w' = w <| inodes := <[p := i <| open_cnt := open_cnt i + 1 |>]> (inodes w) |> ∧
    inode_close (Some p) w' = Ret w.
Proof.
  intros Hfind Hi Hl Hc. unfold inode_open. rewrite Hfind, (inode_reopen_ret w p i) by done.
  rewrite s32_id by (unfold in_s32; lia). eexists. split; [done|]. split; [done|].
  rewrite (inode_close_shared _ p (i <| open_cnt := open_cnt i + 1 |>));
    [|simpl; by rewrite lookup_insert_eq|done|simpl; lia].
  simpl. rewrite insert_insert_eq. f_equal. destruct w as [a b c m l]. unfold rset. simpl in *.
  f_equal. rewrite insert_id; [done|]. rewrite Hi. f_equal. destruct i. unfold rset. simpl.
  f_equal. lia.
Qed.

(** C38. The last close of a removed file that is within its direct sectors (at most
    [DIRECT_MAX], 188 * 512 bytes; the sector numbers of a longer one are read back
    mixed, see Indirect.v, so that other sectors would be freed) frees exactly the
    sectors of the file and the sector of its inode, and drops the inode from memory. *)
Theorem inode_close_frees_removed w p i :
  fm_wf w → p ≠ fm_inode → inodes w !! p = Some i → lock i = false → open_cnt i = 1 →
  removed i = true → file_ok (data i) w →
  0 ≤ sector i < store_size (sectors w) → sector i ∉ reserved fm_sectors →
  marked w (sector i) → sector i ∉ file_sectors (data i) →
  ∃ w', inode_close (Some p) w = Ret w' ∧ fm_wf w' ∧
    inodes w' = delete p (inodes w) ∧ open_inodes w' = list_remove p (open_inodes w) ∧
    ∀ j, marked w' j ↔ marked w j ∧ j ≠ sector i ∧ j ∉ file_sectors (data i).
Proof.
  intros Hw Hp Hi Hl Hc Hrm Hf Hs Hr Hm Hsf.
  destruct (inode_close_removed w p i) as (w' & ? & ? & ? & ? & ? & _); [done..|]. eauto 10.
Qed.

(** C39. The growth of a file does not survive its last close: nothing writes the inode
    back to its sector, so that reopening the file finds the inode as it was
    before the write. *)
Theorem inode_growth_lost w p q i (buf : list Z) (off : Z) :
  fm_wf w → store_size (sectors w) ≤ NO_SECTOR → p ≠ fm_inode →
  inodes w !! p = Some i → lock i = false → deny_write_cnt i = 0 → file_ok (data i) w →
  0 ≤ off → off + Z.of_nat (length buf) ≤ DIRECT_MAX →
  open_cnt i = 1 → removed i = false →
  (∀ r, r ∈ open_inodes w → r ≠ p → ¬ has_sector w (sector i) r) →
  0 ≤ sector i < store_size (sectors w) → marked w (sector i) → sector i ∉ fm_sectors →
  sector i ∉ file_sectors (data i) →
  sview (sectors w) (sector i) = encode_inode (data i) → inode_disk_wf (data i) →
  ∃ n w1 w2 w3, inode_write_at p buf (Z.of_nat (length buf)) off w = Ret (n, w1) ∧
    inode_close (Some p) w1 = Ret w2 ∧
    inode_open (Some q) (sector i) w2 = Ret (Some q, w3) ∧
    data <$> inodes w3 !! q = Some (data i).
Proof.
  intros Hw Hns Hp Hi Hl Hdeny Hf Ho Hmax Hc Hrm Huniq Hs Hm Hnf Hsf Henc Hdw.
  destruct (inode_write_at_ret fm_inode fm_sectors w p i buf off) as (n & d' & news & w1 & Hr & Hwr);
    [done..|].
  destruct Hwr as [Ein Eop _ _ _ _ _ Hfm Hsec Halloc Hsz Hv].
  pose proof (inode_close_last w1 p (i <| data := d' |>)) as Hcl.
  rewrite Ein, lookup_insert_eq in Hcl. specialize (Hcl eq_refl Hl Hc Hrm).
  set (w2 := w1 <| open_inodes := _ |> <| inodes := _ |>) in Hcl.
  destruct (inode_open_fresh w2 q (sector i)) as (w3 & Hop & _ & Ein3 & _).
  { apply Hfm. }
  { simpl. by rewrite Hsz. }
  { intros r. simpl. rewrite elem_of_list_remove, Eop. intros [Hrp Hr'] Hhas.
    apply (Huniq r Hr' Hrp). unfold has_sector in *. simpl in Hhas.
    by rewrite delete_insert_eq, lookup_delete_ne in Hhas by done. }
  exists n, w1, w2, w3. split; [done|]. split; [done|]. split; [done|].
  rewrite Ein3, lookup_insert_eq. simpl. rewrite Hv, Henc.
  - f_equal. by apply decode_encode.
  - rewrite Hsec, <- app_assoc. intros [?|[Hin|?]%elem_of_app]%elem_of_app; [done| |done].
    destruct Halloc as (Ha & _). by destruct (Ha _ Hin) as (_ & _ & ?).
Qed.
End life.
