(* ===== verification/FsSample.v ===== *)
(** * A concrete file system, on which the hypotheses of the file-system theorems hold

    The buffer cache of Cache.v on a ram disk, bitmaps as lists, and a
    [bitmap_write] that stores the bitmap in sector 2.  Sector 0 holds the free
    map's inode, sector 3 the inode of a five-byte file whose data is in sector 4. *)
From S2P Require Import Prelude CInt Ext Cache Store InodeDisk FreeMap Inode File InodeSpec InodeLife.
Open Scope Z_scope.

#[local] Existing Instances Ramdisk.ops Ramdisk.laws BitList.ops BitList.laws.

Definition disk_fs : Type := fs (cache Ramdisk.disk) (list bool).

(** Address of the free map's inode, its data sectors, and the handle of its file. *)
Definition fm_inode : Z := 4096.
Definition fm_sectors : list Z := [2].
Definition fm_file : Z := 1.

(** One byte per bit, for the first 512 sectors. *)
Definition bitmap_bytes (b : list bool) : list Z :=
  take 512 ((λ x : bool, if x then 1 else 0) <$> b).

#[export] Instance sample_bitmap_file : BitmapFile (cache Ramdisk.disk) (list bool) := {|
  bitmap_write b f w :=
    i ← deref (inodes w !! fm_inode);
    _ ← lock_acquire (lock i);
    if 2 <? store_size (sectors w) then
      st ← Store.cache_write 2 (bitmap_bytes b) (Z.of_nat (length (bitmap_bytes b))) 0 (sectors w);
      Ret (true, w <| sectors := st |>)
    else Ret (false, w);
  bitmap_read b f w :=
    if 2 <? store_size (sectors w) then
      '(d, st) ← Store.cache_read 2 512 0 (sectors w);
      Ret (true, (λ x, x =? 1) <$> take (length b) d, w <| sectors := st |>)
    else Ret (true, b, w);
  file_open i w := Ret (i, w);
  file_close f w := Ret w
|}.

#[export] Instance sample_bitmap_file_laws :
  BitmapFileLaws (cache Ramdisk.disk) (list bool) fm_inode fm_sectors.
Proof.
  split. intros b f w Hw (i & Hi & Hl). simpl. rewrite Hi. ret. rewrite Hl. cbn [lock_acquire]. ret.
  case_bool.
  - assert (length (bitmap_bytes b) ≤ 512)%nat by (unfold bitmap_bytes; rewrite length_take; lia).
    destruct (cache_write_spec (sectors w) 2 (bitmap_bytes b)
      (Z.of_nat (length (bitmap_bytes b))) 0) as (st & Hst & Hwf & Hsz & Hv);
      [done|simpl; lia|lia|lia|done|].
    simpl in Hst. rewrite Hst. ret. eexists true, _. split; [done|]. split; [done|done|done|].
    intros x Hx. change (sectors (w <| sectors := st |>)) with st.
    rewrite Hv, decide_False; [done|]. unfold fm_sectors in Hx. set_solver.
  - exists false, w. split; [done|]. by apply sectors_frame_refl.
Qed.

Definition small_inode : inode_disk :=
  (set_direct 0 4 zero_inode) <| dk_length := 5 |> <| magic := INODE_MAGIC |>.

Definition sample_disk : Ramdisk.disk := Ramdisk.Disk 64 {[ 3 := encode_inode small_inode ]}.

Definition sample_store : cache Ramdisk.disk :=
  allocate_cache (Cache (replicate CACHE_SIZE (CacheEntry 0 false false false zero_sector)) false
    sample_disk).

(** The inode of the open file. *)
Definition file_inode : inode := Inode 3 1 false 0 false small_inode.

Definition sample_fs : disk_fs :=
  Fs (replicate 5 true ++ replicate 59 false) (Some fm_file) sample_store
    {[ fm_inode := Inode 0 1 false 0 false zero_inode; 8192 := file_inode ]} [8192; fm_inode].

Lemma sample_store_wf : store_wf sample_store.
Proof.
  apply (allocate_cache_inv (Cache (replicate CACHE_SIZE (CacheEntry 0 false false false zero_sector))
    false sample_disk)); [reflexivity| |reflexivity| |discriminate].
  - by intros e [-> _]%elem_of_replicate.
  - apply map_Forall_singleton. reflexivity.
Qed.

Lemma sample_fm_wf : fm_wf fm_inode fm_sectors sample_fs.
Proof.
  split.
  - exact sample_store_wf.
  - reflexivity.
  - intros x Hx. repeat (apply elem_of_cons in Hx as [->|Hx]; [reflexivity|]).
    by apply not_elem_of_nil in Hx.
  - eexists. split; reflexivity.
  - by eexists.
Qed.

Lemma small_inode_ok : file_ok fm_sectors small_inode sample_fs.
Proof.
  split.
  - split; discriminate.
  - reflexivity.
  - reflexivity.
  - change (file_sectors small_inode) with [4]. intros s ->%list_elem_of_singleton.
    split; [split; [discriminate|reflexivity]|]. split; [discriminate|]. split; [|reflexivity].
    unfold reserved, fm_sectors. intros H. repeat (apply elem_of_cons in H as [H|H]; [discriminate|]).
    by apply not_elem_of_nil in H.
  - apply NoDup_singleton.
  - apply (bool_decide_unpack _). vm_compute. exact I.
Qed.

Lemma small_inode_wf : inode_disk_wf small_inode.
Proof.
  split; [by split|by split|split; [done|]|split; [done|]];
    apply (bool_decide_unpack _); vm_compute; exact I.
Qed.

(** ** Witnesses *)

Lemma inode_read_at_correct_witness :
  (0 ≤ 2 →
   ∃ b w', inode_read_at 8192 100 2 sample_fs = Ret (Z.of_nat (length b), b, w') ∧
     b = slice (Z.to_nat 2) (Z.to_nat 100) (content small_inode sample_fs) ∧
     Z.of_nat (length b) = Z.max 0 (Z.min 100 (5 - 2)) ∧
     w' = sample_fs <| sectors := sectors w' |> ∧
     ∀ x, sview (sectors w') x = sview (sectors sample_fs) x) ∧
  (2 < 0 → 0 < 100 → inode_read_at 8192 100 2 sample_fs = Panic).
Proof.
  apply (inode_read_at_correct fm_inode fm_sectors sample_fs 8192 file_inode 100 2).
  - exact sample_store_wf.
  - discriminate.
  - reflexivity.
  - reflexivity.
  - exact small_inode_ok.
  - discriminate.
Defined.

Lemma inode_write_at_correct_witness :
  ∃ n d' news w', inode_write_at 8192 [7; 8; 9] 3 600 sample_fs = Ret (n, w') ∧
    inodes w' = <[8192 := file_inode <| data := d' |>]> (inodes sample_fs) ∧
    file_ok fm_sectors d' w' ∧ fm_wf fm_inode fm_sectors w' ∧
    file_sectors d' = file_sectors small_inode ++ news ∧ allocated news sample_fs w' ∧ 0 ≤ n ≤ 3 ∧
    content d' w' = splice (Z.to_nat 600) (take (Z.to_nat n) [7; 8; 9])
      (content small_inode sample_fs ++ replicate (Z.to_nat (dk_length d' - 5)) 0) ∧
    (n = 3 ∧ dk_length d' = Z.max 5 (600 + 3) ∨
     dk_length d' < 600 + 3 ∧ alloc_stuck news (locked 8192 sample_fs) w').
Proof.
  apply (inode_write_at_correct fm_inode fm_sectors sample_fs 8192 file_inode [7; 8; 9] 600).
  - exact sample_fm_wf.
  - discriminate.
  - discriminate.
  - reflexivity.
  - reflexivity.
  - reflexivity.
  - exact small_inode_ok.
  - discriminate.
  - discriminate.
Defined.

Lemma inode_read_after_write_witness :
  ∃ n w1 w2, inode_write_at 8192 [7; 8; 9] 3 600 sample_fs = Ret (n, w1) ∧
    inode_read_at 8192 n 600 w1 = Ret (n, take (Z.to_nat n) [7; 8; 9], w2).
Proof.
  apply (inode_read_after_write fm_inode fm_sectors sample_fs 8192 file_inode [7; 8; 9] 600).
  - exact sample_fm_wf.
  - discriminate.
  - discriminate.
  - reflexivity.
  - reflexivity.
  - reflexivity.
  - exact small_inode_ok.
  - discriminate.
  - discriminate.
Defined.

(** The empty file is separate from the file that is written. *)
Lemma inode_write_isolated_witness :
  ∃ n w', inode_write_at 8192 [7; 8; 9] 3 1 sample_fs = Ret (n, w') ∧
    file_ok fm_sectors new_inode w' ∧ content new_inode w' = content new_inode sample_fs.
Proof.
  destruct (inode_write_at_ret fm_inode fm_sectors sample_fs 8192 file_inode [7; 8; 9] 1)
    as (n & d' & news & w' & Hr & _);
    [exact sample_fm_wf|discriminate|discriminate|reflexivity|reflexivity|reflexivity
    |exact small_inode_ok|discriminate|discriminate|].
  exists n, w'. split; [exact Hr|].
  apply (inode_write_isolated fm_inode fm_sectors sample_fs 8192 file_inode [7; 8; 9] 1 new_inode n w').
  - exact sample_fm_wf.
  - discriminate.
  - discriminate.
  - reflexivity.
  - reflexivity.
  - reflexivity.
  - exact small_inode_ok.
  - discriminate.
  - discriminate.
  - apply new_inode_ok.
  - intros x Hx. by apply not_elem_of_nil in Hx.
  - exact Hr.
Defined.

Definition denied_fs : disk_fs :=
  sample_fs <| inodes := <[8192 := file_inode <| deny_write_cnt := 1 |>]> (inodes sample_fs) |>.

Lemma inode_write_denied_witness : inode_write_at 8192 [7; 8; 9] 3 1 denied_fs = Ret (0, denied_fs).
Proof.
  apply (inode_write_denied denied_fs 8192 (file_inode <| deny_write_cnt := 1 |>) [7; 8; 9] 3 1).
  - reflexivity.
  - reflexivity.
  - discriminate.
Defined.

Lemma inode_create_correct_witness :
  ∃ ok w', inode_create true 1 1000 sample_fs = Ret (ok, w') ∧ fm_wf fm_inode fm_sectors w' ∧
    inodes w' = inodes sample_fs ∧
    (∀ x, marked sample_fs x → x ∉ fm_sectors → x ≠ 1 →
       sview (sectors w') x = sview (sectors sample_fs) x) ∧
    if ok : bool then
      ∃ d, decode_inode (sview (sectors w') 1) = d ∧ dk_length d = 1000 ∧ file_ok fm_sectors d w' ∧
        content d w' = replicate (Z.to_nat 1000) 0 ∧ allocated (file_sectors d) sample_fs w'
    else ∀ j, marked w' j ↔ marked sample_fs j.
Proof.
  apply (inode_create_correct fm_inode fm_sectors sample_fs 1 true 1000).
  - exact sample_fm_wf.
  - split; [discriminate|reflexivity].
  - reflexivity.
  - unfold fm_sectors. by intros ?%list_elem_of_singleton.
  - split; discriminate.
Defined.

Lemma inode_open_shared_witness :
  ∃ w', inode_open None 3 sample_fs = Ret (Some 8192, w') ∧
    w' = sample_fs <| inodes := <[8192 := file_inode <| open_cnt := 2 |>]> (inodes sample_fs) |> ∧
    inode_close (Some 8192) w' = Ret sample_fs.
Proof.
  apply (inode_open_shared sample_fs None 3 8192 file_inode 0).
  - reflexivity.
  - reflexivity.
  - reflexivity.
  - split; [discriminate|reflexivity].
Defined.

Definition removed_inode : inode := Inode 3 1 true 0 false small_inode.

Definition removed_fs : disk_fs :=
  sample_fs <| inodes := <[8192 := removed_inode]> (inodes sample_fs) |>.

Lemma removed_fs_wf : fm_wf fm_inode fm_sectors removed_fs.
Proof.
  destruct sample_fm_wf as [? ? ? _ ?]. split; [done|done|done| |done].
  eexists. split; reflexivity.
Qed.

Lemma inode_close_frees_removed_witness :
  ∃ w', inode_close (Some 8192) removed_fs = Ret w' ∧ fm_wf fm_inode fm_sectors w' ∧
    inodes w' = delete 8192 (inodes removed_fs) ∧
    open_inodes w' = list_remove 8192 (open_inodes removed_fs) ∧
    ∀ j, marked w' j ↔ marked removed_fs j ∧ j ≠ 3 ∧ j ∉ file_sectors small_inode.
Proof.
  apply (inode_close_frees_removed fm_inode fm_sectors removed_fs 8192 removed_inode).
  - exact removed_fs_wf.
  - discriminate.
  - reflexivity.
  - reflexivity.
  - reflexivity.
  - reflexivity.
  - apply (file_ok_same fm_sectors _ sample_fs); [reflexivity|reflexivity|exact small_inode_ok].
  - split; [discriminate|reflexivity].
  - intros H. repeat (apply elem_of_cons in H as [H|H]; [discriminate|]). by apply not_elem_of_nil in H.
  - reflexivity.
  - change (file_sectors _) with [4]. by intros ?%list_elem_of_singleton.
Defined.

Lemma inode_growth_lost_witness :
  ∃ n w1 w2 w3, inode_write_at 8192 [7; 8; 9] 3 600 sample_fs = Ret (n, w1) ∧
    inode_close (Some 8192) w1 = Ret w2 ∧
    inode_open (Some 12288) 3 w2 = Ret (Some 12288, w3) ∧
    data <$> inodes w3 !! 12288 = Some small_inode.
Proof.
  apply (inode_growth_lost fm_inode fm_sectors sample_fs 8192 12288 file_inode [7; 8; 9] 600).
  - exact sample_fm_wf.
  - discriminate.
  - discriminate.
  - reflexivity.
  - reflexivity.
  - reflexivity.
  - exact small_inode_ok.
  - discriminate.
  - discriminate.
  - reflexivity.
  - reflexivity.
  - intros r Hr Hne. repeat (apply elem_of_cons in Hr as [->|Hr]; [by vm_compute|]).
    by apply not_elem_of_nil in Hr.
  - split; [discriminate|reflexivity].
  - reflexivity.
  - unfold fm_sectors. by intros ?%list_elem_of_singleton.
  - change (file_sectors _) with [4]. by intros ?%list_elem_of_singleton.
  - vm_compute. reflexivity.
  - exact small_inode_wf.
Defined.
