(* ===== verification/Indirect.v ===== *)
(** * Files beyond their direct sectors

    [append_sector] and [byte_to_sector_disk] on the first indirect sector, as
    inode.c computes them: the first indirect sector is never allocated, because
    [(187 - 188) / 256] is 0 in C, and the 16-bit entries of an indirect sector
    are read and written at byte offset [ind_ofs] rather than [2 * ind_ofs], so
    that neighbours overlap. *)
From S2P Require Import Prelude CInt Ext Cache Store InodeDisk FreeMap Inode File FsSample.
Open Scope Z_scope.

Section indirect.
Context {store bitmap : Type} `{SectorStoreLaws store, BitmapLaws bitmap}.
Context (fm_inode : Z) (fm_sectors : list Z).
Context `{!BitmapFile store bitmap, !BitmapFileLaws store bitmap fm_inode fm_sectors}.
Implicit Types (w : fs store bitmap) (d : inode_disk) (s t : Z).

Notation fm_wf := (fm_wf fm_inode fm_sectors).
Notation fm_step := (fm_step fm_inode fm_sectors).

(** Appending the [k]-th sector after the direct ones: its number goes to byte [k]
    of the sector [t] that [indirect[0]] names, which is not allocated. *)
Lemma append_sector_indirect d (k t : Z) w :
  fm_wf w → dk_length d = DIRECT_MAX + 512 * k → 0 ≤ k < INDIRECT_LEN →
  indirect d !! 0%nat = Some t → 0 ≤ t < store_size (sectors w) → t ∉ fm_sectors → marked w t →
  ∃ ok d' w', append_sector d w = Ret (ok, d', w') ∧ fm_wf w' ∧
    store_size (sectors w') = store_size (sectors w) ∧
    if ok : bool then
      ∃ s, d' = d <| dk_length := dk_length d + 512 |> ∧ allocated [s] w w' ∧
        sview (sectors w') t = splice (Z.to_nat k) (le 2 s) (sview (sectors w) t)
    else alloc_stuck [] w w'.
Proof.
  intros Hw El Hk Ht Htv Htf Htm. unfold append_sector.
  unfold DIRECT_MAX, NUM_DIRECT, BLOCK_SECTOR_SIZE, INDIRECT_LEN in *.
  destruct (ROUND_UP_spec (dk_length d) 512) as (j & _ & -> & Hj & _); [lia..|].
  assert (j * 512 = dk_length d) as -> by lia. rewrite s32_id by (unfold in_s32; lia).
  unfold MAX_INODE_LEN. rewrite (proj2 (Z.ltb_ge _ _)) by lia.
  assert (Z.quot (dk_length d + 512 - 1) 512 = 188 + k) as ->
    by (rewrite El; Z.to_euclidean_division_equations; lia).
  assert (Z.quot (dk_length d - 1) 512 = 187 + k) as ->
    by (rewrite El; Z.to_euclidean_division_equations; lia).
  rewrite (proj2 (Z.ltb_ge _ _)) by lia.
  assert (Z.quot (187 + k - 188) 256 = 0) as -> by (Z.to_euclidean_division_equations; lia).
  assert (Z.quot (188 + k - 188) 256 = 0) as -> by (Z.to_euclidean_division_equations; lia).
  assert (Z.rem (188 + k - 188) 256 = k) as -> by (Z.to_euclidean_division_equations; lia).
  rewrite Z.ltb_irrefl. ret. change (Z.to_nat 0) with 0%nat. rewrite Ht. ret.
  destruct (allocate_short_spec fm_inode fm_sectors w Hw) as (r & w1 & Has & Hr). rewrite Has. ret.
  destruct r as [s|].
  - destruct Hr as (Ha & Hst & _). pose proof Hst as [Hw1 E1 Hsz1 Hv1].
    destruct (cache_write_spec (sectors w1) t (le 2 s) 2 k) as (st & -> & Hwf & Hsz & Hv);
      [apply Hw1|by rewrite Hsz1|lia|lia|done|]. ret.
    assert (t ∉ s :: fm_sectors) as Hts.
    { intros [->|?]%elem_of_cons; [|done]. destruct Ha as (Ha & _).
      destruct (Ha s) as (_ & _ & Hn); [set_solver|done]. }
    assert (fm_step [t] w1 (w1 <| sectors := st |>)) as Hst2.
    { apply fm_step_store; [done..|]. intros x Hx. rewrite Hv, decide_False; [done|set_solver]. }
    eexists true, _, _. split; [done|]. split; [apply Hst2|]. split; [simpl; congruence|].
    exists s. split; [done|]. split; [done|]. simpl. rewrite Hv, decide_True by done.
    by rewrite Hv1.
  - destruct Hr as (Ha & Hst & Hfails). eexists false, _, _. split; [done|].
    split; [apply Hst|]. split; [apply Hst|by apply (alloc_stuck_nil fm_inode fm_sectors)].
Qed.

(** C40. Growing a file past its direct sectors overwrites the first two bytes of sector
    0, the length field of the free map's inode, with the number of the new
    sector: [indirect[0]] still is the 0 that [calloc] left there. *)
Theorem indirect_growth_clobbers_free_map d w :
  fm_wf w → dk_length d = DIRECT_MAX → indirect d !! 0%nat = Some FREE_MAP_SECTOR →
  FREE_MAP_SECTOR ∉ fm_sectors → 0 < store_size (sectors w) →
  ∃ ok d' w', append_sector d w = Ret (ok, d', w') ∧
    if ok : bool then
      ∃ s, allocated [s] w w' ∧ indirect d' !! 0%nat = Some FREE_MAP_SECTOR ∧
        sview (sectors w') FREE_MAP_SECTOR = le 2 s ++ drop 2 (sview (sectors w) FREE_MAP_SECTOR)
    else alloc_stuck [] w w'.
Proof.
  intros Hw El Hi Hnf Hsz.
  destruct (append_sector_indirect d 0 FREE_MAP_SECTOR w) as (ok & d' & w' & Hap & _ & _ & Hok);
    [done|lia|done|done|unfold FREE_MAP_SECTOR; lia|done|apply (fw_used _ _ _ Hw); by left|].
  exists ok, d', w'. split; [done|]. destruct ok; [|done].
  destruct Hok as (s & -> & Ha & Hv). by exists s.
Qed.

(** Reading entry [k] back from byte [k] of sector [t]. *)
Lemma byte_to_sector_indirect d (k t pos : Z) w :
  store_wf (sectors w) → DIRECT_MAX + 512 * k ≤ pos < DIRECT_MAX + 512 * (k + 1) →
  pos < dk_length d → 0 ≤ k < INDIRECT_LEN → indirect d !! 0%nat = Some t →
  0 ≤ t < store_size (sectors w) →
  ∃ w', byte_to_sector_disk d pos w = Ret (unle (slice (Z.to_nat k) 2 (sview (sectors w) t)), w').
Proof.
  intros Hw Hpos Hlen Hk Ht Htv. unfold byte_to_sector_disk.
  unfold DIRECT_MAX, NUM_DIRECT, BLOCK_SECTOR_SIZE, INDIRECT_LEN in *.
  rewrite (proj2 (Z.leb_le 0 pos)) by lia. ret. rewrite (proj2 (Z.leb_gt _ _)) by lia.
  assert (Z.quot pos 512 = 188 + k) as -> by (Z.to_euclidean_division_equations; lia).
  rewrite (proj2 (Z.ltb_ge _ _)) by lia.
  assert (Z.quot (188 + k - 188) 256 = 0) as -> by (Z.to_euclidean_division_equations; lia).
  assert (Z.rem (188 + k - 188) 256 = k) as -> by (Z.to_euclidean_division_equations; lia).
  change (Z.to_nat 0) with 0%nat. rewrite Ht. ret.
  destruct (cache_read_spec (sectors w) t 2 k) as (st & -> & _); [done|done|lia..|]. ret.
  by eexists.
Qed.

(** The overlap: after two sectors [s1] and [s2] are appended, looking up the first
    of them yields the low byte of [s1] and the low byte of [s2]. *)
Theorem indirect_lookup_mixes_neighbours d (k t : Z) w d1 w1 d2 w2 :
  fm_wf w → dk_length d = DIRECT_MAX + 512 * k → 0 ≤ k → k + 1 < INDIRECT_LEN →
  indirect d !! 0%nat = Some t → 0 ≤ t < store_size (sectors w) → t ∉ fm_sectors → marked w t →
  append_sector d w = Ret (true, d1, w1) → append_sector d1 w1 = Ret (true, d2, w2) →
  ∃ s1 s2 w3, allocated [s1] w w1 ∧ allocated [s2] w1 w2 ∧
    byte_to_sector_disk d2 (DIRECT_MAX + 512 * k) w2 = Ret (s1 mod 256 + 256 * (s2 mod 256), w3).
Proof.
  intros Hw El Hk Hk' Ht Htv Htf Htm Hap1 Hap2.
  destruct (append_sector_indirect d k t w) as (ok & e1 & v1 & E1 & Hw1 & Hsz1 & Hok1);
    [done|done|lia|done..|].
  rewrite Hap1 in E1. injection E1 as <- <- <-. destruct Hok1 as (s1 & -> & Ha1 & Hv1).
  destruct (append_sector_indirect (d <| dk_length := dk_length d + 512 |>) (k + 1) t w1)
    as (ok & e2 & v2 & E2 & Hw2 & Hsz2 & Hok2);
    [done|simpl; lia|lia|done|by rewrite Hsz1|done|apply Ha1; by left|].
  rewrite Hap2 in E2. injection E2 as <- <- <-. destruct Hok2 as (s2 & -> & Ha2 & Hv2).
  destruct (byte_to_sector_indirect (d <| dk_length := dk_length d + 512 |>
    <| dk_length := dk_length d + 512 + 512 |>) k t (DIRECT_MAX + 512 * k) w2) as (w3 & Hb);
    [apply Hw2|lia|simpl; lia|lia|done|by rewrite Hsz2, Hsz1|].
  exists s1, s2, w3. split; [done|]. split; [done|].
  etransitivity; [exact Hb|]. do 2 f_equal. rewrite Hv2, Hv1. set (b := sview (sectors w) t).
  assert (length b = 512%nat) as Hlb by (apply sview_length; [apply Hw|done]).
  unfold INDIRECT_LEN in *.
  assert (slice (Z.to_nat k) 2 (splice (Z.to_nat (k + 1)) (le 2 s2) (splice (Z.to_nat k) (le 2 s1) b))
    = [s1 mod 256; s2 mod 256]) as ->; [|simpl; lia].
  apply list_eq. intros j. destruct (decide (j < 2)%nat) as [Hj|Hj].
  2: { rewrite lookup_slice_ge by lia. symmetry. apply lookup_ge_None. simpl. lia. }
  rewrite lookup_slice by done. rewrite !lookup_splice; rewrite ?length_splice; rewrite ?length_le;
    try lia.
  destruct j as [|[|j]]; [| |lia].
  - rewrite decide_False, decide_True by lia. by replace (_ + 0 - _)%nat with 0%nat by lia.
  - rewrite decide_True by lia. by replace (_ + 1 - _)%nat with 0%nat by lia.
Qed.
End indirect.

(** ** Witnesses *)

#[local] Existing Instances Ramdisk.ops Ramdisk.laws BitList.ops BitList.laws.

(** A file with all its direct sectors in use, and [indirect[0]] naming sector [t]. *)
Definition full_inode (t : Z) : inode_disk :=
  set_indirect 0 t zero_inode <| dk_length := DIRECT_MAX |>.

Definition append_or_stay (dw : inode_disk * disk_fs) : inode_disk * disk_fs :=
  match append_sector (dw.1) (dw.2) with Ret (true, d, w) => (d, w) | _ => dw end.

Lemma indirect_growth_clobbers_free_map_witness :
  ∃ ok d' w', append_sector (full_inode 0) sample_fs = Ret (ok, d', w') ∧
    if ok : bool then
      ∃ s, allocated [s] sample_fs w' ∧ indirect d' !! 0%nat = Some FREE_MAP_SECTOR ∧
        sview (sectors w') FREE_MAP_SECTOR
          = le 2 s ++ drop 2 (sview (sectors sample_fs) FREE_MAP_SECTOR)
    else alloc_stuck [] sample_fs w'.
Proof.
  refine (indirect_growth_clobbers_free_map fm_inode fm_sectors (full_inode 0) sample_fs _ _ _ _ _).
  - exact sample_fm_wf.
  - reflexivity.
  - reflexivity.
  - unfold fm_sectors. intros H%list_elem_of_singleton. discriminate.
  - reflexivity.
Defined.

Lemma indirect_lookup_mixes_neighbours_witness :
  let one := append_or_stay (full_inode 1, sample_fs) in
  let two := append_or_stay one in
  ∃ s1 s2 w3, allocated [s1] sample_fs one.2 ∧ allocated [s2] one.2 two.2 ∧
    byte_to_sector_disk two.1 (DIRECT_MAX + 512 * 0) two.2
      = Ret (s1 mod 256 + 256 * (s2 mod 256), w3).
Proof.
  intros one two.
  refine (indirect_lookup_mixes_neighbours fm_inode fm_sectors (full_inode 1) 0 1 sample_fs
    one.1 one.2 two.1 two.2 _ _ _ _ _ _ _ _ _ _).
  - exact sample_fm_wf.
  - reflexivity.
  - discriminate.
  - reflexivity.
  - reflexivity.
  - split; [discriminate|reflexivity].
  - unfold fm_sectors. intros H%list_elem_of_singleton. discriminate.
  - reflexivity.
  - subst one. vm_compute. reflexivity.
  - subst two one. vm_compute. reflexivity.
Defined.
