(* ===== verification/Filesys.v ===== *)
(** * The file-system module (file-system/filesys/filesys.c)

    [filesys_create], [filesys_open] and [filesys_remove] over the directory
    operations of [filesys/directory.c], and the life of the module from
    [filesys_init] to [filesys_done] on the concrete buffer cache. *)
From stdpp Require Import strings.
From S2P Require Import Prelude CInt Ext Cache Store InodeDisk FreeMap Inode File InodeSpec InodeLife FsSample.
Open Scope Z_scope.

(** The directory operations; a [struct dir] and an inode are addresses.  *)
Class Directory (store bitmap : Type) := {
  dir_create : Z → Z → fs store bitmap → outcome (bool * fs store bitmap);
  dir_open_root : fs store bitmap → outcome (option Z * fs store bitmap);
  dir_close : option Z → fs store bitmap → outcome (fs store bitmap);
  dir_lookup : Z → string → fs store bitmap → outcome (option Z * fs store bitmap);
  dir_add : Z → string → Z → fs store bitmap → outcome (bool * fs store bitmap);
  dir_remove : Z → string → fs store bitmap → outcome (bool * fs store bitmap)
}.

(** [NAME_MAX] of [filesys/directory.h]. *)
Definition name_invalid (name : string) : Prop :=
  String.length name = 0%nat ∨ (14 < String.length name)%nat.
#[export] Instance name_invalid_dec name : Decision (name_invalid name).
Proof. unfold name_invalid. apply _. Defined.

Section filesys.
Context {store bitmap : Type}.
Context `{SectorStore store, Bitmap bitmap, !BitmapFile store bitmap, !Directory store bitmap}.
Implicit Types (w : fs store bitmap).

(** [mem]: whether the [calloc] of [inode_create] succeeds. *)
Definition filesys_create (mem : bool) (name : string) (initial_size : Z) w
    : outcome (bool * fs store bitmap) :=
  '(dir, w0) ← dir_open_root w;
  '(success, inode_sector, w1) ←
    match dir with
    | None => Ret (false, 0, w0)
    | Some d =>
        '(r, w1) ← free_map_allocate w0;
        match r with
        | None => Ret (false, 0, w1)
        | Some s =>
            '(created, w2) ← inode_create mem s initial_size w1;
            if created : bool then
              '(added, w3) ← dir_add d name s w2;
              Ret (added, s, w3)
            else Ret (false, s, w2)
        end
    end;
  w2 ← (if negb success && negb (inode_sector =? 0) then free_map_release inode_sector w1
        else Ret w1);
  w3 ← dir_close dir w2;
  Ret (success, w3).

Definition filesys_open (name : string) w : outcome (option Z * fs store bitmap) :=
  '(dir, w1) ← dir_open_root w;
  '(inode, w2) ← match dir with None => Ret (None, w1) | Some d => dir_lookup d name w1 end;
  w3 ← dir_close dir w2;
  file_open inode w3.

Definition filesys_remove (name : string) w : outcome (bool * fs store bitmap) :=
  '(dir, w1) ← dir_open_root w;
  '(success, w2) ← match dir with None => Ret (false, w1) | Some d => dir_remove d name w1 end;
  w3 ← dir_close dir w2;
  Ret (success, w3).

(** [mem1] and [mem2] are the allocations of [inode_create] and [inode_open]. *)
Definition do_format (mem1 : bool) (mem2 : option Z) w : outcome (fs store bitmap) :=
  w1 ← free_map_create (inode_create mem1) (inode_open mem2) w;
  '(ok, w2) ← dir_create ROOT_DIR_SECTOR 16 w1;
  ASSERT ok;;
  free_map_close w2.
End filesys.

Section device.
Context {dev bitmap kernel : Type}.
Context `{BlockDevice dev, Bitmap bitmap, !BitmapFile (cache dev) bitmap, !Directory (cache dev) bitmap}.
Variable thread_create : string → Z → kernel → outcome (Z * kernel).

Notation fsys := (fs (cache dev) bitmap).

(** [device] is what [block_get_role (BLOCK_FILESYS)] returns; [mem1], [mem2] and
    [mem3] are the allocations of [do_format] and of [free_map_open]. *)
Definition filesys_init (device : option dev) (format : bool) (mem1 : bool) (mem2 mem3 : option Z)
    (w : fsys) (k : kernel) : outcome (fsys * kernel) :=
  match device with
  | None => Panic
  | Some d =>
      let w0 := w <| sectors := (sectors w) <| fs_device := d |> |> in
      let w1 := inode_init w0 in
      '(c, k') ← cache_init thread_create (sectors w1) k;
      let w2 := w1 <| sectors := c |> in
      w3 ← free_map_init (block_size (fs_device (sectors w2))) w2;
      w4 ← (if format then do_format mem1 mem2 w3 else Ret w3);
      w5 ← free_map_open (inode_open mem3) w4;
      Ret (w5, k')
  end.

Definition filesys_done (w : fsys) : outcome fsys :=
  w1 ← free_map_close w;
  c ← cache_save (sectors w1);
  Ret (w1 <| sectors := c |>).
End device.

(** ** What the module relies on *)

Section laws.
Context {store bitmap : Type} `{SectorStore store, Bitmap bitmap}.
Context `{!BitmapFile store bitmap, !Directory store bitmap}.
Variables (fm_inode : Z) (fm_sectors : list Z).
(** The data sectors of the root directory. *)
Variable dir_sectors : list Z.
Implicit Types (w : fs store bitmap).

(** A directory operation may allocate, and writes only to new sectors and to those
    of the directory and of the free map. *)
Record dir_step w w' : Prop := {
  ds_wf : fm_wf fm_inode fm_sectors w';
  ds_size : store_size (sectors w') = store_size (sectors w);
  ds_marked : ∀ j, marked w j → marked w' j;
  ds_view : ∀ x, marked w x → x ∉ fm_sectors ++ dir_sectors →
    sview (sectors w') x = sview (sectors w) x
}.

Class DirectoryLaws : Prop := {
  dir_open_root_spec w : fm_wf fm_inode fm_sectors w →
    ∃ dir w', dir_open_root w = Ret (dir, w') ∧ dir_step w w' ∧ ∀ j, marked w' j ↔ marked w j;
  dir_close_spec dir w : fm_wf fm_inode fm_sectors w →
    ∃ w', dir_close dir w = Ret w' ∧ dir_step w w' ∧ ∀ j, marked w' j ↔ marked w j;
  dir_add_spec d name s w : fm_wf fm_inode fm_sectors w →
    ∃ added w', dir_add d name s w = Ret (added, w') ∧ dir_step w w';
  (** A name that is empty or too long is rejected before anything else. *)
  dir_add_invalid d name s w : name_invalid name → dir_add d name s w = Ret (false, w)
}.
End laws.
Arguments DirectoryLaws store bitmap {_ _ _} _ _ _.

Section specs.
Context {store bitmap : Type} `{SectorStoreLaws store, BitmapLaws bitmap}.
Context (fm_inode : Z) (fm_sectors dir_sectors : list Z).
Context `{!BitmapFile store bitmap, !BitmapFileLaws store bitmap fm_inode fm_sectors}.
Context `{!Directory store bitmap, !DirectoryLaws store bitmap fm_inode fm_sectors dir_sectors}.
Implicit Types (w : fs store bitmap) (d : inode_disk) (s : Z).

Notation fm_wf := (fm_wf fm_inode fm_sectors).
Notation fm_step := (fm_step fm_inode fm_sectors).
Notation dir_step := (dir_step fm_inode fm_sectors dir_sectors).
Notation file_ok := (file_ok fm_sectors).

Lemma dir_step_refl w : fm_wf w → dir_step w w.
Proof. by split. Qed.

Lemma dir_step_trans w1 w2 w3 : dir_step w1 w2 → dir_step w2 w3 → dir_step w1 w3.
Proof.
  intros [_ S1 M1 V1] [Hw S2 M2 V2]. split; [done|congruence|by auto|].
  intros x Hx Hn. rewrite V2, V1; auto.
Qed.

(** A step that allocates, and writes outside the used sectors only. *)
Lemma fm_step_dir xs w w' :
  fm_step xs w w' → (∀ j, marked w j → marked w' j) → (∀ x, x ∈ xs → x ∈ fm_sectors ∨ ¬ marked w x) →
  dir_step w w'.
Proof.
  intros [Hw _ Hsz Hv] Hm Hxs. split; [done..|]. intros x Hx Hn. apply Hv. intros Hin.
  destruct (Hxs x Hin); [set_solver|done].
Qed.

(** Allocation and [inode_create] together, as [filesys_create] calls them. *)
Lemma create_inode_spec w (mem : bool) (size : Z) :
  fm_wf w → 0 ≤ size ≤ DIRECT_MAX →
  ∃ r w1, free_map_allocate w = Ret (r, w1) ∧ dir_step w w1 ∧
    match r with
    | None => ∀ j, marked w1 j ↔ marked w j
    | Some s =>
        0 < s ∧ 0 ≤ s < store_size (sectors w) ∧ ¬ marked w s ∧
        ∃ ok w2, inode_create mem s size w1 = Ret (ok, w2) ∧ dir_step w w2 ∧
          if ok : bool then
            ∃ d, sview (sectors w2) s = encode_inode d ∧ inode_disk_wf d ∧ dk_length d = size ∧
              content d w2 = replicate (Z.to_nat size) 0 ∧ file_ok d w2 ∧
              (∀ j, j ∈ file_sectors d → ¬ marked w j ∧ j ≠ s) ∧
              (∀ j, marked w2 j ↔ marked w j ∨ j ∈ s :: file_sectors d)
          else ∀ j, marked w2 j ↔ marked w j ∨ j = s
    end.
Proof.
  intros Hw Hlen. destruct (free_map_allocate_spec fm_inode fm_sectors w Hw) as (r & w1 & Hal & Hst & Hr).
  exists r, w1. split; [done|]. destruct r as [s|].
  - destruct Hr as (Hs & Hnm & _ & Ht).
    assert (∀ j, marked w1 j ↔ marked w j ∨ j = s) as Hm1.
    { intros j. unfold marked. rewrite Ht. case_decide; [subst|]; naive_solver. }
    assert (∀ x, x ∈ FREE_MAP_SECTOR :: ROOT_DIR_SECTOR :: fm_sectors → x ≠ s) as Hres.
    { intros x Hx ->. apply Hnm. by apply (fw_used _ _ _ Hw). }
    assert (dir_step w w1) as Hd1.
    { apply (fm_step_dir fm_sectors); [done|by intros ? ?; apply Hm1; left|by left]. }
    split; [done|]. split.
    { specialize (Hres FREE_MAP_SECTOR). unfold FREE_MAP_SECTOR in *.
      assert (0 ≠ s) by (apply Hres; by left). lia. }
    split; [done|]. split; [done|].
    assert (s ∉ fm_sectors) as Hsf by (intros ?; by apply (Hres s); [by do 2 right|]).
    destruct mem.
    + destruct (inode_create_ret fm_inode fm_sectors w1 s size) as (ok & w2 & Hc & Hw2 & Hok);
        [apply Hst|by rewrite (fs_size _ _ _ _ _ Hst)|apply Hm1; by right|done|done|].
      exists ok, w2. split; [done|]. destruct ok.
      * destruct Hok as (d & news & Hv & Hdw & El & Hct & Hf & <- & (Hnew & _ & Hm2) & Hst2).
        assert (∀ j, j ∈ file_sectors d → ¬ marked w j ∧ j ≠ s) as Hfree.
        { intros j Hj. destruct (Hnew j Hj) as (_ & _ & Hn). rewrite Hm1 in Hn. tauto. }
        assert (∀ j, marked w2 j ↔ marked w j ∨ j ∈ s :: file_sectors d) as Hm.
        { intros j. rewrite Hm2, Hm1, elem_of_cons. tauto. }
        split; [|exists d; split_and!; done].
        eapply fm_step_dir; [by eapply fm_step_trans|by intros; apply Hm; left|].
        intros x [?|[->|[Hx|?]%elem_of_app]%elem_of_cons]%elem_of_app; auto.
        right. by apply Hfree.
      * destruct Hok as (Hm2 & _ & Hsz2 & Hv2 & _). split; [|intros j; by rewrite Hm2, Hm1].
        destruct Hd1 as [_ Sd Md Vd].
        split; [done|congruence|by intros j ?; apply Hm2; auto|].
        intros x Hx Hn. rewrite Hv2; [by apply Vd|by apply Md|set_solver].
    + exists false, w1. by split_and!.
  - split; [|intros j; unfold marked; by rewrite (proj1 Hr)].
    apply (fm_step_dir fm_sectors); [done| |by left]. intros j. unfold marked. by rewrite (proj1 Hr).
Qed.

(** Giving back a sector that was taken since [w]. *)
Lemma release_taken w w1 s :
  fm_wf w → dir_step w w1 → 0 ≤ s < store_size (sectors w) → ¬ marked w s → marked w1 s →
  ∃ w2, free_map_release s w1 = Ret w2 ∧ dir_step w w2 ∧ ∀ j, marked w2 j ↔ marked w1 j ∧ j ≠ s.
Proof.
  intros Hw [Hw1 Sz Mk Vw] Hs Hn Hm.
  destruct (free_map_release_spec fm_inode fm_sectors w1 s) as (w2 & Hr & [Hw2 _ Sz2 Vw2] & Ht);
    [done|by rewrite Sz| |done|].
  { intros Hin. apply Hn. by apply (fw_used _ _ _ Hw). }
  assert (∀ j, marked w2 j ↔ marked w1 j ∧ j ≠ s) as Hm2.
  { intros j. unfold marked. rewrite Ht. case_decide; naive_solver. }
  exists w2. split; [done|]. split; [|done]. split; [done|congruence| |].
  - intros j Hj. apply Hm2. split; [by apply Mk|]. by intros ->.
  - intros x Hx Hxn. rewrite Vw2; [by apply Vw|set_solver].
Qed.

(** What [filesys_create] does to the map when it fails: [leaked] sectors stay in use. *)
Definition create_failed (name : string) (leaked : list Z) w w' : Prop :=
  (∀ j, marked w' j ↔ marked w j) ∨
  ∃ dir s w1 w2, dir_add dir name s w1 = Ret (false, w2) ∧ ¬ marked w s ∧ ¬ marked w' s ∧
    ∀ j, j ∈ leaked → marked w' j ∧ ¬ marked w j.

Definition file_created (name : string) (size : Z) w w' : Prop :=
  ∃ dir s w1 w2 d, dir_add dir name s w1 = Ret (true, w2) ∧ ¬ marked w s ∧ marked w' s ∧
    sview (sectors w') s = encode_inode d ∧ inode_disk_wf d ∧ dk_length d = size ∧
    content d w' = replicate (Z.to_nat size) 0 ∧ file_ok d w'.

Lemma filesys_create_ret (mem : bool) (name : string) (size : Z) w :
  fm_wf w → (∀ x, x ∈ dir_sectors → marked w x) → 0 ≤ size ≤ DIRECT_MAX →
  ∃ ok leaked w', filesys_create mem name size w = Ret (ok, w') ∧ dir_step w w' ∧
    length leaked = Z.to_nat ((size + 511) / 512) ∧
    if ok : bool then file_created name size w w' else create_failed name leaked w w'.
Proof.
  intros Hw Hds Hlen. unfold filesys_create.
  destruct (dir_open_root_spec _ _ _ w Hw) as (dir & w0 & -> & Hd0 & Hm0). ret.
  pose proof Hd0 as [Hw0 Sz0 _ Vw0].
  assert (∀ w1, dir_step w w1 → ∃ w', dir_close dir w1 = Ret w' ∧ dir_step w w' ∧
    (∀ j, marked w' j ↔ marked w1 j) ∧ dir_step w1 w') as Hclose.
  { intros w1 Hd. destruct (dir_close_spec _ _ _ dir w1) as (w' & ? & ? & ?); [apply Hd|].
    exists w'. split_and!; [done|by eapply dir_step_trans|done|done]. }
  set (zs := replicate (Z.to_nat ((size + 511) / 512)) 0).
  assert (length zs = Z.to_nat ((size + 511) / 512)) as Hzs by apply length_replicate.
  destruct dir as [dir|].
  2: { ret. simpl. ret. destruct (Hclose w0 Hd0) as (w' & -> & Hd & Hm & _). ret.
    exists false, zs, w'. split_and!; [done|done|done|]. left. intros j. by rewrite Hm. }
  destruct (create_inode_spec w0 mem size Hw0 Hlen) as (r & w1 & -> & Hd1 & Hr). ret.
  destruct r as [s|].
  2: { ret. simpl. ret. assert (dir_step w w1) as Hd01 by (by eapply dir_step_trans).
    destruct (Hclose w1 Hd01) as (w' & -> & Hd & Hm & _). ret.
    exists false, zs, w'. split_and!; [done|done|done|]. left. intros j. by rewrite Hm, Hr. }
  destruct Hr as (Hs0 & Hs & Hnm & ok & w2 & -> & Hd2 & Hok). ret.
  rewrite Sz0 in Hs. rewrite Hm0 in Hnm.
  assert (dir_step w w2) as Hd02 by (by eapply dir_step_trans).
  assert (∀ x, marked w x → x ≠ s) as Hne by (by intros x ? ->).
  destruct ok.
  - destruct Hok as (d & Hv & Hdw & El & Hct & Hf & Hfree & Hm2).
    destruct (dir_add_spec _ _ _ dir name s w2) as (added & w3 & Hadd & Hd23); [apply Hd2|].
    rewrite Hadd. ret. pose proof Hd23 as [_ _ Mk23 _]. assert (dir_step w w3) as Hd3 by (by eapply dir_step_trans).
    assert (∀ x, x ∈ s :: file_sectors d → ¬ marked w x) as Hnew.
    { intros x [->|Hx]%elem_of_cons; [done|]. rewrite <- Hm0. by apply Hfree. }
    assert (∀ x, x ∈ s :: file_sectors d → marked w2 x ∧ x ∉ fm_sectors ++ dir_sectors) as Hown.
    { intros x Hx. split; [apply Hm2; by right|]. intros [Hin|Hin]%elem_of_app.
      - apply (Hnew x Hx), (fw_used _ _ _ Hw). by do 2 right.
      - by apply (Hnew x Hx), Hds. }
    destruct added.
    + simpl. ret. destruct (Hclose w3 Hd3) as (w' & -> & Hd & Hm & Hd3'). ret.
      exists true, zs, w'. split_and!; [done..|].
      destruct (dir_step_trans _ _ _ Hd23 Hd3') as [_ Sz Mk Vw]. exists dir, s, w2, w3, d.
      assert (∀ x, x ∈ s :: file_sectors d → sview (sectors w') x = sview (sectors w2) x) as Hsame.
      { intros x Hx. apply Vw; by apply Hown. }
      split_and!; [done|done| | |done|done| |].
      * apply Mk, Hown. by left.
      * rewrite Hsame; [done|by left].
      * rewrite (content_ext d w2 w'); [done|]. intros x Hx. apply Hsame. by right.
      * apply (file_ok_ext _ d w2); [done|done| |by intros; apply Mk].
        intros x Hx. apply Hsame. by right.
    + simpl. rewrite (proj2 (Z.eqb_neq s 0)) by lia. simpl.
      destruct (release_taken w w3 s) as (w4 & -> & Hd4 & Hm4); [done|done|done|done| |].
      { apply Mk23, Hown. by left. }
      ret. destruct (Hclose w4 Hd4) as (w' & -> & Hd & Hm & _). ret.
      exists false, (file_sectors d), w'. split; [done|]. split; [done|]. split.
      { rewrite (length_file_sectors _ d w2) by done. unfold n_sectors. by rewrite El. }
      right. exists dir, s, w2, w3. split; [done|]. split; [done|]. split; [rewrite Hm, Hm4; tauto|].
      intros j Hj. split; [|apply Hnew; by right]. apply Hm, Hm4.
      split; [apply Mk23, Hm2; by do 2 right|by apply Hfree].
  - ret. simpl. rewrite (proj2 (Z.eqb_neq s 0)) by lia. simpl.
    destruct (release_taken w w2 s) as (w3 & -> & Hd3 & Hm3); [done|done|done|done| |].
    { apply Hok. by right. }
    ret. destruct (Hclose w3 Hd3) as (w' & -> & Hd & Hm & _). ret.
    exists false, zs, w'. split_and!; [done|done|done|]. left. intros j.
    rewrite Hm, Hm3, Hok, Hm0. naive_solver.
Qed.

(** C32. [filesys_create] of at most [DIRECT_MAX] bytes (188 * 512: a file within the
    direct sectors; creating a longer one grows it through indirect sector 0 and
    overwrites sector 0, [indirect_growth_clobbers_free_map]) returns.  On success the
    directory has an entry for a fresh inode sector that holds a file of the size asked
    for, reading as zeros; on failure the map is as it was, unless it was [dir_add] that
    failed; and in both cases no sector in use before is freed or overwritten, the
    directory's own excepted. *)
Theorem filesys_create_correct (mem : bool) (name : string) (size : Z) w :
  fm_wf w → (∀ x, x ∈ dir_sectors → marked w x) → 0 ≤ size ≤ DIRECT_MAX →
  ∃ ok leaked w', filesys_create mem name size w = Ret (ok, w') ∧ fm_wf w' ∧
    (∀ j, marked w j → marked w' j) ∧
    (∀ x, marked w x → x ∉ fm_sectors ++ dir_sectors → sview (sectors w') x = sview (sectors w) x) ∧
    if ok : bool then file_created name size w w' else create_failed name leaked w w'.
Proof.
  intros Hw Hds Hlen.
  destruct (filesys_create_ret mem name size w Hw Hds Hlen) as (ok & l & w' & Hr & [? _ ? ?] & _ & Hok).
  exists ok, l, w'. by split_and!.
Qed.

(** A name that [dir_add] rejects costs the disk space of the file: [filesys_create]
    returns false and gives back the inode's sector, but the data sectors that
    [inode_create] allocated stay in use for ever (or nothing was allocated). *)
Theorem filesys_create_leaks (mem : bool) (name : string) (size : Z) w :
  fm_wf w → (∀ x, x ∈ dir_sectors → marked w x) → 0 ≤ size ≤ DIRECT_MAX → name_invalid name →
  ∃ w', filesys_create mem name size w = Ret (false, w') ∧
    ((∀ j, marked w' j ↔ marked w j) ∨
     ∃ leaked, length leaked = Z.to_nat ((size + 511) / 512) ∧
       ∀ j, j ∈ leaked → marked w' j ∧ ¬ marked w j).
Proof.
  intros Hw Hds Hlen Hn.
  destruct (filesys_create_ret mem name size w Hw Hds Hlen) as (ok & l & w' & Hr & _ & Hl & Hok).
  exists w'. destruct ok.
  - destruct Hok as (d & s & w1 & w2 & ? & Hadd & _). by rewrite (dir_add_invalid fm_inode fm_sectors dir_sectors) in Hadd.
  - split; [done|]. destruct Hok as [?|(? & ? & ? & ? & _ & _ & _ & Hlk)]; [by left|right].
    by exists l.
Qed.
End specs.

(** ** Shutting down and starting again *)

Section reboot.
Context {dev bitmap kernel : Type} `{BlockDeviceLaws dev, Bitmap bitmap}.
Context `{!BitmapFile (cache dev) bitmap, !Directory (cache dev) bitmap}.
Variable thread_create : string → Z → kernel → outcome (Z * kernel).
Variable fm_inode : Z.

Notation fsys := (fs (cache dev) bitmap).
Implicit Types (w : fsys).

(** The file operations that shutting down and starting rely on: closing the free
    map's file writes nothing, and reading the bitmap from a file that is long
    enough succeeds and writes nothing. *)
Class FreeMapFileLaws : Prop := {
  file_close_spec f w : fm_idle fm_inode w →
    ∃ w', file_close f w = Ret w' ∧ sectors w' = sectors w;
  file_open_read_spec w p i :
    store_wf (sectors w) → inodes w !! p = Some i → lock i = false →
    bitmap_file_size (free_map w) ≤ dk_length (data i) →
    ∃ f w1, file_open (Some p) w = Ret (Some f, w1) ∧
      ∃ b w2, bitmap_read (free_map w1) f (w1 <| free_map_file := Some f |>) = Ret (true, b, w2) ∧
        store_wf (sectors w2) ∧ ∀ s, sview (sectors w2) s = sview (sectors w) s
}.
Context `{!FreeMapFileLaws}.

(** [cache_save] at the interface of Store.v. *)
Lemma cache_save_persists (c : cache dev) :
  store_wf c → ∃ c', cache_save c = Ret c' ∧ store_wf c' ∧ store_size c' = store_size c ∧
    ∀ s, 0 ≤ s < store_size c → sector_data (fs_device c') s = sview c s.
Proof.
  intros Hc. destruct (cache_save_ret c Hc) as (c' & Hs & Hc' & Hsz & _ & Hd).
  exists c'. split_and!; [done..|]. intros s Hs'. simpl. by rewrite decide_True, Hd.
Qed.

(** An empty cache shows the device. *)
Lemma boot_view (c : cache dev) :
  length (buffer_cache c) = CACHE_SIZE → (∀ e, e ∈ buffer_cache c → length (Cache.data e) = 512%nat) →
  block_wf (fs_device c) → block_size (fs_device c) ≤ Cache.NO_SECTOR →
  store_wf (allocate_cache (c <| buffer_lock := false |>)) ∧
  store_size (allocate_cache (c <| buffer_lock := false |>)) = block_size (fs_device c) ∧
  ∀ s, sview (allocate_cache (c <| buffer_lock := false |>)) s =
    if decide (0 ≤ s < block_size (fs_device c)) then sector_data (fs_device c) s else [].
Proof.
  intros Hl Hd Hwf Hsz.
  destruct (allocate_cache_inv (c <| buffer_lock := false |>)) as [Hinv Hv]; [done..|].
  split; [done|]. split; [done|]. intros s. simpl. unfold valid_sector. simpl.
  case_decide; [|done]. by apply Hv.
Qed.

(** Opening the free map when no inode is open reads, and changes no sector. *)
Lemma free_map_open_ret w (q : Z) :
  store_wf (sectors w) → 0 < store_size (sectors w) → open_inodes w = [] →
  bitmap_file_size (free_map w) ≤ dk_length (decode_inode (sview (sectors w) FREE_MAP_SECTOR)) →
  ∃ w', free_map_open (inode_open (Some q)) w = Ret w' ∧
    ∀ s, sview (sectors w') s = sview (sectors w) s.
Proof.
  intros Hw Hpos Hno Hsz. unfold free_map_open, open_free_map_file.
  destruct (inode_open_fresh w q FREE_MAP_SECTOR) as (w1 & -> & _ & Ein & Efm & _ & Hw1 & _ & Hv1);
    [done|unfold FREE_MAP_SECTOR; lia|by rewrite Hno; intros ? ?%not_elem_of_nil|]. ret.
  destruct (file_open_read_spec w1 q (Inode FREE_MAP_SECTOR 1 false 0 false
    (decode_inode (sview (sectors w) FREE_MAP_SECTOR)))) as (f & w2 & -> & b & w3 & Hrd & _ & Hv3);
    [done|by rewrite Ein, lookup_insert_eq|done|by rewrite Efm|]. ret.
  simpl in Hrd. simpl. rewrite Hrd. ret. eexists. split; [done|]. intros s. simpl.
  change (sview (sectors w3) s = sview (sectors w) s). by rewrite Hv3, Hv1.
Qed.

(** C27. Nothing is lost across a shutdown: after [filesys_done], starting on the same
    device with an empty cache shows every sector as it was, provided the inode of
    the free map is long enough for its bitmap. *)
Theorem filesys_reboot w w0 (q : Z) (m1 : bool) (m2 : option Z) (k k' : kernel) t b :
  let boot_map := bitmap_mark (bitmap_mark b FREE_MAP_SECTOR) ROOT_DIR_SECTOR in
  store_wf (sectors w) → 0 < store_size (sectors w) → fm_idle fm_inode w →
  length (buffer_cache (sectors w0)) = CACHE_SIZE →
  (∀ e, e ∈ buffer_cache (sectors w0) → length (Cache.data e) = 512%nat) →
  thread_create "write-behind" WRITE_BEHIND_PRIORITY k = Ret (t, k') →
  bitmap_create (store_size (sectors w)) = Some b →
  bitmap_file_size boot_map ≤ dk_length (decode_inode (sview (sectors w) FREE_MAP_SECTOR)) →
  ∃ w1 w2, filesys_done w = Ret w1 ∧
    filesys_init thread_create (Some (fs_device (sectors w1))) false m1 m2 (Some q) w0 k
      = Ret (w2, k') ∧
    ∀ s, 0 ≤ s < store_size (sectors w) → sview (sectors w2) s = sview (sectors w) s.
Proof.
  intros boot_map Hw Hpos Hidle Hlen Hdata Ht Hb Hsize.
  unfold filesys_done, free_map_close.
  destruct (file_close_spec (free_map_file w) w Hidle) as (v & -> & Ev). ret. rewrite Ev.
  destruct (cache_save_persists (sectors w) Hw) as (c & -> & Hc & Hcsz & Hdev). ret.
  assert (block_wf (fs_device c) ∧ block_size (fs_device c) ≤ Cache.NO_SECTOR) as [Hbw Hbs]
    by apply (ci_dev None c Hc).
  destruct (boot_view ((sectors w0) <| fs_device := fs_device c |>)) as (Hcw & Hcs & Hcv);
    [done..|].
  set (c1 := allocate_cache _) in *. change (store_size c1 = store_size c) in Hcs.
  change (∀ s, sview c1 s = if decide (0 ≤ s < store_size c) then sector_data (fs_device c) s else [])
    in Hcv.
  set (w3 := w0 <| sectors := c1 |> <| open_inodes := [] |> <| free_map := boot_map |>).
  assert (∀ s, 0 ≤ s < store_size (sectors w) → sview c1 s = sview (sectors w) s) as Hv1.
  { intros s Hs. rewrite Hcv, decide_True; [by apply Hdev|]. by rewrite Hcsz. }
  destruct (free_map_open_ret w3 q) as (w4 & Hop & Hv4); [done| |done| |].
  { change (0 < store_size c1). by rewrite Hcs, Hcsz. }
  { change (bitmap_file_size boot_map ≤ dk_length (decode_inode (sview c1 FREE_MAP_SECTOR))).
    rewrite Hv1; [done|unfold FREE_MAP_SECTOR; lia]. }
  eexists _, w4. split; [done|]. split.
  - unfold filesys_init, cache_init. rewrite Ht. ret. unfold free_map_init.
    match goal with |- context [bitmap_create ?n] => change n with (store_size c) end.
    rewrite Hcsz, Hb. ret. transitivity (w5 ← Ret w4; Ret (w5, k')); [|done]. by rewrite <- Hop.
  - intros s Hs. rewrite Hv4. by apply Hv1.
Qed.
End reboot.

(** ** Witnesses: a directory of one entry, kept in sector 5 *)

#[local] Existing Instances Ramdisk.ops Ramdisk.laws BitList.ops BitList.laws.

#[local] Instance sample_dir : Directory (cache Ramdisk.disk) (list bool) := {|
  dir_create s n w := Ret (true, w);
  dir_open_root w := Ret (Some 1, w);
  dir_close d w := Ret w;
  dir_lookup d name w := Ret (None, w);
  dir_remove d name w := Ret (false, w);
  dir_add d name s w :=
    if decide (name_invalid name) then Ret (false, w)
    else if 5 <? store_size (sectors w) then
      st ← Store.cache_write 5 (le 2 s) 2 0 (sectors w);
      Ret (true, w <| sectors := st |>)
    else Ret (false, w)
|}.

#[local] Instance sample_dir_laws :
  DirectoryLaws (cache Ramdisk.disk) (list bool) fm_inode fm_sectors [5].
Proof.
  split.
  - intros w Hw. exists (Some 1), w. by split_and!.
  - intros dir w Hw. exists w. by split_and!.
  - intros d name s w Hw. pose proof (fw_store _ _ _ Hw) as Hst. simpl. case_decide.
    { exists false, w. by split_and!. }
    case_bool; [|exists false, w; by split_and!].
    destruct (cache_write_spec (sectors w) 5 (le 2 s) 2 0) as (st & Hr & Hwf & Hsz & Hv);
      [done|simpl; lia|lia|lia|done|].
    simpl in Hr. rewrite Hr. ret. exists true, (w <| sectors := st |>). split; [done|].
    destruct Hw as [? ? ? ? ?]. split; [split; [done|by transitivity (store_size (sectors w))|done..]|done|done|].
    intros x _ Hx. change (sview st x = sview (sectors w) x).
    rewrite Hv, decide_False; [done|set_solver].
  - intros d name s w Hn. simpl. by rewrite decide_True.
Qed.

Definition dir_fs : disk_fs := sample_fs <| free_map := replicate 6 true ++ replicate 58 false |>.

Lemma dir_fs_wf : fm_wf fm_inode fm_sectors dir_fs.
Proof.
  destruct sample_fm_wf as [? _ _ ? ?]. split; [done|done| |done|done].
  intros x Hx. repeat (apply elem_of_cons in Hx as [->|Hx]; [reflexivity|]).
  by apply not_elem_of_nil in Hx.
Qed.

Lemma dir_fs_marked x : x ∈ [5] → marked dir_fs x.
Proof. by intros ->%list_elem_of_singleton. Qed.

Lemma filesys_create_correct_witness :
  ∃ ok leaked w', filesys_create true "notes" 600 dir_fs = Ret (ok, w') ∧
    fm_wf fm_inode fm_sectors w' ∧ (∀ j, marked dir_fs j → marked w' j) ∧
    (∀ x, marked dir_fs x → x ∉ fm_sectors ++ [5] →
      sview (sectors w') x = sview (sectors dir_fs) x) ∧
    if ok : bool then file_created fm_sectors "notes" 600 dir_fs w'
    else create_failed "notes" leaked dir_fs w'.
Proof.
  apply (filesys_create_correct fm_inode fm_sectors [5] true "notes" 600 dir_fs).
  - exact dir_fs_wf.
  - exact dir_fs_marked.
  - split; discriminate.
Defined.

Lemma filesys_create_leaks_witness :
  ∃ w', filesys_create true "" 600 dir_fs = Ret (false, w') ∧
    ((∀ j, marked w' j ↔ marked dir_fs j) ∨
     ∃ leaked, length leaked = 2%nat ∧ ∀ j, j ∈ leaked → marked w' j ∧ ¬ marked dir_fs j).
Proof.
  apply (filesys_create_leaks fm_inode fm_sectors [5] true "" 600 dir_fs).
  - exact dir_fs_wf.
  - exact dir_fs_marked.
  - split; discriminate.
  - by left.
Defined.

#[local] Instance sample_fm_file_laws : FreeMapFileLaws (dev := Ramdisk.disk) fm_inode.
Proof.
  split.
  - intros f w _. by exists w.
  - intros w p i Hw Hi Hl Hlen. exists p, w. split; [done|]. simpl. case_bool.
    + destruct (cache_read_spec (sectors w) 2 512 0) as (st & Hr & Hwf & Hsz & Hv);
        [done|simpl; lia|done..|].
      simpl in Hr. simpl. rewrite Hr. ret. eexists _, _. split; [done|]. done.
    + eexists _, _. split; [done|]. done.
Qed.

Definition boot_disk : Ramdisk.disk :=
  Ramdisk.Disk 64 {[ 0 := encode_inode (zero_inode <| dk_length := 8 |>) ]}.

(** The cache array as it is after [allocate_cache], and before. *)
Definition boot_store : cache Ramdisk.disk :=
  allocate_cache (Cache (replicate CACHE_SIZE (CacheEntry 0 false false false zero_sector)) false
    boot_disk).

Definition boot_fs : disk_fs := sample_fs <| sectors := boot_store |>.

Lemma boot_store_wf : store_wf boot_store.
Proof.
  apply (allocate_cache_inv (Cache (replicate CACHE_SIZE (CacheEntry 0 false false false zero_sector))
    false boot_disk)); [reflexivity| |reflexivity| |discriminate].
  - by intros e [-> _]%elem_of_replicate.
  - apply map_Forall_singleton. reflexivity.
Qed.

Lemma filesys_reboot_witness :
  ∃ w1 w2, filesys_done boot_fs = Ret w1 ∧
    filesys_init (λ _ _ k, Ret (1, k)) (Some (fs_device (sectors w1))) false true None (Some 99)
      boot_fs tt = Ret (w2, tt) ∧
    ∀ s, 0 ≤ s < 64 → sview (sectors w2) s = sview (sectors boot_fs) s.
Proof.
  refine (filesys_reboot (λ _ _ k, Ret (1, k)) fm_inode boot_fs boot_fs 99 true None tt tt 1
    (replicate 64 false) _ _ _ _ _ _ _ _).
  - exact boot_store_wf.
  - reflexivity.
  - eexists. split; reflexivity.
  - reflexivity.
  - intros e [j Hj]%list_elem_of_lookup_1.
    exact (eo_length _ _ _ (ci_entry None boot_store boot_store_wf j e Hj)).
  - reflexivity.
  - reflexivity.
  - vm_compute. discriminate.
Defined.
