(* ===== verification/PageDir.v ===== *)
(** * Page directories (virtual-memory/userprog/pagedir.c)

    Page directories and page tables are kernel pages of 1,024 words, named by
    their addresses.  Besides them the state has CR3 and the translation
    lookaside buffer, which the hardware empties when CR3 is loaded; the TLB is
    why [invalidate_pagedir] exists.  A null [uint32_t *] is [None]. *)
From S2P Require Import Prelude CInt Mmu.
Open Scope Z_scope.

(** [tables]: page directories and tables; [init_page_dir] and [init_ram_pages] of
    [threads/init.h]; [cr3]; [tlb]: cached page table entries, by page number. *)
Record mmu := MkMmu {
  tables : gmap Z (list Z);
  init_page_dir : Z;
  init_ram_pages : Z;
  cr3 : Z;
  tlb : gmap Z Z
}.
#[export] Instance eta_mmu : Eta mmu := λ t,
  MkMmu (tables t) (init_page_dir t) (init_ram_pages t) (cr3 t) (tlb t).

Section pagedir.
Context `{Vaddr, !Pte}.
Implicit Types (t : mmu) (pd : option Z) (v upage kpage : Z).

(** [*p] for a pointer into a page of words, and [*p = e]. *)
Definition word t (p : Z * nat) : outcome Z :=
  tbl ← deref (tables t !! p.1); deref (tbl !! p.2).
Definition set_word (p : Z * nat) (e : Z) t : mmu :=
  t <| tables := alter (λ tbl, <[p.2 := e]> tbl) p.1 (tables t) |>.

(** [mem]: the page that [palloc_get_page (0)] returns, if any. *)
Definition pagedir_create (mem : option Z) t : outcome (option Z * mmu) :=
  match mem with
  | None => Ret (None, t)
  | Some p =>
      dir ← deref (tables t !! init_page_dir t);
      Ret (Some p, t <| tables := <[p := dir]> (tables t) |>)
  end.

Definition palloc_free_page (p : Z) t : mmu := t <| tables := delete p (tables t) |>.

(** The loop of [pagedir_destroy]: [n] entries of [pd] from the [i]-th on. *)
Fixpoint destroy_loop (n i : nat) (p : Z) t : outcome mmu :=
  match n with
  | O => Ret t
  | S n' =>
      pde ← word t (p, i);
      destroy_loop n' (S i) p (if flag_set PTE_P pde then palloc_free_page (pde_get_pt pde) t else t)
  end.

Definition pagedir_destroy pd t : outcome mmu :=
  match pd with
  | None => Ret t
  | Some p =>
      ASSERT (negb (p =? init_page_dir t));;
      t1 ← destroy_loop (pd_no PHYS_BASE) 0 p t;
      Ret (palloc_free_page p t1)
  end.

(** [mem]: the page that [palloc_get_page (PAL_ZERO)] returns, if any. *)
Definition lookup_page (mem : option Z) pd v (create : bool) t : outcome (option (Z * nat) * mmu) :=
  ASSERT (match pd with Some _ => true | None => false end);;
  ASSERT (negb create || is_user_vaddr v);;
  p ← deref pd;
  let pde := (p, pd_no v) in
  e ← word t pde;
  let found t' := (e' ← word t' pde; Ret (Some (pde_get_pt e', pt_no v), t')) in
  if e =? 0 then
    if create then
      match mem with
      | None => Ret (None, t)
      | Some pt =>
          let t1 := t <| tables := <[pt := replicate 1024 0]> (tables t) |> in
          found (set_word pde (pde_create pt) t1)
      end
    else Ret (None, t)
  else found t.

Definition pagedir_set_page (mem : option Z) pd upage kpage (writable : bool) t
    : outcome (bool * mmu) :=
  ASSERT (pg_ofs upage =? 0);;
  ASSERT (pg_ofs kpage =? 0);;
  ASSERT (is_user_vaddr upage);;
  ASSERT (Z.shiftr (vtop kpage) PTSHIFT <? init_ram_pages t);;
  ASSERT (bool_decide (pd ≠ Some (init_page_dir t)));;
  '(pte, t1) ← lookup_page mem pd upage true t;
  ASSERT (match pte with Some _ => true | None => false end);;
  match pte with
  | Some a =>
      e ← word t1 a;
      ASSERT (negb (flag_set PTE_P e));;
      Ret (true, set_word a (pte_create_user kpage writable) t1)
  | None => Ret (false, t1)
  end.

Definition pagedir_get_page pd v t : outcome (option Z) :=
  ASSERT (is_user_vaddr v);;
  '(pte, _) ← lookup_page None pd v false t;
  match pte with
  | Some a =>
      e ← word t a;
      Ret (if flag_set PTE_P e then Some (pte_get_page e + pg_ofs v) else None)
  | None => Ret None
  end.

(** Loading CR3 empties the TLB. *)
Definition pagedir_activate pd t : mmu :=
  let p := match pd with None => init_page_dir t | Some p => p end in
  t <| cr3 := vtop p |> <| tlb := ∅ |>.

Definition active_pd t : Z := ptov (cr3 t).

Definition invalidate_pagedir (p : Z) t : mmu :=
  if active_pd t =? p then pagedir_activate (Some p) t else t.

Definition pagedir_clear_page pd upage t : outcome mmu :=
  ASSERT (pg_ofs upage =? 0);;
  ASSERT (is_user_vaddr upage);;
  '(pte, _) ← lookup_page None pd upage false t;
  match pte with
  | Some a =>
      e ← word t a;
      if flag_set PTE_P e then
        p ← deref pd;
        Ret (invalidate_pagedir p (set_word a (clear_flag PTE_P e) t))
      else Ret t
  | None => Ret t
  end.

(** [pagedir_is_dirty] and [pagedir_is_accessed] test a flag of the entry,
    [pagedir_set_dirty] and [pagedir_set_accessed] change it. *)
Definition is_flag (flag : Z) pd v t : outcome bool :=
  '(pte, _) ← lookup_page None pd v false t;
  match pte with
  | Some a => e ← word t a; Ret (flag_set flag e)
  | None => Ret false
  end.

Definition change_flag (flag : Z) pd v (b : bool) t : outcome mmu :=
  '(pte, _) ← lookup_page None pd v false t;
  match pte with
  | Some a =>
      e ← word t a;
      if b then Ret (set_word a (set_flag flag e) t)
      else
        p ← deref pd;
        Ret (invalidate_pagedir p (set_word a (clear_flag flag e) t))
  | None => Ret t
  end.

Definition pagedir_is_dirty pd v t : outcome bool := is_flag PTE_D pd v t.
Definition pagedir_set_dirty pd v (dirty : bool) t : outcome mmu := change_flag PTE_D pd v dirty t.
Definition pagedir_is_accessed pd v t : outcome bool := is_flag PTE_A pd v t.
Definition pagedir_set_accessed pd v (accessed : bool) t : outcome mmu :=
  change_flag PTE_A pd v accessed t.
End pagedir.

(** ** Invariant and abstract view *)

Section invariant.
Context `{VaddrLaws, !Pte, !PteLaws}.
Implicit Types (t : mmu) (p q pt v u e : Z) (i j : nat) (pds : gset Z).

(** The entry [e] of a directory names the page table [pt].  Its other bits are free:
    the processor sets the accessed bit of an entry that it uses. *)
Definition pde_for e pt : Prop :=
  kernel_page pt ∧ pde_get_pt e = pt ∧ flag_set PTE_P e = true.

(** The directories [pds] are pages of words; their entries name page tables, and a
    page table for user addresses belongs to one entry of one directory. *)
Record mmu_wf pds t : Prop := {
  mw_dir : ∀ p, p ∈ pds → ∃ dir, tables t !! p = Some dir ∧ length dir = 1024%nat;
  mw_pde : ∀ p i e, p ∈ pds → word t (p, i) = Ret e → e ≠ 0 →
    ∃ pt tbl, pde_for e pt ∧ pt ∉ pds ∧ tables t !! pt = Some tbl ∧ length tbl = 1024%nat;
  mw_own : ∀ p q i j d e pt, p ∈ pds → q ∈ pds → (i < pd_no PHYS_BASE)%nat →
    word t (p, i) = Ret d → word t (q, j) = Ret e → pde_for d pt → pde_for e pt → p = q ∧ i = j
}.

(** The page table entry for [v] in directory [p]; 0 when there is no table. *)
Definition pte_of t p v : Z :=
  match word t (p, pd_no v) with
  | Ret e => if e =? 0 then 0
             else match word t (pde_get_pt e, pt_no v) with Ret e' => e' | _ => 0 end
  | _ => 0
  end.

Definition user_addr v : Prop := 0 ≤ v < PHYS_BASE.
Definition addr v : Prop := 0 ≤ v < 4294967296.

Lemma user_is_addr v : user_addr v → addr v.
Proof. unfold user_addr, addr. destruct PHYS_BASE_spec. lia. Qed.

Lemma pd_no_lt v : addr v → (pd_no v < 1024)%nat.
Proof. unfold addr. intros. rewrite pd_no_spec. Z.to_euclidean_division_equations; lia. Qed.

Lemma pt_no_lt v : (pt_no v < 1024)%nat.
Proof. rewrite pt_no_spec. pose proof (Z.mod_pos_bound (v / PGSIZE) 1024). lia. Qed.

Lemma user_pd_no v : user_addr v → (pd_no v < pd_no PHYS_BASE)%nat.
Proof.
  unfold user_addr. intros. rewrite !pd_no_spec. destruct PHYS_BASE_spec as [? [a Ha]].
  rewrite Ha, Z.div_mul by lia. assert (v / 4194304 < a) by (apply Z.div_lt_upper_bound; lia).
  pose proof (Z.div_pos v 4194304). lia.
Qed.

(** The two indices of an address are its page number. *)
Lemma same_page u v : addr u → addr v →
  (pd_no u = pd_no v ∧ pt_no u = pt_no v) ↔ u / PGSIZE = v / PGSIZE.
Proof.
  unfold addr, PGSIZE. intros Hu Hv. rewrite !pd_no_spec, !pt_no_spec. unfold PGSIZE.
  assert (∀ x, x / 4194304 = x / 4096 / 1024) as E by (intros; by rewrite Z.div_div).
  rewrite !E. set (a := u / 4096). set (b := v / 4096).
  assert (0 ≤ a) by (apply Z.div_pos; lia). assert (0 ≤ b) by (apply Z.div_pos; lia).
  split; [|by intros ->]. intros [E1 E2].
  apply Z2Nat.inj in E1; [|apply Z.div_pos; lia..].
  apply Z2Nat.inj in E2; [|apply Z.mod_pos_bound; lia..].
  rewrite (Z.div_mod a 1024), (Z.div_mod b 1024) by lia. lia.
Qed.

Lemma pde_nonzero e pt : pde_for e pt → e ≠ 0.
Proof. intros (_ & _ & Hf) ->. done. Qed.

Lemma pde_for_create pt : kernel_page pt → pde_for (pde_create pt) pt.
Proof. intros Hk. destruct (pde_create_spec pt Hk). by split. Qed.

Lemma pde_for_inj e pt pt' : pde_for e pt → pde_for e pt' → pt = pt'.
Proof. intros (_ & <- & _) (_ & <- & _). done. Qed.

(** *** Words *)

Lemma word_set_ne t a b e : a.1 ≠ b.1 ∨ a.2 ≠ b.2 → word (set_word a e t) b = word t b.
Proof.
  intros Hne. unfold word, set_word. simpl. destruct (decide (b.1 = a.1)) as [E|?].
  - rewrite E, lookup_alter_eq. destruct (tables t !! a.1) as [tbl|]; [|done]. simpl.
    rewrite list_lookup_insert_ne; [done|]. destruct Hne; congruence.
  - by rewrite lookup_alter_ne by done.
Qed.

Lemma word_set_eq t a e tbl :
  tables t !! a.1 = Some tbl → (a.2 < length tbl)%nat → word (set_word a e t) a = Ret e.
Proof.
  intros Ht Hi. unfold word, set_word. simpl. rewrite lookup_alter_eq, Ht. simpl.
  by rewrite list_lookup_insert_eq.
Qed.

Lemma word_dir pds t p i : mmu_wf pds t → p ∈ pds → (i < 1024)%nat → ∃ e, word t (p, i) = Ret e.
Proof.
  intros Hw Hp Hi. destruct (mw_dir _ _ Hw p Hp) as (dir & Hd & Hl). unfold word. simpl.
  rewrite Hd. simpl. destruct (lookup_lt_is_Some_2 dir i) as [e He]; [lia|]. rewrite He. by exists e.
Qed.

(** The table behind an entry that is not 0. *)
Lemma pde_table pds t p v e :
  mmu_wf pds t → p ∈ pds → word t (p, pd_no v) = Ret e → e ≠ 0 →
  ∃ pt tbl, pde_for e pt ∧ pt ∉ pds ∧
    tables t !! pt = Some tbl ∧ length tbl = 1024%nat ∧ word t (pt, pt_no v) = Ret (pte_of t p v).
Proof.
  intros Hw Hp He Hne. destruct (mw_pde _ _ Hw p _ e Hp He Hne) as (pt & tbl & Hd & Hn & Ht & Hl).
  exists pt, tbl. split_and!; try done. destruct Hd as (_ & Epd & _).
  unfold pte_of. rewrite He, (proj2 (Z.eqb_neq _ _)), Epd by done. unfold word. simpl. rewrite Ht.
  simpl. destruct (lookup_lt_is_Some_2 tbl (pt_no v)) as [x ->]; [rewrite Hl; apply pt_no_lt|done].
Qed.

(** Writing the entry of a user address. *)
Lemma set_pte_spec pds t p v d pt e :
  mmu_wf pds t → p ∈ pds → user_addr v → word t (p, pd_no v) = Ret d → pde_for d pt →
  let t' := set_word (pt, pt_no v) e t in
  mmu_wf pds t' ∧
  ∀ q u, q ∈ pds → addr u →
    pte_of t' q u = if decide (q = p ∧ u / PGSIZE = v / PGSIZE) then e else pte_of t q u.
Proof.
  intros Hw Hp Hv Hpt Hd t'.
  destruct (pde_table pds t p v _ Hw Hp Hpt (pde_nonzero _ _ Hd)) as (pt' & tbl & Hd' & Hnp & Ht & Hl & _).
  rewrite (pde_for_inj _ _ _ Hd' Hd) in *. clear Hd' pt'.
  assert (∀ q j, q ∈ pds → word t' (q, j) = word t (q, j)) as Hdir.
  { intros q j Hq. apply word_set_ne. left. simpl. by intros <-. }
  split; [split|].
  - intros q Hq. destruct (mw_dir _ _ Hw q Hq) as (dir & Hdd & Hdl). exists dir. simpl.
    rewrite lookup_alter_ne; [done|]. by intros <-.
  - intros q j x Hq. rewrite Hdir by done. intros Hx Hx0.
    destruct (mw_pde _ _ Hw q j x Hq Hx Hx0) as (pt1 & tb1 & ? & ? & Ht1 & Hl1).
    exists pt1. simpl. destruct (decide (pt1 = pt)) as [->|].
    + rewrite lookup_alter_eq, Ht1. simpl. eexists. split_and!; [done..|]. by rewrite length_insert.
    + rewrite lookup_alter_ne by done. exists tb1. by split_and!.
  - intros q r i j d1 d2 pt1 Hq Hr. rewrite !Hdir by done. by apply (mw_own _ _ Hw).
  - intros q u Hq Hu. unfold pte_of at 1. rewrite Hdir by done.
    destruct (word_dir pds t q (pd_no u) Hw Hq) as [x Hx]; [by apply pd_no_lt|]. rewrite Hx.
    destruct (Z.eqb_spec x 0) as [->|Hx0].
    + rewrite decide_False; [by unfold pte_of; rewrite Hx|]. intros [-> Hpg].
      apply same_page in Hpg as [Epd _]; [|done|by apply user_is_addr]. rewrite Epd, Hpt in Hx.
      injection Hx. by eapply pde_nonzero.
    + destruct (pde_table pds t q u x Hw Hq Hx Hx0) as (pt1 & tb1 & Hd1 & _ & Ht1 & Hl1 & Hpte).
      pose proof Hd1 as (_ & -> & _).
      case_decide as Hsame.
      * destruct Hsame as [-> Hpg]. apply same_page in Hpg as [Epd Ept]; [|done|by apply user_is_addr].
        rewrite Epd, Hpt in Hx. injection Hx as <-. rewrite (pde_for_inj _ _ _ Hd1 Hd) in *.
        rewrite Ept. unfold t'. erewrite word_set_eq; [done|exact Ht|]. simpl. rewrite Hl. apply pt_no_lt.
      * unfold t'. rewrite word_set_ne; [by rewrite Hpte|]. simpl.
        destruct (decide (pt = pt1)) as [<-|]; [|by left]. right. intros Ept. apply Hsame.
        destruct (mw_own _ _ Hw p q (pd_no v) (pd_no u) d x pt Hp Hq (user_pd_no v Hv) Hpt Hx Hd Hd1) as [-> Epd].
        split; [done|]. apply same_page; [done|by apply user_is_addr|done].
Qed.

(** A new, empty page table for the addresses around [v] changes no entry. *)
Lemma new_table_spec pds t p v pt :
  mmu_wf pds t → p ∈ pds → user_addr v → kernel_page pt → tables t !! pt = None →
  word t (p, pd_no v) = Ret 0 →
  let t' := set_word (p, pd_no v) (pde_create pt)
              (t <| tables := <[pt := replicate 1024 0]> (tables t) |>) in
  mmu_wf pds t' ∧ word t' (p, pd_no v) = Ret (pde_create pt) ∧
  ∀ q u, q ∈ pds → addr u → pte_of t' q u = pte_of t q u.
Proof.
  intros Hw Hp Hv Hk Hfresh Hz t'.
  assert (pt ∉ pds) as Hnp.
  { intros Hin. destruct (mw_dir _ _ Hw pt Hin) as (? & ? & _). congruence. }
  assert (∀ q, q ∈ pds → q ≠ pt) as Hne by (by intros q Hq ->).
  destruct (mw_dir _ _ Hw p Hp) as (dir & Hdir & Hlen).
  set (t0 := t <| tables := <[pt := replicate 1024 0]> (tables t) |>) in *.
  assert (∀ a, a.1 ≠ pt → word t0 a = word t a) as Hw0.
  { intros a Ha. unfold word, t0. simpl. by rewrite lookup_insert_ne. }
  assert (word t' (p, pd_no v) = Ret (pde_create pt)) as Hnew.
  { unfold t'. apply (word_set_eq _ _ _ dir).
    - unfold t0. simpl. rewrite lookup_insert_ne; [done|]. by intros <-.
    - simpl. rewrite Hlen. by apply pd_no_lt, user_is_addr. }
  assert (∀ q j, q ∈ pds → (q, j) ≠ (p, pd_no v) → word t' (q, j) = word t (q, j)) as Hold.
  { intros q j Hq Hqj. unfold t'. rewrite word_set_ne; [by apply Hw0, Hne|]. simpl.
    destruct (decide (p = q)) as [<-|]; [right|by left]. intros <-. by apply Hqj. }
  assert (∀ x, x ≠ pt → x ≠ p → tables t' !! x = tables t !! x) as Htab.
  { intros x ? ?. unfold t', t0. simpl. by rewrite lookup_alter_ne, lookup_insert_ne. }
  assert (tables t' !! pt = Some (replicate 1024 0)) as Htpt.
  { unfold t', t0. simpl. rewrite lookup_alter_ne by (by apply Hne). by rewrite lookup_insert_eq. }
  split; [split|split; [done|]].
  - intros q Hq. destruct (decide (q = p)) as [->|Hqp].
    + exists (<[pd_no v := pde_create pt]> dir). split; [|by rewrite length_insert].
      unfold t', t0. simpl. rewrite lookup_alter_eq, lookup_insert_ne, Hdir; [done|]. by intros <-.
    + rewrite Htab by (try apply Hne; done). by apply (mw_dir _ _ Hw).
  - intros q j x Hq Hx Hx0. destruct (decide ((q, j) = (p, pd_no v))) as [E|Hqj].
    + rewrite E, Hnew in Hx. injection Hx as <-. exists pt, (replicate 1024 0).
      split_and!; try done. by apply pde_for_create.
    + rewrite Hold in Hx by done.
      destruct (mw_pde _ _ Hw q j x Hq Hx Hx0) as (pt1 & tb1 & ? & Hn1 & Ht1 & Hl1).
      exists pt1, tb1. split_and!; [done..| |done]. rewrite Htab; [done| |by intros ->].
      intros ->. congruence.
  - intros q r i j d1 d2 pt1 Hq Hr Hi Hx Hy Hd1 Hd2.
    assert (∀ q j x, q ∈ pds → word t (q, j) = Ret x → ¬ pde_for x pt) as Hno.
    { intros s k x Hs E Hd. destruct (mw_pde _ _ Hw s k _ Hs E (pde_nonzero _ _ Hd))
        as (pt2 & tb2 & Hd' & _ & Ht2 & _). rewrite (pde_for_inj _ _ _ Hd' Hd) in *. congruence. }
    pose proof (pde_for_create pt Hk) as Hdk.
    destruct (decide ((q, i) = (p, pd_no v))) as [E|Hqi], (decide ((r, j) = (p, pd_no v))) as [E'|Hrj].
    + by simplify_eq.
    + rewrite E, Hnew in Hx. injection Hx as <-. rewrite (pde_for_inj _ _ _ Hd1 Hdk) in *.
      rewrite Hold in Hy by done. by destruct (Hno r j d2 Hr Hy).
    + rewrite E', Hnew in Hy. injection Hy as <-. rewrite (pde_for_inj _ _ _ Hd2 Hdk) in *.
      rewrite Hold in Hx by done. by destruct (Hno q i d1 Hq Hx).
    + rewrite Hold in Hx by done. rewrite Hold in Hy by done.
      by apply (mw_own _ _ Hw q r i j d1 d2 pt1).
  - intros q u Hq Hu. unfold pte_of. destruct (decide ((q, pd_no u) = (p, pd_no v))) as [E|Hqu].
    + rewrite E, Hnew, Hz, (proj2 (Z.eqb_neq _ 0)) by (by eapply pde_nonzero, pde_for_create).
      destruct (pde_create_spec pt Hk) as [-> _]. unfold word. cbn [fst snd]. rewrite Htpt. ret.
      rewrite lookup_replicate_2; [done|apply pt_no_lt].
    + rewrite Hold by done. destruct (word t (q, pd_no u)) as [x| |] eqn:Hx; [|done..].
      destruct (Z.eqb_spec x 0) as [->|Hx0]; [done|].
      destruct (pde_table pds t q u x Hw Hq Hx Hx0) as (pt1 & tb1 & (_ & -> & _) & Hn1 & Ht1 & _).
      unfold word. cbn [fst snd]. rewrite Htab; [done| |by intros ->]. intros ->. congruence.
Qed.

(** *** [lookup_page] *)

Lemma lookup_page_none pds t p v mem :
  mmu_wf pds t → p ∈ pds → addr v → word t (p, pd_no v) = Ret 0 →
  lookup_page mem (Some p) v false t = Ret (None, t) ∧ pte_of t p v = 0.
Proof.
  intros Hw Hp Hv Hz. unfold lookup_page, pte_of. rewrite Hz. ret. simpl. by rewrite Hz.
Qed.

Lemma lookup_page_found pds t p v e mem (create : bool) :
  mmu_wf pds t → p ∈ pds → addr v → (create = true → user_addr v) →
  word t (p, pd_no v) = Ret e → e ≠ 0 →
  ∃ pt, lookup_page mem (Some p) v create t = Ret (Some (pt, pt_no v), t) ∧
    pde_for e pt ∧ word t (pt, pt_no v) = Ret (pte_of t p v).
Proof.
  intros Hw Hp Hv Hc He Hne.
  destruct (pde_table pds t p v e Hw Hp He Hne) as (pt & tbl & Hd & _ & _ & _ & Hpte).
  exists pt. split; [|by split]. destruct Hd as (_ & Epd & _). unfold lookup_page. ret.
  assert (negb create || is_user_vaddr v = true) as ->.
  { destruct create; [|done]. simpl. apply is_user_vaddr_spec. by apply Hc. }
  ret. rewrite He. ret. rewrite (proj2 (Z.eqb_neq _ _)) by done. ret. by rewrite Epd.
Qed.

(** For a user address, creating the table when it is missing. *)
Lemma lookup_page_create pds t p v m :
  mmu_wf pds t → p ∈ pds → user_addr v → kernel_page m → tables t !! m = None →
  ∃ pt d t', lookup_page (Some m) (Some p) v true t = Ret (Some (pt, pt_no v), t') ∧
    mmu_wf pds t' ∧ word t' (p, pd_no v) = Ret d ∧ pde_for d pt ∧
    word t' (pt, pt_no v) = Ret (pte_of t p v) ∧ t' = t <| tables := tables t' |> ∧
    ∀ q u, q ∈ pds → addr u → pte_of t' q u = pte_of t q u.
Proof.
  intros Hw Hp Hv Hk Hfresh.
  destruct (word_dir pds t p (pd_no v) Hw Hp) as [e He]; [by apply pd_no_lt, user_is_addr|].
  destruct (decide (e = 0)) as [->|Hne].
  - destruct (new_table_spec pds t p v m Hw Hp Hv Hk Hfresh He) as (Hw' & Hnew & Hsame).
    set (t' := set_word _ _ _) in *.
    destruct (lookup_page_found pds t' p v _ (Some m) true Hw' Hp (user_is_addr v Hv) (λ _, Hv) Hnew)
      as (pt & _ & Hd & Hpte); [by eapply pde_nonzero, pde_for_create|].
    rewrite (pde_for_inj _ _ _ Hd (pde_for_create m Hk)) in *.
    exists m, (pde_create m), t'. split; [|split; [done|split; [done|split; [by apply pde_for_create|split; [|by split]]]]].
    + unfold lookup_page. ret. simpl.
      rewrite (proj2 (is_user_vaddr_spec v)) by (apply Hv). ret. rewrite He. ret. simpl.
      change (set_word (p, pd_no v) _ _) with t'. rewrite Hnew. ret.
      by destruct (pde_create_spec m Hk) as [-> _].
    + rewrite Hpte. f_equal. apply Hsame; [done|by apply user_is_addr].
  - destruct (lookup_page_found pds t p v e (Some m) true Hw Hp (user_is_addr v Hv) (λ _, Hv) He Hne)
      as (pt & Hlk & Hd & Hpte).
    exists pt, e, t. repeat (split; [done|]). split; [by destruct t|done].
Qed.

(** *** The operations, in terms of [pte_of] *)

Lemma flag_set_0 flag : flag_set flag 0 = false.
Proof. done. Qed.

(** What [pagedir_get_page] returns for an entry. *)
Definition translate e v : option Z :=
  if flag_set PTE_P e then Some (pte_get_page e + v mod PGSIZE) else None.

(** Looking an entry up without creating its table. *)
Lemma lookup_page_cases pds t p v :
  mmu_wf pds t → p ∈ pds → addr v →
  (lookup_page None (Some p) v false t = Ret (None, t) ∧ pte_of t p v = 0) ∨
  ∃ pt d, lookup_page None (Some p) v false t = Ret (Some (pt, pt_no v), t) ∧
    word t (p, pd_no v) = Ret d ∧ pde_for d pt ∧ word t (pt, pt_no v) = Ret (pte_of t p v).
Proof.
  intros Hw Hp Hv. destruct (word_dir pds t p (pd_no v) Hw Hp) as [e He]; [by apply pd_no_lt|].
  destruct (decide (e = 0)) as [->|Hne].
  - left. by eapply lookup_page_none.
  - right. destruct (lookup_page_found pds t p v e None false Hw Hp Hv ltac:(done) He Hne)
      as (pt & ? & ? & ?). by exists pt, e.
Qed.

Lemma pagedir_get_page_ret pds t p v :
  mmu_wf pds t → p ∈ pds → user_addr v →
  pagedir_get_page (Some p) v t = Ret (translate (pte_of t p v) v).
Proof.
  intros Hw Hp Hv. unfold pagedir_get_page, translate.
  rewrite (proj2 (is_user_vaddr_spec v)) by apply Hv. ret.
  destruct (lookup_page_cases pds t p v Hw Hp (user_is_addr v Hv)) as [[-> ->]|(pt & d & -> & _ & _ & Hpte)].
  - ret. by rewrite flag_set_0.
  - ret. rewrite Hpte. ret. by rewrite pg_ofs_spec.
Qed.

(** The directory [p] maps no user page. *)
Definition no_user_pages p t : Prop :=
  ∀ i, (i < pd_no PHYS_BASE)%nat → word t (p, i) = Ret 0.

Lemma no_user_pages_unmapped pds t p v :
  mmu_wf pds t → p ∈ pds → no_user_pages p t → user_addr v → pagedir_get_page (Some p) v t = Ret None.
Proof.
  intros Hw Hp Hno Hv. rewrite (pagedir_get_page_ret pds) by done. unfold pte_of.
  rewrite Hno by (by apply user_pd_no). simpl. unfold translate. by rewrite flag_set_0.
Qed.

(** A new directory is a copy of the initial one. *)
Lemma pagedir_create_ret pds t m :
  mmu_wf pds t → init_page_dir t ∈ pds → no_user_pages (init_page_dir t) t →
  tables t !! m = None →
  ∃ dir, tables t !! init_page_dir t = Some dir ∧
    pagedir_create (Some m) t = Ret (Some m, t <| tables := <[m := dir]> (tables t) |>) ∧
    mmu_wf ({[m]} ∪ pds) (t <| tables := <[m := dir]> (tables t) |>) ∧
    no_user_pages m (t <| tables := <[m := dir]> (tables t) |>).
Proof.
  intros Hw Hi Hno Hm. destruct Hw as [Hdir Hpde Hown].
  destruct (Hdir _ Hi) as (dir & Ed & Hlen). exists dir. split; [done|].
  set (t' := t <| tables := <[m := dir]> (tables t) |>).
  assert (m ∉ pds) as Hmp by (intros Hin; destruct (Hdir m Hin) as (? & ? & _); congruence).
  assert (∀ i, word t' (m, i) = word t (init_page_dir t, i)) as Ew.
  { intros i. unfold word, t'. simpl. by rewrite lookup_insert_eq, Ed. }
  assert (∀ p i, p ≠ m → word t' (p, i) = word t (p, i)) as Eo.
  { intros p i Hne. unfold word, t'. simpl. by rewrite lookup_insert_ne. }
  split; [unfold pagedir_create; by rewrite Ed|]. split; [|intros i Hlt; rewrite Ew; by apply Hno].
  assert (∀ p i, p ∈ ({[m]} ∪ pds : gset Z) →
    ∃ q, q ∈ pds ∧ word t' (p, i) = word t (q, i) ∧ (p = m ∧ q = init_page_dir t ∨ p ≠ m ∧ q = p)) as Hq.
  { intros p i [->%elem_of_singleton|Hp]%elem_of_union; [exists (init_page_dir t)|exists p].
    - split; [done|]. split; [apply Ew|by left].
    - assert (p ≠ m) by (by intros ->). split; [done|]. split; [by apply Eo|by right]. }
  split.
  - intros p [->%elem_of_singleton|Hp]%elem_of_union; [exists dir; split; [apply lookup_insert_eq|done]|].
    destruct (Hdir p Hp) as (d & ? & ?). exists d. split; [|done]. simpl. rewrite lookup_insert_ne; [done|]. congruence.
  - intros p i e Hp He Hne. destruct (Hq p i Hp) as (q & Hqp & Eq & _). rewrite Eq in He.
    destruct (Hpde q i e Hqp He Hne) as (pt & tbl & Hk & Hpt & Ht & Hl).
    assert (m ≠ pt) by congruence. exists pt, tbl. split_and!; [done|set_solver| |done].
    simpl. by rewrite lookup_insert_ne.
  - intros p q i j d1 d2 pt Hp Hq' Hlt Hwp Hwq Hd1 Hd2.
    destruct (Hq p i Hp) as (p' & Hp' & Ep & Hcp), (Hq q j Hq') as (q' & Hq'' & Eq & Hcq).
    rewrite Ep in Hwp. rewrite Eq in Hwq. destruct (Hown p' q' i j d1 d2 pt) as [E ->]; [done..|].
    split; [|done]. destruct Hcp as [[-> ->]|[? ->]], Hcq as [[-> ->]|[? ->]]; try done.
    + rewrite Hno in Hwp by done. injection Hwp as <-. by apply pde_nonzero in Hd1.
    + subst p. rewrite Hno in Hwp by done. injection Hwp as <-. by apply pde_nonzero in Hd1.
Qed.

Lemma is_flag_ret pds t p v flag :
  mmu_wf pds t → p ∈ pds → addr v → is_flag flag (Some p) v t = Ret (flag_set flag (pte_of t p v)).
Proof.
  intros Hw Hp Hv. unfold is_flag.
  destruct (lookup_page_cases pds t p v Hw Hp Hv) as [[-> ->]|(pt & d & -> & _ & _ & Hpte)]; ret.
  - by rewrite flag_set_0.
  - by rewrite Hpte.
Qed.

(** Everything but the tables and the TLB is as before. *)
Definition same_mmu t t' : Prop :=
  init_page_dir t' = init_page_dir t ∧ init_ram_pages t' = init_ram_pages t ∧
  active_pd t' = active_pd t.

(** [t'] is [t] with entry [e] for the page of [v] in [p]. *)
Definition pte_set pds p v e t t' : Prop :=
  mmu_wf pds t' ∧ same_mmu t t' ∧
  ∀ q u, q ∈ pds → addr u →
    pte_of t' q u = if decide (q = p ∧ u / PGSIZE = v / PGSIZE) then e else pte_of t q u.

Lemma pte_set_refl pds p v t :
  mmu_wf pds t → p ∈ pds → user_addr v → pte_set pds p v (pte_of t p v) t t.
Proof.
  intros Hw Hp Hv. split; [done|]. split; [done|]. intros q u Hq Hu. case_decide as Hs; [|done].
  destruct Hs as [-> Hpg]. apply same_page in Hpg as [E1 E2]; [|done|by apply user_is_addr].
  unfold pte_of. by rewrite E1, E2.
Qed.

Lemma set_word_pte_set pds t p v d pt e :
  mmu_wf pds t → p ∈ pds → user_addr v → word t (p, pd_no v) = Ret d → pde_for d pt →
  pte_set pds p v e t (set_word (pt, pt_no v) e t).
Proof.
  intros Hw Hp Hv Hd Hpt. destruct (set_pte_spec pds t p v d pt e Hw Hp Hv Hd Hpt) as [Hw' Hpte].
  by split.
Qed.

Definition frame_ok t kpage : Prop :=
  kernel_page kpage ∧ Z.shiftr (vtop kpage) PTSHIFT < init_ram_pages t.

Lemma pg_ofs_zero v : (PGSIZE | v) → pg_ofs v =? 0 = true.
Proof. intros [a ->]. rewrite pg_ofs_spec. apply Z.eqb_eq. by apply Z.mod_mul. Qed.

Lemma pagedir_set_page_ret pds t p upage kpage (writable : bool) m :
  mmu_wf pds t → p ∈ pds → p ≠ init_page_dir t → user_addr upage → (PGSIZE | upage) →
  frame_ok t kpage → kernel_page m → tables t !! m = None →
  flag_set PTE_P (pte_of t p upage) = false →
  ∃ t', pagedir_set_page (Some m) (Some p) upage kpage writable t = Ret (true, t') ∧
    tlb t' = tlb t ∧ pte_set pds p upage (pte_create_user kpage writable) t t'.
Proof.
  intros Hw Hp Hi Hu Ha [Hk Hram] Hm Hfresh Hnp. unfold pagedir_set_page.
  rewrite !pg_ofs_zero by (done || apply Hk). rewrite (proj2 (is_user_vaddr_spec _)) by apply Hu.
  rewrite (proj2 (Z.ltb_lt _ _)), bool_decide_eq_true_2 by (done || by intros [= ->]). ret.
  destruct (lookup_page_create pds t p upage m Hw Hp Hu Hm Hfresh)
    as (pt & d & t1 & -> & Hw1 & Hkp & Hpt & Hpte & E & Hsame). ret.
  rewrite Hpte. ret. rewrite Hnp. ret. eexists. split; [done|].
  destruct (set_word_pte_set pds t1 p upage d pt (pte_create_user kpage writable) Hw1 Hp Hu Hkp Hpt)
    as (Hw2 & E2 & Hpte2).
  split; [by rewrite E|]. split; [done|]. split.
  { assert (same_mmu t t1) as (?&?&?) by (by rewrite E). destruct E2 as (?&?&?). split_and!; congruence. }
  intros q u Hq Huu. rewrite Hpte2 by done. case_decide; [done|by apply Hsame].
Qed.

Lemma ptov_vtop p : kernel_page p → ptov (vtop p) = p.
Proof.
  intros [Hr _]. destruct PHYS_BASE_spec. rewrite vtop_spec, ptov_spec by lia. lia.
Qed.

(** Clearing a flag of the active directory empties the TLB. *)
Definition flushed p t t' : Prop := tlb t' = if active_pd t =? p then ∅ else tlb t.

Lemma clear_word_ret pds t p v d pt e :
  mmu_wf pds t → p ∈ pds → kernel_page p → user_addr v → word t (p, pd_no v) = Ret d →
  pde_for d pt →
  let t' := invalidate_pagedir p (set_word (pt, pt_no v) e t) in
  flushed p t t' ∧ pte_set pds p v e t t'.
Proof.
  intros Hw Hp Hkp Hv Hk Hpt.
  destruct (set_word_pte_set pds t p v d pt e Hw Hp Hv Hk Hpt) as (Hw' & E & Hpte).
  set (t1 := set_word _ _ _) in *. unfold invalidate_pagedir, flushed.
  change (active_pd t1) with (active_pd t). destruct (Z.eqb_spec (active_pd t) p) as [Ha|]; [|by split].
  split; [done|]. split; [by destruct Hw'; split|]. split; [|done]. unfold same_mmu, active_pd. simpl.
  split; [done|]. split; [done|]. rewrite ptov_vtop by done. exact (eq_sym Ha).
Qed.

Lemma pagedir_clear_page_ret pds t p upage :
  mmu_wf pds t → p ∈ pds → kernel_page p → user_addr upage → (PGSIZE | upage) →
  ∃ t', pagedir_clear_page (Some p) upage t = Ret t' ∧
    let e := pte_of t p upage in
    if flag_set PTE_P e then flushed p t t' ∧ pte_set pds p upage (clear_flag PTE_P e) t t'
    else t' = t.
Proof.
  intros Hw Hp Hkp Hu Ha. unfold pagedir_clear_page.
  rewrite pg_ofs_zero, (proj2 (is_user_vaddr_spec _)) by (done || apply Hu). ret.
  destruct (lookup_page_cases pds t p upage Hw Hp (user_is_addr _ Hu))
    as [[-> ->]|(pt & d & -> & Hd & Hpt & Hpte)]; ret.
  - exists t. by rewrite flag_set_0.
  - rewrite Hpte. ret. destruct (flag_set PTE_P _); eexists; (split; [done|]); [|done].
    by eapply clear_word_ret.
Qed.

Lemma change_flag_ret pds t p v flag (b : bool) :
  mmu_wf pds t → p ∈ pds → kernel_page p → user_addr v →
  ∃ t', change_flag flag (Some p) v b t = Ret t' ∧
    let e := pte_of t p v in
    (e = 0 ∧ t' = t) ∨
    if b then tlb t' = tlb t ∧ pte_set pds p v (set_flag flag e) t t'
    else flushed p t t' ∧ pte_set pds p v (clear_flag flag e) t t'.
Proof.
  intros Hw Hp Hkp Hv. unfold change_flag.
  destruct (lookup_page_cases pds t p v Hw Hp (user_is_addr _ Hv))
    as [[-> ->]|(pt & d & -> & Hd & Hpt & Hpte)]; ret.
  - exists t. split; [done|]. by left.
  - rewrite Hpte. ret. destruct b; eexists; (split; [done|]); right.
    + split; [done|]. by eapply set_word_pte_set.
    + by eapply clear_word_ret.
Qed.

(** Changing the accessed or the dirty bit of an entry keeps all translations. *)
Lemma change_flag_translate pds t p v flag (b : bool) :
  mmu_wf pds t → p ∈ pds → kernel_page p → user_addr v → flag = PTE_A ∨ flag = PTE_D →
  ∃ t', change_flag flag (Some p) v b t = Ret t' ∧ mmu_wf pds t' ∧ same_mmu t t' ∧
    ∀ q u, q ∈ pds → user_addr u → pagedir_get_page (Some q) u t' = pagedir_get_page (Some q) u t.
Proof.
  intros Hw Hp Hk Hv Hf.
  destruct (change_flag_ret pds t p v flag b Hw Hp Hk Hv) as (t' & E & Hc).
  exists t'. split; [done|]. destruct Hc as [[_ ->]|Hc]; [done|].
  assert (∃ e', pte_set pds p v e' t t' ∧ same_frame (pte_of t p v) e' ∧
    flag_set PTE_P e' = flag_set PTE_P (pte_of t p v)) as (e' & (Hw' & Hsm & Hpte) & Hsf & HP).
  { destruct pte_flags as (-> & _ & _ & EA & ED).
    assert (∃ n, 0 < n < 12 ∧ flag = 2 ^ n) as (n & Hn & ->).
    { destruct Hf as [->| ->]; [rewrite EA; by exists 5|rewrite ED; by exists 6]. }
    destruct b; destruct Hc as [_ Hset]; eexists; (split; [exact Hset|]).
    - by apply set_flag_same.
    - by apply clear_flag_same. }
  split; [done|]. split; [done|]. intros q u Hq Hu. rewrite !(pagedir_get_page_ret pds) by done.
  rewrite Hpte by (done || by apply user_is_addr). case_decide as Hs; [|done].
  destruct Hs as [-> Hpg]. unfold translate. rewrite HP, <- (pte_get_page_ext _ _ Hsf).
  destruct (pte_set_refl pds p v t Hw Hp Hv) as (_ & _ & Hsame).
  specialize (Hsame p u Hp (user_is_addr _ Hu)). rewrite decide_True in Hsame by done.
  by rewrite Hsame.
Qed.

(** ... and every other flag. *)
Lemma set_flag_other (a b e : Z) : 0 ≤ a → 0 ≤ b → a ≠ b →
  flag_set (2 ^ a) (set_flag (2 ^ b) e) = flag_set (2 ^ a) e.
Proof.
  intros Ha Hb Hne. rewrite !flag_set_bit, set_flag_bits by done. rewrite (proj2 (Z.eqb_neq _ _)) by done.
  by rewrite orb_false_r.
Qed.

Lemma change_flag_writable pds t p v flag t' :
  mmu_wf pds t → p ∈ pds → kernel_page p → user_addr v → flag = PTE_A ∨ flag = PTE_D →
  change_flag flag (Some p) v true t = Ret t' →
  ∀ u, user_addr u → is_flag PTE_W (Some p) u t' = is_flag PTE_W (Some p) u t.
Proof.
  intros Hw Hp Hk Hv Hf E u Hu.
  destruct (change_flag_ret pds t p v flag true Hw Hp Hk Hv) as (t2 & E2 & Hc). ret_inj.
  destruct Hc as [[_ ->]|[_ (Hw' & _ & Hpte)]]; [done|].
  rewrite !(is_flag_ret pds) by (done || by apply user_is_addr).
  rewrite Hpte by (done || by apply user_is_addr). case_decide as Hs; [|done].
  destruct Hs as [_ Hpg]. destruct (pte_set_refl pds p v t Hw Hp Hv) as (_ & _ & Hsame).
  specialize (Hsame p u Hp (user_is_addr _ Hu)). rewrite decide_True in Hsame by done. rewrite Hsame.
  destruct pte_flags as (_ & EW & _ & EA & ED). rewrite EW. change 2 with (2 ^ 1).
  f_equal. destruct Hf as [->| ->]; [rewrite EA; by apply (set_flag_other 1 5)|rewrite ED; by apply (set_flag_other 1 6)].
Qed.

Lemma set_word_tables a e t x : tables t !! x = None → tables (set_word a e t) !! x = None.
Proof.
  intros Hx. simpl. destruct (decide (x = a.1)) as [->|]; [by rewrite lookup_alter_eq, Hx|].
  by rewrite lookup_alter_ne.
Qed.

Lemma change_flag_tables pd v flag (b : bool) t t' x :
  change_flag flag pd v b t = Ret t' → tables t !! x = None → tables t' !! x = None.
Proof.
  unfold change_flag. intros ? Hx. inv_bind.
  destruct o as [a|]; inv_bind; [|done]. destruct b; inv_bind; [by apply (set_word_tables (_, _))|].
  unfold invalidate_pagedir. case_match; by apply (set_word_tables (_, _)).
Qed.

(** Apart from a new page table, mapping a page creates no table. *)
Lemma lookup_page_tables m pd v (create : bool) t r t' x :
  lookup_page (Some m) pd v create t = Ret (r, t') →
  x ≠ m → tables t !! x = None → tables t' !! x = None.
Proof.
  unfold lookup_page. generalize (replicate 1024 0). intros z E Hm Hx. inv_bind.
  destruct (a2 =? 0); [destruct create|]; inv_bind; [|done..].
  change (tables (set_word (a1, pd_no v) (pde_create m) (t <| tables := <[m := z]> (tables t) |>)) !! x = None).
  apply set_word_tables. simpl. by rewrite lookup_insert_ne.
Qed.

Lemma set_page_tables m pd upage kpage (writable ok : bool) t t' x :
  pagedir_set_page (Some m) pd upage kpage writable t = Ret (ok, t') →
  x ≠ m → tables t !! x = None → tables t' !! x = None.
Proof.
  unfold pagedir_set_page. intros E Hm Hx. inv_bind.
  match goal with H : lookup_page _ _ _ _ _ = _ |- _ => pose proof (lookup_page_tables _ _ _ _ _ _ _ x H Hm Hx) end.
  destruct o as [a|]; inv_bind. by apply (set_word_tables (_, _)).
Qed.

(** *** Destruction *)

(** [x] is the page table of one of the entries [i] to [i + n - 1] of [p]. *)
Definition table_of t p (i n : nat) x : Prop :=
  ∃ j e, (i ≤ j < i + n)%nat ∧ word t (p, j) = Ret e ∧ pde_for e x.

Lemma destroy_loop_ret pds t p (n i : nat) t1 :
  mmu_wf pds t → p ∈ pds → (i + n ≤ 1024)%nat → tables t1 !! p = tables t !! p →
  ∃ t2, destroy_loop n i p t1 = Ret t2 ∧
    (∀ x, table_of t p i n x → tables t2 !! x = None) ∧
    (∀ x, ¬ table_of t p i n x → tables t2 !! x = tables t1 !! x).
Proof.
  intros Hw Hp. revert i t1. induction n as [|n IH]; intros i t1 Hi Ht1; simpl.
  { exists t1. split_and!; [done| |done]. intros x (j & e & ? & _). lia. }
  destruct (word_dir pds t p i Hw Hp) as [e He]; [lia|].
  assert (word t1 (p, i) = Ret e) as -> by (unfold word in *; simpl in *; by rewrite Ht1). ret.
  assert (∀ x, table_of t p i (S n) x ↔ table_of t p (S i) n x ∨ pde_for e x) as Hsplit.
  { intros x. split.
    - intros (j & d & Hj & E & Hd). destruct (decide (j = i)) as [->|]; [right|left].
      + rewrite He in E. by injection E as <-.
      + exists j, d. split_and!; [lia|lia|done|done].
    - intros [(j & d & Hj & E & Hd)|Hd]; [exists j, d|exists i, e]; split_and!; (lia || done). }
  destruct (decide (e = 0)) as [->|Hne].
  - rewrite flag_set_0. destruct (IH (S i) t1) as (t2 & -> & Hin & Hout); [lia|done|].
    exists t2. split; [done|]. split; intros x; rewrite Hsplit.
    + intros [?|Hd]; [by apply Hin|]. by destruct (pde_nonzero 0 x Hd).
    + intros Hn. apply Hout. tauto.
  - destruct (mw_pde _ _ Hw p i e Hp He Hne) as (pt & tbl & Hd & Hnp & _).
    pose proof Hd as (_ & -> & ->).
    destruct (IH (S i) (palloc_free_page pt t1)) as (t2 & -> & Hin & Hout); [lia| |].
    { simpl. rewrite lookup_delete_ne; [done|]. by intros ->. }
    exists t2. split; [done|]. split; intros x; rewrite Hsplit.
    + intros Hx. destruct (decide (x = pt)) as [->|Hxp].
      * destruct (tables t2 !! pt) eqn:E2; [|done]. exfalso.
        assert (¬ table_of t p (S i) n pt) as Hno by (intros Ht; by rewrite Hin in E2).
        rewrite Hout in E2 by done. simpl in E2. by rewrite lookup_delete_eq in E2.
      * destruct Hx as [?|Hdx]; [by apply Hin|]. destruct Hxp. by eapply pde_for_inj.
    + intros Hn. rewrite Hout by tauto. simpl. rewrite lookup_delete_ne; [done|].
      intros <-. tauto.
Qed.

(** ** Properties *)

(** C18. After [pagedir_set_page] every address of the page translates into the frame,
    with the access bits asked for and clean; every other user address, in this
    page directory and in every other, translates as before. *)
Theorem pagedir_set_page_correct pds t p upage kpage (writable : bool) m :
  mmu_wf pds t → p ∈ pds → p ≠ init_page_dir t → user_addr upage → (PGSIZE | upage) →
  frame_ok t kpage → kernel_page m → tables t !! m = None →
  pagedir_get_page (Some p) upage t = Ret None →
  ∃ t', pagedir_set_page (Some m) (Some p) upage kpage writable t = Ret (true, t') ∧
    mmu_wf pds t' ∧
    (∀ q v, q ∈ pds → user_addr v → pagedir_get_page (Some q) v t' =
       if decide (q = p ∧ v / PGSIZE = upage / PGSIZE) then Ret (Some (kpage + v mod PGSIZE))
       else pagedir_get_page (Some q) v t) ∧
    pagedir_is_dirty (Some p) upage t' = Ret false ∧
    pagedir_is_accessed (Some p) upage t' = Ret false ∧
    is_flag PTE_W (Some p) upage t' = Ret writable.
Proof.
  intros Hw Hp Hi Hu Ha Hk Hm Hfresh Hget.
  rewrite (pagedir_get_page_ret pds) in Hget by done. unfold translate in Hget.
  destruct (flag_set PTE_P (pte_of t p upage)) eqn:Hnp; [done|].
  destruct (pagedir_set_page_ret pds t p upage kpage writable m) as (t' & Hs & _ & Hw' & _ & Hpte);
    [done..|].
  destruct (pte_create_user_spec kpage writable) as (_ & Epg & HP & _ & HW & HA & HD); [apply Hk|].
  exists t'. split; [done|]. split; [done|]. split.
  - intros q v Hq Hv. rewrite !(pagedir_get_page_ret pds) by done. unfold translate.
    rewrite Hpte by (done || by apply user_is_addr). case_decide; [|done]. by rewrite HP, Epg.
  - unfold pagedir_is_dirty, pagedir_is_accessed.
    rewrite !(is_flag_ret pds) by (done || by apply user_is_addr).
    rewrite Hpte by (done || by apply user_is_addr). rewrite decide_True by done.
    by rewrite HD, HA, HW.
Qed.

(** [pagedir_destroy] frees exactly the directory and its user page tables; the
    translations of every other directory stay. *)
Theorem pagedir_destroy_correct pds t p :
  mmu_wf pds t → p ∈ pds → p ≠ init_page_dir t →
  ∃ t', pagedir_destroy (Some p) t = Ret t' ∧ tables t' !! p = None ∧
    (∀ x, table_of t p 0 (pd_no PHYS_BASE) x → tables t' !! x = None) ∧
    (∀ x, x ≠ p → ¬ table_of t p 0 (pd_no PHYS_BASE) x → tables t' !! x = tables t !! x) ∧
    ∀ q v, q ∈ pds → q ≠ p → user_addr v →
      pagedir_get_page (Some q) v t' = pagedir_get_page (Some q) v t.
Proof.
  intros Hw Hp Hi. unfold pagedir_destroy. rewrite (proj2 (Z.eqb_neq _ _)) by done. ret.
  assert (pd_no PHYS_BASE ≤ 1024)%nat as Hle.
  { rewrite pd_no_spec. destruct PHYS_BASE_spec as [Hr _].
    assert (PHYS_BASE / 4194304 < 1024) by (apply Z.div_lt_upper_bound; lia). lia. }
  destruct (destroy_loop_ret pds t p (pd_no PHYS_BASE) 0 t) as (t2 & -> & Hin & Hout);
    [done|done|lia|done|]. ret.
  eexists. split; [done|]. simpl.
  assert (∀ x, x ≠ p → ¬ table_of t p 0 (pd_no PHYS_BASE) x → delete p (tables t2) !! x = tables t !! x)
    as Hkeep by (intros; rewrite lookup_delete_ne by done; by apply Hout).
  assert (∀ q, q ∈ pds → ¬ table_of t p 0 (pd_no PHYS_BASE) q) as Hdir.
  { intros q Hq (j & d & _ & E & Hd).
    destruct (mw_pde _ _ Hw p j _ Hp E (pde_nonzero _ _ Hd)) as (pt & ? & Hd' & Hn & _).
    by rewrite (pde_for_inj _ _ _ Hd' Hd) in Hn. }
  split; [by rewrite lookup_delete_eq|]. split; [|split; [done|]].
  - intros x Hx. destruct (decide (x = p)) as [->|]; [by rewrite lookup_delete_eq|].
    rewrite lookup_delete_ne by done. by apply Hin.
  - intros q v Hq Hne Hv. set (t' := palloc_free_page p t2).
    assert (∀ j, word t' (q, j) = word t (q, j)) as Hwd.
    { intros j. unfold word. simpl. rewrite Hkeep; [done|done|by apply Hdir]. }
    unfold pagedir_get_page, lookup_page. destruct (is_user_vaddr v); [|done]. ret. rewrite Hwd.
    destruct (word t (q, pd_no v)) as [e| |] eqn:He; [|done..]. ret.
    destruct (Z.eqb_spec e 0) as [|Hne0]; [done|]. ret.
    destruct (pde_table pds t q v e Hw Hq He Hne0) as (pt & tbl & Hd & Hn & _ & _ & Hpt).
    pose proof Hd as (_ & -> & _). simpl. ret.
    assert (word t' (pt, pt_no v) = word t (pt, pt_no v)) as ->; [|done].
    unfold word. simpl. rewrite Hkeep; [done|by intros ->|].
    intros (j & d & Hj & E & Hd'). destruct (mw_own _ _ Hw p q j (pd_no v) d e pt Hp Hq); [lia|done..|].
    by subst.
Qed.

(** *** The TLB *)

(** Every cached entry is present in the active page table with at least the same
    flags, so that the processor never uses a translation or a right that the
    table has lost. *)
Record tlb_ok pds t : Prop := {
  tk_active : active_pd t ∈ pds;
  tk_entry : ∀ n e, tlb t !! n = Some e →
    0 ≤ n < 1048576 ∧ flag_set PTE_P e = true ∧
    Z.land e (pte_of t (active_pd t) (n * PGSIZE)) = e
}.

(** The calls that change page tables. *)
Inductive pd_op :=
  | OpSet (m p upage kpage : Z) (writable : bool)
  | OpClear (p upage : Z)
  | OpDirty (p v : Z) (b : bool)
  | OpAccessed (p v : Z) (b : bool)
  | OpActivate (p : option Z).

Definition run_pd (op : pd_op) t : outcome mmu :=
  match op with
  | OpSet m p upage kpage w =>
      '(_, t') ← pagedir_set_page (Some m) (Some p) upage kpage w t; Ret t'
  | OpClear p upage => pagedir_clear_page (Some p) upage t
  | OpDirty p v b => pagedir_set_dirty (Some p) v b t
  | OpAccessed p v b => pagedir_set_accessed (Some p) v b t
  | OpActivate p => Ret (pagedir_activate p t)
  end.

Definition pd_op_ok pds t (op : pd_op) : Prop :=
  match op with
  | OpSet m p upage kpage _ => p ∈ pds ∧ p ≠ init_page_dir t ∧ user_addr upage ∧ (PGSIZE | upage) ∧
      frame_ok t kpage ∧ kernel_page m ∧ tables t !! m = None ∧
      pagedir_get_page (Some p) upage t = Ret None
  | OpClear p upage => p ∈ pds ∧ kernel_page p ∧ user_addr upage ∧ (PGSIZE | upage)
  | OpDirty p v _ | OpAccessed p v _ => p ∈ pds ∧ kernel_page p ∧ user_addr v
  | OpActivate p => let q := default (init_page_dir t) p in q ∈ pds ∧ kernel_page q
  end.

Lemma page_addr n : 0 ≤ n < 1048576 → addr (n * PGSIZE).
Proof. unfold addr, PGSIZE. lia. Qed.

(** A change of entry keeps the TLB right when no cached entry has more flags. *)
Lemma pte_set_tlb pds t p v e t' :
  tlb_ok pds t → tlb t' = tlb t → pte_set pds p v e t t' →
  (∀ x, tlb t !! (v / PGSIZE) = Some x → flag_set PTE_P x = true →
    Z.land x (pte_of t p v) = x → Z.land x e = x) →
  user_addr v → p ∈ pds → mmu_wf pds t →
  tlb_ok pds t'.
Proof.
  intros [Hact Hent] Etlb (Hw' & (_ & _ & Ea) & Hpte) Hx Hv Hp Hw. split; [by rewrite Ea|].
  intros n x. rewrite Etlb, Ea. intros Hn. destruct (Hent n x Hn) as (Hr & HP & Hsub).
  split; [done|]. split; [done|]. rewrite Hpte by (done || by apply page_addr).
  case_decide as Hs; [|done]. destruct Hs as [Eact Epg]. unfold PGSIZE in Epg at 1.
  change 4096 with PGSIZE in Epg. rewrite Z.div_mul in Epg by done. subst n.
  apply Hx; [done|done|]. rewrite Eact in Hsub. rewrite <- Hsub at 2. f_equal.
  destruct (pte_set_refl pds p v t Hw Hp Hv) as (_ & _ & Hsame).
  rewrite (Hsame p (v / PGSIZE * PGSIZE)) by (done || by apply page_addr).
  rewrite decide_True; [done|]. by rewrite Z.div_mul.
Qed.

Lemma flushed_tlb pds t p v e t' :
  tlb_ok pds t → flushed p t t' → pte_set pds p v e t t' → tlb_ok pds t'.
Proof.
  intros [Hact Hent] Hf (Hw' & (_ & _ & Ea) & Hpte). unfold flushed in Hf.
  split; [by rewrite Ea|]. intros n x. rewrite Hf, Ea.
  destruct (Z.eqb_spec (active_pd t) p) as [|Hne]; [by rewrite lookup_empty|].
  intros Hn. destruct (Hent n x Hn) as (Hr & HP & Hsub). split; [done|]. split; [done|].
  rewrite Hpte by (done || by apply page_addr). rewrite decide_False; [done|]. naive_solver.
Qed.

Lemma land_set_flag x e flag : Z.land x e = x → Z.land x (set_flag flag e) = x.
Proof.
  intros Hx. unfold set_flag. rewrite Z.land_lor_distr_r, Hx. apply Z.bits_inj'. intros n _.
  rewrite Z.lor_spec, Z.land_spec. destruct (Z.testbit x n); [done|]. done.
Qed.

(** C28. The page-directory calls keep the TLB safe: after any of them, whatever
    directory is active, a cached entry is still in the table with all its flags;
    clearing a flag of the active directory empties the TLB first.  The calls
    return whenever their preconditions hold. *)
Theorem pagedir_ops_tlb_safe pds t (op : pd_op) :
  mmu_wf pds t → tlb_ok pds t → pd_op_ok pds t op →
  ∃ t', run_pd op t = Ret t' ∧ mmu_wf pds t' ∧ tlb_ok pds t'.
Proof.
  intros Hw Ht Hop.
  assert (∀ flag p v (b : bool), p ∈ pds → kernel_page p → user_addr v →
    ∃ t', change_flag flag (Some p) v b t = Ret t' ∧ mmu_wf pds t' ∧ tlb_ok pds t') as Hflag.
  { intros flag p v b Hp Hk Hv. destruct (change_flag_ret pds t p v flag b Hw Hp Hk Hv)
      as (t' & -> & Hc). exists t'. split; [done|]. destruct Hc as [[_ ->]|Hc]; [done|].
    destruct b; destruct Hc as [Htl Hset]; (split; [apply Hset|]).
    - eapply pte_set_tlb; try done. intros x _ _ Hx. by apply land_set_flag.
    - by eapply flushed_tlb. }
  destruct op as [m p upage kpage w|p upage|p v b|p v b|p]; simpl in Hop |- *.
  - destruct Hop as (Hp & Hi & Hu & Ha & Hfr & Hm & Hfresh & Hget).
    rewrite (pagedir_get_page_ret pds) in Hget by done. unfold translate in Hget.
    destruct (flag_set PTE_P (pte_of t p upage)) eqn:Hnp; [done|].
    destruct (pagedir_set_page_ret pds t p upage kpage w m) as (t' & -> & Htl & Hset); [done..|]. ret.
    exists t'. split; [done|]. split; [apply Hset|]. eapply pte_set_tlb; try done.
    intros x _ HP Hx. exfalso. destruct pte_flags as [EP _]. rewrite EP in *.
    change 1 with (2 ^ 0) in *. rewrite !flag_set_bit in * by lia.
    rewrite <- Hx, Z.land_spec, Hnp, andb_false_r in HP. done.
  - destruct Hop as (Hp & Hk & Hu & Ha).
    destruct (pagedir_clear_page_ret pds t p upage Hw Hp Hk Hu Ha) as (t' & -> & Hc).
    exists t'. split; [done|]. simpl in Hc. destruct (flag_set PTE_P _); [|by subst].
    destruct Hc as [Hf Hset]. split; [apply Hset|]. by eapply flushed_tlb.
  - destruct Hop as (? & ? & ?). by apply Hflag.
  - destruct Hop as (? & ? & ?). by apply Hflag.
  - destruct Hop as [Hq Hk]. eexists. split; [done|].
    split; [destruct Hw; by split|]. split; [|intros n e; simpl; by rewrite lookup_empty].
    unfold active_pd, pagedir_activate. simpl. destruct p; simpl in *; by rewrite ptov_vtop.
Qed.
End invariant.

(** ** The hypotheses can hold: an empty page directory on IA-32 *)

#[local] Existing Instances Ia32.vaddr Ia32.vaddr_laws Ia32.pte Ia32.pte_laws.

Definition boot_pd : Z := 3221225472.
Definition user_pd : Z := 3221229568.
Definition sample_pds : gset Z := {[ boot_pd; user_pd ]}.
Definition sample_mmu : mmu :=
  MkMmu {[ boot_pd := replicate 1024 0; user_pd := replicate 1024 0 ]} boot_pd 1024
    (vtop user_pd) ∅.

Lemma sample_pds_cases p : p ∈ sample_pds → p = boot_pd ∨ p = user_pd.
Proof. unfold sample_pds. set_solver. Qed.

Lemma sample_pd p : p ∈ sample_pds → tables sample_mmu !! p = Some (replicate 1024 0).
Proof. by intros [->| ->]%sample_pds_cases. Qed.

Lemma sample_mmu_wf : mmu_wf sample_pds sample_mmu.
Proof.
  assert (∀ p i e, p ∈ sample_pds → word sample_mmu (p, i) = Ret e → e = 0) as Hz.
  { intros p i e Hp. unfold word. cbn [fst snd]. rewrite (sample_pd p Hp). ret.
    destruct (decide (i < 1024)%nat).
    - rewrite lookup_replicate_2 by done. by intros [= <-].
    - rewrite lookup_ge_None_2; [done|]. rewrite length_replicate. lia. }
  split.
  - intros p Hp. exists (replicate 1024 0). split; [by apply sample_pd|apply length_replicate].
  - intros p i e Hp He Hne. by destruct Hne, (Hz p i e Hp He).
  - intros p q i j d e pt Hp _ _ He _ Hd _. by destruct (pde_nonzero d pt Hd), (Hz p i _ Hp He).
Qed.

Lemma sample_in p : p = boot_pd ∨ p = user_pd → p ∈ sample_pds.
Proof. unfold sample_pds. set_solver. Qed.

Definition code_page : Z := 134512640.
Definition code_frame : Z := 3221229568 + 4096.
Definition table_page : Z := 3221229568 + 8192.

Lemma code_page_user : user_addr code_page.
Proof. by split. Qed.
Lemma aligned (x : Z) : x mod PGSIZE = 0 → (PGSIZE | x).
Proof. by apply Z.mod_divide. Qed.

Lemma pagedir_set_page_correct_witness :
  ∃ t', pagedir_set_page (Some table_page) (Some user_pd) code_page code_frame false sample_mmu
      = Ret (true, t') ∧ mmu_wf sample_pds t' ∧
    (∀ q v, q ∈ sample_pds → user_addr v → pagedir_get_page (Some q) v t' =
       if decide (q = user_pd ∧ v / PGSIZE = code_page / PGSIZE)
       then Ret (Some (code_frame + v mod PGSIZE))
       else pagedir_get_page (Some q) v sample_mmu) ∧
    pagedir_is_dirty (Some user_pd) code_page t' = Ret false ∧
    pagedir_is_accessed (Some user_pd) code_page t' = Ret false ∧
    is_flag PTE_W (Some user_pd) code_page t' = Ret false.
Proof.
  apply (pagedir_set_page_correct sample_pds sample_mmu user_pd code_page code_frame false table_page).
  - exact sample_mmu_wf.
  - apply sample_in. by right.
  - discriminate.
  - exact code_page_user.
  - by apply aligned.
  - repeat split; try discriminate. by apply aligned.
  - repeat split; try discriminate. by apply aligned.
  - reflexivity.
  - reflexivity.
Defined.

Lemma pagedir_ops_tlb_safe_witness :
  ∃ t', run_pd (OpSet table_page user_pd code_page code_frame false) sample_mmu = Ret t' ∧
    mmu_wf sample_pds t' ∧ tlb_ok sample_pds t'.
Proof.
  apply (pagedir_ops_tlb_safe sample_pds sample_mmu
    (OpSet table_page user_pd code_page code_frame false)).
  - exact sample_mmu_wf.
  - split; [apply sample_in; by right|]. intros n e. unfold sample_mmu. simpl. by rewrite lookup_empty.
  - split; [apply sample_in; by right|]. split; [discriminate|]. split; [exact code_page_user|].
    split; [by apply aligned|]. split; [|split; [|split; reflexivity]].
    + repeat split; try discriminate. by apply aligned.
    + repeat split; try discriminate. by apply aligned.
Defined.

Lemma pagedir_destroy_correct_witness :
  ∃ t', pagedir_destroy (Some user_pd) sample_mmu = Ret t' ∧ tables t' !! user_pd = None ∧
    (∀ x, table_of sample_mmu user_pd 0 (pd_no PHYS_BASE) x → tables t' !! x = None) ∧
    (∀ x, x ≠ user_pd → ¬ table_of sample_mmu user_pd 0 (pd_no PHYS_BASE) x →
       tables t' !! x = tables sample_mmu !! x) ∧
    ∀ q v, q ∈ sample_pds → q ≠ user_pd → user_addr v →
      pagedir_get_page (Some q) v t' = pagedir_get_page (Some q) v sample_mmu.
Proof.
  apply (pagedir_destroy_correct sample_pds sample_mmu user_pd).
  - exact sample_mmu_wf.
  - apply sample_in. by right.
  - discriminate.
Defined.
