(* ===== verification/PageSpace.v ===== *)
(** * Page directories as finite maps

    What pagedir.c promises its clients: a page directory is a finite map from
    user pages to frames with a write permission, a dirty and an accessed bit.
    [represents] relates such maps to the words of PageDir.v; every call of
    pagedir.c, and the processor when it marks a directory entry as used, is a
    simple operation on the maps. *)
From S2P Require Import Prelude CInt Mmu PageDir.
Open Scope Z_scope.

Record mapping := Mapping {
  mp_frame : Z;
  mp_writable : bool;
  mp_dirty : bool;
  mp_accessed : bool
}.
#[export] Instance eta_mapping : Eta mapping := λ m,
  Mapping (mp_frame m) (mp_writable m) (mp_dirty m) (mp_accessed m).

(** Page directory ↦ page number ↦ mapping. *)
Notation space := (gmap Z (gmap Z mapping)).

(** The calls of pagedir.c, and [Walk p i]: the processor uses entry [i] of [p]. *)
Inductive space_op :=
  | Create (m : Z)
  | Destroy (p : Z)
  | Call (op : pd_op)
  | Walk (p : Z) (i : nat).

Definition upd_mapping (p n : Z) (g : mapping → mapping) (S : space) : space := alter (alter g n) p S.

Definition space_step (op : space_op) (S : space) : space :=
  match op with
  | Create m => <[m := ∅]> S
  | Destroy p => delete p S
  | Call (OpSet _ p upage kpage w) =>
      alter (insert (upage / PGSIZE) (Mapping kpage w false false)) p S
  | Call (OpClear p upage) => alter (delete (upage / PGSIZE)) p S
  | Call (OpDirty p v b) => upd_mapping p (v / PGSIZE) (λ m, m <| mp_dirty := b |>) S
  | Call (OpAccessed p v b) => upd_mapping p (v / PGSIZE) (λ m, m <| mp_accessed := b |>) S
  | Call (OpActivate _) | Walk _ _ => S
  end.

Definition mapped (S : space) (p v : Z) : option mapping := S !! p ≫= λ sp, sp !! (v / PGSIZE).

Section space.
Context `{VaddrLaws, !Pte, !PteLaws}.
Implicit Types (t : mmu) (p q pt v e : Z) (S : space) (pds : gset Z).

Definition run_space (op : space_op) t : outcome mmu :=
  match op with
  | Create m => '(_, t') ← pagedir_create (Some m) t; Ret t'
  | Destroy p => pagedir_destroy (Some p) t
  | Call op => run_pd op t
  | Walk p i => e ← word t (p, i); Ret (if e =? 0 then t else set_word (p, i) (set_flag PTE_A e) t)
  end.

Definition entry_mapping e : option mapping :=
  if flag_set PTE_P e
  then Some (Mapping (pte_get_page e) (flag_set PTE_W e) (flag_set PTE_D e) (flag_set PTE_A e))
  else None.

Record represents S t : Prop := {
  rp_wf : mmu_wf (dom S) t;
  rp_kernel : ∀ p, p ∈ dom S → kernel_page p;
  rp_init : init_page_dir t ∈ dom S;
  rp_init_user : no_user_pages (init_page_dir t) t;
  rp_entry : ∀ p v, p ∈ dom S → user_addr v → mapped S p v = entry_mapping (pte_of t p v)
}.

(** The asserted preconditions, and what palloc.c gives: pages of the kernel that are
    not in use. *)
Definition space_op_ok S t (op : space_op) : Prop :=
  match op with
  | Create m => kernel_page m ∧ tables t !! m = None
  | Destroy p => p ∈ dom S ∧ p ≠ init_page_dir t
  | Call (OpSet m p upage kpage _) =>
      p ∈ dom S ∧ p ≠ init_page_dir t ∧ user_addr upage ∧ (PGSIZE | upage) ∧ frame_ok t kpage ∧
      kernel_page m ∧ tables t !! m = None ∧ mapped S p upage = None
  | Call (OpClear p upage) => p ∈ dom S ∧ user_addr upage ∧ (PGSIZE | upage)
  | Call (OpDirty p v _) | Call (OpAccessed p v _) => p ∈ dom S ∧ user_addr v
  | Call (OpActivate p) => default (init_page_dir t) p ∈ dom S
  | Walk p i => p ∈ dom S ∧ (i < 1024)%nat
  end.

(** ** Words that an operation leaves alone *)

Lemma pte_of_ext pds t t' q v :
  mmu_wf pds t → q ∈ pds → addr v → tables t' !! q = tables t !! q →
  (∀ d pt, word t (q, pd_no v) = Ret d → pde_for d pt → tables t' !! pt = tables t !! pt) →
  pte_of t' q v = pte_of t q v.
Proof.
  intros Hw Hq Hv Eq Ept. unfold pte_of.
  assert (word t' (q, pd_no v) = word t (q, pd_no v)) as -> by (unfold word; simpl; by rewrite Eq).
  destruct (word_dir pds t q (pd_no v) Hw Hq) as [d Hd]; [by apply pd_no_lt|]. rewrite Hd.
  destruct (Z.eqb_spec d 0) as [|Hne]; [done|].
  destruct (mw_pde _ _ Hw q _ d Hq Hd Hne) as (pt & _ & Hpt & _). pose proof Hpt as (_ & E & _).
  rewrite E. unfold word. simpl. by rewrite (Ept d pt).
Qed.

Lemma tables_not_dir pds t p d pt (i : nat) :
  mmu_wf pds t → p ∈ pds → word t (p, i) = Ret d → pde_for d pt → pt ∉ pds.
Proof.
  intros Hw Hp Hd Hpt. destruct (mw_pde _ _ Hw p i d Hp Hd (pde_nonzero _ _ Hpt)) as (x & ? & Hx & Hn & _).
  by rewrite (pde_for_inj _ _ _ Hx Hpt) in Hn.
Qed.

Lemma set_word_table a e t q : q ≠ a.1 → tables (set_word a e t) !! q = tables t !! q.
Proof. intros Hne. simpl. by rewrite lookup_alter_ne. Qed.

Lemma change_flag_dirs pds t p v flag (b : bool) t' q :
  mmu_wf pds t → p ∈ pds → user_addr v → change_flag flag (Some p) v b t = Ret t' →
  q ∈ pds → tables t' !! q = tables t !! q.
Proof.
  intros Hw Hp Hv E Hq. unfold change_flag in E.
  destruct (lookup_page_cases pds t p v Hw Hp (user_is_addr _ Hv))
    as [[El _]|(pt & d & El & Hd & Hpt & Hpte)]; rewrite El in E; inv_bind; [done|].
  pose proof (tables_not_dir _ _ _ _ _ _ Hw Hp Hd Hpt) as Hn.
  assert (q ≠ pt) as Hne by (by intros ->).
  destruct b; inv_bind; [by apply (set_word_table (pt, _))|].
  unfold invalidate_pagedir. case_match; by apply (set_word_table (pt, _)).
Qed.

Lemma clear_page_dirs pds t p upage t' q :
  mmu_wf pds t → p ∈ pds → user_addr upage → pagedir_clear_page (Some p) upage t = Ret t' →
  q ∈ pds → tables t' !! q = tables t !! q.
Proof.
  intros Hw Hp Hv E Hq. unfold pagedir_clear_page in E.
  destruct (lookup_page_cases pds t p upage Hw Hp (user_is_addr _ Hv))
    as [[El _]|(pt & d & El & Hd & Hpt & Hpte)]; rewrite El in E; inv_bind; [done|].
  pose proof (tables_not_dir _ _ _ _ _ _ Hw Hp Hd Hpt) as Hn.
  assert (q ≠ pt) as Hne by (by intros ->).
  match goal with H : word _ _ ≫= _ = _ |- _ => rewrite Hpte in H; simpl in H end.
  case_match; inv_bind; [|done].
  unfold invalidate_pagedir. case_match; by apply (set_word_table (pt, _)).
Qed.

Lemma set_page_dirs pds t p upage kpage (writable ok : bool) m t' q :
  mmu_wf pds t → p ∈ pds → user_addr upage → kernel_page m → tables t !! m = None →
  pagedir_set_page (Some m) (Some p) upage kpage writable t = Ret (ok, t') →
  q ∈ pds → q ≠ p → tables t' !! q = tables t !! q.
Proof.
  intros Hw Hp Hv Hk Hm E Hq Hne.
  assert (∀ x, x ∈ pds → x ≠ m) as Hdm.
  { intros x Hx ->. destruct (mw_dir _ _ Hw m Hx) as (? & ? & _). congruence. }
  destruct (word_dir pds t p (pd_no upage) Hw Hp) as [e He]; [by apply pd_no_lt, user_is_addr|].
  unfold pagedir_set_page, lookup_page in E. revert E. generalize (replicate 1024 0). intros z E.
  simpl in E. rewrite He in E. simpl in E. destruct (Z.eqb_spec e 0) as [->|He0].
  - inv_bind. inv_bind. destruct (mw_dir _ _ Hw p Hp) as (dir & Hdir & Hlen).
    match goal with H : word _ (p, _) = Ret ?x |- _ => assert (x = pde_create m) as -> end.
    { match goal with H : word (set_word _ _ _) (p, _) = Ret _ |- _ =>
        rewrite (word_set_eq _ _ _ dir) in H; [by injection H as <-| |] end.
      - simpl. rewrite lookup_insert_ne; [done|]. by apply not_eq_sym, Hdm.
      - simpl. rewrite Hlen. by apply pd_no_lt, user_is_addr. }
    destruct (pde_create_spec m Hk) as [-> _]. pose proof (Hdm q Hq).
    by rewrite !lookup_alter_ne, lookup_insert_ne.
  - inv_bind. inv_bind.
    destruct (mw_pde _ _ Hw p _ e Hp He He0) as (pt & _ & (_ & <- & _) & Hn & _).
    rewrite lookup_alter_ne; [done|]. by intros <-.
Qed.

(** ** Flags of an entry *)

Lemma entry_mapping_flag e e' (f : mapping → mapping) :
  same_frame e e' → flag_set PTE_P e' = flag_set PTE_P e →
  (∀ k, f (Mapping k (flag_set PTE_W e) (flag_set PTE_D e) (flag_set PTE_A e))
     = Mapping k (flag_set PTE_W e') (flag_set PTE_D e') (flag_set PTE_A e')) →
  entry_mapping e' = f <$> entry_mapping e.
Proof.
  intros Hs HP Hf. unfold entry_mapping. rewrite HP. destruct (flag_set PTE_P e); [|done].
  simpl. by rewrite Hf, (pte_get_page_ext _ _ Hs).
Qed.

Lemma clear_flag_other (a b e : Z) : 0 ≤ a < 32 → 0 ≤ b < 32 → a ≠ b →
  flag_set (2 ^ a) (clear_flag (2 ^ b) e) = flag_set (2 ^ a) e.
Proof.
  intros Ha Hb Hne. rewrite !flag_set_bit, clear_flag_bits by lia. rewrite (proj2 (Z.eqb_neq _ _)) by done.
  by rewrite andb_true_r.
Qed.

Lemma set_flag_same_flag (n e : Z) : 0 ≤ n → flag_set (2 ^ n) (set_flag (2 ^ n) e) = true.
Proof. intros Hn. rewrite flag_set_bit, set_flag_bits by done. by rewrite Z.eqb_refl, orb_true_r. Qed.

Lemma clear_flag_same_flag (n e : Z) : 0 ≤ n < 32 → flag_set (2 ^ n) (clear_flag (2 ^ n) e) = false.
Proof. intros Hn. rewrite flag_set_bit, clear_flag_bits by lia. by rewrite Z.eqb_refl, andb_false_r. Qed.

(** The flags of an entry after flag [n] was changed; [same] says that the frame and
    the presence are as before. *)
Ltac change_flags same :=
  destruct same as [Hf HP]; [lia|];
  apply entry_mapping_flag; [done|by destruct pte_flags as (-> & _)|];
  intros k; destruct pte_flags as (_ & -> & _ & -> & ->);
  change 2 with (2 ^ 1); change 32 with (2 ^ 5); change 64 with (2 ^ 6);
  rewrite ?set_flag_same_flag, ?clear_flag_same_flag, ?set_flag_other, ?clear_flag_other by lia;
  done.

Lemma change_entry (flag e : Z) (b : bool) (f : mapping → mapping) :
  flag = PTE_D ∧ f = (λ m, m <| mp_dirty := b |>) ∨
  flag = PTE_A ∧ f = (λ m, m <| mp_accessed := b |>) →
  entry_mapping (if b then set_flag flag e else clear_flag flag e) = f <$> entry_mapping e.
Proof.
  destruct pte_flags as (_ & _ & _ & EA & ED).
  intros [[-> ->]|[-> ->]]; rewrite ?ED, ?EA; clear EA ED.
  - change 64 with (2 ^ 6). destruct b;
      [change_flags (set_flag_same 6 e)|change_flags (clear_flag_same 6 e)].
  - change 32 with (2 ^ 5). destruct b;
      [change_flags (set_flag_same 5 e)|change_flags (clear_flag_same 5 e)].
Qed.

Lemma clear_present e : entry_mapping (clear_flag PTE_P e) = None.
Proof.
  unfold entry_mapping. destruct pte_flags as (-> & _). change 1 with (2 ^ 0).
  rewrite flag_set_bit, clear_flag_bits by lia. by rewrite andb_false_r.
Qed.
(** ** Every operation on the maps *)

Lemma mapped_alter (h : gmap Z mapping → gmap Z mapping) p S q u :
  mapped (alter h p S) q u =
    if decide (q = p) then S !! p ≫= λ sp, h sp !! (u / PGSIZE) else mapped S q u.
Proof.
  unfold mapped. case_decide as Hq; [subst|by rewrite lookup_alter_ne by done].
  rewrite lookup_alter_eq. by destruct (S !! p).
Qed.

Lemma represents_ext S S' t :
  dom S' = dom S → (∀ p v, p ∈ dom S → user_addr v → mapped S' p v = mapped S p v) →
  represents S t → represents S' t.
Proof.
  intros Hd Hm [? ? ? ? He]. split; rewrite ?Hd; [done..|]. intros p v Hp Hv. rewrite Hm by done. by apply He.
Qed.

(** Setting the entry of one page, without touching the initial directory. *)
Lemma represents_set S t p v e t' (h : gmap Z mapping → gmap Z mapping) :
  represents S t → p ∈ dom S → user_addr v → pte_set (dom S) p v e t t' →
  tables t' !! init_page_dir t = tables t !! init_page_dir t →
  (∀ sp n, S !! p = Some sp →
     h sp !! n = if decide (n = v / PGSIZE) then entry_mapping e else sp !! n) →
  represents (alter h p S) t'.
Proof.
  intros [Hw Hk Hi Hu He] Hp Hv (Hw' & (Ei & _ & _) & Hpte) Et Hh. split; rewrite ?dom_alter_L, ?Ei.
  - done.
  - done.
  - done.
  - intros i Hlt. unfold word. simpl. rewrite Et. by apply Hu.
  - intros q u Hq Huu. rewrite mapped_alter, Hpte by (done || by apply user_is_addr).
    destruct (decide (q = p)) as [->|Hne].
    + apply elem_of_dom in Hp as [sp Hsp]. pose proof (He p u Hq Huu) as Hold. unfold mapped in Hold.
      rewrite Hsp in Hold |- *. simpl in *. rewrite (Hh sp) by done.
      repeat case_decide; try tauto; done.
    + rewrite decide_False by (by intros [? _]). by apply He.
Qed.

Lemma set_page_represents S t m p upage kpage (w : bool) :
  represents S t → space_op_ok S t (Call (OpSet m p upage kpage w)) →
  ∃ t', run_space (Call (OpSet m p upage kpage w)) t = Ret t' ∧
    represents (space_step (Call (OpSet m p upage kpage w)) S) t'.
Proof.
  intros Hr (Hp & Hi & Hu & Ha & Hf & Hm & Hfresh & Hnone). pose proof Hr as [Hw _ Hid _ He].
  rewrite He in Hnone by done. simpl.
  assert (flag_set PTE_P (pte_of t p upage) = false) as Hnp.
  { unfold entry_mapping in Hnone. by destruct (flag_set PTE_P _). }
  destruct (pagedir_set_page_ret (dom S) t p upage kpage w m) as (t' & E & _ & Hset); [done..|].
  rewrite E. ret. exists t'. split; [done|].
  eapply represents_set; [done|done|done|done| |].
  - by apply (set_page_dirs (dom S) t p upage kpage w true m t'); [..|apply not_eq_sym].
  - intros sp n _.
    destruct (pte_create_user_spec kpage w) as (_ & Epg & HP & _ & HW & HA & HD); [apply Hf|].
    unfold entry_mapping. rewrite HP, Epg, HW, HD, HA. case_decide as Hn.
    + subst. by rewrite lookup_insert_eq.
    + by rewrite lookup_insert_ne.
Qed.

Lemma clear_page_represents S t p upage :
  represents S t → space_op_ok S t (Call (OpClear p upage)) →
  ∃ t', run_space (Call (OpClear p upage)) t = Ret t' ∧
    represents (space_step (Call (OpClear p upage)) S) t'.
Proof.
  intros Hr (Hp & Hu & Ha). pose proof Hr as [Hw Hk Hi _ He]. simpl.
  destruct (pagedir_clear_page_ret (dom S) t p upage) as (t' & E & Hc); [done|done|by apply Hk|done..|].
  exists t'. split; [done|]. cbv zeta in Hc. destruct (flag_set PTE_P (pte_of t p upage)) eqn:HP.
  - destruct Hc as [_ Hset]. eapply represents_set; [done|done|done|done| |].
    + by apply (clear_page_dirs (dom S) t p upage).
    + intros sp n _. rewrite clear_present. case_decide as Hn; [subst; by rewrite lookup_delete_eq|].
      by rewrite lookup_delete_ne.
  - subst t'. apply (represents_ext S); [by rewrite dom_alter_L| |done].
    intros q v Hq Hv. rewrite mapped_alter. case_decide as Hqp; [subst q|done].
    assert (mapped S p upage = None) as Hnone.
    { rewrite He by done. unfold entry_mapping. by rewrite HP. }
    apply elem_of_dom in Hp as [sp Hsp]. unfold mapped in *. rewrite Hsp in *. simpl in *.
    destruct (decide (v / PGSIZE = upage / PGSIZE)) as [->|].
    + by rewrite lookup_delete_eq.
    + by rewrite lookup_delete_ne.
Qed.

Lemma change_flag_represents S t p v (flag : Z) (b : bool) (f : mapping → mapping) :
  flag = PTE_D ∧ f = (λ m, m <| mp_dirty := b |>) ∨
  flag = PTE_A ∧ f = (λ m, m <| mp_accessed := b |>) →
  represents S t → p ∈ dom S → user_addr v →
  ∃ t', change_flag flag (Some p) v b t = Ret t' ∧ represents (upd_mapping p (v / PGSIZE) f S) t'.
Proof.
  intros Hf Hr Hp Hv. pose proof Hr as [Hw Hk Hi _ He].
  destruct (change_flag_ret (dom S) t p v flag b) as (t' & E & Hc); [done|done|by apply Hk|done|].
  exists t'. split; [done|]. cbv zeta in Hc. unfold upd_mapping. destruct Hc as [[H0' ->]|Hc].
  - apply (represents_ext S); [by rewrite dom_alter_L| |done].
    intros q u Hq Hu. rewrite mapped_alter. case_decide as Hqp; [subst q|done].
    assert (mapped S p v = None) as Hnone by (rewrite He, H0' by done; done).
    apply elem_of_dom in Hp as [sp Hsp]. unfold mapped in *. rewrite Hsp in *. simpl in *.
    destruct (decide (u / PGSIZE = v / PGSIZE)) as [->|].
    + by rewrite lookup_alter_eq, Hnone.
    + by rewrite lookup_alter_ne.
  - assert (pte_set (dom S) p v
      (if b then set_flag flag (pte_of t p v) else clear_flag flag (pte_of t p v)) t t') as Hset
      by (destruct b; by destruct Hc).
    eapply represents_set; [done|done|done|done| |].
    + by apply (change_flag_dirs (dom S) t p v flag b).
    + intros sp n Hsp. rewrite (change_entry flag _ b f) by done. rewrite <- He by done.
      unfold mapped. rewrite Hsp. simpl. case_decide as Hn; [subst; by rewrite lookup_alter_eq|].
      by rewrite lookup_alter_ne.
Qed.
Lemma word_tables t t' p : tables t' !! p = tables t !! p → ∀ i, word t' (p, i) = word t (p, i).
Proof. intros E i. unfold word. simpl. by rewrite E. Qed.

Lemma create_represents S t m :
  represents S t → space_op_ok S t (Create m) →
  ∃ t', run_space (Create m) t = Ret t' ∧ represents (space_step (Create m) S) t'.
Proof.
  intros [Hw Hk Hi Hu He] [Hkm Hm]. simpl space_step.
  destruct (pagedir_create_ret (dom S) t m) as (dir & Ed & Hc & Hw' & Hu'); [done..|].
  set (t' := t <| tables := <[m := dir]> (tables t) |>) in *.
  exists t'. split; [unfold run_space; by rewrite Hc|].
  assert (∀ x, tables t !! x ≠ None → tables t' !! x = tables t !! x) as Hsame.
  { intros x Hx. unfold t'. simpl. apply lookup_insert_ne. congruence. }
  assert (∀ q, q ∈ dom S → tables t' !! q = tables t !! q) as Hdirs.
  { intros q Hq. apply Hsame. destruct (mw_dir _ _ Hw q Hq) as (? & -> & _). done. }
  split; rewrite ?dom_insert_L; [done|set_solver|set_solver| |].
  - intros i Hlt. rewrite (word_tables t t') by (by apply Hdirs). by apply Hu.
  - intros q v Hq Hv. unfold mapped. destruct (decide (q = m)) as [->|Hne].
    + rewrite lookup_insert_eq. simpl. rewrite lookup_empty. unfold pte_of.
      by rewrite Hu' by (by apply user_pd_no).
    + assert (q ∈ dom S) as Hqs by set_solver. rewrite lookup_insert_ne by done.
      fold (mapped S q v). rewrite He by done.
      f_equal. symmetry. apply (pte_of_ext (dom S)); [done|done|by apply user_is_addr|by apply Hdirs|].
      intros d pt Hd Hpt. apply Hsame.
      destruct (mw_pde _ _ Hw q _ d Hqs Hd (pde_nonzero _ _ Hpt)) as (x & tbl & Hx & _ & Ht & _).
      rewrite (pde_for_inj _ _ _ Hx Hpt) in Ht. by rewrite Ht.
Qed.

Lemma destroy_loop_rest n i p t t' :
  destroy_loop n i p t = Ret t' → init_page_dir t' = init_page_dir t.
Proof.
  revert i t. induction n as [|n IH]; intros i t E; cbn [destroy_loop] in E; inv_bind; [done|].
  match goal with H : destroy_loop _ _ _ _ = _ |- _ => apply IH in H; rewrite H end. by case_match.
Qed.

(** The page tables that go with [p] are not those of another directory. *)
Lemma table_of_other pds t p q j d pt :
  mmu_wf pds t → p ∈ pds → q ∈ pds → q ≠ p → word t (q, j) = Ret d → pde_for d pt →
  ¬ table_of t p 0 (pd_no PHYS_BASE) pt.
Proof.
  intros Hw Hp Hq Hne Hd Hpt (i & e & Hi & He & Hpe). apply Hne. symmetry.
  destruct (mw_own _ _ Hw p q i j e d pt); (done || lia).
Qed.

Lemma destroy_represents S t p :
  represents S t → space_op_ok S t (Destroy p) →
  ∃ t', run_space (Destroy p) t = Ret t' ∧ represents (space_step (Destroy p) S) t'.
Proof.
  intros [Hw Hk Hi Hu He] [Hp Hpi]. simpl.
  destruct (pagedir_destroy_correct (dom S) t p Hw Hp Hpi) as (t' & E & _ & _ & Hkeep & _).
  exists t'. split; [done|].
  assert (init_page_dir t' = init_page_dir t) as Ei.
  { unfold pagedir_destroy in E. inv_bind. by eapply destroy_loop_rest. }
  assert (∀ q, q ∈ dom S → q ≠ p → tables t' !! q = tables t !! q) as Hdirs.
  { intros q Hq Hne. apply Hkeep; [done|]. intros (i & e & _ & Hd & Hpt).
    by destruct (tables_not_dir _ _ _ _ _ _ Hw Hp Hd Hpt). }
  assert (∀ q j d pt, q ∈ dom S → q ≠ p → word t (q, j) = Ret d → pde_for d pt →
    tables t' !! pt = tables t !! pt) as Htabs.
  { intros q j d pt Hq Hne Hd Hpt. apply Hkeep; [|by eapply table_of_other].
    intros ->. by destruct (tables_not_dir _ _ _ _ _ _ Hw Hq Hd Hpt). }
  split; rewrite ?dom_delete_L, ?Ei.
  - split.
    + intros q [Hq Hne]%elem_of_difference. rewrite Hdirs by set_solver. by apply (mw_dir _ _ Hw).
    + intros q j e [Hq Hne]%elem_of_difference Hd H0'. assert (q ≠ p) by set_solver.
      rewrite (word_tables t t') in Hd by (by apply Hdirs).
      destruct (mw_pde _ _ Hw q j e Hq Hd H0') as (pt & tbl & Hpt & Hn & Ht & Hl).
      exists pt, tbl. split; [done|]. split; [set_solver|]. split; [|done]. by erewrite Htabs.
    + intros q r i j d e pt [Hq Hqp]%elem_of_difference [Hr' Hrp]%elem_of_difference Hlt.
      rewrite !(word_tables t t') by (apply Hdirs; set_solver). by apply (mw_own _ _ Hw).
  - set_solver.
  - set_solver.
  - intros i Hlt. rewrite (word_tables t t') by (apply Hdirs; [done|by apply not_eq_sym]). by apply Hu.
  - intros q v [Hq Hqp]%elem_of_difference Hv. assert (q ≠ p) by set_solver.
    unfold mapped. rewrite lookup_delete_ne by (by apply not_eq_sym).
    fold (mapped S q v). rewrite He by done.
    f_equal. symmetry. apply (pte_of_ext (dom S)); [done|done|by apply user_is_addr|by apply Hdirs|].
    intros d pt Hd Hpt. by eapply Htabs.
Qed.

(** The accessed bit of a directory entry is none of the map's. *)
Lemma pde_for_accessed e pt : pde_for e pt → pde_for (set_flag PTE_A e) pt.
Proof.
  intros (Hk & E & HP). destruct pte_flags as (EP & _ & _ & EA & _). unfold pde_for.
  rewrite EP in *. rewrite EA. change 32 with (2 ^ 5).
  destruct (set_flag_same 5 e) as [Hf HP']; [lia|].
  split; [done|]. split; [by rewrite <- (pde_get_pt_ext _ _ Hf)|by rewrite HP'].
Qed.

Section walk.
Context pds t p (i : nat) e.
Hypothesis (Hw : mmu_wf pds t) (Hp : p ∈ pds) (Hi : (i < 1024)%nat).
Hypothesis (He : word t (p, i) = Ret e) (Hne : e ≠ 0).
Let t' := set_word (p, i) (set_flag PTE_A e) t.

Lemma walk_word q j :
  word t' (q, j) = if decide ((q, j) = (p, i)) then Ret (set_flag PTE_A e) else word t (q, j).
Proof.
  destruct (mw_dir _ _ Hw p Hp) as (dir & Hdir & Hlen). case_decide as Hq.
  - rewrite Hq. apply (word_set_eq _ _ _ dir); [done|]. simpl. by rewrite Hlen.
  - apply word_set_ne. simpl. destruct (decide (p = q)) as [<-|]; [right|by left]. by intros <-.
Qed.

(** The entries name the same page tables before and after. *)
Lemma walk_entry q j x :
  word t' (q, j) = Ret x → x ≠ 0 →
  ∃ y, word t (q, j) = Ret y ∧ y ≠ 0 ∧ ∀ a, pde_for x a ↔ pde_for y a.
Proof.
  rewrite walk_word. case_decide as Hq; [|intros; by exists x]. intros [= <-] _.
  rewrite Hq. exists e. split; [done|]. split; [done|]. intros a. split; [|apply pde_for_accessed].
  intros Ha. destruct (mw_pde _ _ Hw p i e Hp He Hne) as (pt & _ & Hpt & _).
  by rewrite (pde_for_inj _ _ _ Ha (pde_for_accessed _ _ Hpt)).
Qed.

Lemma walk_wf : mmu_wf pds t'.
Proof.
  split.
  - intros q Hq. destruct (mw_dir _ _ Hw q Hq) as (dir & Hdir & Hlen). unfold t'. simpl.
    destruct (decide (q = p)) as [->|]; [|rewrite lookup_alter_ne by done; by exists dir].
    rewrite lookup_alter_eq, Hdir. eexists. split; [done|]. by rewrite length_insert.
  - intros q j x Hq Hx Hx0. destruct (walk_entry q j x Hx Hx0) as (y & Hy & Hy0 & Hxy).
    destruct (mw_pde _ _ Hw q j y Hq Hy Hy0) as (a & b & Ha & Hn & Ht & Hl).
    exists a, b. split; [by apply Hxy|]. split; [done|]. split; [|done].
    rewrite <- Ht. apply set_word_table. simpl. by intros ->.
  - intros q r j k d1 d2 a Hq Hr Hj Hx Hy Hd1 Hd2.
    destruct (walk_entry q j d1 Hx (pde_nonzero _ _ Hd1)) as (y1 & Hy1 & _ & Hi1).
    destruct (walk_entry r k d2 Hy (pde_nonzero _ _ Hd2)) as (y2 & Hy2 & _ & Hi2).
    apply (mw_own _ _ Hw q r j k y1 y2 a); try done; [by apply Hi1|by apply Hi2].
Qed.

Lemma walk_pte_of q v : q ∈ pds → pte_of t' q v = pte_of t q v.
Proof.
  intros Hq. unfold pte_of. destruct (word t' (q, pd_no v)) as [x| |] eqn:Hx.
  - destruct (Z.eqb_spec x 0) as [->|Hx0].
    + rewrite walk_word in Hx. case_decide as E; [|by rewrite Hx].
      injection Hx as Hx. destruct (mw_pde _ _ Hw p i e Hp He Hne) as (pt & _ & Hpt & _).
      by destruct (pde_nonzero _ _ (pde_for_accessed _ _ Hpt)).
    + destruct (walk_entry q _ x Hx Hx0) as (y & Hy & Hy0 & Hxy). rewrite Hy.
      rewrite (proj2 (Z.eqb_neq _ _) Hy0).
      destruct (mw_pde _ _ Hw q _ y Hq Hy Hy0) as (a & b & Ha & Hn & _).
      pose proof (proj2 (Hxy a) Ha) as (_ & -> & _). destruct Ha as (_ & -> & _).
      rewrite (word_tables t t'); [done|]. apply set_word_table. simpl. by intros ->.
  - rewrite walk_word in Hx. case_decide; [done|]. by rewrite Hx.
  - rewrite walk_word in Hx. case_decide; [done|]. by rewrite Hx.
Qed.
End walk.

Lemma walk_represents S t p i :
  represents S t → space_op_ok S t (Walk p i) →
  ∃ t', run_space (Walk p i) t = Ret t' ∧ represents S t'.
Proof.
  intros Hr [Hp Hlt]. pose proof Hr as [Hw Hk Hi Hu He]. simpl.
  destruct (word_dir (dom S) t p i Hw Hp Hlt) as [e Hd]. rewrite Hd. ret.
  destruct (Z.eqb_spec e 0) as [|Hne]; [by exists t|]. eexists. split; [done|].
  split; [by apply walk_wf|done|done| |].
  - intros j Hj. change (init_page_dir (set_word _ _ t)) with (init_page_dir t).
    rewrite (walk_word (dom S)) by done. case_decide as E; [|by apply Hu]. injection E as E ->.
    rewrite <- E, Hu in Hd by done. by injection Hd as <-.
  - intros q v Hq Hv. by rewrite He, (walk_pte_of (dom S)).
Qed.

(** ** The refinement *)

Lemma space_op_represents S t op :
  represents S t → space_op_ok S t op →
  ∃ t', run_space op t = Ret t' ∧ represents (space_step op S) t'.
Proof.
  intros Hr Hop. destruct op as [m|p|[m p upage kpage w|p upage|p v b|p v b|p]|p i].
  - by apply create_represents.
  - by apply destroy_represents.
  - by apply set_page_represents.
  - by apply clear_page_represents.
  - destruct Hop. apply change_flag_represents; [by left|done..].
  - destruct Hop. apply change_flag_represents; [by right|done..].
  - simpl. eexists. split; [done|]. destruct Hr as [Hw ? ? ? ?]. split; [|done..].
    destruct Hw. by split.
  - by apply walk_represents.
Qed.

(** What the read operations return, by the map. *)
Lemma represents_reads S t p v :
  represents S t → p ∈ dom S → user_addr v →
  pagedir_get_page (Some p) v t = Ret ((λ m, mp_frame m + v mod PGSIZE) <$> mapped S p v) ∧
  ∀ m, mapped S p v = Some m →
    pagedir_is_dirty (Some p) v t = Ret (mp_dirty m) ∧
    pagedir_is_accessed (Some p) v t = Ret (mp_accessed m) ∧
    is_flag PTE_W (Some p) v t = Ret (mp_writable m).
Proof.
  intros [Hw _ _ _ He] Hp Hv. rewrite He by done. split.
  - rewrite (pagedir_get_page_ret (dom S)) by done. unfold translate, entry_mapping.
    by destruct (flag_set PTE_P _).
  - intros m Hm. unfold entry_mapping in Hm. destruct (flag_set PTE_P _); [|done].
    injection Hm as <-. unfold pagedir_is_dirty, pagedir_is_accessed.
    by rewrite !(is_flag_ret (dom S)) by (done || by apply user_is_addr).
Qed.

Fixpoint run_ops (ops : list space_op) t : outcome mmu :=
  match ops with
  | [] => Ret t
  | op :: ops' => t' ← run_space op t; run_ops ops' t'
  end.

(** Every call is made with its preconditions, which speak of the state it finds. *)
Fixpoint ops_ok (ops : list space_op) S t : Prop :=
  match ops with
  | [] => True
  | op :: ops' =>
      space_op_ok S t op ∧ ∀ t', run_space op t = Ret t' → ops_ok ops' (space_step op S) t'
  end.

(** C35. Page directories are finite maps: whatever calls of pagedir.c are made, with the
    preconditions they assert and pages that palloc.c could give, on any directories
    and in any order, and whatever directory entries the processor marks as used in between, the calls return and
    the words in memory represent the maps that the calls make of the initial
    ones; so that translation, permission and the dirty and accessed bits of every
    user page of every directory are those of the maps. *)
Theorem page_directories_refine ops S t :
  represents S t → ops_ok ops S t →
  ∃ t', run_ops ops t = Ret t' ∧
    let S' := foldl (λ s op, space_step op s) S ops in
    represents S' t' ∧
    ∀ p v, p ∈ dom S' → user_addr v →
      pagedir_get_page (Some p) v t' = Ret ((λ m, mp_frame m + v mod PGSIZE) <$> mapped S' p v) ∧
      ∀ m, mapped S' p v = Some m →
        pagedir_is_dirty (Some p) v t' = Ret (mp_dirty m) ∧
        pagedir_is_accessed (Some p) v t' = Ret (mp_accessed m) ∧
        is_flag PTE_W (Some p) v t' = Ret (mp_writable m).
Proof.
  revert S t. induction ops as [|op ops IH]; intros S t Hr Hok; simpl.
  - exists t. split; [done|]. split; [done|]. intros p v Hp Hv. by apply represents_reads.
  - destruct Hok as [Hop Hok]. destruct (space_op_represents S t op Hr Hop) as (t1 & E & Hr1).
    rewrite E. ret. apply IH; [done|]. by apply Hok.
Qed.
End space.

(** ** Witness: a directory is created, a page mapped in it, marked and unmapped, and
    the directory destroyed *)

#[local] Existing Instances Ia32.vaddr Ia32.vaddr_laws Ia32.pte Ia32.pte_laws.

Definition boot_mmu : mmu := MkMmu {[ boot_pd := replicate 1024 0 ]} boot_pd 1024 (vtop boot_pd) ∅.
Definition boot_space : space := {[ boot_pd := ∅ ]}.

Lemma boot_word i e : word boot_mmu (boot_pd, i) = Ret e → e = 0.
Proof.
  unfold word, boot_mmu. cbn [fst snd tables]. rewrite lookup_singleton_eq. ret. intros E.
  destruct (replicate 1024 0 !! i) as [x|] eqn:Hx; [|done]. injection E as <-.
  by apply lookup_replicate in Hx as [-> _].
Qed.

Lemma boot_represents : represents boot_space boot_mmu.
Proof.
  assert (∀ p, p ∈ dom boot_space → p = boot_pd) as Hdom.
  { intros p. unfold boot_space. rewrite dom_singleton_L. set_solver. }
  assert (∀ i, (i < 1024)%nat → word boot_mmu (boot_pd, i) = Ret 0) as Hz.
  { intros i Hi. unfold word, boot_mmu. cbn [fst snd tables]. rewrite lookup_singleton_eq. ret.
    by rewrite lookup_replicate_2. }
  split.
  - split.
    + intros p ->%Hdom. exists (replicate 1024 0). split; [reflexivity|apply length_replicate].
    + intros p i e ->%Hdom He Hne. by destruct Hne, (boot_word i e He).
    + intros p q i j d e pt ->%Hdom _ _ Hd _ Hpt. by destruct (pde_nonzero d pt Hpt), (boot_word i d Hd).
  - intros p ->%Hdom. repeat split; try discriminate. by apply aligned.
  - unfold boot_space. rewrite dom_singleton_L. by apply elem_of_singleton.
  - intros i Hi. apply Hz. change (i < 768)%nat in Hi. lia.
  - intros p v ->%Hdom Hv. unfold mapped, boot_space. rewrite lookup_singleton_eq. simpl.
    rewrite lookup_empty. unfold pte_of. rewrite Hz; [done|]. by apply pd_no_lt, user_is_addr.
Qed.

Definition sample_ops : list space_op :=
  [Create user_pd; Call (OpSet table_page user_pd code_page code_frame true);
   Call (OpDirty user_pd code_page true); Walk user_pd 32; Call (OpActivate (Some user_pd));
   Call (OpClear user_pd code_page); Destroy user_pd].

(** The state after an operation, when it returns. *)
Definition next_mmu (op : space_op) (t : mmu) : mmu :=
  match run_space op t with Ret t' => t' | _ => t end.

Lemma next_mmu_eq op t t' : run_space op t = Ret t' → t' = next_mmu op t.
Proof. unfold next_mmu. by intros ->. Qed.

Lemma sample_kernel_page (n : Z) : 0 ≤ n < 262144 → kernel_page (3221225472 + n * 4096).
Proof. intros Hn. split; [|exists (786432 + n)]; unfold PGSIZE; simpl; lia. Qed.

Lemma sample_ops_ok : ops_ok sample_ops boot_space boot_mmu.
Proof.
  assert (user_addr code_page) as Hu by exact code_page_user.
  assert ((PGSIZE | code_page)) as Ha by (by apply aligned).
  cbn [ops_ok sample_ops]. split; [split; [exact (sample_kernel_page 1 ltac:(lia))|reflexivity]|].
  intros t1 ->%next_mmu_eq.
  assert (∀ S : space, S !! user_pd ≠ None → user_pd ∈ dom S) as Hdom.
  { intros S HS. apply elem_of_dom. by destruct (S !! user_pd). }
  split.
  { split; [apply Hdom; discriminate|]. split; [discriminate|]. split; [done|]. split; [done|].
    split; [split; [exact (sample_kernel_page 2 ltac:(lia))|reflexivity]|].
    split; [exact (sample_kernel_page 3 ltac:(lia))|]. split; reflexivity. }
  intros t2 ->%next_mmu_eq. split; [split; [apply Hdom; discriminate|done]|].
  intros t3 ->%next_mmu_eq. split; [split; [apply Hdom; discriminate|lia]|].
  intros t4 ->%next_mmu_eq. split; [apply Hdom; discriminate|].
  intros t5 ->%next_mmu_eq. split; [split; [apply Hdom; discriminate|done]|].
  intros t6 ->%next_mmu_eq. split; [|done]. split; [apply Hdom; discriminate|].
  vm_compute. discriminate.
Qed.

Lemma page_directories_refine_witness :
  ∃ t', run_ops sample_ops boot_mmu = Ret t' ∧
    let S' := foldl (λ s op, space_step op s) boot_space sample_ops in
    represents S' t' ∧
    ∀ p v, p ∈ dom S' → user_addr v →
      pagedir_get_page (Some p) v t' = Ret ((λ m, mp_frame m + v mod PGSIZE) <$> mapped S' p v) ∧
      ∀ m, mapped S' p v = Some m →
        pagedir_is_dirty (Some p) v t' = Ret (mp_dirty m) ∧
        pagedir_is_accessed (Some p) v t' = Ret (mp_accessed m) ∧
        is_flag PTE_W (Some p) v t' = Ret (mp_writable m).
Proof.
  apply (page_directories_refine sample_ops boot_space boot_mmu).
  - exact boot_represents.
  - exact sample_ops_ok.
Defined.
