(* ===== verification/Swap.v ===== *)
(** * Swap slots (virtual-memory/vm/swap.c)

    A slot is eight sectors of the swap device.  Slots are carved off the device
    one after the other ([next_sector]) and recycled through a free list; a slot's
    record is a heap object named by its address. *)
From S2P Require Import Prelude CInt Ext Mmu.
Open Scope Z_scope.

Definition SWAP_SLOT_NUM_SECTORS : Z := Z.quot PGSIZE BLOCK_SECTOR_SIZE.

(** The static variables, and the [struct swap_slot]s: [slots] maps the address of
    a slot to its [first_sector]. *)
Record swap (dev : Type) := Swap {
  next_sector : Z;
  slots : gmap Z Z;
  swap_occupied : list Z;
  swap_unoccupied : list Z;
  swap_table_lock : bool;
  swap_block : dev
}.
Arguments Swap {dev} _ _ _ _ _ _.
Arguments next_sector {dev} _.
Arguments slots {dev} _.
Arguments swap_occupied {dev} _.
Arguments swap_unoccupied {dev} _.
Arguments swap_table_lock {dev} _.
Arguments swap_block {dev} _.
#[export] Instance eta_swap {dev} : Eta (swap dev) := λ t,
  Swap (next_sector t) (slots t) (swap_occupied t) (swap_unoccupied t) (swap_table_lock t)
    (swap_block t).

Section swap.
Context {dev : Type} `{BlockDevice dev}.
Implicit Types (t : swap dev) (ss : Z) (kpage : list Z).

Definition lock_table t : outcome (swap dev) :=
  l ← lock_acquire (swap_table_lock t); Ret (t <| swap_table_lock := l |>).
Definition unlock_table t : outcome (swap dev) :=
  l ← lock_release (swap_table_lock t); Ret (t <| swap_table_lock := l |>).

(** [mem]: the address that [malloc] returns; a null result is dereferenced.
    The result [None] is the null pointer. *)
Definition get_slot (mem : option Z) t : outcome (option Z * swap dev) :=
  match swap_unoccupied t with
  | [] =>
      if block_size (swap_block t) <=? next_sector t then Ret (None, t)
      else
        t1 ← lock_table t;
        ss ← deref mem;
        let t2 := t1 <| slots := <[ss := next_sector t1]> (slots t1) |> in
        let t3 := t2 <| next_sector := u32 (next_sector t2 + SWAP_SLOT_NUM_SECTORS) |> in
        let t4 := t3 <| swap_occupied := swap_occupied t3 ++ [ss] |> in
        t5 ← unlock_table t4;
        Ret (Some ss, t5)
  | _ =>
      t1 ← lock_table t;
      match swap_unoccupied t1 with
      | [] => Panic
      | ss :: rest =>
          let t2 := t1 <| swap_unoccupied := rest |>
                       <| swap_occupied := swap_occupied t1 ++ [ss] |> in
          t3 ← unlock_table t2;
          Ret (Some ss, t3)
      end
  end.

(** [device] is what [block_get_role (BLOCK_SWAP)] returns. *)
Definition swap_init (device : dev) t : swap dev :=
  t <| swap_occupied := [] |> <| swap_unoccupied := [] |> <| swap_table_lock := false |>
    <| swap_block := device |> <| next_sector := 0 |>.

(** The loop of [swap_in]: [n] sectors from the [i]-th on, into [kpage]. *)
Fixpoint in_loop (n : nat) (i first : Z) kpage (d : dev) : outcome (list Z) :=
  match n with
  | O => Ret kpage
  | S n' =>
      b ← block_read (u32 (first + i)) d;
      in_loop n' (i + 1) first (splice (Z.to_nat (i * BLOCK_SECTOR_SIZE)) b kpage) d
  end.

Definition swap_in ss kpage t : outcome (bool * list Z * swap dev) :=
  first ← deref (slots t !! ss);
  kpage' ← in_loop (Z.to_nat SWAP_SLOT_NUM_SECTORS) 0 first kpage (swap_block t);
  t1 ← lock_table t;
  let t2 := t1 <| swap_occupied := list_remove ss (swap_occupied t1) |>
               <| swap_unoccupied := list_remove ss (swap_unoccupied t1) |> in
  let t3 := t2 <| swap_unoccupied := swap_unoccupied t2 ++ [ss] |> in
  t4 ← unlock_table t3;
  Ret (true, kpage', t4).

Fixpoint out_loop (n : nat) (i first : Z) kpage (d : dev) : outcome dev :=
  match n with
  | O => Ret d
  | S n' =>
      d' ← block_write (u32 (first + i))
             (slice (Z.to_nat (i * BLOCK_SECTOR_SIZE)) (Z.to_nat BLOCK_SECTOR_SIZE) kpage) d;
      out_loop n' (i + 1) first kpage d'
  end.

Definition swap_out (mem : option Z) kpage t : outcome (Z * swap dev) :=
  '(r, t1) ← get_slot mem t;
  ss ← deref r;
  first ← deref (slots t1 !! ss);
  d ← out_loop (Z.to_nat SWAP_SLOT_NUM_SECTORS) 0 first kpage (swap_block t1);
  Ret (ss, t1 <| swap_block := d |>).
End swap.

(** ** Invariant and abstract view *)

Section invariant.
Context {dev : Type} `{BlockDeviceLaws dev}.
Implicit Types (t : swap dev) (ss p q first : Z) (kpage : list Z) (d : dev).

(** The page in the [n] sectors from [first] on. *)
Fixpoint sectors_from (n : nat) first d : list Z :=
  match n with O => [] | S n' => sector_data d first ++ sectors_from n' (first + 1) d end.

(** The page that slot [ss] holds. *)
Definition slot_page t ss : option (list Z) :=
  (λ first, sectors_from 8 first (swap_block t)) <$> slots t !! ss.

(** What the table promises: the pages of the slots in use. *)
Definition stored t ss : option (list Z) :=
  if decide (ss ∈ swap_occupied t) then slot_page t ss else None.

Record swap_wf t : Prop := {
  sw_lock : swap_table_lock t = false;
  sw_dev : block_wf (swap_block t);
  sw_size : 0 ≤ block_size (swap_block t) < 4294967288 ∧ (8 | block_size (swap_block t));
  sw_next : 0 ≤ next_sector t ≤ block_size (swap_block t) ∧ (8 | next_sector t);
  sw_nodup : NoDup (swap_occupied t ++ swap_unoccupied t);
  sw_slot : ∀ p, p ∈ swap_occupied t ++ swap_unoccupied t →
    ∃ f, slots t !! p = Some f ∧ 0 ≤ f < next_sector t ∧ (8 | f);
  sw_distinct : ∀ p q f, p ∈ swap_occupied t ++ swap_unoccupied t →
    q ∈ swap_occupied t ++ swap_unoccupied t → slots t !! p = Some f → slots t !! q = Some f → p = q
}.

Lemma in_loop_ret (n : nat) (i first : Z) kpage d :
  block_wf d → 0 ≤ i → 0 ≤ first → first + i + Z.of_nat n ≤ block_size d < 4294967296 →
  Z.of_nat (length kpage) = (i + Z.of_nat n) * 512 →
  in_loop n i first kpage d
    = Ret (take (Z.to_nat (i * 512)) kpage ++ sectors_from n (first + i) d).
Proof.
  intros Hd. revert i kpage. induction n as [|n IH]; intros i kpage Hi Hf Hb Hl; simpl.
  { rewrite take_ge by lia. by rewrite app_nil_r. }
  rewrite u32_id by (unfold in_u32; lia). rewrite block_read_spec by (done || lia). ret.
  pose proof (sector_data_length d (first + i) Hd ltac:(lia)) as Hs.
  unfold BLOCK_SECTOR_SIZE in *. rewrite IH; [|lia..|rewrite length_splice; lia].
  f_equal. replace (first + (i + 1)) with (first + i + 1) by lia. rewrite app_assoc. f_equal.
  unfold splice. replace (Z.to_nat ((i + 1) * 512)) with (Z.to_nat (i * 512) + 512)%nat by lia.
  rewrite app_assoc, take_app_length'; [done|]. rewrite length_app, length_take. lia.
Qed.

Lemma out_loop_ret (n : nat) (i first : Z) kpage d :
  block_wf d → 0 ≤ i → 0 ≤ first → first + i + Z.of_nat n ≤ block_size d < 4294967296 →
  Z.of_nat (length kpage) = (i + Z.of_nat n) * 512 →
  ∃ d', out_loop n i first kpage d = Ret d' ∧ block_wf d' ∧ block_size d' = block_size d ∧
    sectors_from n (first + i) d' = drop (Z.to_nat (i * 512)) kpage ∧
    ∀ x, ¬ (first + i ≤ x < first + i + Z.of_nat n) → sector_data d' x = sector_data d x.
Proof.
  intros Hd. revert i d Hd. induction n as [|n IH]; intros i d Hd Hi Hf Hb Hl; simpl.
  { exists d. rewrite drop_ge by lia. by split_and!. }
  rewrite u32_id by (unfold in_u32; lia).
  set (b := slice _ _ kpage). assert (length b = 512%nat) as Hlb.
  { unfold b, BLOCK_SECTOR_SIZE. rewrite length_slice; lia. }
  destruct (block_write_spec d (first + i) b) as (d1 & -> & Hd1 & Hs1 & Hv1); [done|lia|done|]. ret.
  destruct (IH (i + 1) d1) as (d2 & -> & Hd2 & Hs2 & Hp & Hv2); [done|lia|lia|lia|lia|].
  exists d2. split; [done|]. split; [done|]. split; [congruence|]. split.
  - replace (first + i + 1) with (first + (i + 1)) by lia. rewrite Hp, Hv2, Hv1 by lia.
    rewrite decide_True by done. unfold b, slice, BLOCK_SECTOR_SIZE.
    replace (Z.to_nat ((i + 1) * 512)) with (Z.to_nat (i * 512) + 512)%nat by lia.
    rewrite <- drop_drop. by rewrite take_drop.
  - intros x Hx. rewrite Hv2, Hv1 by lia. by rewrite decide_False by lia.
Qed.

Lemma sectors_from_ext (n : nat) first d d' :
  (∀ x, first ≤ x < first + Z.of_nat n → sector_data d' x = sector_data d x) →
  sectors_from n first d' = sectors_from n first d.
Proof.
  revert first. induction n as [|n IH]; intros first Hx; simpl; [done|].
  rewrite Hx by lia. f_equal. apply IH. intros x ?. apply Hx. lia.
Qed.

Lemma length_sectors_from (n : nat) first d :
  block_wf d → 0 ≤ first → first + Z.of_nat n ≤ block_size d →
  length (sectors_from n first d) = (512 * n)%nat.
Proof.
  intros Hd. revert first. induction n as [|n IH]; intros first Hf Hn; [done|].
  change (sectors_from (S n) first d) with (sector_data d first ++ sectors_from n (first + 1) d).
  rewrite length_app, sector_data_length, IH by (done || lia). lia.
Qed.

Definition full t : Prop := swap_unoccupied t = [] ∧ block_size (swap_block t) ≤ next_sector t.

#[export] Instance full_dec t : Decision (full t).
Proof. unfold full. apply _. Defined.

Lemma elem_of_snoc_middle {A} (x y : A) (l k : list A) :
  x ∈ (l ++ [y]) ++ k ↔ x ∈ l ++ y :: k.
Proof. set_solver. Qed.

Lemma get_slot_spec t p :
  swap_wf t → slots t !! p = None →
  (full t ∧ get_slot (Some p) t = Ret (None, t)) ∨
  ∃ ss t', get_slot (Some p) t = Ret (Some ss, t') ∧ swap_wf t' ∧
    swap_block t' = swap_block t ∧ swap_occupied t' = swap_occupied t ++ [ss] ∧
    ss ∉ swap_occupied t ∧
    (∀ q, q ∈ swap_occupied t → slots t' !! q = slots t !! q).
Proof.
  intros [Hl Hd Hsz Hn Hnd Hs Hdis] Hp. unfold get_slot, lock_table. rewrite Hl.
  assert (p ∉ swap_occupied t ++ swap_unoccupied t) as Hpn.
  { intros Hin. destruct (Hs p Hin) as (f & ? & _). congruence. }
  destruct (swap_unoccupied t) as [|ss rest] eqn:Eu.
  - case_bool; [left; split; [split|]; done|]. right. ret. eexists p, _. split; [done|]. simpl.
    rewrite app_nil_r in *. rewrite ?Eu. split_and!; [|done|done|done|].
    + assert (next_sector t + 8 ≤ block_size (swap_block t)) as Hroom.
      { destruct Hsz as [_ [a Ha]], Hn as [_ [b Hb]]. lia. }
      change SWAP_SLOT_NUM_SECTORS with 8.
      split; simpl; rewrite ?u32_id by (unfold in_u32; lia); try done.
      * split; [lia|]. by apply Z.divide_add_r; [apply Hn|exists 1].
      * rewrite app_nil_r. apply NoDup_app. split_and!; [done| |apply NoDup_singleton].
        intros x Hx ->%list_elem_of_singleton. done.
      * rewrite app_nil_r. intros q [Hq| ->%list_elem_of_singleton]%elem_of_app.
        -- destruct (Hs q Hq) as (f & Hf & ? & ?). exists f.
           rewrite lookup_insert_ne by (intros <-; congruence). split_and!; [done|lia|lia|done].
        -- exists (next_sector t). rewrite lookup_insert_eq. split_and!; [done|lia|lia|apply Hn].
      * rewrite app_nil_r. intros q r f Hq Hr.
        assert (∀ a, a ∈ swap_occupied t → slots t !! a ≠ Some (next_sector t)) as Hne.
        { intros a Ha E. destruct (Hs a Ha) as (g & Hg & ? & _). rewrite Hg in E.
          injection E. lia. }
        apply elem_of_app in Hq as [Hq| ->%list_elem_of_singleton];
          apply elem_of_app in Hr as [Hr| ->%list_elem_of_singleton];
          rewrite ?lookup_insert_eq, ?lookup_insert_ne by (intros <-; done); [| | |done].
        -- by apply Hdis.
        -- intros E [= <-]. by destruct (Hne q Hq).
        -- intros [= <-] E. by destruct (Hne r Hr).
    + intros q Hq. rewrite lookup_insert_ne; [done|]. by intros <-.
  - right. ret. simpl. rewrite Eu. eexists ss, _. split; [done|]. simpl.
    split_and!; [|done|done| |done].
    + split; simpl; try done.
      * rewrite <- app_assoc. done.
      * intros q Hq%elem_of_snoc_middle. by apply Hs.
      * intros q r f Hq%elem_of_snoc_middle Hr%elem_of_snoc_middle. by apply Hdis.
    + intros Hin. apply NoDup_app in Hnd as (_ & Hnd & _). apply (Hnd ss Hin). by left.
Qed.

Lemma get_slot_full t mem : full t → get_slot mem t = Ret (None, t).
Proof. intros [Hu Hn]. unfold get_slot. by rewrite Hu, (proj2 (Z.leb_le _ _)). Qed.

(** Slots in use do not overlap. *)
Lemma slot_apart t p q f g :
  swap_wf t → p ∈ swap_occupied t → q ∈ swap_occupied t → p ≠ q →
  slots t !! p = Some f → slots t !! q = Some g →
  ∀ x, g ≤ x < g + 8 → ¬ (f ≤ x < f + 8).
Proof.
  intros Hw Hp Hq Hne Hf Hg x Hx Hx'. apply Hne, (sw_distinct t Hw p q f); [set_solver..|done|].
  destruct (sw_slot t Hw p) as (f' & Hf' & _ & [a Ha]); [set_solver|].
  destruct (sw_slot t Hw q) as (g' & Hg' & _ & [b Hb]); [set_solver|].
  simplify_eq. rewrite Hg. f_equal. lia.
Qed.

(** Writing the slot [ss] changes the page of that slot only. *)
Lemma stored_write t ss f kpage d :
  swap_wf t → ss ∈ swap_occupied t → slots t !! ss = Some f →
  sectors_from 8 f d = kpage →
  (∀ x, ¬ (f ≤ x < f + 8) → sector_data d x = sector_data (swap_block t) x) →
  ∀ q, stored (t <| swap_block := d |>) q = if decide (q = ss) then Some kpage else stored t q.
Proof.
  intros Hw Hin Hf Hp Hv q.
  change (stored (t <| swap_block := d |>) q) with
    (if decide (q ∈ swap_occupied t) then (λ g, sectors_from 8 g d) <$> slots t !! q else None).
  unfold stored, slot_page. case_decide as Hq.
  - destruct (decide (q = ss)) as [->|Hne]; [by rewrite Hf, <- Hp|].
    destruct (slots t !! q) as [g|] eqn:Hg; [|done]. cbn [fmap option_fmap option_map]. f_equal.
    apply sectors_from_ext.
    intros x Hx. apply Hv. by apply (slot_apart t ss q f g).
  - by rewrite decide_False by (intros ->; done).
Qed.

Lemma swap_wf_dev t d :
  swap_wf t → block_wf d → block_size d = block_size (swap_block t) →
  swap_wf (t <| swap_block := d |>).
Proof. intros [] Hd Hsz. split; simpl; rewrite ?Hsz; done. Qed.

(** [swap_out] stores a page in a slot that was not in use; on a full device it
    dereferences the null slot that [get_slot] returns. *)
Lemma swap_out_spec t p kpage :
  swap_wf t → slots t !! p = None → Z.of_nat (length kpage) = PGSIZE →
  if decide (full t) then swap_out (Some p) kpage t = Panic
  else ∃ ss t', swap_out (Some p) kpage t = Ret (ss, t') ∧ swap_wf t' ∧ ss ∉ swap_occupied t ∧
    ∀ q, stored t' q = if decide (q = ss) then Some kpage else stored t q.
Proof.
  intros Hw Hp Hk. pose proof (get_slot_full t (Some p)) as Hfull. unfold swap_out.
  destruct (get_slot_spec t p Hw Hp)
    as [[Hf ->]|(ss & t1 & E & Hw1 & Eb & Eo & Hn & Hsl)]; [by rewrite decide_True|].
  rewrite decide_False by (intros Hf; rewrite Hfull in E by done; done). rewrite E. ret.
  assert (ss ∈ swap_occupied t1) as Hin by (rewrite Eo; set_solver).
  destruct (sw_slot t1 Hw1 ss) as (f & Hf & Hlt & Hdiv); [set_solver|]. rewrite Hf. ret.
  pose proof Hw1 as [_ Hdv [Hsz Hsz8] [Hnx _] _ _ _].
  assert (f + 8 ≤ block_size (swap_block t1)) as Hroom.
  { destruct Hdiv as [a Ha], Hsz8 as [b Hb]. lia. }
  change (Z.to_nat SWAP_SLOT_NUM_SECTORS) with 8%nat.
  destruct (out_loop_ret 8 0 f kpage (swap_block t1)) as (d & -> & Hd & Hds & Hpg & Hv);
    [done|lia|lia|lia|unfold PGSIZE in Hk; lia|]. ret.
  rewrite Z.add_0_r in Hpg, Hv. rewrite drop_0 in Hpg.
  exists ss, (t1 <| swap_block := d |>). split; [done|]. split; [by apply swap_wf_dev|].
  split; [done|]. intros q. rewrite (stored_write t1 ss f kpage) by done.
  case_decide; [done|]. unfold stored, slot_page. rewrite Eb, Eo. case_decide as Hq.
  - apply elem_of_app in Hq as [Hq|Hq%list_elem_of_singleton]; [|done].
    by rewrite decide_True, Hsl.
  - by rewrite decide_False by set_solver.
Qed.

(** [swap_in] fetches the page and frees the slot. *)
Lemma swap_in_spec t ss kpage page :
  swap_wf t → stored t ss = Some page → Z.of_nat (length kpage) = PGSIZE →
  ∃ t', swap_in ss kpage t = Ret (true, page, t') ∧ swap_wf t' ∧
    ∀ q, stored t' q = if decide (q = ss) then None else stored t q.
Proof.
  intros [Hl Hd Hsz Hn Hnd Hs Hdis] Hst Hk. unfold stored, slot_page in Hst.
  case_decide as Hin; [|done]. unfold swap_in, lock_table.
  destruct (Hs ss) as (f & Hf & Hlt & Hdiv); [set_solver|]. rewrite Hf in *. injection Hst as <-. ret.
  assert (f + 8 ≤ block_size (swap_block t)) as Hroom.
  { destruct Hdiv as [a Ha], Hsz as [? [b Hb]]. lia. }
  change (Z.to_nat SWAP_SLOT_NUM_SECTORS) with 8%nat.
  rewrite in_loop_ret; [|done|lia..|unfold PGSIZE in Hk; lia]. ret. rewrite Z.add_0_r, Hl. ret.
  apply NoDup_app in Hnd as (Hno & Hdj & Hnu).
  assert (ss ∉ swap_unoccupied t) as Hnot by (by apply Hdj).
  assert (∀ x, x ∈ list_remove ss (swap_occupied t) ++ swap_unoccupied t ++ [ss] →
    x ∈ swap_occupied t ++ swap_unoccupied t) as Hsub.
  { intros x. rewrite !elem_of_app, elem_of_list_remove, list_elem_of_singleton.
    intros [[_ ?]|[?| ->]]; auto. }
  eexists. split; [done|]. simpl. rewrite (list_remove_not_elem ss (swap_unoccupied t)) by done.
  split.
  - split; simpl; [done..| | |].
    + apply NoDup_app. split; [by apply NoDup_list_remove|]. split.
      * intros x [Hx Hx']%elem_of_list_remove [Hu|?%list_elem_of_singleton]%elem_of_app;
          [by apply (Hdj x)|done].
      * apply NoDup_app. split; [done|]. split; [|apply NoDup_singleton].
        by intros x Hx ->%list_elem_of_singleton.
    + intros q Hq. by apply Hs, Hsub.
    + intros q r g Hq%Hsub Hr%Hsub. by apply Hdis.
  - intros q. unfold stored. simpl. destruct (decide (q = ss)) as [->|Hne].
    + rewrite decide_False; [done|]. rewrite elem_of_list_remove. tauto.
    + unfold slot_page. simpl. repeat case_decide; try done; rewrite elem_of_list_remove in *; tauto.
Qed.

(** Swap operations on slots other than [ss]. *)
Inductive swap_steps ss : swap dev → swap dev → Prop :=
  | steps_done t : swap_steps ss t t
  | steps_out t p kpage q t1 t2 :
      slots t !! p = None → Z.of_nat (length kpage) = PGSIZE →
      swap_out (Some p) kpage t = Ret (q, t1) → swap_steps ss t1 t2 → swap_steps ss t t2
  | steps_in t q kpage r page t1 t2 :
      q ≠ ss → q ∈ swap_occupied t → Z.of_nat (length kpage) = PGSIZE →
      swap_in q kpage t = Ret (r, page, t1) → swap_steps ss t1 t2 → swap_steps ss t t2.

Lemma stored_occupied t q : swap_wf t → q ∈ swap_occupied t → ∃ page, stored t q = Some page.
Proof.
  intros Hw Hq. destruct (sw_slot t Hw q) as (f & Hf & _); [set_solver|].
  unfold stored, slot_page. rewrite decide_True, Hf by done. by eexists.
Qed.

Lemma swap_steps_stored ss t1 t2 page :
  swap_steps ss t1 t2 → swap_wf t1 → stored t1 ss = Some page →
  swap_wf t2 ∧ stored t2 ss = Some page.
Proof.
  induction 1 as [t|t p k q t1 t2 Hp Hk Hout _ IH|t q k r pg t1 t2 Hne Hq Hk Hin _ IH];
    intros Hw Hst; [done| |].
  - pose proof (swap_out_spec t p k Hw Hp Hk) as Hs. case_decide; [by rewrite Hs in Hout|].
    destruct Hs as (q' & t' & E & Hw' & Hn & Hv). rewrite E in Hout. injection Hout as -> ->.
    apply IH; [done|]. rewrite Hv, decide_False; [done|]. intros <-.
    unfold stored in Hst. by rewrite decide_False in Hst.
  - destruct (stored_occupied t q Hw Hq) as [pq Hpq].
    destruct (swap_in_spec t q k pq Hw Hpq Hk) as (t' & E & Hw' & Hv).
    rewrite E in Hin. injection Hin as _ _ ->. apply IH; [done|]. by rewrite Hv, decide_False.
Qed.

(** ** Properties *)

(** [swap_out] returns unless the device is full: it hands out a slot that was not
    in use, which then holds exactly the page, and the pages of the other slots in
    use are as before.  On a full device the null result of [get_slot] is
    dereferenced, so that running out of swap space is a kernel panic. *)
Theorem swap_out_correct t p kpage :
  swap_wf t → slots t !! p = None → Z.of_nat (length kpage) = PGSIZE →
  (full t → swap_out (Some p) kpage t = Panic) ∧
  (¬ full t → ∃ ss t', swap_out (Some p) kpage t = Ret (ss, t') ∧ swap_wf t' ∧
     stored t ss = None ∧ ∀ q, stored t' q = if decide (q = ss) then Some kpage else stored t q).
Proof.
  intros Hw Hp Hk. pose proof (swap_out_spec t p kpage Hw Hp Hk) as Hs.
  case_decide; (split; [|]); intros ?; try done.
  destruct Hs as (ss & t' & ? & ? & Hn & ?). exists ss, t'. split_and!; [done..| |done].
  unfold stored. by rewrite decide_False.
Qed.

(** C17. A page that was swapped out comes back unchanged, whatever is swapped out and in
    through other slots in the meantime, and its slot is free again. *)
Theorem swap_keeps_pages t p kpage ss t1 t2 buf :
  swap_wf t → slots t !! p = None → Z.of_nat (length kpage) = PGSIZE →
  swap_out (Some p) kpage t = Ret (ss, t1) → swap_steps ss t1 t2 →
  Z.of_nat (length buf) = PGSIZE →
  ∃ t3, swap_in ss buf t2 = Ret (true, kpage, t3) ∧ swap_wf t3 ∧
    ∀ q, stored t3 q = if decide (q = ss) then None else stored t2 q.
Proof.
  intros Hw Hp Hk Hout Hsteps Hb. pose proof (swap_out_spec t p kpage Hw Hp Hk) as Hs.
  case_decide; [by rewrite Hs in Hout|]. destruct Hs as (q' & t' & E & Hw' & _ & Hv).
  rewrite E in Hout. injection Hout as -> ->.
  destruct (swap_steps_stored ss t1 t2 kpage Hsteps Hw') as [Hw2 Hst].
  { by rewrite Hv, decide_True. }
  by apply swap_in_spec.
Qed.
End invariant.

(** ** The hypotheses can hold: a swap disk of two slots *)

#[local] Existing Instances Ramdisk.ops Ramdisk.laws.

Definition swap_disk : Ramdisk.disk := Ramdisk.Disk 16 ∅.
Definition boot_swap : swap Ramdisk.disk := swap_init swap_disk (Swap 0 ∅ [] [] false swap_disk).
Definition page_of (x : Z) : list Z := replicate 4096 x.

Lemma boot_swap_wf : swap_wf boot_swap.
Proof.
  split; [done|apply map_Forall_empty|..].
  - split; [done|]. by exists 2.
  - split; [done|]. by exists 0.
  - constructor.
  - by intros p ?%not_elem_of_nil.
  - by intros p q f ?%not_elem_of_nil.
Qed.

Lemma swap_out_correct_witness :
  (full boot_swap → swap_out (Some 1) (page_of 7) boot_swap = Panic) ∧
  (¬ full boot_swap → ∃ ss t', swap_out (Some 1) (page_of 7) boot_swap = Ret (ss, t') ∧
     swap_wf t' ∧ stored boot_swap ss = None ∧
     ∀ q, stored t' q = if decide (q = ss) then Some (page_of 7) else stored boot_swap q).
Proof.
  apply (swap_out_correct boot_swap 1 (page_of 7)).
  - exact boot_swap_wf.
  - reflexivity.
  - reflexivity.
Defined.

Definition outcome_swap (o : outcome (Z * swap Ramdisk.disk)) : swap Ramdisk.disk :=
  match o with Ret (_, t) => t | _ => boot_swap end.

Lemma swap_keeps_pages_witness :
  let t1 := outcome_swap (swap_out (Some 1) (page_of 7) boot_swap) in
  let t2 := outcome_swap (swap_out (Some 2) (page_of 8) t1) in
  ∃ t3, swap_in 1 (page_of 0) t2 = Ret (true, page_of 7, t3) ∧ swap_wf t3 ∧
    ∀ q, stored t3 q = if decide (q = 1) then None else stored t2 q.
Proof.
  intros t1 t2.
  apply (swap_keeps_pages boot_swap 1 (page_of 7) 1 t1 t2 (page_of 0)).
  - exact boot_swap_wf.
  - reflexivity.
  - reflexivity.
  - reflexivity.
  - apply (steps_out _ t1 2 (page_of 8) 2 t2); [reflexivity..|apply steps_done].
  - reflexivity.
Defined.
