(* ===== verification/PageTable.v ===== *)
(** * The supplemental page table (virtual-memory/vm/page.c)

    The state of the virtual memory system, and the operations of page.c on the
    pages of the running process; [page_fetch], which also allocates frames, is
    in Page.v. *)
From S2P Require Import Prelude CInt Ext Mmu PageDir Swap.
Open Scope Z_scope.

(** [struct page].  [p_frame] is [None] while the field is not initialised. *)
Record page := MkPage {
  p_pd : option Z;
  p_frame : option Z;
  p_upage : Z;
  p_active : bool;
  p_file : option Z;
  p_off : Z;
  p_writable : bool;
  p_ss : option Z
}.
#[export] Instance eta_page : Eta page := λ p,
  MkPage (p_pd p) (p_frame p) (p_upage p) (p_active p) (p_file p) (p_off p) (p_writable p) (p_ss p).

(** [struct frame] of frame.c; a null [upage] is 0. *)
Record frame := MkFrame { f_kpage : Z; f_pd : option Z; f_upage : Z }.
#[export] Instance eta_frame : Eta frame := λ f, MkFrame (f_kpage f) (f_pd f) (f_upage f).

(** The fields of [struct thread] that the virtual memory system uses. *)
Record uthread := MkThread { pagedir : option Z; sup_page_table : list Z }.
#[export] Instance eta_uthread : Eta uthread := λ t, MkThread (pagedir t) (sup_page_table t).

(** Files ([filesys/file.h]): lengths, and reads and writes at an offset; a read
    returns the bytes it got. *)
Class FileOps (files : Type) := {
  file_length : Z → files → Z;
  file_read_at : Z → Z → Z → files → list Z * files;
  file_write_at : Z → list Z → Z → files → Z * files
}.

(** Reading returns the bytes of the file in the range and changes no file. *)
Class FileOpsLaws (files : Type) `{FileOps files} := {
  file_data : Z → files → list Z;
  file_length_spec f fs : file_length f fs = Z.of_nat (length (file_data f fs));
  file_read_at_spec f n off fs : 0 ≤ n → 0 ≤ off →
    ∃ fs', file_read_at f n off fs = (slice (Z.to_nat off) (Z.to_nat n) (file_data f fs), fs') ∧
      ∀ g, file_data g fs' = file_data g fs
}.

(** The whole state: the bytes of the user frames by kernel address, the MMU, the
    swap table, the frame table with its [struct frame]s, [next_frame] and
    [fail_on_next], the heap of [struct page]s, the processes and the running
    one, and the files. *)
Record vm (dev files : Type) := MkVm {
  ram : gmap Z (list Z);
  vmmu : mmu;
  vswap : swap dev;
  frame_table : list Z;
  frames : gmap Z frame;
  frame_table_lock : bool;
  next_frame : Z;
  fail_on_next : bool;
  pages : gmap Z page;
  procs : gmap Z uthread;
  current : Z;
  vfiles : files
}.
Arguments MkVm {dev files} _ _ _ _ _ _ _ _ _ _ _ _.
Arguments ram {dev files} _.
Arguments vmmu {dev files} _.
Arguments vswap {dev files} _.
Arguments frame_table {dev files} _.
Arguments frames {dev files} _.
Arguments frame_table_lock {dev files} _.
Arguments next_frame {dev files} _.
Arguments fail_on_next {dev files} _.
Arguments pages {dev files} _.
Arguments procs {dev files} _.
Arguments current {dev files} _.
Arguments vfiles {dev files} _.
#[export] Instance eta_vm {dev files} : Eta (vm dev files) := λ w,
  MkVm (ram w) (vmmu w) (vswap w) (frame_table w) (frames w) (frame_table_lock w) (next_frame w)
    (fail_on_next w) (pages w) (procs w) (current w) (vfiles w).

Section page_table.
Context `{Vaddr, !Pte}.
Context {dev files : Type} `{BlockDevice dev, FileOps files}.
Implicit Types (w : vm dev files) (p upage kpage f : Z).

Definition thread_current w : outcome uthread := deref (procs w !! current w).
Definition page_at w p : outcome page := deref (pages w !! p).
Definition upd_page p (g : page → page) w : vm dev files := w <| pages ::= alter g p |>.
Definition upd_thread (g : uthread → uthread) w : vm dev files := w <| procs ::= alter g (current w) |>.

(** [find_page] over the addresses [l]: the first page that matches. *)
Fixpoint find_in (m : page → bool) (l : list Z) w : outcome (option Z) :=
  match l with
  | [] => Ret None
  | p :: l' =>
      pg ← page_at w p;
      if m pg then Ret (Some p) else find_in m l' w
  end.

Definition find_page (m : page → bool) w : outcome (option Z) :=
  t ← thread_current w; find_in m (sup_page_table t) w.

Definition match_upage upage (pg : page) : bool := p_upage pg =? upage.
Definition find_upage upage w : outcome (option Z) := find_page (match_upage upage) w.

Definition match_file (f : option Z) (pg : page) : bool := bool_decide (p_file pg = f).
Definition find_file (f : option Z) w : outcome (option Z) := find_page (match_file f) w.

Definition page_in_table vaddr w : outcome bool :=
  if vaddr =? 0 then Ret false
  else r ← find_upage vaddr w; Ret (bool_decide (is_Some r)).

(** [mem]: the address that [malloc] returns, if any. *)
Definition page_alloc (mem : option Z) (pd : option Z) upage (writable : bool) w
    : outcome (option Z * vm dev files) :=
  b ← page_in_table upage w;
  if b : bool then Ret (None, w)
  else
    match mem with
    | None => Ret (None, w)
    | Some p =>
        let w1 := w <| pages ::= <[p := MkPage pd None upage false None 0 writable None]> |> in
        _ ← thread_current w1;
        Ret (Some p, upd_thread (λ t, t <| sup_page_table ::= λ l, l ++ [p] |>) w1)
    end.

Definition page_set_frame (mem : option Z) upage kpage (writable : bool) w : outcome (vm dev files) :=
  r ← find_upage upage w;
  '(r', w1) ← match r with
              | Some p => Ret (Some p, w)
              | None => t ← thread_current w; page_alloc mem (pagedir t) upage writable w
              end;
  p ← deref r';
  pg ← page_at w1 p;
  ASSERT (Bool.eqb (p_writable pg) writable);;
  Ret (upd_page p (λ pg, pg <| p_active := true |> <| p_frame := Some kpage |>) w1).

Definition page_set_file (mem : option Z) upage f (off : Z) w : outcome (bool * vm dev files) :=
  t ← thread_current w;
  '(r, w1) ← page_alloc mem (pagedir t) upage true w;
  match r with
  | None => Ret (false, w1)
  | Some p => Ret (true, upd_page p (λ pg, pg <| p_file := Some f |> <| p_off := off |>) w1)
  end.

Definition page_remove upage w : outcome (vm dev files) :=
  r ← find_upage upage w;
  p ← deref r;
  pg ← page_at w p;
  let w1 := upd_thread (λ t, t <| sup_page_table ::= list_remove p |>) w in
  m ← pagedir_clear_page (p_pd pg) upage (vmmu w1);
  Ret (w1 <| vmmu := m |> <| pages ::= delete p |>).

Definition file_size_in_page (pg : page) w : outcome Z :=
  f ← deref (p_file pg);
  let left := s32 (file_length f (vfiles w) - p_off pg) in
  Ret (if left <? PGSIZE then left else PGSIZE).

(** [n] bytes of user memory at the page [upage], and storing [b] there, through
    the page directory of the running process, which is the active one; the
    processor sets the accessed and the dirty bit. *)
Definition load_user upage (n : Z) w : outcome (list Z * vm dev files) :=
  t ← thread_current w;
  k ← pagedir_get_page (pagedir t) upage (vmmu w);
  k ← deref k;
  m ← pagedir_set_accessed (pagedir t) upage true (vmmu w);
  b ← deref (ram w !! k);
  Ret (take (Z.to_nat n) b, w <| vmmu := m |>).

Definition store_user upage (b : list Z) w : outcome (vm dev files) :=
  t ← thread_current w;
  k ← pagedir_get_page (pagedir t) upage (vmmu w);
  k ← deref k;
  m1 ← pagedir_set_accessed (pagedir t) upage true (vmmu w);
  m2 ← pagedir_set_dirty (pagedir t) upage true m1;
  Ret (w <| vmmu := m2 |> <| ram ::= alter (splice 0 b) k |>).

(** [page_unmap]: [fuel] bounds the pages of [f] in the table. *)
Fixpoint page_unmap (fuel : nat) f w : outcome (vm dev files) :=
  match fuel with
  | O => Stuck
  | S fuel' =>
      r ← find_file (Some f) w;
      match r with
      | None => Ret w
      | Some p =>
          pg ← page_at w p;
          let upage := p_upage pg in
          dirty ← pagedir_is_dirty (p_pd pg) upage (vmmu w);
          w1 ← (if dirty : bool then
                  size ← file_size_in_page pg w;
                  '(b, w') ← load_user upage size w;
                  let '(_, fs) := file_write_at f b (p_off pg) (vfiles w') in
                  Ret (w' <| vfiles := fs |>)
                else Ret w);
          w2 ← page_remove upage w1;
          page_unmap fuel' f w2
      end
  end.

Definition page_write_data upage w : outcome (bool * vm dev files) :=
  r ← find_upage upage w;
  match r with
  | None => Ret (false, w)
  | Some p =>
      pg ← page_at w p;
      match p_file pg, p_ss pg with
      | Some f, _ =>
          size ← file_size_in_page pg w;
          let '(b, fs) := file_read_at f size (p_off pg) (vfiles w) in
          w1 ← store_user upage b (w <| vfiles := fs |>);
          m ← pagedir_set_dirty (p_pd pg) upage false (vmmu w1);
          Ret (Z.of_nat (length b) =? size, w1 <| vmmu := m |>)
      | None, Some ss =>
          k ← deref (p_frame pg);
          kpage ← deref (ram w !! k);
          '(ok, b, t) ← swap_in ss kpage (vswap w);
          let w1 := w <| vswap := t |> <| ram ::= <[k := b]> |> in
          m ← pagedir_set_dirty (p_pd pg) upage false (vmmu w1);
          Ret (ok, w1 <| vmmu := m |>)
      | None, None => Ret (false, w)
      end
  end.

Definition page_is_writable upage w : outcome bool :=
  r ← find_upage upage w;
  ASSERT (bool_decide (is_Some r));;
  p ← deref r;
  pg ← page_at w p;
  Ret (p_writable pg).

Definition page_set_swap upage (ss : Z) w : outcome (bool * vm dev files) :=
  r ← find_upage upage w;
  p ← deref r;
  _ ← page_at w p;
  Ret (true, upd_page p (λ pg, pg <| p_ss := Some ss |> <| p_active := false |>) w).

(** [stack_growth (uaddr, esp)], on unsigned pointers. *)
Definition stack_growth (uaddr esp : Z) : bool :=
  (uaddr =? u32 (esp - 4)) || (uaddr =? u32 (esp - 32)) || (esp <=? uaddr).
End page_table.
