(* ===== verification/UserFiles.v ===== *)
(** * The files of a user program

    The file system behind the system calls and the program loader is the
    interface of [filesys/file.h] and [filesys/filesys.h]: descriptors with a
    position, over the contents that [FileOpsLaws] observes. *)
From S2P Require Import Prelude CInt Mmu PageDir Swap PageTable.
Open Scope Z_scope.

(** A read returns the bytes it got; names are byte strings. *)
Class FileCalls (files : Type) := {
  filesys_create : list Z → Z → files → bool * files;
  filesys_remove : list Z → files → bool * files;
  filesys_open : list Z → files → option Z * files;
  file_read : Z → Z → files → list Z * files;
  file_write : Z → list Z → files → Z * files;
  file_seek : Z → Z → files → files;
  file_tell : Z → files → Z;
  file_reopen : Z → files → option Z * files;
  file_close : option Z → files → files;
  file_deny_write : Z → files → files
}.

(** Reading starts at the position of the file and moves it; a new descriptor is at the
    start of its file.  None of these operations changes what is in a file. *)
Class FileCallsLaws (files : Type) `{FileOpsLaws files, !FileCalls files} : Prop := {
  file_seek_spec f p fs : 0 ≤ p →
    file_tell f (file_seek f p fs) = p ∧ ∀ g, file_data g (file_seek f p fs) = file_data g fs;
  file_read_spec f n fs : 0 ≤ n → 0 ≤ file_tell f fs →
    ∃ fs', file_read f n fs = (slice (Z.to_nat (file_tell f fs)) (Z.to_nat n) (file_data f fs), fs') ∧
      file_tell f fs'
        = file_tell f fs + Z.of_nat (length (slice (Z.to_nat (file_tell f fs)) (Z.to_nat n) (file_data f fs))) ∧
      ∀ g, file_data g fs' = file_data g fs;
  filesys_open_spec name fs f fs' : filesys_open name fs = (Some f, fs') →
    file_tell f fs' = 0 ∧ ∀ g, g ≠ f → file_data g fs' = file_data g fs;
  file_deny_write_spec f fs :
    file_tell f (file_deny_write f fs) = file_tell f fs ∧
    ∀ g, file_data g (file_deny_write f fs) = file_data g fs
}.
