(* ===== verification/Frame.v ===== *)
(** * The frame table (virtual-memory/vm/frame.c) *)
From S2P Require Import Prelude CInt Ext Mmu PageDir Swap PageTable.
Open Scope Z_scope.

(** Results of the allocations made on the way: a page for a page table
    ([palloc_get_page]), a [struct swap_slot] and a [struct page] ([malloc]). *)
Record allocs := MkAllocs { al_table : option Z; al_slot : option Z; al_page : option Z }.

Section frame.
Context `{Vaddr, !Pte}.
Context {dev files : Type} `{BlockDevice dev, FileOps files}.
Implicit Types (w : vm dev files) (f upage kpage : Z) (al : allocs).

Definition lock_frames w : outcome (vm dev files) :=
  l ← lock_acquire (frame_table_lock w); Ret (w <| frame_table_lock := l |>).
Definition unlock_frames w : outcome (vm dev files) :=
  l ← lock_release (frame_table_lock w); Ret (w <| frame_table_lock := l |>).

Definition frame_at w f : outcome frame := deref (frames w !! f).
Definition upd_frame f (g : frame → frame) w : vm dev files := w <| frames ::= alter g f |>.

(** The loop of [frame_clock] over the rest [l] of the table: the first frame whose
    page was not accessed, or else the last one ([r] so far). *)
Fixpoint clock_loop (l : list Z) (r : option Z) w : outcome (option Z * vm dev files) :=
  match l with
  | [] => Ret (r, w)
  | f :: l' =>
      fr ← frame_at w f;
      a ← pagedir_is_accessed (f_pd fr) (f_upage fr) (vmmu w);
      if a : bool then
        m ← pagedir_set_accessed (f_pd fr) (f_upage fr) false (vmmu w);
        clock_loop l' (Some f) (w <| vmmu := m |>)
      else Ret (Some f, w)
  end.

Definition frame_clock w : outcome (option Z * vm dev files) :=
  w1 ← lock_frames w;
  '(r, w2) ← clock_loop (frame_table w1) None w1;
  w3 ← unlock_frames w2;
  Ret (r, w3).

Definition evict_frame al f w : outcome (vm dev files) :=
  fr ← frame_at w f;
  kpage ← deref (ram w !! f_kpage fr);
  '(ss, t) ← swap_out (al_slot al) kpage (vswap w);
  '(ok, w1) ← page_set_swap (f_upage fr) ss (w <| vswap := t |>);
  ASSERT ok;;
  Ret w1.

(** [list_next]: the element after [x], [None] at the end of the list. *)
Fixpoint list_next (x : Z) (l : list Z) : option Z :=
  match l with
  | [] => None
  | y :: l' => if y =? x then head l' else list_next x l'
  end.

Definition get_next_frame al w : outcome (Z * vm dev files) :=
  if fail_on_next w then
    '(r, w1) ← frame_clock w;
    f ← deref r;
    w2 ← evict_frame al f w1;
    Ret (f, w2)
  else
    w1 ← lock_frames w;
    let f := next_frame w1 in
    w2 ← match list_next (next_frame w1) (frame_table w1) with
         | Some x => Ret (w1 <| next_frame := x |>)
         | None =>
             x ← deref (head (frame_table w1));
             Ret (w1 <| next_frame := x |> <| fail_on_next := true |>)
         end;
    w3 ← unlock_frames w2;
    Ret (f, w3).

(** [kpages]: the pages that [palloc_get_page (PAL_USER)] returns until it fails, with
    what [malloc] returns for their [struct frame]s; the loop does not look whether
    it is null. *)
Fixpoint init_loop (kpages : list (Z * option Z)) w : outcome (vm dev files) :=
  match kpages with
  | [] => Ret w
  | (kpage, mem) :: l =>
      f ← deref mem;
      init_loop l (w <| frames ::= <[f := MkFrame kpage None 0]> |> <| frame_table ::= λ l, l ++ [f] |>)
  end.

Definition frame_init (kpages : list (Z * option Z)) w : outcome (vm dev files) :=
  w1 ← init_loop kpages (w <| frame_table := [] |> <| frame_table_lock := false |>);
  f ← deref (head (frame_table w1));
  Ret (w1 <| next_frame := f |>).

Definition frame_alloc al upage (writable : bool) w : outcome (Z * vm dev files) :=
  t ← thread_current w;
  let pd := pagedir t in
  '(f, w1) ← get_next_frame al w;
  k ← pagedir_get_page pd upage (vmmu w1);
  ASSERT (bool_decide (k = None));;
  fr ← frame_at w1 f;
  '(ok, m) ← pagedir_set_page (al_table al) pd upage (f_kpage fr) writable (vmmu w1);
  ASSERT ok;;
  let w2 := w1 <| vmmu := m |> in
  Ret (f_kpage fr, upd_frame f (λ fr, fr <| f_upage := upage |> <| f_pd := pd |>) w2).

Fixpoint free_loop (l : list Z) (pd : option Z) w : outcome (vm dev files) :=
  match l with
  | [] => Ret w
  | f :: l' =>
      fr ← frame_at w f;
      free_loop l' pd
        (if bool_decide (f_pd fr = pd)
         then upd_frame f (λ fr, fr <| f_pd := None |> <| f_upage := 0 |>) w else w)
  end.

Definition frame_free (pd : option Z) w : outcome (vm dev files) := free_loop (frame_table w) pd w.

(** ** The lock of the frame table *)

Lemma lock_frames_ret w : frame_table_lock w = false →
  lock_frames w = Ret (w <| frame_table_lock := true |>).
Proof. intros E. unfold lock_frames. by rewrite E. Qed.

Lemma unlock_frames_ret w : frame_table_lock w = true →
  unlock_frames w = Ret (w <| frame_table_lock := false |>).
Proof. intros E. unfold unlock_frames. by rewrite E. Qed.

End frame.
