(* ===== verification/FrameClock.v ===== *)
(** * The second-chance clock of the frame table

    Which frame [frame_clock] of vm/frame.c picks, and what it does to the accessed
    bits of the pages it passes. *)
From S2P Require Import Prelude CInt Ext Mmu PageDir Swap PageTable Frame.
Open Scope Z_scope.

Section clock.
Context `{VaddrLaws, !Pte, !PteLaws}.
Context {dev files : Type} `{BlockDeviceLaws dev, FileOps files}.
Implicit Types (w : vm dev files) (f g p upage : Z) (l : list Z) (pds : gset Z).

(** The accessed bit of the page that frame [f] holds. *)
Definition referenced w f : bool :=
  match frames w !! f with
  | Some (MkFrame _ (Some p) upage) => flag_set PTE_A (pte_of (vmmu w) p upage)
  | _ => false
  end.

(** Frame [f] holds a user page of one of the processes. *)
Definition holds_page pds w f : Prop :=
  ∃ k p upage, frames w !! f = Some (MkFrame k (Some p) upage) ∧
    p ∈ pds ∧ kernel_page p ∧ user_addr upage.

(** Frames [f] and [g] hold the same page. *)
Definition same_owner w f g : Prop :=
  ∃ kf kg p u v, frames w !! f = Some (MkFrame kf (Some p) u) ∧
    frames w !! g = Some (MkFrame kg (Some p) v) ∧ u / PGSIZE = v / PGSIZE.

Lemma clear_accessed_ret pds p v t :
  mmu_wf pds t → p ∈ pds → kernel_page p → user_addr v → flag_set PTE_A (pte_of t p v) = true →
  ∃ t', pagedir_set_accessed (Some p) v false t = Ret t' ∧
    pte_set pds p v (clear_flag PTE_A (pte_of t p v)) t t'.
Proof.
  intros Hw Hp Hk Hv Ha. unfold pagedir_set_accessed.
  destruct (change_flag_ret pds t p v PTE_A false Hw Hp Hk Hv) as (t' & E & [[E0 _]|[_ Hset]]).
  - by rewrite E0, flag_set_0 in Ha.
  - by exists t'.
Qed.

Lemma clear_accessed_flag e : flag_set PTE_A (clear_flag PTE_A e) = false.
Proof.
  destruct pte_flags as (_ & _ & _ & -> & _). change 32 with (2 ^ 5).
  rewrite flag_set_bit, clear_flag_bits by lia. by rewrite andb_false_r.
Qed.

(** Clearing the bit of the page of [f] changes the bit of no other page. *)
Lemma referenced_cleared pds w k p u m g :
  pte_set pds p u (clear_flag PTE_A (pte_of (vmmu w) p u)) (vmmu w) m → user_addr u →
  holds_page pds w g →
  referenced (w <| vmmu := m |>) g =
    match frames w !! g with
    | Some (MkFrame _ (Some q) v) =>
        if decide (q = p ∧ v / PGSIZE = u / PGSIZE) then false else referenced w g
    | _ => k
    end.
Proof.
  intros (_ & _ & Hpte) Hu (kg & q & v & Hg & Hq & _ & Hv). unfold referenced.
  change (frames (w <| vmmu := m |>)) with (frames w). rewrite Hg.
  change (vmmu (w <| vmmu := m |>)) with m. rewrite Hpte by (done || by apply user_is_addr).
  case_decide; [apply clear_accessed_flag|done].
Qed.

(** The loop over the rest [l] of the table. *)
Lemma clock_loop_choice pds l r w :
  mmu_wf pds (vmmu w) → NoDup l → (∀ f, f ∈ l → holds_page pds w f) →
  (∀ f g, f ∈ l → g ∈ l → same_owner w f g → f = g) →
  ∃ r' w', clock_loop l r w = Ret (r', w') ∧ w' = w <| vmmu := vmmu w' |> ∧
    (l = [] ∧ r' = r ∨ ∃ pre f post, l = pre ++ f :: post ∧ r' = Some f ∧
       (∀ g, g ∈ pre → referenced w g = true) ∧ (referenced w f = false ∨ post = []) ∧
       ∀ g, g ∈ l → referenced w' g = referenced w g && bool_decide (g ∈ post)) ∧
    (∀ g, holds_page pds w g → (∀ f, f ∈ l → ¬ same_owner w f g) →
       referenced w' g = referenced w g).
Proof.
  intros Hw Hnd Hl Hown. revert r w Hw Hl Hown. induction Hnd as [|f l Hfl Hnd IH]; intros r w Hw Hl Hown.
  { exists r, w. split; [done|]. split; [by destruct w|]. split; [by left|done]. }
  destruct (Hl f) as (k & p & u & Hf & Hp & Hk & Hu); [by left|]. simpl. unfold frame_at. rewrite Hf. ret.
  cbn [f_pd f_upage]. unfold pagedir_is_accessed. rewrite (is_flag_ret pds) by (done || by apply user_is_addr). ret.
  destruct (flag_set PTE_A (pte_of (vmmu w) p u)) eqn:Ea.
  2: { exists (Some f), w. split; [done|]. split; [by destruct w|].
       assert (referenced w f = false) as Hrf by (unfold referenced; by rewrite Hf).
       split; [|done]. right. exists [], f, l. split; [done|]. split; [done|].
       split; [by intros g ?%elem_of_nil|]. split; [by left|]. intros g [->|Hg]%elem_of_cons.
       - by rewrite Hrf.
       - by rewrite bool_decide_eq_true_2, andb_true_r. }
  destruct (clear_accessed_ret pds p u (vmmu w)) as (m & Em & Hset); [done..|]. rewrite Em. ret.
  pose proof (referenced_cleared pds w false p u m) as Hcl.
  set (w1 := w <| vmmu := m |>) in *.
  assert (∀ g, holds_page pds w g → ¬ same_owner w f g → referenced w1 g = referenced w g) as Hkeep.
  { intros g Hg Hno. rewrite (Hcl g Hset Hu Hg). destruct Hg as (kg & q & v & Hg & _). rewrite Hg.
    rewrite decide_False; [done|]. intros [-> E]. apply Hno. by exists k, kg, p, u, v. }
  assert (referenced w1 f = false) as Hrf1.
  { rewrite (Hcl f Hset Hu) by (apply Hl; by left). by rewrite Hf, decide_True. }
  assert (referenced w f = true) as Hrf by (unfold referenced; by rewrite Hf).
  assert (∀ g, g ∈ l → ¬ same_owner w f g) as Hnot.
  { intros g Hg Hs. apply Hfl. by rewrite (Hown f g) by (done || by (left || right)). }
  assert (∀ g, g ∈ l → ¬ same_owner w g f) as Hnot'.
  { intros g Hg Hs. apply Hfl. by rewrite <- (Hown g f) by (done || by (left || right)). }
  destruct (IH (Some f) w1) as (r' & w' & E & Hw' & Hres & Hout); [apply Hset|..].
  { intros g Hg. apply Hl. by right. }
  { intros g h Hg Hh Hs. apply Hown; [by right|by right|done]. }
  exists r', w'. split; [done|]. split; [rewrite Hw'; by destruct w|]. split.
  - right. destruct Hres as [[-> ->]|(pre & f' & post & -> & -> & Hpre & Hf' & Hafter)].
    + exists [], f, []. split; [done|]. split; [done|]. split; [by intros g ?%elem_of_nil|].
      split; [by right|]. intros g ->%list_elem_of_singleton.
      rewrite Hout; [|apply Hl; by left|by intros ? ?%elem_of_nil]. by rewrite Hrf1, andb_false_r.
    + exists (f :: pre), f', post. split; [done|]. split; [done|].
      assert (∀ g, g ∈ pre ++ f' :: post → referenced w1 g = referenced w g) as Hsame.
      { intros g Hg. apply Hkeep; [apply Hl; by right|by apply Hnot]. }
      split; [|split].
      * intros g [->|Hg]%elem_of_cons; [done|]. rewrite <- Hsame by set_solver. by apply Hpre.
      * rewrite <- Hsame by set_solver. done.
      * intros g [->|Hg]%elem_of_cons; [|by rewrite Hafter, Hsame].
        rewrite Hout; [|apply Hl; by left|done]. rewrite Hrf1, bool_decide_eq_false_2; [by destruct (referenced w f)|].
        set_solver.
  - intros g Hg Hno. rewrite Hout; [|done|intros h Hh; apply Hno; by right].
    apply Hkeep; [done|]. apply Hno. by left.
Qed.

(** C16. [frame_clock] gives the frame after the longest run of referenced ones at the front
    of the table (the last frame when all are referenced).  The pages it passed lose
    their accessed bit, and so does the victim; the bits behind it are kept. *)
Theorem frame_clock_second_chance pds w :
  mmu_wf pds (vmmu w) → frame_table_lock w = false → frame_table w ≠ [] → NoDup (frame_table w) →
  (∀ f, f ∈ frame_table w → holds_page pds w f) →
  (∀ f g, f ∈ frame_table w → g ∈ frame_table w → same_owner w f g → f = g) →
  ∃ pre f post w', frame_table w = pre ++ f :: post ∧ frame_clock w = Ret (Some f, w') ∧
    (∀ g, g ∈ pre → referenced w g = true) ∧ (referenced w f = false ∨ post = []) ∧
    (∀ g, g ∈ frame_table w → referenced w' g = referenced w g && bool_decide (g ∈ post)) ∧
    w' = w <| vmmu := vmmu w' |>.
Proof.
  intros Hw Hlock Hne Hnd Hl Hown. unfold frame_clock.
  rewrite lock_frames_ret by done. ret.
  destruct (clock_loop_choice pds (frame_table w) None (w <| frame_table_lock := true |>))
    as (r & w' & E & Hw' & [[? _]|(pre & f & post & Htab & -> & Hpre & Hf & Hafter)] & _); [done..|].
  change (frame_table (w <| frame_table_lock := true |>)) with (frame_table w) in *. rewrite E. ret.
  rewrite unlock_frames_ret by (by rewrite Hw'). ret.
  exists pre, f, post. eexists. split; [done|]. split; [reflexivity|]. split; [done|]. split; [done|].
  split; [exact Hafter|]. rewrite Hw'. destruct w. simpl in *. by subst.
Qed.
End clock.
