(* ===== verification/Elf.v ===== *)
(** * ELF executables (virtual-memory/userprog/process.c)

    The headers of an ELF binary as [load] reads them, the checks on them, and how
    a segment is cut into pages. *)
From S2P Require Import Prelude CInt Mmu PageDir Swap PageTable.
Open Scope Z_scope.

(** ** Headers *)

Record Elf32_Ehdr := MkEhdr {
  e_ident : list Z;
  e_type : Z; e_machine : Z; e_version : Z; e_entry : Z; e_phoff : Z; e_shoff : Z; e_flags : Z;
  e_ehsize : Z; e_phentsize : Z; e_phnum : Z; e_shentsize : Z; e_shnum : Z; e_shstrndx : Z
}.
Record Elf32_Phdr := MkPhdr {
  p_type : Z; p_offset : Z; p_vaddr : Z; p_paddr : Z;
  p_filesz : Z; p_memsz : Z; p_flags : Z; p_align : Z
}.

Definition sizeof_ehdr : Z := 52.
Definition sizeof_phdr : Z := 32.

(** The members of the structures in memory. *)
Definition half_at (ofs : nat) (b : list Z) : Z := unle (slice ofs 2 b).
Definition word_at (ofs : nat) (b : list Z) : Z := unle (slice ofs 4 b).

Definition ehdr_of (b : list Z) : Elf32_Ehdr :=
  MkEhdr (take 16 b) (half_at 16 b) (half_at 18 b) (word_at 20 b) (word_at 24 b) (word_at 28 b)
    (word_at 32 b) (word_at 36 b) (half_at 40 b) (half_at 42 b) (half_at 44 b) (half_at 46 b)
    (half_at 48 b) (half_at 50 b).

Definition phdr_of (b : list Z) : Elf32_Phdr :=
  MkPhdr (word_at 0 b) (word_at 4 b) (word_at 8 b) (word_at 12 b) (word_at 16 b) (word_at 20 b)
    (word_at 24 b) (word_at 28 b).

Definition PT_NULL : Z := 0.
Definition PT_LOAD : Z := 1.
Definition PT_DYNAMIC : Z := 2.
Definition PT_INTERP : Z := 3.
Definition PT_NOTE : Z := 4.
Definition PT_SHLIB : Z := 5.
Definition PT_PHDR : Z := 6.
Definition PT_STACK : Z := 1685382481.

Definition PF_X : Z := 1.
Definition PF_W : Z := 2.
Definition PF_R : Z := 4.

(** "\177ELF\1\1\1" *)
Definition ELF_MAGIC : list Z := [127; 69; 76; 70; 1; 1; 1].

(** The condition under which [load] goes on, on the bytes that were read. *)
Definition ehdr_ok (b : list Z) : bool :=
  let ehdr := ehdr_of b in
  (Z.of_nat (length b) =? sizeof_ehdr) && bool_decide (take 7 (e_ident ehdr) = ELF_MAGIC) &&
  (e_type ehdr =? 2) && (e_machine ehdr =? 3) && (e_version ehdr =? 1) &&
  (e_phentsize ehdr =? sizeof_phdr) && (e_phnum ehdr <=? 1024).

(** [ROUND_UP (x, PGSIZE)] on [uint32_t]. *)
Definition round_up_page (x : Z) : Z := u32 (u32 (x + (PGSIZE - 1)) / PGSIZE * PGSIZE).

(** [PGMASK] of [threads/vaddr.h]: the low bits, PGSIZE - 1. *)
Definition PGMASK : Z := PGSIZE - 1.

(** The page of [x] and the offset in it: [x & ~PGMASK] and [x & PGMASK]. *)
Definition page_part (x : Z) : Z := Z.land x (u32 (Z.lnot PGMASK)).
Definition page_offset (x : Z) : Z := Z.land x PGMASK.

Section elf.
Context `{Vaddr}.
Context {files : Type} `{FileOps files}.
Implicit Types (phdr : Elf32_Phdr) (file : Z) (fs : files).

Definition validate_segment phdr file fs : bool :=
  if negb (page_offset (p_offset phdr) =? page_offset (p_vaddr phdr)) then false
  else if u32 (file_length file fs) <? p_offset phdr then false
  else if p_memsz phdr <? p_filesz phdr then false
  else if p_memsz phdr =? 0 then false
  else if negb (is_user_vaddr (p_vaddr phdr)) then false
  else if negb (is_user_vaddr (u32 (p_vaddr phdr + p_memsz phdr))) then false
  else if u32 (p_vaddr phdr + p_memsz phdr) <? p_vaddr phdr then false
  else if p_vaddr phdr <? PGSIZE then false
  else true.

(** The arguments of [load_segment] for a segment. *)
Record segment := MkSegment {
  sg_ofs : Z; sg_upage : Z; sg_read_bytes : Z; sg_zero_bytes : Z; sg_writable : bool
}.

Definition segment_of phdr : segment :=
  let writable := negb (Z.land (p_flags phdr) PF_W =? 0) in
  let file_page := page_part (p_offset phdr) in
  let mem_page := page_part (p_vaddr phdr) in
  let page_offset := page_offset (p_vaddr phdr) in
  let '(read_bytes, zero_bytes) :=
    if 0 <? p_filesz phdr then
      let read_bytes := u32 (page_offset + p_filesz phdr) in
      (read_bytes, u32 (round_up_page (u32 (page_offset + p_memsz phdr)) - read_bytes))
    else (0, round_up_page (u32 (page_offset + p_memsz phdr))) in
  MkSegment file_page mem_page read_bytes zero_bytes writable.

(** The assertions of [load_segment]. *)
Definition segment_asserts (ofs upage read_bytes zero_bytes : Z) : bool :=
  (u32 (read_bytes + zero_bytes) mod PGSIZE =? 0) && (pg_ofs upage =? 0) && (Z.rem ofs PGSIZE =? 0).
End elf.

(** ** Segments that are accepted *)

Lemma page_offset_mod x : page_offset x = x mod PGSIZE.
Proof. unfold page_offset. change PGMASK with (Z.ones 12). by rewrite Z.land_ones. Qed.

Lemma page_part_sub x : in_u32 x → page_part x = x - x mod PGSIZE.
Proof.
  intros Hx. unfold page_part.
  assert (Z.land x (u32 (Z.lnot PGMASK)) = Z.shiftl (Z.shiftr x 12) 12) as ->.
  - apply Z.bits_inj'. intros n Hn. rewrite Z.land_spec.
    assert (x = u32 x) as Ex by (by rewrite u32_id).
    destruct (Z.lt_ge_cases n 12).
    + rewrite Z.shiftl_spec_low, u32_bits, Z.lnot_spec by lia. change PGMASK with (Z.ones 12).
      rewrite Z.ones_spec_low by lia. by rewrite !andb_false_r.
    + rewrite Z.shiftl_spec_high, Z.shiftr_spec, u32_bits, Z.lnot_spec by lia.
      change PGMASK with (Z.ones 12). rewrite Z.ones_spec_high, andb_true_r by lia.
      replace (n - 12 + 12) with n by lia. rewrite Ex at 2. rewrite u32_bits by lia.
      rewrite Ex at 1. rewrite u32_bits by lia. by destruct (n <? 32), (Z.testbit x n).
  - rewrite Z.shiftr_div_pow2, Z.shiftl_mul_pow2 by lia. change (2 ^ 12) with PGSIZE.
    pose proof (Z_div_mod_eq_full x PGSIZE). lia.
Qed.

Lemma round_up_page_spec x : 0 ≤ x < 4294967296 - PGSIZE →
  ∃ k, round_up_page x = k * PGSIZE ∧ x ≤ k * PGSIZE < x + PGSIZE.
Proof.
  intros Hx. unfold round_up_page, PGSIZE in *. exists ((x + 4095) / 4096).
  rewrite (u32_id (x + (4096 - 1))) by (unfold in_u32; lia).
  replace (x + (4096 - 1)) with (x + 4095) by lia.
  pose proof (Z_div_mod_eq_full (x + 4095) 4096). pose proof (Z.mod_pos_bound (x + 4095) 4096).
  rewrite u32_id; [lia|]. unfold in_u32. lia.
Qed.

Section accepted.
Context `{VaddrLaws}.
Context {files : Type} `{FileOps files}.
Implicit Types (phdr : Elf32_Phdr) (file : Z) (fs : files).

(** The members are words. *)
Definition phdr_words phdr : Prop :=
  in_u32 (p_offset phdr) ∧ in_u32 (p_vaddr phdr) ∧ in_u32 (p_filesz phdr) ∧ in_u32 (p_memsz phdr).

(** What a loadable segment of a file of [len] bytes is, in the integers. *)
Definition loadable phdr (len : Z) : Prop :=
  p_offset phdr mod PGSIZE = p_vaddr phdr mod PGSIZE ∧
  p_offset phdr ≤ len ∧
  p_filesz phdr ≤ p_memsz phdr ∧ 0 < p_memsz phdr ∧
  PGSIZE ≤ p_vaddr phdr ∧ p_vaddr phdr + p_memsz phdr < PHYS_BASE.

Lemma not_user v : is_user_vaddr v = false ↔ PHYS_BASE ≤ v.
Proof. rewrite <- not_true_iff_false, is_user_vaddr_spec. lia. Qed.

(** The members of [validate_segment]'s sum do not wrap, or the sum is small. *)
Lemma u32_sum_wraps a b : in_u32 a → in_u32 b → a ≤ u32 (a + b) → u32 (a + b) = a + b.
Proof. unfold in_u32, u32. intros. Z.to_euclidean_division_equations. lia. Qed.

Lemma validate_loadable phdr file fs :
  phdr_words phdr → 0 ≤ file_length file fs < 2147483648 →
  validate_segment phdr file fs = true ↔ loadable phdr (file_length file fs).
Proof.
  intros (Ho & Hv & Hf & Hm) Hlen. destruct PHYS_BASE_spec as [[HB0 HB] _].
  unfold validate_segment, loadable. rewrite !page_offset_mod.
  rewrite (u32_id (file_length file fs)) by (unfold in_u32; lia).
  destruct (Z.eqb_spec (p_offset phdr mod PGSIZE) (p_vaddr phdr mod PGSIZE)); cbn [negb]; [|naive_solver].
  destruct (Z.ltb_spec (file_length file fs) (p_offset phdr)); [naive_solver lia|].
  destruct (Z.ltb_spec (p_memsz phdr) (p_filesz phdr)); [naive_solver lia|].
  destruct (Z.eqb_spec (p_memsz phdr) 0); [naive_solver lia|].
  pose proof (u32_sum_wraps (p_vaddr phdr) (p_memsz phdr) Hv Hm) as Hw.
  destruct (is_user_vaddr (p_vaddr phdr)) eqn:E1; cbn [negb].
  2: { apply not_user in E1. destruct Hm. naive_solver lia. }
  apply is_user_vaddr_spec in E1.
  destruct (is_user_vaddr (u32 (p_vaddr phdr + p_memsz phdr))) eqn:E2; cbn [negb].
  2: { apply not_user in E2. destruct Hv, Hm. split; [done|]. intros (_ & _ & _ & _ & _ & Hlt).
       rewrite u32_id in E2; [lia|]. unfold in_u32. lia. }
  apply is_user_vaddr_spec in E2.
  destruct (Z.ltb_spec (u32 (p_vaddr phdr + p_memsz phdr)) (p_vaddr phdr)) as [Hlt0|].
  { destruct Hv, Hm. split; [done|]. intros (_ & _ & _ & _ & _ & Hlt).
    rewrite u32_id in Hlt0 by (unfold in_u32; lia). lia. }
  rewrite Hw in E2 by lia. destruct Hm.
  destruct (Z.ltb_spec (p_vaddr phdr) PGSIZE); [naive_solver lia|]. split; [|done]. intros _.
  split_and!; lia.
Qed.

(** C29. [validate_segment], with its wrap-around arithmetic, accepts exactly the segments
    that are loadable. *)
Theorem validate_segment_correct phdr file fs :
  phdr_words phdr → 0 ≤ file_length file fs < 2147483648 →
  validate_segment phdr file fs = true ↔ loadable phdr (file_length file fs).
Proof. exact (validate_loadable phdr file fs). Qed.

(** What [load_segment] gets for a loadable segment: its assertions hold, the pages lie
    in user memory above page 0 and cover the segment with less than a page to spare
    at either end, and the bytes read from the file end up at [p_vaddr]. *)
Lemma segment_of_ret phdr (len : Z) :
  phdr_words phdr → 0 ≤ len < 2147483648 → loadable phdr len →
  let sg := segment_of phdr in
  segment_asserts (s32 (sg_ofs sg)) (sg_upage sg) (sg_read_bytes sg) (sg_zero_bytes sg) = true ∧
  (0 ≤ sg_read_bytes sg ∧ 0 ≤ sg_zero_bytes sg ∧ 0 ≤ sg_ofs sg ≤ len) ∧
  (PGSIZE ≤ sg_upage sg ∧ sg_upage sg + sg_read_bytes sg + sg_zero_bytes sg ≤ PHYS_BASE) ∧
  sg_upage sg ≤ p_vaddr phdr < sg_upage sg + PGSIZE ∧
  p_vaddr phdr + p_memsz phdr ≤ sg_upage sg + sg_read_bytes sg + sg_zero_bytes sg
    < p_vaddr phdr + p_memsz phdr + PGSIZE ∧
  sg_ofs sg + (p_vaddr phdr - sg_upage sg) = p_offset phdr ∧
  sg_read_bytes sg = (if 0 <? p_filesz phdr then p_vaddr phdr + p_filesz phdr - sg_upage sg else 0).
Proof.
  intros (Ho & Hv & Hf & Hm) Hlen (Emod & Hol & Hfm & Hm0 & Hv0 & Hend).
  destruct PHYS_BASE_spec as [[HB0 HB] [b Hb]]. unfold in_u32 in *.
  pose proof (Z.mod_pos_bound (p_vaddr phdr) PGSIZE eq_refl) as Hr.
  pose proof (Z_div_mod_eq_full (p_vaddr phdr) PGSIZE) as Eq.
  pose proof (Z_div_mod_eq_full (p_offset phdr) PGSIZE) as Eqo.
  assert (page_part (p_offset phdr) = p_offset phdr - p_offset phdr mod PGSIZE) as Epo by
    by apply page_part_sub.
  assert (page_part (p_vaddr phdr) = p_vaddr phdr - p_vaddr phdr mod PGSIZE) as Epv by
    by apply page_part_sub.
  unfold segment_of. rewrite page_offset_mod, Epo, Epv.
  set (r := p_vaddr phdr mod PGSIZE) in *.
  assert (0 ≤ p_vaddr phdr / PGSIZE) by (apply Z.div_pos; unfold PGSIZE; lia).
  unfold PGSIZE in *.
  rewrite (u32_id (r + p_memsz phdr)) by (unfold in_u32; lia).
  destruct (round_up_page_spec (r + p_memsz phdr)) as (k & Ek & Hk); [unfold PGSIZE; lia|].
  rewrite Ek. unfold PGSIZE in *.
  assert (p_vaddr phdr - r + k * 4096 ≤ PHYS_BASE) as Hfit by lia.
  cbv zeta.
  destruct (Z.ltb_spec 0 (p_filesz phdr)); cbn [sg_ofs sg_upage sg_read_bytes sg_zero_bytes];
    unfold segment_asserts; rewrite pg_ofs_spec; unfold PGSIZE.
  - rewrite (u32_id (r + p_filesz phdr)), (u32_id (k * 4096 - _)) by (unfold in_u32; lia).
    split; [|lia].
    replace (r + p_filesz phdr + (k * 4096 - (r + p_filesz phdr))) with (k * 4096) by lia.
    rewrite u32_id, s32_id by (unfold in_u32, in_s32; lia). rewrite !andb_true_iff, !Z.eqb_eq.
    rewrite Z.rem_mod_nonneg by lia. rewrite Z.mod_mul by lia. split; [split; [done|]|];
      Z.to_euclidean_division_equations; lia.
  - split; [|lia]. rewrite Z.add_0_l, u32_id, s32_id by (unfold in_u32, in_s32; lia).
    rewrite !andb_true_iff, !Z.eqb_eq.
    rewrite Z.rem_mod_nonneg by lia. rewrite Z.mod_mul by lia. split; [split; [done|]|];
      Z.to_euclidean_division_equations; lia.
Qed.
End accepted.
