(* ===== verification/Page.v ===== *)
(** * Page faults (virtual-memory/vm/page.c, [page_fetch]) *)
From S2P Require Import Prelude CInt Ext Mmu PageDir Swap PageTable Frame.
Open Scope Z_scope.

Section page.
Context `{Vaddr, !Pte}.
Context {dev files : Type} `{BlockDevice dev, FileOps files}.
Implicit Types (w : vm dev files) (uaddr esp : Z) (al : allocs).

(** A null [esp] is 0. *)
Definition page_fetch al uaddr esp (write : bool) w : outcome (bool * vm dev files) :=
  if negb (is_user_vaddr uaddr) then Ret (false, w)
  else
    let page := pg_round_down uaddr in
    known ← page_in_table page w;
    if negb known then
      if esp =? 0 then Ret (false, w)
      else if stack_growth uaddr esp then
        '(kpage, w1) ← frame_alloc al page true w;
        w2 ← page_set_frame (al_page al) page kpage true w1;
        Ret (true, w2)
      else Ret (false, w)
    else
      denied ← (if write then wr ← page_is_writable page w; Ret (negb wr) else Ret false);
      if denied : bool then Ret (false, w)
      else
        '(kpage, w1) ← frame_alloc al page true w;
        w2 ← page_set_frame (al_page al) page kpage true w1;
        '(_, w3) ← page_write_data page w2;
        Ret (true, w3).
End page.
