(* ===== verification/VmSpec.v ===== *)
(** * Correctness of frame allocation and of page faults

    For a process whose page directory is well formed: frames are handed out in
    turn, each once, while some were never used; afterwards a frame is taken from
    its owner, the running process or another, whose mapping stays; and when the
    kernel panics instead.  Which faults [page_fetch] rejects, and what a
    page that is brought in contains. *)
From S2P Require Import Prelude CInt Ext Mmu PageDir Swap PageTable Frame Page.
Open Scope Z_scope.

Section spec.
Context `{VaddrLaws, !Pte, !PteLaws}.
Context {dev files : Type} `{BlockDeviceLaws dev, FileOps files}.
Implicit Types (w : vm dev files) (f p pd upage kpage : Z) (al : allocs) (pds : gset Z).

(** ** Preservation of the supplemental table *)

(** The part of a page that eviction leaves alone. *)
Definition page_id (pg : page) := (p_pd pg, p_upage pg, p_file pg, p_off pg, p_writable pg).

Record same_table w w' : Prop := {
  st_current : current w' = current w;
  st_procs : procs w' = procs w;
  st_pages : ∀ p, page_id <$> pages w' !! p = page_id <$> pages w !! p
}.

Lemma same_table_refl w : same_table w w.
Proof. done. Qed.

Lemma same_table_trans w1 w2 w3 : same_table w1 w2 → same_table w2 w3 → same_table w1 w3.
Proof. intros [? ? E1] [? ? E2]. split; [congruence..|]. intros p. by rewrite E2. Qed.

Lemma same_table_frame w w' :
  current w' = current w → procs w' = procs w → pages w' = pages w → same_table w w'.
Proof. intros ? ? E. split; [done..|]. by rewrite E. Qed.

Lemma same_table_upd w p g : (∀ pg, page_id (g pg) = page_id pg) → same_table w (upd_page p g w).
Proof.
  intros Hg. split; [done..|]. intros q. change (pages (upd_page p g w)) with (alter g p (pages w)).
  destruct (decide (q = p)) as [->|].
  - rewrite lookup_alter_eq. destruct (pages w !! p); [|done]. simpl. by rewrite Hg.
  - by rewrite lookup_alter_ne.
Qed.

(** Finding a page depends on the identity of the pages only. *)
Lemma find_in_same (m : page → bool) l w w' :
  same_table w w' → (∀ a b, page_id a = page_id b → m a = m b) → find_in m l w' = find_in m l w.
Proof.
  intros [_ _ Hp] Hm. induction l as [|p l IH]; [done|]. simpl. unfold page_at.
  specialize (Hp p). destruct (pages w' !! p) as [a|], (pages w !! p) as [b|]; simpl in Hp; try done.
  injection Hp as ? ? ? ? ?. ret.
  rewrite (Hm a b) by (unfold page_id; congruence). by destruct (m b).
Qed.

Lemma find_upage_same upage w w' : same_table w w' → find_upage upage w' = find_upage upage w.
Proof.
  intros Hs. unfold find_upage, find_page, thread_current. rewrite (st_current _ _ Hs), (st_procs _ _ Hs).
  destruct (procs w !! current w) as [t|]; [|done]. ret. apply find_in_same; [done|].
  intros a b [= _ E _ _ _]. unfold match_upage. by rewrite E.
Qed.

Lemma clock_loop_same l r w r' w' : clock_loop l r w = Ret (r', w') → same_table w w'.
Proof.
  revert r w. induction l as [|f l IH]; intros r w; simpl.
  { intros [= _ <-]. done. }
  intros ?. inv_bind. case_match; inv_bind; [|done].
  eapply same_table_trans; [|eapply IH; eassumption]. done.
Qed.

Lemma evict_frame_same al f w w' : evict_frame al f w = Ret w' → same_table w w'.
Proof.
  unfold evict_frame, page_set_swap. intros ?. inv_bind.
  eapply same_table_trans; [|apply same_table_upd; done]. by apply same_table_frame.
Qed.

Lemma get_next_frame_same al w f w' : get_next_frame al w = Ret (f, w') → same_table w w'.
Proof.
  unfold get_next_frame, frame_clock, lock_frames, unlock_frames. intros ?. case_match.
  - inv_bind. eapply same_table_trans; [eapply same_table_trans|].
    + by eapply (same_table_frame w (w <| frame_table_lock := _ |>)).
    + eapply clock_loop_same. eassumption.
    + eapply same_table_trans; [|eapply evict_frame_same; eassumption]. done.
  - inv_bind. case_match; inv_bind; done.
Qed.

Lemma frame_alloc_same al upage (writable : bool) w k w' :
  frame_alloc al upage writable w = Ret (k, w') → same_table w w'.
Proof.
  unfold frame_alloc. intros ?. inv_bind.
  eapply same_table_trans; [eapply get_next_frame_same; eassumption|done].
Qed.

(** ** Faults that are rejected *)

(** When [page_fetch] returns false: [known] is [page_in_table], [writable] is
    [page_is_writable] of a known page. *)
Definition fetch_rejected (uaddr esp : Z) (write known writable : bool) : bool :=
  negb (is_user_vaddr uaddr) ||
  if known then write && negb writable else (esp =? 0) || negb (stack_growth uaddr esp).

(** [page_fetch] returns false, without any effect, exactly for a kernel address, a
    write to a read-only page, or an unknown page that is not a growth of the
    stack; every other fault brings a page in or does not return. *)
Theorem page_fetch_rejects al (uaddr esp : Z) (write known writable : bool) w :
  page_in_table (pg_round_down uaddr) w = Ret known →
  (known = true → page_is_writable (pg_round_down uaddr) w = Ret writable) →
  if fetch_rejected uaddr esp write known writable
  then page_fetch al uaddr esp write w = Ret (false, w)
  else ∀ w', page_fetch al uaddr esp write w ≠ Ret (false, w').
Proof.
  intros Hk Hwr. unfold fetch_rejected, page_fetch. destruct (is_user_vaddr uaddr); [|done]. simpl.
  rewrite Hk. ret. destruct known; simpl.
  - rewrite Hwr by done. destruct write; simpl; [destruct writable; simpl|]; [|done|];
      intros w' ?; by inv_bind.
  - destruct (esp =? 0); [done|]. simpl. destruct (stack_growth uaddr esp); simpl; [|done].
    intros w' ?. by inv_bind.
Qed.

(** A read of a read-only page that is not mapped does not return: [page_fetch]
    allocates the frame as writable and [page_set_frame] asserts that the page is. *)
Theorem page_fetch_readonly_panics al (uaddr esp : Z) p pg w r :
  pg_round_down uaddr ≠ 0 → is_user_vaddr uaddr = true →
  find_upage (pg_round_down uaddr) w = Ret (Some p) → pages w !! p = Some pg →
  p_writable pg = false → page_fetch al uaddr esp false w ≠ Ret r.
Proof.
  intros Hnz Hu Hf Hp Hro. unfold page_fetch, page_in_table. rewrite Hu. simpl.
  rewrite (proj2 (Z.eqb_neq (pg_round_down uaddr) 0)) by done. rewrite Hf. ret.
  rewrite bool_decide_eq_true_2 by (by eexists). simpl.
  destruct (frame_alloc al (pg_round_down uaddr) true w) as [[k w1]| |] eqn:Ha; [|done..].
  pose proof (frame_alloc_same _ _ _ _ _ _ Ha) as Hs. simpl. unfold page_set_frame.
  rewrite (find_upage_same _ _ _ Hs), Hf. simpl. unfold page_at.
  pose proof (st_pages _ _ Hs p) as Ep. rewrite Hp in Ep.
  destruct (pages w1 !! p) as [pg1|]; simpl in Ep; [|done]. injection Ep as _ _ _ _ Ew. simpl.
  by rewrite Ew, Hro.
Qed.

(** ** Frames *)

(** The state in which a process with page directory [pd] runs. *)
Record vm_ok pds pd w : Prop := {
  vo_cur : ∃ t, procs w !! current w = Some t ∧ pagedir t = Some pd;
  vo_pd : pd ∈ pds ∧ kernel_page pd ∧ pd ≠ init_page_dir (vmmu w);
  vo_mmu : mmu_wf pds (vmmu w);
  vo_lock : frame_table_lock w = false;
  vo_table : frame_table w ≠ [] ∧ NoDup (frame_table w);
  vo_frame : ∀ f, f ∈ frame_table w →
    ∃ fr, frames w !! f = Some fr ∧ frame_ok (vmmu w) (f_kpage fr)
}.

(** The rest of [frame_alloc] once the frame [f] is chosen. *)
Lemma install_frame pds pd w f fr al upage (writable : bool) m :
  vm_ok pds pd w → frames w !! f = Some fr → frame_ok (vmmu w) (f_kpage fr) →
  user_addr upage → (PGSIZE | upage) → pagedir_get_page (Some pd) upage (vmmu w) = Ret None →
  al_table al = Some m → kernel_page m → tables (vmmu w) !! m = None →
  ∃ mm, pagedir_set_page (al_table al) (Some pd) upage (f_kpage fr) writable (vmmu w)
      = Ret (true, mm) ∧
    let w' := upd_frame f (λ fr, fr <| f_upage := upage |> <| f_pd := Some pd |>)
                (w <| vmmu := mm |>) in
    vm_ok pds pd w' ∧ same_mmu (vmmu w) mm ∧
    frames w' = <[f := MkFrame (f_kpage fr) (Some pd) upage]> (frames w) ∧
    (∀ q v, q ∈ pds → user_addr v → pagedir_get_page (Some q) v mm =
      if decide (q = pd ∧ v / PGSIZE = upage / PGSIZE) then Ret (Some (f_kpage fr + v mod PGSIZE))
      else pagedir_get_page (Some q) v (vmmu w)) ∧
    ∀ x, x ≠ m → tables (vmmu w) !! x = None → tables mm !! x = None.
Proof.
  intros [Hcur (Hpd & Hkpd & Hinit) Hmmu Hlock Htab Hfr] Hf Hok Hu Ha Hget Hm Hkm Hfresh.
  rewrite (pagedir_get_page_ret pds) in Hget by done. unfold translate in Hget.
  destruct (flag_set PTE_P (pte_of (vmmu w) pd upage)) eqn:Hnp; [done|].
  destruct (pagedir_set_page_ret pds (vmmu w) pd upage (f_kpage fr) writable m)
    as (mm & Hset & _ & Hw' & Hsm & Hpte); [done..|].
  exists mm. rewrite Hm. split; [done|]. cbv zeta.
  assert (∀ x, x ≠ m → tables (vmmu w) !! x = None → tables mm !! x = None) as Htabs
    by (intros x; by eapply set_page_tables).
  set (w' := upd_frame _ _ _).
  assert (frames w' = <[f := MkFrame (f_kpage fr) (Some pd) upage]> (frames w)) as Efr.
  { change (frames w') with (alter (λ fr, fr <| f_upage := upage |> <| f_pd := Some pd |>) f (frames w)).
    apply map_eq. intros g. destruct (decide (g = f)) as [->|].
    - by rewrite lookup_alter_eq, lookup_insert_eq, Hf.
    - by rewrite lookup_alter_ne, lookup_insert_ne. }
  destruct Hsm as (E1 & E2 & E3).
  assert (∀ k, frame_ok (vmmu w) k → frame_ok mm k) as Hoks.
  { intros k [? ?]. split; [done|]. by rewrite E2. }
  split; [|split; [done|split; [done|split; [|done]]]].
  - split; [done| |done|done|done|].
    + change (vmmu w') with mm. by rewrite E1.
    + intros g Hg. rewrite Efr. destruct (decide (g = f)) as [->|].
      * rewrite lookup_insert_eq. eexists. split; [done|]. by apply Hoks.
      * rewrite lookup_insert_ne by done. destruct (Hfr g Hg) as (fg & ? & ?). exists fg.
        split; [done|]. by apply Hoks.
  - intros q v Hq Hv. rewrite !(pagedir_get_page_ret pds) by done. rewrite Hpte by (done || by apply user_is_addr).
    case_decide; [|done]. unfold translate.
    destruct (pte_create_user_spec (f_kpage fr) writable) as (_ & -> & -> & _); [apply Hok|done].
Qed.

Lemma list_next_lookup (l : list Z) i x :
  NoDup l → l !! i = Some x → list_next x l = l !! S i.
Proof.
  intros Hnd. revert i. induction Hnd as [|y l Hy Hnd IH]; intros i; [done|]. simpl.
  destruct i as [|i]; simpl.
  - intros [= ->]. rewrite Z.eqb_refl. by destruct l.
  - intros Hi. rewrite (proj2 (Z.eqb_neq _ _)); [by apply IH|].
    intros ->. apply Hy. by eapply list_elem_of_lookup_2.
Qed.

(** The frames [l] at the end of the table were never handed out. *)
Definition unused w (l : list Z) : Prop :=
  match l with
  | [] => fail_on_next w = true
  | f :: _ => fail_on_next w = false ∧ next_frame w = f ∧ ∃ l0, frame_table w = l0 ++ l
  end.

(** After [frame_init], all of them. *)
Lemma init_loop_ret (l : list (Z * Z)) w :
  ∃ w', init_loop ((λ x, (x.1, Some x.2)) <$> l) w = Ret w' ∧
    frame_table w' = frame_table w ++ l.*2 ∧ fail_on_next w' = fail_on_next w ∧
    frame_table_lock w' = frame_table_lock w ∧
    (∀ f, f ∉ l.*2 → frames w' !! f = frames w !! f) ∧
    (NoDup l.*2 → ∀ kpage f, (kpage, f) ∈ l → frames w' !! f = Some (MkFrame kpage None 0)).
Proof.
  revert w. induction l as [|[kpage f] l IH]; intros w.
  { exists w. split; [done|]. split; [by rewrite app_nil_r|]. split_and!; [done..|]. set_solver. }
  cbn [fmap list_fmap init_loop fst snd]. ret.
  destruct (IH (w <| frames ::= <[f := MkFrame kpage None 0]> |> <| frame_table ::= λ l, l ++ [f] |>))
    as (w' & -> & Et & Ef & El & Eo & Ei).
  exists w'. split; [done|]. split; [rewrite Et; simpl; by rewrite <- app_assoc|].
  split; [done|]. split; [done|]. split.
  - intros g [Hg1 Hg2]%not_elem_of_cons. rewrite Eo by done. simpl. by rewrite lookup_insert_ne by congruence.
  - intros [Hf Hnd]%NoDup_cons k g [[= -> ->]|Hin]%elem_of_cons; [|by apply Ei].
    rewrite Eo by done. simpl. by rewrite lookup_insert_eq.
Qed.

Lemma frame_init_unused (l : list (Z * Z)) w :
  l ≠ [] → fail_on_next w = false →
  ∃ w', frame_init ((λ x, (x.1, Some x.2)) <$> l) w = Ret w' ∧ frame_table w' = l.*2 ∧
    unused w' (frame_table w') ∧ frame_table_lock w' = false ∧
    (NoDup l.*2 → ∀ kpage f, (kpage, f) ∈ l → frames w' !! f = Some (MkFrame kpage None 0)).
Proof.
  intros Hl Hfail. unfold frame_init.
  destruct (init_loop_ret l (w <| frame_table := [] |> <| frame_table_lock := false |>))
    as (w' & -> & Et & Ef & El & _ & Ei). ret. rewrite Et. simpl.
  destruct l as [|[k f] l]; [done|]. cbn [fmap list_fmap head fst snd]. ret.
  eexists. split; [done|]. split; [done|]. split; [|split; [done|exact Ei]].
  change (frame_table (w' <| next_frame := f |>)) with (frame_table w'). rewrite Et. simpl.
  split; [by rewrite Ef|]. split; [done|]. by exists [].
Qed.

(** While some frame was never handed out, [frame_alloc] takes the frames of the
    table one after the other: the page is mapped to the next frame, nothing else
    changes owner or translation, and after the last frame every further call
    evicts. *)
Lemma frame_alloc_in_turn pds pd w f l fr al upage (writable : bool) m :
  vm_ok pds pd w → unused w (f :: l) → frames w !! f = Some fr →
  user_addr upage → (PGSIZE | upage) → pagedir_get_page (Some pd) upage (vmmu w) = Ret None →
  al_table al = Some m → kernel_page m → tables (vmmu w) !! m = None →
  ∃ w', frame_alloc al upage writable w = Ret (f_kpage fr, w') ∧ vm_ok pds pd w' ∧ unused w' l ∧
    w' = w <| vmmu := vmmu w' |> <| frames := <[f := MkFrame (f_kpage fr) (Some pd) upage]> (frames w) |>
           <| next_frame := next_frame w' |> <| fail_on_next := fail_on_next w' |> ∧
    (∀ q v, q ∈ pds → user_addr v → pagedir_get_page (Some q) v (vmmu w') =
      if decide (q = pd ∧ v / PGSIZE = upage / PGSIZE) then Ret (Some (f_kpage fr + v mod PGSIZE))
      else pagedir_get_page (Some q) v (vmmu w)) ∧
    same_mmu (vmmu w) (vmmu w') ∧
    ∀ x, x ≠ m → tables (vmmu w) !! x = None → tables (vmmu w') !! x = None.
Proof.
  intros Hok (Hfail & Hnext & l0 & Htl) Hf Hu Ha Hget Hm Hkm Hfresh.
  assert (frame_table w !! length l0 = Some f) as Hi by (by rewrite Htl, list_lookup_middle).
  pose proof Hok as [(t & Ht & Hpdt) _ _ Hlock [Htab Hnd] Hfr].
  destruct (Hfr f) as (fr' & Hf' & Hfok); [by eapply list_elem_of_lookup_2|].
  rewrite Hf in Hf'. injection Hf' as <-.
  assert (∃ w1, get_next_frame al w = Ret (f, w1) ∧ unused w1 l ∧
    w1 = w <| next_frame := next_frame w1 |> <| fail_on_next := fail_on_next w1 |>)
    as (w1 & Hg & Hn1 & E1).
  { unfold get_next_frame. rewrite Hfail, lock_frames_ret by done. ret.
    change (next_frame (w <| frame_table_lock := true |>)) with (next_frame w).
    change (frame_table (w <| frame_table_lock := true |>)) with (frame_table w).
    rewrite Hnext, (list_next_lookup _ (length l0)) by done.
    assert (frame_table w !! S (length l0) = head l) as ->.
    { rewrite Htl, lookup_app_r by lia. replace (S (length l0) - length l0)%nat with 1%nat by lia.
      by destruct l. }
    destruct l as [|g l]; cbn [head].
    - destruct (frame_table w) as [|h ft] eqn:El; [done|]. cbn [head]. ret.
      rewrite unlock_frames_ret by done. ret. eexists. split; [done|].
      split; [done|]. destruct w; simpl in *; by subst.
    - ret. rewrite unlock_frames_ret by done. ret. eexists. split; [done|]. split.
      + split; [done|]. split; [done|]. exists (l0 ++ [f]). simpl. by rewrite <- app_assoc.
      + destruct w; simpl in *; by subst. }
  assert (vm_ok pds pd w1) as Hok1 by (rewrite E1; destruct Hok; by split).
  destruct (install_frame pds pd w1 f fr al upage writable m)
    as (mm & Hset & Hok2 & Hsm & Efr & Htr & Htabs);
    [done|by rewrite E1|by rewrite E1|done|done|by rewrite E1|done|done|by rewrite E1|].
  set (w2 := upd_frame _ _ _) in *. exists w2.
  assert (vmmu w1 = vmmu w) as Em by (by rewrite E1). rewrite Em in *.
  split; [|split; [done|split; [|split; [|done]]]].
  - unfold frame_alloc, thread_current. rewrite Ht. ret. rewrite Hg. ret. rewrite Hpdt.
    rewrite Em, Hget. ret. simpl.
    unfold frame_at. replace (frames w1) with (frames w) by (by rewrite E1). rewrite Hf. ret.
    rewrite Hset. ret. done.
  - destruct l; [done|]. destruct Hn1 as (? & ? & ? & ?). split_and!; [done|done|by eexists].
  - change (vmmu w2) with mm. change (next_frame w2) with (next_frame w1).
    change (fail_on_next w2) with (fail_on_next w1).
    assert (w2 = w1 <| vmmu := mm |> <| frames := frames w2 |>) as -> by (by destruct w1).
    rewrite Efr, E1. by destruct w.
Qed.

(** *** Eviction *)

(** Frame [f] holds a page of the process with page directory [q], which need not
    be the running one: the frame table is shared by all processes. *)
Record in_use pds w f (fr : frame) q : Prop := {
  iu_frame : frames w !! f = Some fr;
  iu_pd : f_pd fr = Some q;
  iu_owner : q ∈ pds ∧ kernel_page q;
  iu_user : user_addr (f_upage fr);
  iu_map : pagedir_get_page (Some q) (f_upage fr) (vmmu w) = Ret (Some (f_kpage fr));
  iu_ram : ∃ b, ram w !! f_kpage fr = Some b ∧ Z.of_nat (length b) = PGSIZE
}.

(** Every [struct page] in the table of the running process is allocated. *)
Definition table_ok w : Prop :=
  ∀ t p, procs w !! current w = Some t → p ∈ sup_page_table t → is_Some (pages w !! p).

Lemma find_in_member (m : page → bool) l w :
  (∀ p, p ∈ l → is_Some (pages w !! p)) →
  ∃ r, find_in m l w = Ret r ∧ ∀ p, r = Some p → p ∈ l ∧ ∃ pg, pages w !! p = Some pg ∧ m pg = true.
Proof.
  induction l as [|p l IH]; intros Hl; simpl; [by exists None|].
  destruct (Hl p) as [pg Hpg]; [by left|]. unfold page_at. rewrite Hpg. ret.
  destruct (m pg) eqn:Em.
  - exists (Some p). split; [done|]. intros ? [= <-]. split; [by left|by exists pg].
  - destruct IH as (r & Hr & Hp); [intros q Hq; apply Hl; by right|]. exists r. split; [done|].
    intros q Hq. destruct (Hp q Hq) as [? ?]. split; [by right|done].
Qed.

Lemma find_upage_ret upage w t :
  procs w !! current w = Some t → table_ok w →
  ∃ r, find_upage upage w = Ret r ∧
    ∀ p, r = Some p → p ∈ sup_page_table t ∧ ∃ pg, pages w !! p = Some pg ∧ p_upage pg = upage.
Proof.
  intros Ht Hok. unfold find_upage, find_page, thread_current. rewrite Ht. ret.
  destruct (find_in_member (match_upage upage) (sup_page_table t) w) as (r & Hr & Hp);
    [intros p; by apply Hok|].
  exists r. split; [done|]. intros p E. destruct (Hp p E) as (? & pg & ? & Hm). split; [done|].
  exists pg. split; [done|]. by apply Z.eqb_eq.
Qed.

(** Only the accessed bits changed. *)
Record clocked pds w w' : Prop := {
  ck_rest : w' = w <| vmmu := vmmu w' |>;
  ck_wf : mmu_wf pds (vmmu w');
  ck_mmu : same_mmu (vmmu w) (vmmu w');
  ck_none : ∀ x, tables (vmmu w) !! x = None → tables (vmmu w') !! x = None;
  ck_map : ∀ q u, q ∈ pds → user_addr u →
    pagedir_get_page (Some q) u (vmmu w') = pagedir_get_page (Some q) u (vmmu w)
}.

Lemma clocked_refl pds w : mmu_wf pds (vmmu w) → clocked pds w w.
Proof. intros Hw. split; [by destruct w|done..]. Qed.

Lemma clock_loop_ret pds l r w :
  mmu_wf pds (vmmu w) →
  (∀ f, f ∈ l → ∃ fr q, frames w !! f = Some fr ∧ f_pd fr = Some q ∧ q ∈ pds ∧ kernel_page q ∧
     user_addr (f_upage fr)) →
  ∃ r' w', clock_loop l r w = Ret (r', w') ∧ clocked pds w w' ∧
    (l = [] ∧ r' = r ∨ ∃ f, f ∈ l ∧ r' = Some f).
Proof.
  revert r w. induction l as [|f l IH]; intros r w Hw Hl; simpl.
  { exists r, w. split; [done|]. split; [by apply clocked_refl|by left]. }
  destruct (Hl f) as (fr & pd & Hf & Epd & Hpd & Hk & Hu); [by left|]. unfold frame_at. rewrite Hf. ret.
  rewrite Epd. unfold pagedir_is_accessed.
  rewrite (is_flag_ret pds) by (done || by apply user_is_addr). ret. case_match.
  2: { exists (Some f), w. split; [done|]. split; [by apply clocked_refl|].
       right. exists f. split; [by left|done]. }
  destruct (change_flag_translate pds (vmmu w) pd (f_upage fr) PTE_A false Hw Hpd Hk Hu)
    as (m & Hm & Hwm & Hsm & Htr); [by left|].
  unfold pagedir_set_accessed. rewrite Hm. ret.
  destruct (IH (Some f) (w <| vmmu := m |>)) as (r' & w' & E & [Er Hw' Hs' Hn' Ht'] & Hr); [done| |].
  { intros g Hg. apply Hl. by right. }
  exists r', w'. split; [done|]. split.
  - split; [|done| | |].
    + rewrite Er. by destruct w.
    + destruct Hsm as (?&?&?), Hs' as (?&?&?). simpl in *. split_and!; congruence.
    + intros x Hx. apply Hn'. by eapply change_flag_tables.
    + intros q u Hq Huu. rewrite Ht' by done. by apply Htr.
  - right. destruct Hr as [[-> ->]|(g & Hg & ->)]; [exists f|exists g]; (split; [|done]);
      [by left|by right].
Qed.

Lemma frame_clock_ret pds pd w :
  vm_ok pds pd w → (∀ f, f ∈ frame_table w → ∃ fr q, in_use pds w f fr q) →
  ∃ f w', frame_clock w = Ret (Some f, w') ∧ clocked pds w w' ∧ f ∈ frame_table w.
Proof.
  intros [_ _ Hw Hl [Htab _] _] Huse. unfold frame_clock.
  rewrite lock_frames_ret by done. ret.
  set (w1 := w <| frame_table_lock := true |>).
  destruct (clock_loop_ret pds (frame_table w1) None w1) as (r & w2 & E & Hck & Hr); [done| |].
  { intros f Hf. destruct (Huse f Hf) as (fr & q & [? ? [? ?] ? ? ?]). by exists fr, q. }
  rewrite E. ret. destruct Hck as [E2 Hw2 Hs2 Hn2 Ht2].
  rewrite unlock_frames_ret by (by rewrite E2). ret.
  destruct Hr as [[Hnil _]|(f & Hf & ->)]; [done|]. exists f. eexists. split; [done|].
  split; [|done]. split; [|done..]. rewrite E2. destruct w. simpl in *. by subst.
Qed.

(** [evict_frame] saves the page in swap and records the slot in the page that the
    running process has at the same user address, if any. *)
Lemma evict_frame_ret pds w f fr q al sp b r :
  in_use pds w f fr q → ram w !! f_kpage fr = Some b → swap_wf (vswap w) → ¬ full (vswap w) →
  al_slot al = Some sp → slots (vswap w) !! sp = None →
  find_upage (f_upage fr) w = Ret r → (∀ p, r = Some p → is_Some (pages w !! p)) →
  match r with
  | None => evict_frame al f w = Panic
  | Some p => ∃ ss t',
      evict_frame al f w = Ret (upd_page p (λ pg, pg <| p_ss := Some ss |> <| p_active := false |>)
        (w <| vswap := t' |>)) ∧
      swap_wf t' ∧ stored (vswap w) ss = None ∧
      ∀ q, stored t' q = if decide (q = ss) then Some b else stored (vswap w) q
  end.
Proof.
  intros [Hf _ _ _ _ (b' & Hb' & Hlb)] Hb Hsw Hnf Hsl Hfresh Hfind Hpage.
  rewrite Hb in Hb'. injection Hb' as <-. unfold evict_frame, frame_at. rewrite Hf. ret. rewrite Hb. ret.
  rewrite Hsl. pose proof (swap_out_spec (vswap w) sp b Hsw Hfresh Hlb) as Hout.
  rewrite decide_False in Hout by done. destruct Hout as (ss & t' & -> & Hsw' & Hn & Hst). ret.
  unfold page_set_swap.
  rewrite (find_upage_same (f_upage fr) w (w <| vswap := t' |>)), Hfind by done. ret.
  destruct r as [p|]; [|done]. destruct (Hpage p eq_refl) as [pg Hpg]. ret. unfold page_at.
  change (pages (w <| vswap := t' |>)) with (pages w). rewrite Hpg. ret.
  exists ss, t'. split; [done|]. split; [done|]. split; [|done].
  unfold stored. by rewrite decide_False.
Qed.

Lemma vm_ok_clocked pds pd w w' : vm_ok pds pd w → clocked pds w w' → vm_ok pds pd w'.
Proof.
  intros [Hcur (Hpd & Hk & Hi) _ Hl Ht Hfr] [E Hw' (E1 & E2 & _) _ _].
  split; [by rewrite E|by rewrite E1|done|by rewrite E|by rewrite E|].
  intros f Hf. rewrite E in Hf |- *. destruct (Hfr f Hf) as (fr & ? & ? & ?). exists fr.
  split; [done|]. split; [done|]. change (Z.shiftr (vtop (f_kpage fr)) PTSHIFT < init_ram_pages (vmmu w')).
  by rewrite E2.
Qed.

Lemma in_use_clocked pds w w' f fr q :
  clocked pds w w' → in_use pds w f fr q → in_use pds w' f fr q.
Proof.
  intros [E _ _ _ Ht] [Hf Epd [Hq Hk] Hu Hm Hr]. split; [by rewrite E|done|done|done| |by rewrite E].
  by rewrite Ht.
Qed.

Lemma find_upage_clocked pds w w' upage :
  clocked pds w w' → find_upage upage w' = find_upage upage w.
Proof. intros [E _ _ _ _]. apply find_upage_same. apply same_table_frame; by rewrite E. Qed.

(** A page mapped by its owner is not the unmapped page of [pd]. *)
Lemma owner_page_ne pds pd w f fr q upage :
  mmu_wf pds (vmmu w) → pd ∈ pds → user_addr upage → in_use pds w f fr q →
  pagedir_get_page (Some pd) upage (vmmu w) = Ret None →
  ¬ (q = pd ∧ f_upage fr / PGSIZE = upage / PGSIZE).
Proof.
  intros Hmmu Hpd Hu [_ _ _ Huser Hmap _] Hget [-> E].
  rewrite (pagedir_get_page_ret pds) in Hmap, Hget by done. unfold translate in *.
  destruct (pte_set_refl pds pd upage (vmmu w) Hmmu Hpd Hu) as (_ & _ & Hsame).
  rewrite (Hsame pd (f_upage fr)), decide_True in Hmap by (done || by apply user_is_addr).
  by destruct (flag_set PTE_P (pte_of (vmmu w) pd upage)).
Qed.

(** One round of eviction, from the clock to the saved page. *)
Lemma get_next_frame_evicts pds pd w w1 f fr q al sp b r t :
  vm_ok pds pd w → procs w !! current w = Some t → table_ok w → fail_on_next w = true →
  frame_clock w = Ret (Some f, w1) → clocked pds w w1 →
  in_use pds w f fr q → ram w !! f_kpage fr = Some b →
  swap_wf (vswap w) → ¬ full (vswap w) → al_slot al = Some sp → slots (vswap w) !! sp = None →
  find_upage (f_upage fr) w = Ret r →
  match r with
  | None => get_next_frame al w = Panic
  | Some p => ∃ pg ss t', pages w1 !! p = Some pg ∧ stored t' ss = Some b ∧
      get_next_frame al w =
        Ret (f, upd_page p (λ pg, pg <| p_ss := Some ss |> <| p_active := false |>)
                  (w1 <| vswap := t' |>))
  end.
Proof.
  intros Hok Ht Htab Hfail Hclock Hck Hin Hb Hsw Hnf Hsl Hslot Hfind.
  assert (∀ p, r = Some p → is_Some (pages w1 !! p)) as Hpg.
  { intros p ->. destruct (find_upage_ret (f_upage fr) w t Ht Htab) as (r & E & Hr).
    rewrite E in Hfind. injection Hfind as ->. destruct (Hr p eq_refl) as (_ & pg & ? & _).
    rewrite (ck_rest _ _ _ Hck). by exists pg. }
  pose proof (in_use_clocked pds w w1 f fr q Hck Hin) as Hin1.
  assert (ram w1 = ram w ∧ vswap w1 = vswap w) as [Er Es] by (by rewrite (ck_rest _ _ _ Hck)).
  rewrite <- Es in Hsw, Hnf, Hslot. rewrite <- Er in Hb.
  rewrite <- (find_upage_clocked pds w w1) in Hfind by done.
  pose proof (evict_frame_ret pds w1 f fr q al sp b r Hin1 Hb Hsw Hnf Hsl Hslot Hfind Hpg) as Hev.
  unfold get_next_frame. rewrite Hfail, Hclock. ret.
  destruct r as [p|]; [|by rewrite Hev]. destruct Hev as (ss & t' & -> & _ & _ & Hst). ret.
  destruct (Hpg p eq_refl) as [pg Hp]. exists pg, ss, t'.
  by rewrite Hst, decide_True by done.
Qed.

(** C15. Once all frames were handed out and each holds a page of a process, of the
    running one or of another, and while swap has a free slot and the allocations
    succeed, [frame_alloc] for an unmapped address takes the frame that [frame_clock]
    chooses from its owner.  [evict_frame] looks the page up by its user address in
    the table of the running process.  When there is a page with that address, the
    contents of the frame are saved in a swap slot and that page names the slot
    (the right one when the running process owns the frame); the page table entry
    of the owner is left in place, so that afterwards two pages translate to the
    same frame.  When there is none, as for a frame of another process whose
    address the running process does not use, the kernel dereferences a null
    pointer. *)
Theorem frame_alloc_evicts pds pd w al upage (writable : bool) m sp :
  vm_ok pds pd w → table_ok w → fail_on_next w = true →
  (∀ f, f ∈ frame_table w → ∃ fr q, in_use pds w f fr q) →
  user_addr upage → (PGSIZE | upage) → pagedir_get_page (Some pd) upage (vmmu w) = Ret None →
  al_table al = Some m → kernel_page m → tables (vmmu w) !! m = None →
  swap_wf (vswap w) → ¬ full (vswap w) → al_slot al = Some sp → slots (vswap w) !! sp = None →
  ∃ f fr q r, (∃ w1, frame_clock w = Ret (Some f, w1)) ∧ in_use pds w f fr q ∧
    find_upage (f_upage fr) w = Ret r ∧
    match r with
    | None => frame_alloc al upage writable w = Panic
    | Some p => ∃ pg ss w', frame_alloc al upage writable w = Ret (f_kpage fr, w') ∧
        pages w' !! p = Some pg ∧ p_ss pg = Some ss ∧ stored (vswap w') ss = ram w !! f_kpage fr ∧
        ¬ (q = pd ∧ f_upage fr / PGSIZE = upage / PGSIZE) ∧
        pagedir_get_page (Some pd) upage (vmmu w') = Ret (Some (f_kpage fr)) ∧
        pagedir_get_page (Some q) (f_upage fr) (vmmu w') = Ret (Some (f_kpage fr))
    end.
Proof.
  intros Hok Htab Hfail Huse Hu Ha Hget Hm Hkm Hfresh Hsw Hnf Hsl Hslot.
  pose proof Hok as [(t & Ht & Hpdt) (Hpd & _) Hmmu _ _ Hfr].
  destruct (frame_clock_ret pds pd w Hok Huse) as (f & w1 & Hclock & Hck & Hf).
  destruct (Huse f Hf) as (fr & q & Hin). destruct (Hfr f Hf) as (fr0 & Hf0 & Hfok).
  pose proof (in_use_clocked pds w w1 f fr q Hck Hin) as Hin1.
  pose proof (vm_ok_clocked pds pd w w1 Hok Hck) as Hok1.
  pose proof (owner_page_ne pds pd w f fr q upage Hmmu Hpd Hu Hin Hget) as Hne.
  pose proof Hck as [E1 _ (_ & Er & _) Hnone1 Hmap1].
  rewrite (iu_frame _ _ _ _ _ Hin) in Hf0. injection Hf0 as <-.
  destruct (iu_ram _ _ _ _ _ Hin) as (b & Hb & _).
  destruct (find_upage_ret (f_upage fr) w t Ht Htab) as (r & Hfind & _).
  exists f, fr, q, r. split; [by exists w1|]. split; [done|]. split; [done|].
  pose proof (get_next_frame_evicts pds pd w w1 f fr q al sp b r t Hok Ht Htab Hfail Hclock Hck
    Hin Hb Hsw Hnf Hsl Hslot Hfind) as Hnext.
  unfold frame_alloc, thread_current. rewrite Ht. ret.
  destruct r as [p|]; [|by rewrite Hnext]. destruct Hnext as (pg & ss & t' & Hp & Hst & ->). ret.
  set (g := λ pg : page, pg <| p_ss := Some ss |> <| p_active := false |>).
  set (w2 := upd_page p g (w1 <| vswap := t' |>)).
  assert (vm_ok pds pd w2) as Hok2 by (destruct Hok1; by split).
  destruct (install_frame pds pd w2 f fr al upage writable m) as (mm & Hset & _ & _ & _ & Htr & _);
    [done|apply Hin1| |done|done| |done|done| |].
  { destruct Hfok. split; [done|]. change (init_ram_pages (vmmu w2)) with (init_ram_pages (vmmu w1)).
    by rewrite Er. }
  { change (vmmu w2) with (vmmu w1). by rewrite Hmap1. }
  { by apply Hnone1. }
  rewrite Hpdt. change (vmmu w2) with (vmmu w1) in *. rewrite Hmap1, Hget by done. ret. simpl.
  unfold frame_at. change (frames w2) with (frames w1). rewrite (iu_frame _ _ _ _ _ Hin1). ret.
  rewrite Hset. ret. exists (g pg), ss. eexists. split; [done|].
  split; [|split; [done|split; [|split; [done|split]]]].
  - change (alter g p (pages w1) !! p = Some (g pg)). by rewrite lookup_alter_eq, Hp.
  - change (stored t' ss = ram w !! f_kpage fr). by rewrite Hst.
  - change (pagedir_get_page (Some pd) upage mm = Ret (Some (f_kpage fr))).
    rewrite Htr, decide_True by done.
    destruct Ha as [a ->]. rewrite Z.mod_mul by done. by rewrite Z.add_0_r.
  - change (pagedir_get_page (Some q) (f_upage fr) mm = Ret (Some (f_kpage fr))).
    rewrite Htr by apply Hin. rewrite decide_False by done. apply Hin1.
Qed.

(** The frames of a process that ended are not reused: [frame_free] leaves a null page
    directory in them, which the clock passes to [pagedir_is_accessed]. *)
Theorem frame_alloc_freed_panics al upage (writable : bool) w f l fr t :
  procs w !! current w = Some t → fail_on_next w = true → frame_table_lock w = false →
  frame_table w = f :: l → frames w !! f = Some fr → f_pd fr = None →
  frame_alloc al upage writable w = Panic.
Proof.
  intros Ht Hfail Hl Htab Hf Hpd. unfold frame_alloc, thread_current. rewrite Ht. ret.
  unfold get_next_frame, frame_clock. rewrite Hfail, lock_frames_ret by done. ret.
  change (frame_table (w <| frame_table_lock := true |>)) with (frame_table w). rewrite Htab.
  cbn [clock_loop]. unfold frame_at. change (frames (w <| frame_table_lock := true |>)) with (frames w).
  rewrite Hf. ret. by rewrite Hpd.
Qed.

(** ** Bringing a page in *)

Context `{!FileOpsLaws files}.

(** What a page holds when it is brought in: the part of its file, or else the page
    in its swap slot. *)
Definition page_source (pg : page) w : option (list Z) :=
  match p_file pg, p_ss pg with
  | Some f, _ =>
      let data := file_data f (vfiles w) in
      let left := Z.of_nat (length data) - p_off pg in
      Some (slice (Z.to_nat (p_off pg)) (Z.to_nat (Z.min left PGSIZE)) data)
  | None, Some ss => stored (vswap w) ss
  | None, None => None
  end.

(** Clearing the dirty bit. *)
Lemma set_dirty_false pds pd v t :
  mmu_wf pds t → pd ∈ pds → kernel_page pd → user_addr v →
  ∃ t', pagedir_set_dirty (Some pd) v false t = Ret t' ∧ mmu_wf pds t' ∧
    pagedir_is_dirty (Some pd) v t' = Ret false ∧
    ∀ q u, q ∈ pds → user_addr u → pagedir_get_page (Some q) u t' = pagedir_get_page (Some q) u t.
Proof.
  intros Hw Hpd Hk Hv. unfold pagedir_set_dirty, pagedir_is_dirty.
  destruct (change_flag_translate pds t pd v PTE_D false Hw Hpd Hk Hv) as (t' & E & Hw' & _ & Htr);
    [by right|].
  exists t'. split; [done|]. split; [done|]. split; [|done].
  rewrite (is_flag_ret pds) by (done || by apply user_is_addr). f_equal.
  destruct (change_flag_ret pds t pd v PTE_D false Hw Hpd Hk Hv) as (t2 & E2 & Hc).
  rewrite E in E2. injection E2 as <-. destruct Hc as [[H0' ->]|[_ (_ & _ & Hpte)]].
  { by rewrite H0'. }
  rewrite Hpte, decide_True by (done || by apply user_is_addr).
  destruct pte_flags as (_ & _ & _ & _ & ->). change 64 with (2 ^ 6).
  rewrite flag_set_bit, clear_flag_bits by lia. apply andb_false_r.
Qed.

Lemma store_user_ret pds pd w upage k (b : list Z) :
  vm_ok pds pd w → user_addr upage → pagedir_get_page (Some pd) upage (vmmu w) = Ret (Some k) →
  ∃ m, store_user upage b w = Ret (w <| vmmu := m |> <| ram ::= alter (splice 0 b) k |>) ∧
    mmu_wf pds m.
Proof.
  intros [(t & Ht & Hpdt) (Hpd & Hk & _) Hw _ _ _] Hu Hget. unfold store_user, thread_current.
  rewrite Ht. ret. rewrite Hpdt, Hget. ret.
  destruct (change_flag_translate pds (vmmu w) pd upage PTE_A true Hw Hpd Hk Hu)
    as (m1 & E1 & Hw1 & _); [by left|].
  destruct (change_flag_translate pds m1 pd upage PTE_D true Hw1 Hpd Hk Hu)
    as (m2 & E2 & Hw2 & _); [by right|].
  unfold pagedir_set_accessed, pagedir_set_dirty. rewrite E1. ret. rewrite E2. ret. by exists m2.
Qed.

Lemma file_size_in_page_ret (pg : page) f w :
  p_file pg = Some f → 0 ≤ p_off pg ≤ Z.of_nat (length (file_data f (vfiles w))) →
  Z.of_nat (length (file_data f (vfiles w))) < 2147483648 →
  file_size_in_page pg w
    = Ret (Z.min (Z.of_nat (length (file_data f (vfiles w))) - p_off pg) PGSIZE).
Proof.
  intros Hf Ho Hl. unfold file_size_in_page. rewrite Hf. ret. rewrite file_length_spec. unwrap.
  f_equal. case_bool; lia.
Qed.

(** C31. [page_write_data] fills the frame of a mapped page: afterwards the frame starts
    with the page's part of its file, or holds the page that was swapped out, and
    the page is clean.  The rest of the frame keeps what it held before, which is
    what its previous owner left there when the file ends inside the page. *)
Theorem page_write_data_correct pds pd w p (pg : page) upage k old b :
  vm_ok pds pd w → swap_wf (vswap w) → user_addr upage →
  find_upage upage w = Ret (Some p) → pages w !! p = Some pg → p_pd pg = Some pd →
  p_frame pg = Some k → pagedir_get_page (Some pd) upage (vmmu w) = Ret (Some k) →
  ram w !! k = Some old → Z.of_nat (length old) = PGSIZE →
  (∀ f, p_file pg = Some f → 0 ≤ p_off pg ≤ Z.of_nat (length (file_data f (vfiles w))) ∧
     Z.of_nat (length (file_data f (vfiles w))) < 2147483648) →
  page_source pg w = Some b →
  ∃ w', page_write_data upage w = Ret (true, w') ∧ ram w' !! k = Some (splice 0 b old) ∧
    pagedir_is_dirty (Some pd) upage (vmmu w') = Ret false ∧
    ∀ q, stored (vswap w') q =
      if decide (p_file pg = None ∧ p_ss pg = Some q) then None else stored (vswap w) q.
Proof.
  intros Hok Hsw Hu Hfind Hpg Hpd' Hfr Hget Hram Hold Hoff Hsrc.
  pose proof Hok as [_ (Hpd & Hk & _) Hw _ _ _]. unfold page_write_data. rewrite Hfind. ret.
  unfold page_at. rewrite Hpg. ret. unfold page_source in Hsrc. destruct (p_file pg) as [f|] eqn:Hf.
  - injection Hsrc as <-. destruct (Hoff f) as [Ho Hl]; [done|].
    rewrite (file_size_in_page_ret pg f) by done. ret.
    set (n := Z.min _ _). assert (0 ≤ n) by (unfold PGSIZE in *; lia).
    destruct (file_read_at_spec f n (p_off pg) (vfiles w)) as (fs & -> & _); [lia..|].
    set (data := file_data f (vfiles w)) in *. set (b := slice _ _ _).
    assert (length b = Z.to_nat n) as Hlb by (apply length_slice; lia).
    set (w1 := w <| vfiles := fs |>).
    destruct (store_user_ret pds pd w1 upage k b) as (m & -> & Hwm); [by destruct Hok; split|done|done|].
    ret. rewrite Hpd'.
    destruct (set_dirty_false pds pd upage m) as (m2 & Hm2 & _ & Hd & _); [done..|].
    simpl in Hm2. simpl. rewrite Hm2. ret. rewrite (proj2 (Z.eqb_eq _ n)) by lia.
    eexists. split; [done|]. split; [simpl; by rewrite lookup_alter_eq, Hram|]. split; [done|].
    done.
  - destruct (p_ss pg) as [ss|] eqn:Hss; [|done]. rewrite Hfr. ret. rewrite Hram. ret.
    destruct (swap_in_spec (vswap w) ss old b Hsw Hsrc Hold) as (t' & -> & _ & Hst). ret. rewrite Hpd'.
    destruct (set_dirty_false pds pd upage (vmmu w)) as (m2 & Hm2 & _ & Hd & _); [done..|].
    simpl. rewrite Hm2. ret. eexists. split; [done|]. simpl.
    assert (length b = length old) as Hlb.
    { unfold stored, slot_page in Hsrc. case_decide; [|done].
      apply fmap_Some in Hsrc as (g & Hg & ->). destruct (sw_slot _ Hsw ss) as (g' & Hg' & Hlt & Hdiv);
        [set_solver|]. rewrite Hg in Hg'. injection Hg' as <-.
      unfold PGSIZE in Hold. rewrite length_sectors_from; [lia|apply Hsw|lia|].
      destruct (sw_size _ Hsw) as [_ [x Hx]], (sw_next _ Hsw) as [? _], Hdiv as [y Hy]. lia. }
    split; [by rewrite lookup_insert_eq, splice_full|]. split; [done|].
    intros q. rewrite Hst. destruct (decide (q = ss)) as [->|]; [by rewrite decide_True|].
    rewrite decide_False; [done|]. naive_solver.
Qed.
End spec.
