(* ===== verification/VmSample.v ===== *)
(** * Concrete states on which the hypotheses of VmSpec.v hold

    One process on the MMU of PageDir.v, with a swap disk of two slots and files
    kept as byte lists. *)
From S2P Require Import Prelude CInt Ext Mmu PageDir Swap PageTable Frame FrameClock Page VmSpec.
Open Scope Z_scope.

#[local] Existing Instances Ia32.vaddr Ia32.vaddr_laws Ia32.pte Ia32.pte_laws.
#[local] Existing Instances Ramdisk.ops Ramdisk.laws.

Definition file_map : Type := gmap Z (list Z).

#[local] Instance file_map_ops : FileOps file_map := {|
  file_length f fs := Z.of_nat (length (default [] (fs !! f)));
  file_read_at f n off fs := (slice (Z.to_nat off) (Z.to_nat n) (default [] (fs !! f)), fs);
  file_write_at f b off fs := (Z.of_nat (length b), alter (splice (Z.to_nat off) b) f fs)
|}.

#[local] Instance file_map_laws : FileOpsLaws file_map.
Proof.
  refine {| file_data f fs := default [] (fs !! f) |}.
  - done.
  - intros f n off fs _ _. by exists fs.
Defined.

(** The page directory with the code page mapped. *)
Definition mapped_mmu : mmu :=
  match pagedir_set_page (Some table_page) (Some user_pd) code_page code_frame true sample_mmu with
  | Ret (true, m) => m
  | _ => sample_mmu
  end.

Lemma code_frame_ok : frame_ok sample_mmu code_frame.
Proof. repeat split; try discriminate. by apply aligned. Qed.

Lemma user_pd_page : kernel_page user_pd.
Proof. repeat split; try discriminate. by apply aligned. Qed.

Lemma table_page_ok : kernel_page table_page.
Proof. repeat split; try discriminate. by apply aligned. Qed.

Lemma mapped_mmu_wf : mmu_wf sample_pds mapped_mmu.
Proof.
  destruct (pagedir_set_page_ret sample_pds sample_mmu user_pd code_page code_frame true table_page)
    as (m & E & _ & Hw & _).
  - exact sample_mmu_wf.
  - apply sample_in. by right.
  - discriminate.
  - exact code_page_user.
  - by apply aligned.
  - exact code_frame_ok.
  - exact table_page_ok.
  - reflexivity.
  - reflexivity.
  - unfold mapped_mmu. by rewrite E.
Qed.

(** A page of the process, at 4096 bytes per frame. *)
Definition code_entry (file : option Z) (writable : bool) : page :=
  MkPage (Some user_pd) (Some code_frame) code_page true file 0 writable None.

Definition sample_vm (m : mmu) (fr : frame) (full : bool) (pg : page) : vm Ramdisk.disk file_map :=
  MkVm {[ code_frame := page_of 7 ]} m boot_swap [1] {[ 1 := fr ]} false 1 full {[ 10 := pg ]}
    {[ 1 := MkThread (Some user_pd) [10] ]} 1 {[ 5 := [1; 2; 3] ]}.

Definition fresh_vm := sample_vm sample_mmu (MkFrame code_frame None 0) false
  ((code_entry None true) <| p_upage := 4096 |>).
Definition full_vm := sample_vm mapped_mmu (MkFrame code_frame (Some user_pd) code_page) true
  (code_entry None true).
Definition file_vm := sample_vm mapped_mmu (MkFrame code_frame (Some user_pd) code_page) true
  (code_entry (Some 5) true).
Definition readonly_vm := sample_vm sample_mmu (MkFrame code_frame None 0) false (code_entry None false).

Lemma sample_vm_ok m fr full pg :
  mmu_wf sample_pds m → init_page_dir m = boot_pd → frame_ok m (f_kpage fr) →
  vm_ok sample_pds user_pd (sample_vm m fr full pg).
Proof.
  intros Hw Hi Hfr. split.
  - eexists. split; reflexivity.
  - split; [apply sample_in; by right|]. split; [exact user_pd_page|].
    change (user_pd ≠ init_page_dir m). by rewrite Hi.
  - exact Hw.
  - reflexivity.
  - split; [discriminate|apply NoDup_singleton].
  - intros f ->%list_elem_of_singleton. exists fr. split; [reflexivity|exact Hfr].
Qed.

Lemma page_fetch_rejects_witness :
  page_fetch (MkAllocs None None None) code_page 0 true readonly_vm = Ret (false, readonly_vm).
Proof.
  exact (page_fetch_rejects (MkAllocs None None None) code_page 0 true true false readonly_vm
    eq_refl (λ _, eq_refl)).
Defined.

Lemma page_fetch_readonly_panics_witness :
  page_fetch (MkAllocs (Some table_page) None None) code_page 0 false readonly_vm
    ≠ Ret (true, readonly_vm).
Proof.
  apply (page_fetch_readonly_panics (MkAllocs (Some table_page) None None) code_page 0 10
    (code_entry None false) readonly_vm (true, readonly_vm)).
  - discriminate.
  - reflexivity.
  - reflexivity.
  - reflexivity.
  - reflexivity.
Defined.

Definition stack_page : Z := code_page + 4096.
Definition table_page2 : Z := table_page + 4096.

Lemma stack_page_user : user_addr stack_page.
Proof. by split. Qed.

Lemma table_page2_ok : kernel_page table_page2.
Proof. repeat split; try discriminate. by apply aligned. Qed.

Lemma full_vm_ok pg : vm_ok sample_pds user_pd
  (sample_vm mapped_mmu (MkFrame code_frame (Some user_pd) code_page) true pg).
Proof. apply sample_vm_ok; [exact mapped_mmu_wf|reflexivity|exact code_frame_ok]. Qed.

Lemma full_vm_in_use :
  in_use sample_pds full_vm 1 (MkFrame code_frame (Some user_pd) code_page) user_pd.
Proof.
  split.
  - reflexivity.
  - reflexivity.
  - split; [apply sample_in; by right|exact user_pd_page].
  - exact code_page_user.
  - vm_compute. reflexivity.
  - exists (page_of 7). split; reflexivity.
Qed.

Lemma full_vm_table_ok : table_ok full_vm.
Proof.
  intros t p Ht Hp. change (Some (MkThread (Some user_pd) [10]) = Some t) in Ht.
  injection Ht as <-. apply list_elem_of_singleton in Hp as ->. by eexists.
Qed.

Lemma boot_swap_not_full : ¬ full boot_swap.
Proof. intros [_ H]. by apply H. Qed.

Lemma frame_alloc_evicts_witness :
  let al := MkAllocs (Some table_page2) (Some 77) None in
  ∃ f fr q r, (∃ w1, frame_clock full_vm = Ret (Some f, w1)) ∧ in_use sample_pds full_vm f fr q ∧
    find_upage (f_upage fr) full_vm = Ret r ∧
    match r with
    | None => frame_alloc al stack_page true full_vm = Panic
    | Some p => ∃ pg ss w', frame_alloc al stack_page true full_vm = Ret (f_kpage fr, w') ∧
        pages w' !! p = Some pg ∧ p_ss pg = Some ss ∧
        stored (vswap w') ss = ram full_vm !! f_kpage fr ∧
        ¬ (q = user_pd ∧ f_upage fr / PGSIZE = stack_page / PGSIZE) ∧
        pagedir_get_page (Some user_pd) stack_page (vmmu w') = Ret (Some (f_kpage fr)) ∧
        pagedir_get_page (Some q) (f_upage fr) (vmmu w') = Ret (Some (f_kpage fr))
    end.
Proof.
  apply (frame_alloc_evicts sample_pds user_pd full_vm (MkAllocs (Some table_page2) (Some 77) None)
    stack_page true table_page2 77).
  - apply full_vm_ok.
  - exact full_vm_table_ok.
  - reflexivity.
  - intros f ->%list_elem_of_singleton. do 2 eexists. exact full_vm_in_use.
  - exact stack_page_user.
  - by apply aligned.
  - vm_compute. reflexivity.
  - reflexivity.
  - exact table_page2_ok.
  - vm_compute. reflexivity.
  - exact boot_swap_wf.
  - exact boot_swap_not_full.
  - reflexivity.
  - reflexivity.
Defined.

(** Both cases occur: the frame of the running process, and that of a process whose
    address the running process does not use. *)
Definition other_pd : Z := user_pd + 16384.

Definition foreign_vm : vm Ramdisk.disk file_map :=
  full_vm <| vmmu ::= λ m, m <| tables ::= <[other_pd := replicate 1024 0]> |> |>
    <| procs ::= <[2 := MkThread (Some other_pd) []]> |> <| current := 2 |>.

Lemma frame_alloc_own :
  ∃ w', frame_alloc (MkAllocs (Some table_page2) (Some 77) None) stack_page true full_vm
    = Ret (code_frame, w').
Proof. eexists. vm_compute. reflexivity. Qed.

Lemma frame_alloc_foreign :
  frame_alloc (MkAllocs (Some table_page2) (Some 77) None) stack_page true foreign_vm = Panic.
Proof. vm_compute. reflexivity. Qed.

Lemma frame_alloc_freed_panics_witness :
  frame_alloc (MkAllocs None None None) stack_page true
    (full_vm <| frames := {[ 1 := MkFrame code_frame None 0 ]} |>) = Panic.
Proof.
  apply (frame_alloc_freed_panics (MkAllocs None None None) stack_page true
    (full_vm <| frames := {[ 1 := MkFrame code_frame None 0 ]} |>) 1 []
    (MkFrame code_frame None 0) (MkThread (Some user_pd) [10])); reflexivity.
Defined.

(** Two frames in use, the page of the first one accessed. *)
Definition stack_frame : Z := code_frame + 4096.

Definition both_mmu : mmu :=
  match pagedir_set_page (Some table_page2) (Some user_pd) stack_page stack_frame true mapped_mmu with
  | Ret (true, m) => m
  | _ => mapped_mmu
  end.

Definition clock_mmu : mmu :=
  match pagedir_set_accessed (Some user_pd) code_page true both_mmu with
  | Ret m => m
  | _ => both_mmu
  end.

Lemma stack_frame_ok : frame_ok mapped_mmu stack_frame.
Proof. repeat split; try discriminate. by apply aligned. Qed.

Lemma both_mmu_wf : mmu_wf sample_pds both_mmu.
Proof.
  destruct (pagedir_set_page_ret sample_pds mapped_mmu user_pd stack_page stack_frame true table_page2)
    as (m & E & _ & Hw & _).
  - exact mapped_mmu_wf.
  - apply sample_in. by right.
  - discriminate.
  - exact stack_page_user.
  - by apply aligned.
  - exact stack_frame_ok.
  - exact table_page2_ok.
  - reflexivity.
  - reflexivity.
  - unfold both_mmu. by rewrite E.
Qed.

Lemma clock_mmu_wf : mmu_wf sample_pds clock_mmu.
Proof.
  destruct (change_flag_translate sample_pds both_mmu user_pd code_page PTE_A true) as (m & E & Hw & _).
  - exact both_mmu_wf.
  - apply sample_in. by right.
  - exact user_pd_page.
  - exact code_page_user.
  - by left.
  - unfold clock_mmu, pagedir_set_accessed. by rewrite E.
Qed.

Definition clock_vm : vm Ramdisk.disk file_map :=
  full_vm <| vmmu := clock_mmu |> <| frame_table := [1; 2] |>
    <| frames := {[ 1 := MkFrame code_frame (Some user_pd) code_page;
                    2 := MkFrame stack_frame (Some user_pd) stack_page ]} |>.

Lemma clock_vm_frames f : f ∈ frame_table clock_vm → f = 1 ∨ f = 2.
Proof. intros [->|[->|[]%elem_of_nil]%elem_of_cons]%elem_of_cons; auto. Qed.

(** The page of frame 1 was accessed, that of frame 2 was not: frame 2 is the victim. *)
Lemma frame_clock_second_chance_witness :
  (referenced clock_vm 1 = true ∧ referenced clock_vm 2 = false) ∧
  ∃ pre f post w', frame_table clock_vm = pre ++ f :: post ∧ frame_clock clock_vm = Ret (Some f, w') ∧
    (∀ g, g ∈ pre → referenced clock_vm g = true) ∧ (referenced clock_vm f = false ∨ post = []) ∧
    (∀ g, g ∈ frame_table clock_vm →
       referenced w' g = referenced clock_vm g && bool_decide (g ∈ post)) ∧
    w' = clock_vm <| vmmu := vmmu w' |>.
Proof.
  split; [by vm_compute|]. apply (frame_clock_second_chance sample_pds clock_vm).
  - exact clock_mmu_wf.
  - reflexivity.
  - discriminate.
  - repeat constructor; set_solver.
  - intros f [-> | ->]%clock_vm_frames.
    + exists code_frame, user_pd, code_page.
      split; [reflexivity|]. split; [apply sample_in; by right|]. by split; [apply user_pd_page|].
    + exists stack_frame, user_pd, stack_page.
      split; [reflexivity|]. split; [apply sample_in; by right|]. by split; [apply user_pd_page|].
  - intros f g [-> | ->]%clock_vm_frames [-> | ->]%clock_vm_frames; try done;
      intros (? & ? & ? & ? & ? & [=] & [=] & E); subst; vm_compute in E; discriminate.
Defined.

Lemma page_write_data_correct_witness :
  ∃ w', page_write_data code_page file_vm = Ret (true, w') ∧
    ram w' !! code_frame = Some (splice 0 [1; 2; 3] (page_of 7)) ∧
    pagedir_is_dirty (Some user_pd) code_page (vmmu w') = Ret false ∧
    ∀ q, stored (vswap w') q =
      if decide (Some 5 = None ∧ @None Z = Some q) then None else stored (vswap file_vm) q.
Proof.
  apply (page_write_data_correct sample_pds user_pd file_vm 10 (code_entry (Some 5) true) code_page
    code_frame (page_of 7) [1; 2; 3]).
  - apply full_vm_ok.
  - exact boot_swap_wf.
  - exact code_page_user.
  - reflexivity.
  - reflexivity.
  - reflexivity.
  - reflexivity.
  - vm_compute. reflexivity.
  - reflexivity.
  - reflexivity.
  - intros f [= <-]. repeat split; discriminate.
  - reflexivity.
Defined.
