(* ===== verification/UserCall.v ===== *)
(** * Kernel calls made for a user process

    The state of the processes, and the monad in which exceptions and system calls
    are written: a call returns, or the process leaves through [thread_exit], or
    the machine is switched off.  One process runs at a time; what the others do
    between two calls is outside a call. *)
From S2P Require Import Prelude CInt Ext Mmu PageDir Swap PageTable Frame Page.
Open Scope Z_scope.

(** The bytes of a string literal. *)
Definition string_bytes (s : String.string) : list Z :=
  (λ c, Z.of_nat (Ascii.nat_of_ascii c)) <$> String.list_ascii_of_string s.

(** ** State *)

(** [struct child] of threads/thread.h, with the value of its semaphore. *)
Record child := MkChild { c_tid : Z; c_terminated : Z; c_status : Z }.
#[export] Instance eta_child : Eta child := λ c, MkChild (c_tid c) (c_terminated c) (c_status c).

(** [struct file_store] of userprog/process.h. *)
Record file_store := MkFileStore { fs_file : Z; fs_fd : Z; fs_mapped : bool }.
#[export] Instance eta_file_store : Eta file_store := λ s,
  MkFileStore (fs_file s) (fs_fd s) (fs_mapped s).

(** [struct leash] of userprog/process.c; the page with the file name is a byte string. *)
Record leash := MkLeash {
  success_set : Z;
  success : bool;
  file_name : list Z;
  l_child : Z
}.
#[export] Instance eta_leash : Eta leash := λ l,
  MkLeash (success_set l) (success l) (file_name l) (l_child l).

(** The user fields of [struct thread] that PageTable.v does not have, and its name;
    lists hold the addresses of their elements. *)
Record uproc := MkUproc {
  u_name : list Z;
  children : list Z;
  children_init : bool;
  self : option Z;
  usr_thread : bool;
  executing : option Z;
  files_open : list Z
}.
#[export] Instance eta_uproc : Eta uproc := λ u,
  MkUproc (u_name u) (children u) (children_init u) (self u) (usr_thread u) (executing u)
    (files_open u).

(** The virtual memory system, the processes by thread address, the heap of children
    and file stores, the bytes printed, the keys waiting in the input buffer, the results of [malloc] and of the
    allocations of [page_fetch] still to come, [page_fault_cnt], and the [struct leash]
    on the stack of each thread that is in [process_execute]. *)
Record sys (dev files : Type) := MkSys {
  svm : vm dev files;
  uprocs : gmap Z uproc;
  child_heap : gmap Z child;
  stores : gmap Z file_store;
  console : list Z;
  keys : list Z;
  mallocs : list (option Z);
  fetches : list allocs;
  page_fault_cnt : Z;
  leashes : gmap Z leash
}.
Arguments MkSys {dev files} _ _ _ _ _ _ _ _ _ _.
Arguments svm {dev files} _.
Arguments uprocs {dev files} _.
Arguments child_heap {dev files} _.
Arguments stores {dev files} _.
Arguments console {dev files} _.
Arguments keys {dev files} _.
Arguments mallocs {dev files} _.
Arguments fetches {dev files} _.
Arguments page_fault_cnt {dev files} _.
Arguments leashes {dev files} _.
#[export] Instance eta_sys {dev files} : Eta (sys dev files) := λ s,
  MkSys (svm s) (uprocs s) (child_heap s) (stores s) (console s) (keys s) (mallocs s) (fetches s)
    (page_fault_cnt s) (leashes s).

(** ** The monad *)

Inductive ending (A : Type) := Val (a : A) | Exits | PowersOff.
Arguments Val {A} a.
Arguments Exits {A}.
Arguments PowersOff {A}.

Definition call (S A : Type) : Type := S → outcome (ending A * S).

#[export] Instance call_ret {S} : MRet (call S) := λ A a s, Ret (Val a, s).

#[export] Instance call_bind {S} : MBind (call S) := λ A B f m s,
  '(e, s') ← m s;
  match e with
  | Val a => f a s'
  | Exits => Ret (Exits, s')
  | PowersOff => Ret (PowersOff, s')
  end.

Section combinators.
Context {S : Type}.

(** [thread_exit ()] and [shutdown_power_off ()]: nothing of the caller follows.
    What [thread_exit] does then is RoundRobin.v's [thread_exit]. *)
Definition thread_exit {A} : call S A := λ s, Ret (Exits, s).
Definition power_off {A} : call S A := λ s, Ret (PowersOff, s).

Definition panic {A} : call S A := λ _, Panic.
Definition get {A} (g : S → outcome A) : call S A := λ s, a ← g s; Ret (Val a, s).
Definition modify (g : S → outcome S) : call S unit := λ s, s' ← g s; Ret (Val tt, s').
Definition assert (b : bool) : call S unit := λ s, ASSERT b;; Ret (Val tt, s).

Definition pure {A} (a : A) : call S A := λ s, Ret (Val a, s).
End combinators.

(** A call that returned. *)
Lemma call_bind_Val {S A B} (m : call S A) (f : A → call S B) s a s' :
  m s = Ret (Val a, s') → (m ≫= f) s = f a s'.
Proof. intros E. unfold mbind, call_bind. by rewrite E. Qed.

Lemma call_bind_Exits {S A B} (m : call S A) (f : A → call S B) s s' :
  m s = Ret (Exits, s') → (m ≫= f) s = Ret (Exits, s').
Proof. intros E. unfold mbind, call_bind. by rewrite E. Qed.

Lemma call_bind_inv {S A B} (m : call S A) (f : A → call S B) s b s' :
  (m ≫= f) s = Ret (Val b, s') → ∃ a s1, m s = Ret (Val a, s1) ∧ f a s1 = Ret (Val b, s').
Proof.
  unfold mbind, call_bind. destruct (m s) as [[[a| |] s1]| |]; intros E; try discriminate.
  by exists a, s1.
Qed.

Lemma call_bind_ext {S A B} (m m' : call S A) (f : A → call S B) s s' :
  m s = m' s' → (m ≫= f) s = (m' ≫= f) s'.
Proof. intros E. unfold mbind, call_bind. by rewrite E. Qed.

Lemma modify_then {S B} (g : S → outcome S) (f : call S B) s s' :
  g s = Ret s' → (modify g;; f) s = f s'.
Proof. intros E. unfold modify, mbind, call_bind. by rewrite E. Qed.

(** Run the first call of a sequence, which [E] says returned. *)
Ltac call_ret E := rewrite (call_bind_Val _ _ _ _ _ E); cbv beta iota.
Tactic Notation "call_ret" "by" tactic3(tac) := erewrite call_bind_Val by tac; cbv beta iota.

Section memory.
Context `{Vaddr, !Pte}.
Context {dev files : Type} `{BlockDevice dev, FileOps files}.
Implicit Types (s : sys dev files).

Notation kcall := (call (sys dev files)).

Definition cur_proc s : outcome uproc := deref (uprocs s !! current (svm s)).
Definition upd_cur (g : uproc → uproc) s : sys dev files := s <| uprocs ::= alter g (current (svm s)) |>.

(** The next result of [malloc]. *)
Definition malloc : kcall (option Z) := λ s,
  match mallocs s with
  | [] => Ret (Val None, s)
  | m :: l => Ret (Val m, s <| mallocs := l |>)
  end.

(** [printf]: the bytes go to the console. *)
Definition print (b : list Z) : kcall unit := modify (λ s, Ret (s <| console ::= λ c, c ++ b |>)).

(** An operation of the virtual memory system. *)
Definition vm_get {A} (g : vm dev files → outcome A) : kcall A := get (λ s, g (svm s)).
Definition vm_do {A} (g : vm dev files → outcome (A * vm dev files)) : kcall A := λ s,
  '(a, w) ← g (svm s); Ret (Val a, s <| svm := w |>).

(** An operation of the file system. *)
Definition fs_do {A} (g : files → A * files) : kcall A :=
  vm_do (λ w, let '(a, fs) := g (vfiles w) in Ret (a, w <| vfiles := fs |>)).

Definition file_length_of (f : Z) : kcall Z := vm_get (λ w, Ret (file_length f (vfiles w))).

(** The next allocations. *)
Definition next_allocs : kcall allocs := λ s,
  match fetches s with
  | [] => Ret (Val (MkAllocs None None None), s)
  | al :: l => Ret (Val al, s <| fetches := l |>)
  end.

(** [page_fetch], with the next allocations. *)
Definition fetch (uaddr esp : Z) (write : bool) : kcall bool := λ s,
  let '(al, rest) := match fetches s with
                     | [] => (MkAllocs None None None, [])
                     | al :: l => (al, l)
                     end in
  '(b, w) ← page_fetch al uaddr esp write (svm s);
  Ret (Val b, s <| svm := w |> <| fetches := rest |>).
End memory.
