(* ===== verification/Exception.v ===== *)
(** * Exceptions and page faults (virtual-memory/userprog/exception.c) *)
From S2P Require Import Prelude CInt Ext Interrupt Mmu PageDir Swap PageTable Frame Page UserCall.
From stdpp Require Import strings.
Open Scope Z_scope.

(** userprog/exception.h *)
Definition PF_P : Z := 1.
Definition PF_W : Z := 2.
Definition PF_U : Z := 4.

(** Code segment selectors ([userprog/gdt.h]); the three are different. *)
Class Selectors := { SEL_KCSEG : Z; SEL_UCSEG : Z }.
Class SelectorsLaws `{Selectors} : Prop := { selectors_differ : SEL_KCSEG ≠ SEL_UCSEG }.

(** The members of [struct intr_frame] in use. *)
Record intr_frame := MkFrame {
  vec_no : Z;
  error_code : Z;
  cs : Z;
  esp : Z;
  eax : Z
}.
#[export] Instance eta_intr_frame : Eta intr_frame := λ f,
  MkFrame (vec_no f) (error_code f) (cs f) (esp f) (eax f).

(** [handler]: the handlers [kill] and [page_fault]; [INTR_ON] makes a trap gate. *)
Section init.
Context {H : Type} (kill page_fault : H).
Variable SEL_KCSEG : Z.
Variable intr_stubs : Z → Z.

Definition exception_init (s : idt_state H) : outcome (idt_state H) :=
  let reg := intr_register_int SEL_KCSEG intr_stubs in
  s ← reg 3 3 INTR_ON kill "#BP Breakpoint Exception" s;
  s ← reg 4 3 INTR_ON kill "#OF Overflow Exception" s;
  s ← reg 5 3 INTR_ON kill "#BR BOUND Range Exceeded Exception" s;
  s ← reg 0 0 INTR_ON kill "#DE Divide Error" s;
  s ← reg 1 0 INTR_ON kill "#DB Debug Exception" s;
  s ← reg 6 0 INTR_ON kill "#UD Invalid Opcode Exception" s;
  s ← reg 7 0 INTR_ON kill "#NM Device Not Available Exception" s;
  s ← reg 11 0 INTR_ON kill "#NP Segment Not Present" s;
  s ← reg 12 0 INTR_ON kill "#SS Stack Fault Exception" s;
  s ← reg 13 0 INTR_ON kill "#GP General Protection Exception" s;
  s ← reg 16 0 INTR_ON kill "#MF x87 FPU Floating-Point Error" s;
  s ← reg 19 0 INTR_ON kill "#XF SIMD Floating-Point Exception" s;
  reg 14 0 INTR_OFF page_fault "#PF Page-Fault Exception" s.
End init.

Section exception.
Context `{Vaddr, !Pte, Selectors}.
Context {dev files : Type} `{BlockDevice dev, FileOps files}.

Notation kcall := (call (sys dev files)).

(** [kill]: a fault of user code ends the process, one of kernel code panics.  The
    messages it prints are left out. *)
Definition kill (f : intr_frame) : kcall unit :=
  if cs f =? SEL_UCSEG then thread_exit
  else if cs f =? SEL_KCSEG then panic
  else thread_exit.

(** [cr2] is the address that faulted. *)
Definition page_fault (cr2 : Z) (f : intr_frame) : kcall unit :=
  let fault_addr := cr2 in
  modify (λ s, Ret (s <| page_fault_cnt := s64 (page_fault_cnt s + 1) |>));;
  let not_present := negb (flag_set PF_P (error_code f)) in
  let write := flag_set PF_W (error_code f) in
  let user := flag_set PF_U (error_code f) in
  fetched ← fetch fault_addr (esp f) write;
  if fetched : bool then pure tt else kill f.
End exception.
