(* ===== verification/UserMem.v ===== *)
(** * Kernel accesses to user memory

    The kernel reads and writes the memory of the running process through the
    active page directory.  An access to a page that is not present traps to the
    page fault handler of the kernel: an interface, since user-programs runs with
    the stock handler, which is not in the repository.  That of virtual-memory
    ([page_fault] of userprog/exception.c) brings the page in or, since the fault is
    the kernel's, panics. *)
From S2P Require Import Prelude CInt Ext Mmu PageDir Swap PageTable Frame Page UserCall Exception.
Open Scope Z_scope.

(** The memory of the kernel itself, above [PHYS_BASE], is not modelled: what it
    holds is [kernel_byte].  [kernel_esp] is the [esp] member of the frame of a fault
    in kernel code, which the processor does not fill in. *)
Class KernelMemory := { kernel_byte : Z → Z; kernel_esp : Z }.

(** What a fault of the kernel at an address does before the access is repeated. *)
Class FaultHandler (S : Type) := kernel_faults : Z → bool → call S unit.

Section user_mem.
Context `{Vaddr, !Pte, KernelMemory}.
Context {dev files : Type} `{BlockDevice dev, FileOps files, !FaultHandler (sys dev files)}.
Implicit Types (uaddr esp : Z).

Notation kcall := (call (sys dev files)).

(** The kernel address that [uaddr] is mapped to. *)
Definition translate_user uaddr : kcall (option Z) :=
  vm_get (λ w, t ← thread_current w; pagedir_get_page (pagedir t) uaddr (vmmu w)).

(** The kernel address of a user byte, after the fault if there is one. *)
Definition touch uaddr (write : bool) : kcall Z :=
  k ← translate_user uaddr;
  match k with
  | Some a => pure a
  | None =>
      kernel_faults uaddr write;;
      k ← translate_user uaddr;
      get (λ _, deref k)
  end.

Definition load_byte uaddr : kcall Z :=
  if is_user_vaddr uaddr then
    a ← touch uaddr false;
    vm_do (λ w,
      t ← thread_current w;
      m ← pagedir_set_accessed (pagedir t) uaddr true (vmmu w);
      page ← deref (ram w !! pg_round_down a);
      b ← deref (page !! Z.to_nat (pg_ofs a));
      Ret (b, w <| vmmu := m |>))
  else pure (kernel_byte uaddr).

(** Only user addresses are stored to. *)
Definition store_byte uaddr (b : Z) : kcall unit :=
  a ← touch uaddr true;
  vm_do (λ w,
    t ← thread_current w;
    m1 ← pagedir_set_accessed (pagedir t) uaddr true (vmmu w);
    m2 ← pagedir_set_dirty (pagedir t) uaddr true m1;
    Ret (tt, w <| vmmu := m2 |>
               <| ram ::= alter (λ page, <[Z.to_nat (pg_ofs a) := b]> page) (pg_round_down a) |>)).

Fixpoint load_bytes (n : nat) uaddr : kcall (list Z) :=
  match n with
  | O => pure []
  | S n' => b ← load_byte uaddr; l ← load_bytes n' (u32 (uaddr + 1)); pure (b :: l)
  end.

Fixpoint store_bytes (l : list Z) uaddr : kcall unit :=
  match l with
  | [] => pure tt
  | b :: l' => store_byte uaddr b;; store_bytes l' (u32 (uaddr + 1))
  end.

(** The bytes of a C string up to its terminator; [fuel] bounds its length. *)
Fixpoint load_string (fuel : nat) uaddr : kcall (list Z) :=
  match fuel with
  | O => λ _, Stuck
  | S fuel' =>
      b ← load_byte uaddr;
      if b =? 0 then pure []
      else l ← load_string fuel' (u32 (uaddr + 1)); pure (b :: l)
  end.

(** [*(uint32_t * ) uaddr] *)
Definition load_word uaddr : kcall Z := l ← load_bytes 4 uaddr; pure (unle l).
End user_mem.

(** ** The handler of virtual-memory *)

Section paging.
Context `{Vaddr, !Pte, Selectors, KernelMemory}.
Context {dev files : Type} `{BlockDevice dev, FileOps files}.

(** The frame of a page fault in the kernel. *)
Definition kernel_fault (write : bool) : intr_frame :=
  MkFrame 14 (if write then PF_W else 0) SEL_KCSEG kernel_esp 0.

#[export] Instance paging_faults : FaultHandler (sys dev files) :=
  λ uaddr write, page_fault uaddr (kernel_fault write).
End paging.
