(* ===== verification/Load.v ===== *)
(** * Loading a program (virtual-memory/userprog/process.c)

    Where the pages come from is an interface, [ProgramPages], so that the same
    definitions serve user-programs.  [load] and its helpers: the command line is cut into words, the segments of the
    executable are brought into frames, and the words are laid out on the stack of
    the new process. *)
From stdpp Require Import strings.
From S2P Require Import Prelude CInt Ext Mmu PageDir Swap PageTable UserFiles Elf Frame Page UserCall Exception UserMem.
Open Scope Z_scope.

Definition INPUT_BUF_SIZE : nat := 1025.

(** ** Words

    [strtok_r (s, " ", &save_ptr)] of the C library: the first word of [s] and what
    is left after it, if there is a word. *)
Definition SPACE : Z := 32.

Fixpoint skip_spaces (s : list Z) : list Z :=
  match s with
  | c :: s' => if c =? SPACE then skip_spaces s' else s
  | [] => []
  end.

Fixpoint scan_word (s : list Z) : list Z * list Z :=
  match s with
  | [] => ([], [])
  | c :: s' => if c =? SPACE then ([], s') else let '(t, r) := scan_word s' in (c :: t, r)
  end.

Definition strtok_r (s : list Z) : option (list Z * list Z) :=
  match skip_spaces s with
  | [] => None
  | s' => Some (scan_word s')
  end.

(** The loop over the words: at most [n]. *)
Fixpoint token_loop (n : nat) (token : option (list Z * list Z)) : list (list Z) :=
  match n, token with
  | S n', Some (t, save_ptr) => t :: token_loop n' (strtok_r save_ptr)
  | _, _ => []
  end.

(** Where the pages of a new process come from: [load_one_page file upage n writable] is
    a round of the loop of [load_segment], with [n] bytes from the file;
    [get_stack_page] maps the page of the stack.  virtual-memory and user-programs
    differ in nothing else. *)
Class ProgramPages (S : Type) := {
  load_one_page : Z → Z → Z → bool → call S bool;
  get_stack_page : call S bool
}.

Section load.
Context `{Vaddr, !Pte, KernelMemory}.
Context {dev files : Type} `{BlockDevice dev, FileOps files, FileCalls files}.
Context `{!FaultHandler (sys dev files), !ProgramPages (sys dev files)}.
Implicit Types (s : sys dev files) (file upage kpage esp : Z).

Notation kcall := (call (sys dev files)).

(** ** Segments *)

(** The loop; [fuel] bounds the number of pages. *)
Fixpoint load_pages (fuel : nat) file upage (read_bytes zero_bytes : Z) (writable : bool) : kcall bool :=
  match fuel with
  | O => λ _, Stuck
  | S fuel' =>
      if (0 <? read_bytes) || (0 <? zero_bytes) then
        let page_read_bytes := if read_bytes <? PGSIZE then read_bytes else PGSIZE in
        let page_zero_bytes := PGSIZE - page_read_bytes in
        ok ← load_one_page file upage page_read_bytes writable;
        if negb ok then pure false
        else load_pages fuel' file (u32 (upage + PGSIZE)) (u32 (read_bytes - page_read_bytes))
               (u32 (zero_bytes - page_zero_bytes)) writable
      else pure true
  end.

Definition load_segment file (ofs : Z) upage (read_bytes zero_bytes : Z) (writable : bool) : kcall bool :=
  assert (segment_asserts ofs upage read_bytes zero_bytes);;
  fs_do (λ fs, (tt, file_seek file ofs fs));;
  load_pages (S (Z.to_nat (u32 (read_bytes + zero_bytes) / PGSIZE))) file upage read_bytes zero_bytes
    writable.

(** ** The stack *)

(** [*esp -= n; memcpy ( *esp, b, n);] with [n] the length of [b]. *)
Definition push (b : list Z) esp : kcall Z :=
  let esp := u32 (esp - Z.of_nat (length b)) in
  store_bytes b esp;;
  pure esp.

(** The first loop of [setup_stack]: the strings from the last one to the first, each
    with its terminator.  The addresses of the strings replace them in [tokens]. *)
Fixpoint push_strings (tokens : list (list Z)) esp : kcall (list Z * Z) :=
  match tokens with
  | [] => pure ([], esp)
  | t :: l =>
      '(ptrs, esp) ← push_strings l esp;
      esp ← push (t ++ [0]) esp;
      pure (esp :: ptrs, esp)
  end.

(** The second loop: their addresses, from the last one to the first. *)
Fixpoint push_words (l : list Z) esp : kcall Z :=
  match l with
  | [] => pure esp
  | p :: l' => esp ← push_words l' esp; push (le 4 p) esp
  end.

(** The words, then what [main] needs to find them. *)
Definition push_args (tokens : list (list Z)) : kcall Z :=
  let counter := Z.of_nat (length tokens) in
  '(ptrs, esp) ← push_strings tokens PHYS_BASE;
  let bytes_align := u32 (esp - 4) mod 4 in
  esp ← push (replicate (Z.to_nat bytes_align) 0) esp;
  esp ← push (le 4 0) esp;
  esp ← push_words ptrs esp;
  let esp_cpy := esp in
  esp ← push (le 4 esp_cpy) esp;
  esp ← push (le 4 counter) esp;
  push (le 4 0) esp.

Definition setup_stack (tokens : list (list Z)) : kcall (option Z) :=
  ok ← get_stack_page;
  if ok : bool then
    esp ← push_args tokens;
    pure (Some esp)
  else pure None.

(** ** The executable *)

(** [tss_update] only tells the CPU where the kernel stack is. *)
Definition process_activate : kcall unit :=
  vm_do (λ w, t ← thread_current w;
              Ret (tt, w <| vmmu := pagedir_activate (pagedir t) (vmmu w) |>)).

(** The [PT_LOAD] case of the switch. *)
Definition load_phdr file (phdr : Elf32_Phdr) : kcall bool :=
  valid ← vm_get (λ w, Ret (validate_segment phdr file (vfiles w)));
  if valid : bool then
    let sg := segment_of phdr in
    load_segment file (s32 (sg_ofs sg)) (sg_upage sg) (sg_read_bytes sg) (sg_zero_bytes sg)
      (sg_writable sg)
  else pure false.

(** The loop over the program headers, [n] to go. *)
Fixpoint load_headers (n : nat) file (file_ofs : Z) : kcall bool :=
  match n with
  | O => pure true
  | S n' =>
      len ← file_length_of file;
      if (file_ofs <? 0) || (len <? file_ofs) then pure false
      else
        fs_do (λ fs, (tt, file_seek file file_ofs fs));;
        b ← fs_do (file_read file sizeof_phdr);
        if negb (Z.of_nat (length b) =? sizeof_phdr) then pure false
        else
          let phdr := phdr_of b in
          ok ← (if bool_decide (p_type phdr ∈ [PT_DYNAMIC; PT_INTERP; PT_SHLIB]) then pure false
                else if p_type phdr =? PT_LOAD then load_phdr file phdr
                else pure true);
          if negb ok then pure false else load_headers n' file (s32 (file_ofs + sizeof_phdr))
  end.

(** [t->pagedir = pagedir_create ();] *)
Definition create_pagedir : kcall (option Z) :=
  al ← next_allocs;
  vm_do (λ w, '(pd, m) ← pagedir_create (al_table al) (vmmu w);
              Ret (pd, upd_thread (λ t, t <| pagedir := pd |>) (w <| vmmu := m |>))).

(** [printf ("load: %s: " ... "\n", name)] *)
Definition load_message (name : list Z) (what : string) : list Z :=
  string_bytes "load: " ++ name ++ string_bytes ": " ++ string_bytes what ++ [10].

(** [Some (eip, esp)] if successful.  Writing the words to a null [tokens] faults, and
    so does opening a null name.  [free (tokens)] has no counterpart: what [malloc]
    returns later is given by the state. *)
Definition load (file_name : list Z) : kcall (option (Z * Z)) :=
  mem ← malloc;
  let first := strtok_r file_name in
  let file_name_token := fst <$> first in
  let tokens := token_loop INPUT_BUF_SIZE first in
  (if bool_decide (mem = None) && bool_decide (tokens ≠ []) then panic else pure tt);;
  pd ← create_pagedir;
  match pd with
  | None => pure None
  | Some _ =>
      process_activate;;
      name ← get (λ _, deref file_name_token);
      file ← fs_do (filesys_open name);
      match file with
      | None => print (load_message name "open failed");; pure None
      | Some file =>
          fs_do (λ fs, (tt, file_deny_write file fs));;
          modify (λ s, Ret (upd_cur (λ u, u <| executing := Some file |>) s));;
          b ← fs_do (file_read file sizeof_ehdr);
          if negb (ehdr_ok b) then print (load_message name "error loading executable");; pure None
          else
            ok ← load_headers (Z.to_nat (e_phnum (ehdr_of b))) file (s32 (e_phoff (ehdr_of b)));
            if negb ok then pure None
            else
              stack ← setup_stack tokens;
              match stack with
              | None => pure None
              | Some esp => pure (Some (e_entry (ehdr_of b), esp))
              end
      end
  end.
End load.

(** ** Pages of virtual-memory *)

Section paging.
Context `{Vaddr, !Pte}.
Context {dev files : Type} `{BlockDevice dev, FileOps files, FileCalls files}.
Implicit Types (s : sys dev files) (file upage kpage : Z).

Notation kcall := (call (sys dev files)).

(** Bytes written to a frame through its kernel address. *)
Definition write_frame kpage (ofs : Z) (b : list Z) : kcall unit :=
  vm_do (λ w, page ← deref (ram w !! kpage);
              Ret (tt, w <| ram := <[kpage := splice (Z.to_nat ofs) b page]> (ram w) |>)).

(** [palloc_free_page] on a frame: nobody may use it any more. *)
Definition free_frame_page kpage : kcall unit :=
  vm_do (λ w, Ret (tt, w <| ram ::= delete kpage |>)).

(** [frame_alloc] followed by [page_set_frame]. *)
Definition map_frame upage (writable : bool) : kcall Z :=
  al ← next_allocs;
  kpage ← vm_do (frame_alloc al upage writable);
  vm_do (λ w, w' ← page_set_frame (al_page al) upage kpage writable w; Ret (tt, w'));;
  pure kpage.

(** One round of the loop of [load_segment]. *)
Definition load_page file upage (page_read_bytes : Z) (writable : bool) : kcall bool :=
  let page_zero_bytes := PGSIZE - page_read_bytes in
  kpage ← map_frame upage writable;
  if kpage =? 0 then pure false
  else
    b ← fs_do (file_read file page_read_bytes);
    write_frame kpage 0 b;;
    if negb (Z.of_nat (length b) =? page_read_bytes) then
      free_frame_page kpage;;
      pure false
    else
      write_frame kpage page_read_bytes (replicate (Z.to_nat page_zero_bytes) 0);;
      pure true.

(** [setup_stack] up to the first push. *)
Definition map_stack_page : kcall bool :=
  al ← next_allocs;
  kpage ← vm_do (frame_alloc al (PHYS_BASE - PGSIZE) true);
  if kpage =? 0 then pure false
  else
    vm_do (λ w, w' ← page_set_frame (al_page al) (PHYS_BASE - PGSIZE) kpage true w; Ret (tt, w'));;
    pure true.

#[export] Instance paging_pages : ProgramPages (sys dev files) :=
  {| load_one_page := load_page; get_stack_page := map_stack_page |}.
End paging.
