(* ===== verification/Process.v ===== *)
(** * Processes (virtual-memory/userprog/process.c)

    Starting, waiting for and ending processes; what depends on paging is an
    interface, so that the definitions are also those of user-programs.  [process_execute] and
    [process_wait] go to sleep half way: each is cut there, and ProcSteps.v puts the
    halves of all processes together. *)
From S2P Require Import Prelude CInt Ext Threads Mmu PageDir Swap PageTable UserFiles Elf Frame Page UserCall Exception UserMem Load.
Open Scope Z_scope.

(** The registers with which a process starts, on top of cleared ones
    ([threads/flags.h], [userprog/gdt.h]). *)
Class StartRegs := { SEL_UDSEG : Z; FLAG_IF : Z; FLAG_MBS : Z }.

Record start_frame := MkStart {
  if_ds : Z; if_ss : Z; if_cs : Z; if_eflags : Z; if_eip : Z; if_esp : Z
}.

(** The size of [name] in [struct thread]. *)
Definition NAME_SIZE : nat := 16.

(** What process.c does only in a kernel with paging: [list_init] of the supplemental
    page table of a new process, [page_unmap] of a mapped file that is closed, and
    [frame_free]; and [pagedir_destroy], which virtual-memory changed. *)
Class ProcessPages (S : Type) := {
  init_pages : call S unit;
  unmap_store : file_store → call S unit;
  free_frames : Z → call S unit;
  destroy_pagedir : Z → call S unit
}.

Section process.
Context `{Vaddr, !Pte, Selectors, KernelMemory, StartRegs}.
Context {dev files : Type} `{BlockDevice dev, FileOps files, FileCalls files}.
Context `{!FaultHandler (sys dev files), !ProgramPages (sys dev files), !ProcessPages (sys dev files)}.
Implicit Types (s : sys dev files) (t c p : Z).

Notation kcall := (call (sys dev files)).

(** What [printf ("%s: exit(%d)\n", ...)] prints; the name is null if it has no words. *)
Variable exit_message : option (list Z) → Z → list Z.

Definition child_at s c : outcome child := deref (child_heap s !! c).
Definition upd_child c (g : child → child) s : sys dev files := s <| child_heap ::= alter g c |>.
Definition free_child c s : sys dev files := s <| child_heap ::= delete c |>.

(** The user fields of a new thread are zero. *)
Definition new_thread t (name : list Z) s : sys dev files :=
  s <| uprocs ::= <[t := MkUproc (take (NAME_SIZE - 1) name) [] false None false None []]> |>
    <| svm := (svm s) <| procs ::= <[t := MkThread None []]> |> |>.

(** ** [process_execute] *)

(** Up to [sema_down (&leash.success_set)].  [name_page] and [child_page] are what
    [palloc_get_page] returns, [thread] the address and the identifier of the thread
    that [thread_create] makes, if it does.  [None]: the function returned
    [TID_ERROR]. *)
Definition execute_begin (name_page child_page : option Z) (thread : option (Z * Z)) (name : list Z)
    : kcall (option Z) :=
  match name_page with
  | None => pure None
  | Some _ =>
      match child_page with
      | None => pure None
      | Some c =>
          let leash := MkLeash (sema_init 0) false (take (Z.to_nat PGSIZE - 1) name) c in
          modify (λ s, Ret (s <| child_heap ::= <[c := MkChild 0 (sema_init 0) (-1)]> |>));;
          match thread with
          | None => modify (λ s, Ret (free_child c s));; pure None
          | Some (t, tid) =>
              modify (λ s, Ret ((new_thread t name s) <| leashes ::= <[current (svm s) := leash]> |>));;
              pure (Some tid)
          end
      end
  end.

(** [sema_down (&leash.success_set)]: whether it may go on. *)
Definition down_success_set : kcall bool := λ s,
  l ← deref (leashes s !! current (svm s));
  match sema_down (success_set l) with
  | Some v => Ret (Val true, s <| leashes ::= <[current (svm s) := l <| success_set := v |>]> |>)
  | None => Ret (Val false, s)
  end.

(** The rest; [leash] leaves the stack. *)
Definition execute_end (tid : Z) : kcall Z :=
  l ← get (λ s, deref (leashes s !! current (svm s)));
  let c := l_child l in
  let tid := if success l then tid else TID_ERROR in
  (if tid =? TID_ERROR then modify (λ s, Ret (free_child c s))
   else
     modify (λ s, _ ← child_at s c; Ret (upd_child c (λ x, x <| c_tid := tid |>) s));;
     modify (λ s, Ret (upd_cur (λ u, if children_init u then u
                                     else u <| children := [] |> <| children_init := true |>) s));;
     modify (λ s, Ret (upd_cur (λ u, u <| children ::= λ l, l ++ [c] |>) s)));;
  modify (λ s, Ret (s <| leashes ::= delete (current (svm s)) |>));;
  pure tid.

(** ** [start_process] *)

Definition start_frame_of (eip esp : Z) : start_frame :=
  MkStart SEL_UDSEG SEL_UDSEG SEL_UCSEG (Z.lor FLAG_IF FLAG_MBS) eip esp.

(** [parent] is the thread whose stack holds [leash].  Until the process is loaded;
    [None]: it goes on to [thread_exit]. *)
Definition start_process (parent : Z) : kcall (option start_frame) :=
  l ← get (λ s, deref (leashes s !! parent));
  init_pages;;
  r ← load (file_name l);
  let ok := match r with Some _ => true | None => false end in
  modify (λ s, Ret (s <| leashes ::= alter (λ l, l <| success := ok |>) parent |>));;
  modify (λ s, Ret (upd_cur (λ u, u <| self := Some (l_child l) |>) s));;
  modify (λ s, Ret (upd_cur (λ u, u <| usr_thread := true |>) s));;
  modify (λ s, Ret (s <| leashes ::= alter (λ l, l <| success_set ::= sema_up |>) parent |>));;
  match r with
  | None => pure None
  | Some (eip, esp) =>
      modify (λ s, Ret (upd_cur (λ u, u <| files_open := [] |>) s));;
      pure (Some (start_frame_of eip esp))
  end.

(** ** [process_wait] *)

(** The loop over the children. *)
Fixpoint find_child (l : list Z) (tid : Z) s : outcome (option Z) :=
  match l with
  | [] => Ret None
  | c :: l' =>
      x ← child_at s c;
      if c_tid x =? tid then Ret (Some c) else find_child l' tid s
  end.

(** Up to [sema_down (&child_s->terminated)]; [None]: the function returned -1. *)
Definition wait_begin (child_tid : Z) : kcall (option Z) :=
  get (λ s,
    u ← cur_proc s;
    if negb (children_init u) then Ret None else find_child (children u) child_tid s).

Definition down_terminated c : kcall bool := λ s,
  x ← child_at s c;
  match sema_down (c_terminated x) with
  | Some v => Ret (Val true, upd_child c (λ x, x <| c_terminated := v |>) s)
  | None => Ret (Val false, s)
  end.

Definition wait_end c : kcall Z :=
  modify (λ s, Ret (upd_cur (λ u, u <| children ::= list_remove c |>) s));;
  status ← get (λ s, x ← child_at s c; Ret (c_status x));
  modify (λ s, Ret (free_child c s));;
  pure status.

(** ** [process_exit] *)

(** The loop over the open files. *)
Fixpoint close_files (l : list Z) : kcall unit :=
  match l with
  | [] => pure tt
  | p :: l' =>
      fs ← get (λ s, deref (stores s !! p));
      unmap_store fs;;
      fs_do (λ f, (tt, file_close (Some (fs_file fs)) f));;
      modify (λ s, Ret ((upd_cur (λ u, u <| files_open := l' |>) s) <| stores ::= delete p |>));;
      close_files l'
  end.

(** Freeing the page directory. *)
Definition leave_pagedir : kcall unit :=
  t ← vm_get thread_current;
  match pagedir t with
  | None => pure tt
  | Some pd =>
      free_frames pd;;
      vm_do (λ w, Ret (tt, upd_thread (λ x, x <| pagedir := None |>) w));;
      vm_do (λ w, Ret (tt, w <| vmmu := pagedir_activate None (vmmu w) |>));;
      destroy_pagedir pd
  end.

Definition process_exit : kcall unit :=
  u ← get cur_proc;
  let file_name_token := fst <$> strtok_r (u_name u) in
  status ← get (λ s, c ← deref (self u); x ← child_at s c; Ret (c_status x));
  modify (λ s, Ret (s <| console ::= λ o, o ++ exit_message file_name_token status |>));;
  (if children_init u then
     modify (λ s, Ret (upd_cur (λ u, u <| children := [] |>) (foldl (λ s x, free_child x s) s (children u))))
   else pure tt);;
  close_files (files_open u);;
  leave_pagedir.

(** The user part of [thread_exit]; the child record it signals, if any. *)
Definition exit_user : kcall (option Z) :=
  process_exit;;
  u ← get cur_proc;
  fs_do (λ f, (tt, file_close (executing u) f));;
  if usr_thread u then
    c ← get (λ _, deref (self u));
    modify (λ s, _ ← child_at s c; Ret (upd_child c (λ x, x <| c_terminated ::= sema_up |>) s));;
    pure (Some c)
  else pure None.
End process.

(** ** virtual-memory *)

Section paging.
Context `{Vaddr, !Pte}.
Context {dev files : Type} `{BlockDevice dev, FileOps files}.

#[export] Instance paging_process : ProcessPages (sys dev files) := {|
  init_pages := vm_do (λ w, Ret (tt, upd_thread (λ x, x <| sup_page_table := [] |>) w));
  unmap_store fs :=
    if fs_mapped fs then
      n ← vm_get (λ w, t ← thread_current w; Ret (S (length (sup_page_table t))));
      vm_do (λ w, w' ← page_unmap n (fs_file fs) w; Ret (tt, w'))
    else pure tt;
  free_frames pd := vm_do (λ w, w' ← frame_free (Some pd) w; Ret (tt, w'));
  destroy_pagedir pd := vm_do (λ w, m ← pagedir_destroy (Some pd) (vmmu w); Ret (tt, w <| vmmu := m |>))
|}.
End paging.
