(* ===== verification/Syscall.v ===== *)
(** * System calls (virtual-memory/userprog/syscall.c) *)
From S2P Require Import Prelude CInt Ext Interrupt Mmu PageDir Swap PageTable UserFiles Frame Page UserCall Exception UserMem.
From stdpp Require Import strings.
Open Scope Z_scope.

(** System call numbers ([lib/syscall-nr.h]). *)
Class SyscallNumbers := {
  SYS_HALT : Z; SYS_EXIT : Z; SYS_EXEC : Z; SYS_WAIT : Z; SYS_CREATE : Z; SYS_REMOVE : Z;
  SYS_OPEN : Z; SYS_FILESIZE : Z; SYS_READ : Z; SYS_WRITE : Z; SYS_SEEK : Z; SYS_TELL : Z;
  SYS_CLOSE : Z; SYS_MMAP : Z; SYS_MUNMAP : Z
}.

Definition syscall_numbers `{SyscallNumbers} : list Z :=
  [SYS_HALT; SYS_EXIT; SYS_EXEC; SYS_WAIT; SYS_CREATE; SYS_REMOVE; SYS_OPEN; SYS_FILESIZE; SYS_READ;
   SYS_WRITE; SYS_SEEK; SYS_TELL; SYS_CLOSE; SYS_MMAP; SYS_MUNMAP].

(** They are the constants of an [enum]. *)
Class SyscallNumbersLaws `{SyscallNumbers} : Prop := {
  syscall_numbers_differ : NoDup syscall_numbers;
  syscall_numbers_words : Forall in_u32 syscall_numbers
}.

(** What userprog/process.c offers to system calls. *)
Class ProcessCalls (S : Type) := {
  process_execute : list Z → call S Z;
  process_wait : Z → call S Z
}.

Definition STD_IN : Z := 0.
Definition STD_OUT : Z := 1.
Definition MIN_USER_FD : Z := 2.
Definition MAX_PUTBUF_LEN : Z := 300.

Section syscall.
Context `{Vaddr, !Pte, Selectors, KernelMemory, SyscallNumbers}.
Context {dev files : Type} `{BlockDevice dev, FileOps files, FileCalls files}.
Context `{ProcessCalls (sys dev files)}.
Implicit Types (s : sys dev files) (uaddr esp fd : Z) (f : Z).

Notation kcall := (call (sys dev files)).

(** A bound on the length of the strings of user programs. *)
Variable max_string : nat.

(** ** Checking user addresses *)

Definition is_valid_uaddr uaddr esp (write : bool) : kcall bool :=
  if negb (is_user_vaddr uaddr) then pure false
  else
    kaddr ← translate_user uaddr;
    match kaddr with
    | None => fetch uaddr esp write
    | Some _ =>
        if write then
          w ← vm_get (page_is_writable (pg_round_down uaddr));
          pure w
        else pure true
    end.

Definition sys_exit {A} (status : Z) : kcall A :=
  c ← get (λ s, u ← cur_proc s; deref (self u));
  modify (λ s, _ ← deref (child_heap s !! c);
               Ret (s <| child_heap ::= alter (λ c, c <| c_status := status |>) c |>));;
  thread_exit.

(** [if (!is_valid_uaddr (...)) sys_exit (-1);] *)
Definition check uaddr esp (write : bool) : kcall unit :=
  ok ← is_valid_uaddr uaddr esp write;
  if ok : bool then pure tt else sys_exit (-1).

(** The same for [n] consecutive bytes. *)
Fixpoint check_bytes (n : nat) uaddr esp (write : bool) : kcall unit :=
  match n with
  | O => pure tt
  | S n' => check uaddr esp write;; check_bytes n' (u32 (uaddr + 1)) esp write
  end.

(** The argument at [esp], and [esp] after it. *)
Definition grab_arg esp : kcall (Z * Z) :=
  check_bytes 4 esp 0 false;;
  arg ← load_word esp;
  pure (arg, u32 (esp + 4)).

(** ** File descriptors *)

Definition store_at s p : outcome file_store := deref (stores s !! p).

Definition create_fd (f : option Z) (mapped : bool) : kcall Z :=
  match f with
  | None => pure (-1)
  | Some f =>
      p ← malloc;
      match p with
      | None => pure (-1)
      | Some p =>
          fd ← get (λ s,
            u ← cur_proc s;
            match files_open u with
            | [] => Ret MIN_USER_FD
            | q :: _ => fs ← store_at s q; Ret (s32 (fs_fd fs + 1))
            end);
          modify (λ s, Ret (upd_cur (λ u, u <| files_open ::= cons p |>)
            (s <| stores ::= <[p := MkFileStore f fd mapped]> |>)));;
          pure fd
      end
  end.

(** The loop of [fd_to_file_store] over the rest [l] of the list: the entry that was
    looked at last is returned when none has the descriptor. *)
Fixpoint find_store (l : list Z) (last : option Z) fd s : outcome (option Z) :=
  match l with
  | [] => Ret last
  | p :: l' =>
      fs ← store_at s p;
      if fs_fd fs =? fd then Ret (Some p) else find_store l' (Some p) fd s
  end.

Definition fd_to_file_store fd : kcall (option Z) :=
  if fd <? MIN_USER_FD then pure None
  else get (λ s, u ← cur_proc s; find_store (files_open u) None fd s).

Definition fd_to_file fd : kcall (option Z) :=
  p ← fd_to_file_store fd;
  match p with
  | None => pure None
  | Some p => get (λ s, fs ← store_at s p; Ret (Some (fs_file fs)))
  end.

(** The [struct file_store] is unlinked, not freed. *)
Definition remove_fd fd : kcall (option Z) :=
  p ← fd_to_file_store fd;
  match p with
  | None => pure None
  | Some p =>
      modify (λ s, Ret (upd_cur (λ u, u <| files_open ::= list_remove p |>) s));;
      get (λ s, fs ← store_at s p; Ret (Some (fs_file fs)))
  end.

(** ** The calls *)

Definition sys_halt : kcall unit := power_off.

(** The loop of [sys_exec]: the string at [c] is valid up to its terminator. *)
Fixpoint check_string (fuel : nat) c esp : kcall unit :=
  match fuel with
  | O => λ _, Stuck
  | S fuel' =>
      b ← load_byte c;
      if b =? 0 then pure tt
      else check (u32 (c + 1)) esp false;; check_string fuel' (u32 (c + 1)) esp
  end.

Definition sys_exec cmd_line esp : kcall Z :=
  check cmd_line esp false;;
  check_string max_string cmd_line esp;;
  name ← load_string max_string cmd_line;
  process_execute name.

Definition sys_wait (pid : Z) : kcall Z := process_wait pid.

Definition sys_create file (initial_size : Z) esp : kcall bool :=
  check file esp false;;
  name ← load_string max_string file;
  fs_do (filesys_create name (s32 initial_size)).

Definition sys_remove file esp : kcall bool :=
  check file esp false;;
  name ← load_string max_string file;
  fs_do (filesys_remove name).

Definition sys_open file esp : kcall Z :=
  check file esp false;;
  name ← load_string max_string file;
  f ← fs_do (filesys_open name);
  create_fd f false.

Definition sys_filesize fd : kcall Z :=
  f ← fd_to_file fd;
  match f with
  | None => sys_exit (-1)
  | Some f => file_length_of f
  end.

(** [input_getc] waits for a key. *)
Definition input_getc : kcall Z := λ s,
  match keys s with
  | [] => Stuck
  | c :: l => Ret (Val c, s <| keys := l |>)
  end.

Definition sys_read fd buffer (size : Z) esp : kcall Z :=
  ok ← (if fd =? STD_OUT then pure false else is_valid_uaddr buffer esp true);
  if negb ok then sys_exit (-1)
  else if fd =? STD_IN then input_getc
  else
    check_bytes (Z.to_nat size) buffer esp true;;
    f ← fd_to_file fd;
    match f with
    | None => pure (-1)
    | Some f =>
        b ← fs_do (file_read f (s32 size));
        store_bytes b buffer;;
        pure (Z.of_nat (length b))
    end.

Definition putbuf buffer (n : Z) : kcall unit :=
  b ← load_bytes (Z.to_nat n) buffer;
  modify (λ s, Ret (s <| console ::= λ c, c ++ b |>)).

(** The loop of [sys_write] for the console, [remaining] bytes to go. *)
Fixpoint putbuf_loop (fuel : nat) buffer (remaining : Z) : kcall unit :=
  match fuel with
  | O => λ _, Stuck
  | S fuel' =>
      if MAX_PUTBUF_LEN <? remaining then
        putbuf buffer MAX_PUTBUF_LEN;;
        putbuf_loop fuel' buffer (u32 (remaining - MAX_PUTBUF_LEN))
      else putbuf buffer remaining
  end.

Definition sys_write fd buffer (size : Z) esp : kcall Z :=
  ok ← (if fd =? STD_IN then pure false else is_valid_uaddr buffer esp false);
  if negb ok then sys_exit (-1)
  else
    check_bytes (Z.to_nat size) buffer esp false;;
    if fd =? STD_OUT then
      putbuf_loop (S (Z.to_nat (size / MAX_PUTBUF_LEN))) buffer size;;
      pure (s32 size)
    else
      f ← fd_to_file fd;
      match f with
      | None => pure (-1)
      | Some f =>
          b ← load_bytes (Z.to_nat size) buffer;
          fs_do (file_write f b)
      end.

Definition sys_seek fd (position : Z) : kcall unit :=
  f ← fd_to_file fd;
  match f with
  | None => pure tt
  | Some f => fs_do (λ fs, (tt, file_seek f (s32 position) fs))
  end.

Definition sys_tell fd : kcall Z :=
  f ← fd_to_file fd;
  match f with
  | None => pure (u32 (-1))
  | Some f => vm_get (λ w, Ret (u32 (file_tell f (vfiles w))))
  end.

Definition sys_close fd : kcall unit :=
  f ← remove_fd fd;
  match f with
  | None => sys_exit (-1)
  | Some _ => pure tt
  end.

(** The pages [addr + i * PGSIZE], for [n] values of [i] from [i] on: whether one of
    them is in the table, and mapping them. *)
Fixpoint some_in_table (n : nat) (i addr : Z) : kcall bool :=
  match n with
  | O => pure false
  | S n' =>
      b ← vm_get (page_in_table (u32 (addr + i * PGSIZE)));
      if b : bool then pure true else some_in_table n' (i + 1) addr
  end.

Fixpoint map_pages (n : nat) (i addr f : Z) : kcall bool :=
  match n with
  | O => pure true
  | S n' =>
      mem ← malloc;
      ok ← vm_do (page_set_file mem (u32 (addr + i * PGSIZE)) f (i * PGSIZE));
      if negb ok then pure false else map_pages n' (i + 1) addr f
  end.

Definition sys_mmap fd addr : kcall Z :=
  if (fd =? 0) || (fd =? 1) || (addr =? 0) || negb (pg_ofs addr =? 0) then pure (-1)
  else
    f ← fd_to_file fd;
    match f with
    | None => sys_exit (-1)
    | Some f =>
        len ← file_length_of f;
        if len =? 0 then pure (-1)
        else
          len ← file_length_of f;
          let num_pages := Z.quot (s32 (len + (PGSIZE - 1))) PGSIZE in
          b ← some_in_table (Z.to_nat num_pages) 0 addr;
          if b : bool then pure (-1)
          else
            f' ← fs_do (file_reopen f);
            match f' with
            | None => pure (-1)
            | Some f' =>
                ok ← map_pages (Z.to_nat num_pages) 0 addr f';
                if negb ok then pure (-1)
                else
                  mapid ← create_fd (Some f') true;
                  if mapid =? -1 then pure (-1) else pure mapid
            end
    end.

(** [page_unmap]: every page of the table is visited at most once. *)
Definition unmap_file (f : Z) : kcall unit :=
  n ← vm_get (λ w, t ← thread_current w; Ret (S (length (sup_page_table t))));
  vm_do (λ w, w' ← page_unmap n f w; Ret (tt, w')).

Definition sys_munmap (mapping : Z) : kcall unit :=
  f ← fd_to_file mapping;
  match f with
  | None => pure tt
  | Some f =>
      unmap_file f;;
      remove_fd mapping;;
      fs_do (λ fs, (tt, file_close (Some f) fs))
  end.

(** ** Dispatch *)

Definition bool_word (b : bool) : Z := if b then 1 else 0.

(** What [printf ("system call! %d\n", number)] prints. *)
Variable unknown_message : Z → list Z.

(** The value for [f->eax], if the call sets it. *)
Definition dispatch (number esp esp_original : Z) : kcall (option Z) :=
  if number =? SYS_HALT then sys_halt;; pure None
  else if number =? SYS_EXIT then
    '(status, _) ← grab_arg esp; sys_exit (s32 status)
  else if number =? SYS_EXEC then
    '(cmd_line, _) ← grab_arg esp; r ← sys_exec cmd_line esp_original; pure (Some r)
  else if number =? SYS_WAIT then
    '(pid, _) ← grab_arg esp; r ← sys_wait (s32 pid); pure (Some r)
  else if number =? SYS_CREATE then
    '(file, esp) ← grab_arg esp; '(initial_size, _) ← grab_arg esp;
    r ← sys_create file initial_size esp_original; pure (Some (bool_word r))
  else if number =? SYS_REMOVE then
    '(file, _) ← grab_arg esp; r ← sys_remove file esp_original; pure (Some (bool_word r))
  else if number =? SYS_OPEN then
    '(file, _) ← grab_arg esp; r ← sys_open file esp_original; pure (Some r)
  else if number =? SYS_FILESIZE then
    '(fd, _) ← grab_arg esp; r ← sys_filesize (s32 fd); pure (Some r)
  else if number =? SYS_READ then
    '(fd, esp) ← grab_arg esp; '(buffer, esp) ← grab_arg esp; '(size, _) ← grab_arg esp;
    r ← sys_read (s32 fd) buffer size esp_original; pure (Some r)
  else if number =? SYS_WRITE then
    '(fd, esp) ← grab_arg esp; '(buffer, esp) ← grab_arg esp; '(size, _) ← grab_arg esp;
    r ← sys_write (s32 fd) buffer size esp_original; pure (Some r)
  else if number =? SYS_SEEK then
    '(fd, esp) ← grab_arg esp; '(position, _) ← grab_arg esp;
    sys_seek (s32 fd) position;; pure None
  else if number =? SYS_TELL then
    '(fd, _) ← grab_arg esp; r ← sys_tell (s32 fd); pure (Some r)
  else if number =? SYS_CLOSE then
    '(fd, _) ← grab_arg esp; sys_close (s32 fd);; pure None
  else if number =? SYS_MMAP then
    '(fd, esp) ← grab_arg esp; '(addr, _) ← grab_arg esp;
    r ← sys_mmap (s32 fd) addr; pure (Some r)
  else if number =? SYS_MUNMAP then
    '(mapping, _) ← grab_arg esp; sys_munmap (s32 mapping);; pure None
  else modify (λ s, Ret (s <| console ::= λ o, o ++ unknown_message number |>));; thread_exit.

Definition syscall_handler (f : intr_frame) : kcall intr_frame :=
  let esp := esp f in
  (if esp =? 0 then sys_exit (-1) else pure tt);;
  let esp_original := esp in
  '(number, esp) ← grab_arg esp;
  r ← dispatch number esp esp_original;
  pure (match r with
        | Some v => f <| eax := u32 v |>
        | None => f
        end).
End syscall.

(** [syscall_init]: an interrupt that user code may raise, with interrupts on. *)
Definition syscall_init {H} (SEL_KCSEG : Z) (intr_stubs : Z → Z) (handler : H)
    (s : idt_state H) : outcome (idt_state H) :=
  intr_register_int SEL_KCSEG intr_stubs 48 3 INTR_ON handler "syscall" s.
