(* ===== verification/ProcTree.v ===== *)
(** * The process tree

    What a process knows of its relatives, and the operations of the kernel that
    leave it alone: everything but the halves of [process_execute], [process_wait],
    [start_process] and [thread_exit]. *)
From S2P Require Import Prelude CInt Ext Threads Mmu PageDir Swap PageTable UserFiles Elf Frame Page VmSpec UserCall Exception UserMem Load Process Syscall.
Open Scope Z_scope.

(** ** Operations that do not touch the tree *)

(** What a process knows of its relatives. *)
Record node := Node {
  n_children : list Z; n_init : bool; n_self : option Z; n_usr : bool
}.
#[export] Instance eta_node : Eta node := λ n, Node (n_children n) (n_init n) (n_self n) (n_usr n).
#[export] Instance node_eq_dec : EqDecision node.
Proof. solve_decision. Defined.

Definition tree_of (u : uproc) : node := Node (children u) (children_init u) (self u) (usr_thread u).

Section keeps.
Context {dev files : Type}.
Implicit Types (s : sys dev files) (w : vm dev files) (t c p : Z).

Notation kcall := (call (sys dev files)).

Record same_tree s s' : Prop := {
  sm_cur : current (svm s') = current (svm s);
  sm_tree : ∀ t, tree_of <$> uprocs s' !! t = tree_of <$> uprocs s !! t;
  sm_heap : child_heap s' = child_heap s;
  sm_leash : leashes s' = leashes s;
  sm_threads : dom (procs (svm s')) = dom (procs (svm s))
}.

Lemma same_tree_refl s : same_tree s s.
Proof. done. Qed.

Lemma same_tree_trans s1 s2 s3 : same_tree s1 s2 → same_tree s2 s3 → same_tree s1 s3.
Proof.
  intros [E1 T1 P1 L1 D1] [E2 T2 P2 L2 D2]. split; [congruence| |congruence..].
  intros t. by rewrite T2, T1.
Qed.

(** However the call ends. *)
Definition keeps {A} (m : kcall A) : Prop := ∀ s e s', m s = Ret (e, s') → same_tree s s'.

(** An operation of the virtual memory system that does not switch threads, or make or
    destroy one. *)
Definition same_threads w w' : Prop := current w' = current w ∧ dom (procs w') = dom (procs w).
Definition cur_kept {A} (g : vm dev files → outcome (A * vm dev files)) : Prop :=
  ∀ w a w', g w = Ret (a, w') → same_threads w w'.

#[export] Instance same_threads_pre : PreOrder same_threads.
Proof. split; [done|]. intros w1 w2 w3 [] []. split; congruence. Qed.

Lemma alter_threads g w w' :
  current w' = current w → procs w' = procs (upd_thread g w) → same_threads w w'.
Proof. intros Hc Hp. split; [done|]. rewrite Hp. apply dom_alter_L. Qed.

Lemma keeps_bind {A B} (m : kcall A) (f : A → kcall B) : keeps m → (∀ a, keeps (f a)) → keeps (m ≫= f).
Proof.
  intros Hm Hf s e s'. unfold mbind, call_bind. destruct (m s) as [[[a| |] s1]| |] eqn:E; [| | |done..].
  - intros E'. eapply same_tree_trans; [by eapply Hm|by eapply Hf].
  - intros [= <- <-]. by eapply Hm.
  - intros [= <- <-]. by eapply Hm.
Qed.

Lemma keeps_pure {A} (a : A) : keeps (pure a).
Proof. by intros s e s' [= <- <-]. Qed.
Lemma keeps_exit {A} : keeps (@thread_exit _ A).
Proof. by intros s e s' [= <- <-]. Qed.
Lemma keeps_panic {A} : keeps (@panic _ A).
Proof. done. Qed.
Lemma keeps_assert b : keeps (assert b).
Proof. intros s e s' E. unfold assert in E. by inv_bind. Qed.
Lemma keeps_get {A} (g : sys dev files → outcome A) : keeps (get g).
Proof. intros s e s' E. unfold get in E. by inv_bind. Qed.
Lemma keeps_vm_get {A} (g : vm dev files → outcome A) : keeps (vm_get g).
Proof. apply keeps_get. Qed.
Lemma keeps_malloc : keeps malloc.
Proof. intros s e s'. unfold malloc. destruct (mallocs s); by intros [= <- <-]. Qed.
Lemma keeps_next_allocs : keeps next_allocs.
Proof. intros s e s'. unfold next_allocs. destruct (fetches s); by intros [= <- <-]. Qed.
Lemma keeps_stuck {A} : keeps (λ _, @Stuck (ending A * sys dev files)).
Proof. done. Qed.

Lemma keeps_vm_do {A} (g : vm dev files → outcome (A * vm dev files)) : cur_kept g → keeps (vm_do g).
Proof.
  intros Hg s e s' E. unfold vm_do in E. inv_bind. 
  match goal with H : g _ = Ret _ |- _ => by destruct (Hg _ _ _ H) end.
Qed.

Lemma keeps_fs_do {A} (g : files → A * files) : keeps (fs_do g).
Proof. apply keeps_vm_do. intros w a w'. destruct (g (vfiles w)). by intros [= <- <-]. Qed.

(** The weaker property of a call that may change the tree. *)
Definition keeps_threads {A} (m : kcall A) : Prop :=
  ∀ s e s', m s = Ret (e, s') → same_threads (svm s) (svm s').

Lemma keeps_tree_threads {A} (m : kcall A) : keeps m → keeps_threads m.
Proof. intros Hm s e s' E. destruct (Hm s e s' E). by split. Qed.

Lemma keeps_threads_bind {A B} (m : kcall A) (f : A → kcall B) :
  keeps_threads m → (∀ a, keeps_threads (f a)) → keeps_threads (m ≫= f).
Proof.
  intros Hm Hf s e s'. unfold mbind, call_bind. destruct (m s) as [[[a| |] s1]| |] eqn:E; [| | |done..].
  - intros E'. etrans; [by eapply Hm|by eapply Hf].
  - intros [= <- <-]. by eapply Hm.
  - intros [= <- <-]. by eapply Hm.
Qed.

Lemma keeps_threads_modify (g : sys dev files → outcome (sys dev files)) :
  (∀ s s', g s = Ret s' → svm s' = svm s) → keeps_threads (modify g).
Proof. intros Hg s e s' E. unfold modify in E. inv_bind. by erewrite (Hg s s'). Qed.

(** Another value of a field that is not part of the tree. *)
Lemma keeps_upd_cur (g : uproc → uproc) : (∀ u, tree_of (g u) = tree_of u) →
  keeps (modify (λ s, Ret (upd_cur g s))).
Proof.
  intros Hg s e s' [= <- <-]. split; [done| |done..]. intros t. simpl.
  destruct (decide (t = current (svm s))) as [->|].
  - rewrite lookup_alter_eq. destruct (uprocs s !! _) as [u|]; [|done]. simpl. by rewrite Hg.
  - by rewrite lookup_alter_ne.
Qed.
Lemma keeps_print b : keeps (print b).
Proof. by intros s e s' [= <- <-]. Qed.
End keeps.

Create HintDb keeps discriminated.
#[export] Hint Resolve keeps_pure keeps_exit keeps_panic keeps_assert keeps_get keeps_vm_get keeps_malloc
  keeps_next_allocs keeps_stuck keeps_fs_do keeps_print : keeps.

(** Follow the structure of the code. *)
Ltac keep :=
  repeat first
    [ solve [eauto with keeps]
    | apply keeps_bind; [|intros ?]
    | apply keeps_vm_do; eauto with keeps
    | case_match ].

(** The same for [keeps_threads]. *)
Ltac keep_threads :=
  repeat first
    [ solve [apply keeps_tree_threads; keep]
    | apply keeps_threads_bind; [|intros ?]
    | apply keeps_threads_modify; intros ? ? ?; inv_bind; done
    | case_match ].

(** What the memory system of a kernel must not do: touch the process tree. *)
Class KeepsTree (dev files : Type)
    `{!FaultHandler (sys dev files), !ProgramPages (sys dev files), !ProcessPages (sys dev files)} : Prop := {
  keeps_kernel_faults uaddr (write : bool) : keeps (kernel_faults uaddr write : call (sys dev files) unit);
  keeps_load_one_page file upage n (writable : bool) :
    keeps (load_one_page file upage n writable : call (sys dev files) bool);
  keeps_get_stack_page : keeps (get_stack_page : call (sys dev files) bool);
  keeps_init_pages : keeps (init_pages : call (sys dev files) unit);
  keeps_unmap_store fs : keeps (unmap_store fs : call (sys dev files) unit);
  keeps_free_frames pd : keeps (free_frames pd : call (sys dev files) unit);
  keeps_destroy_pagedir pd : keeps (destroy_pagedir pd : call (sys dev files) unit)
}.
#[export] Hint Resolve keeps_kernel_faults keeps_load_one_page keeps_get_stack_page keeps_init_pages
  keeps_unmap_store keeps_free_frames keeps_destroy_pagedir : keeps.

(** ** Loading and leaving, in any kernel *)

Section operations.
Context `{Vaddr, !Pte, KernelMemory}.
Context {dev files : Type} `{BlockDevice dev, FileOps files, FileCalls files, KeepsTree dev files}.
Implicit Types (s : sys dev files) (w : vm dev files) (t c p : Z).

Notation kcall := (call (sys dev files)).

Lemma keeps_touch uaddr (write : bool) : keeps (touch uaddr write : kcall Z).
Proof. unfold touch, translate_user. keep. Qed.
#[local] Hint Resolve keeps_touch : keeps.

Lemma keeps_store_bytes l uaddr : keeps (store_bytes l uaddr : kcall unit).
Proof.
  revert uaddr. induction l as [|b l IH]; intros uaddr; cbn [store_bytes]; keep. unfold store_byte. keep.
  intros w r w' E. by inv_bind.
Qed.
#[local] Hint Resolve keeps_store_bytes : keeps.

Lemma keeps_load_pages n file upage (read zero : Z) (writable : bool) :
  keeps (load_pages n file upage read zero writable : kcall bool).
Proof.
  revert upage read zero. induction n as [|n IH]; intros upage read zero; cbn [load_pages]; keep.
  all: unfold load_page, free_frame_page; keep. all: by intros w r w' [= <- <-].
Qed.
#[local] Hint Resolve keeps_load_pages : keeps.

Lemma keeps_load_headers n file (ofs : Z) : keeps (load_headers n file ofs : kcall bool).
Proof.
  revert ofs. induction n as [|n IH]; intros ofs; cbn [load_headers]; unfold file_length_of; keep.
  all: unfold load_phdr, load_segment; keep.
Qed.
#[local] Hint Resolve keeps_load_headers : keeps.

Lemma keeps_push b esp : keeps (push b esp : kcall Z).
Proof. unfold push. keep. Qed.
#[local] Hint Resolve keeps_push : keeps.

Lemma keeps_push_strings tokens esp : keeps (push_strings tokens esp : kcall (list Z * Z)).
Proof. revert esp. induction tokens as [|x l IH]; intros esp; cbn [push_strings]; keep. Qed.

Lemma keeps_push_words l esp : keeps (push_words l esp : kcall Z).
Proof. revert esp. induction l as [|x l IH]; intros esp; cbn [push_words]; keep. Qed.
#[local] Hint Resolve keeps_push_strings keeps_push_words : keeps.

Lemma keeps_setup_stack tokens : keeps (setup_stack tokens : kcall (option Z)).
Proof. unfold setup_stack, push_args. keep. Qed.
#[local] Hint Resolve keeps_setup_stack : keeps.

Lemma keeps_load name : keeps (load name : kcall (option (Z * Z))).
Proof.
  unfold load. keep; try (unfold create_pagedir, process_activate; keep).
  all: try (intros w r w' E; inv_bind; first [done|by eapply alter_threads]).
  by apply keeps_upd_cur.
Qed.

Lemma keeps_close_files l : keeps (close_files l : kcall unit).
Proof.
  induction l as [|p l IH]; cbn [close_files]; keep.
  intros s e s' E. injection E as <- <-.
  assert (same_tree s (upd_cur (λ u, u <| files_open := l |>) s)) as [? T ? ? ?]
    by (by eapply (keeps_upd_cur (λ u, u <| files_open := l |>))).
  split; [done|exact T|done..].
Qed.

Lemma keeps_leave_pagedir : keeps (leave_pagedir : kcall unit).
Proof. unfold leave_pagedir. keep; intros w r w' E; inv_bind; [by eapply alter_threads|done]. Qed.
End operations.
#[export] Hint Resolve keeps_load keeps_close_files keeps_leave_pagedir : keeps.

(** ** virtual-memory *)

Section paging.
Context `{VaddrLaws, !Pte, !PteLaws, Selectors, KernelMemory}.
Context {dev files : Type} `{BlockDeviceLaws dev, FileOps files, FileCalls files}.
Implicit Types (s : sys dev files) (w : vm dev files) (t c p : Z).

Notation kcall := (call (sys dev files)).

(** ** The virtual memory system does not switch threads *)

Lemma frame_alloc_cur al upage (writable : bool) : cur_kept (frame_alloc al upage writable : vm dev files → _).
Proof. intros w a w' E. destruct (frame_alloc_same _ _ _ _ _ _ E). by split; [|f_equal]. Qed.

Lemma page_set_frame_cur mem upage kpage (writable : bool) w w' :
  page_set_frame mem upage kpage writable w = Ret w' → same_threads w w'.
Proof.
  unfold page_set_frame, page_alloc. intros E. inv_bind.
  match goal with H : match ?o with _ => _ end = Ret _ |- _ => destruct o end; inv_bind; [done|].
  match goal with H : (if ?b then _ else _) = Ret _ |- _ => destruct b end; inv_bind.
  destruct mem; inv_bind; try done. by eapply alter_threads.
Qed.

Lemma page_write_data_cur upage w b w' : page_write_data upage w = Ret (b, w') → same_threads w w'.
Proof.
  unfold page_write_data, store_user. intros E. inv_bind. destruct a as [p|]; inv_bind; [|done].
  repeat (case_match; inv_bind; try done).
Qed.

Lemma page_fetch_cur al uaddr esp (write : bool) : cur_kept (page_fetch al uaddr esp write : vm dev files → _).
Proof.
  intros w b w'. unfold page_fetch. destruct (is_user_vaddr uaddr); [|by intros [= <- <-]]. intros E.
  inv_bind. repeat (case_match; inv_bind; try done).
  all: repeat match goal with
  | H : page_write_data _ _ = Ret _ |- _ => apply page_write_data_cur in H
  | H : page_set_frame _ _ _ _ _ = Ret _ |- _ => apply page_set_frame_cur in H
  | H : frame_alloc _ _ _ _ = Ret _ |- _ => apply frame_alloc_cur in H
  end; by repeat (etrans; [eassumption|]).
Qed.

Lemma page_remove_cur upage w w' : page_remove upage w = Ret w' → same_threads w w'.
Proof. unfold page_remove. intros E. inv_bind. by eapply alter_threads. Qed.

Lemma page_unmap_cur n f w w' : page_unmap n f w = Ret w' → same_threads w w'.
Proof.
  revert w. induction n as [|n IH]; intros w; [done|]. cbn [page_unmap]. intros E. inv_bind.
  match goal with o : option Z |- _ => destruct o end; inv_bind; [|done].
  match goal with H : page_unmap n f _ = Ret _ |- _ => apply IH in H end.
  match goal with H : page_remove _ _ = Ret _ |- _ => apply page_remove_cur in H end.
  etrans; [|eassumption]. etrans; [|eassumption].
  match goal with b : bool |- _ => destruct b end; inv_bind; [|done].
  unfold load_user in *. inv_bind. destruct (file_write_at _ _ _ _). inv_bind. done.
Qed.

Lemma free_loop_cur l pd w w' : free_loop l pd w = Ret w' → same_threads w w'.
Proof.
  revert w. induction l as [|f l IH]; intros w; cbn [free_loop]; [by intros [= <-]|]. intros E. inv_bind.
  match goal with H : free_loop l pd _ = Ret _ |- _ => apply IH in H end.
  etrans; [|eassumption]. by case_bool_decide.
Qed.

Lemma keeps_fetch uaddr esp (write : bool) : keeps (fetch uaddr esp write : kcall bool).
Proof.
  intros s e s' E. unfold fetch in E. destruct (fetches s) as [|al l]; inv_bind;
    match goal with H : page_fetch _ _ _ _ _ = Ret _ |- _ => by destruct (page_fetch_cur _ _ _ _ _ _ _ H) end.
Qed.
#[local] Hint Resolve keeps_fetch : keeps.

Lemma keeps_page_fault cr2 f : keeps (page_fault cr2 f : kcall unit).
Proof.
  unfold page_fault. apply keeps_bind; [by intros s e s' [= <- <-]|]. intros _. unfold kill. keep.
Qed.
#[local] Hint Resolve keeps_page_fault : keeps.

Lemma keeps_map_frame upage (writable : bool) : keeps (map_frame upage writable : kcall Z).
Proof.
  unfold map_frame. keep; [apply frame_alloc_cur|].
  intros w r w' E. inv_bind. by eapply page_set_frame_cur.
Qed.
#[local] Hint Resolve keeps_map_frame : keeps.

Lemma keeps_write_frame kpage (ofs : Z) b : keeps (write_frame kpage ofs b : kcall unit).
Proof. apply keeps_vm_do. intros w r w' E. by inv_bind. Qed.
#[local] Hint Resolve keeps_write_frame : keeps.

#[export] Instance paging_keeps_tree : KeepsTree dev files.
Proof.
  split.
  - intros uaddr write. apply keeps_page_fault.
  - intros file upage n writable. unfold load_one_page, paging_pages, load_page, free_frame_page. keep.
    all: by intros w r w' [= <- <-].
  - unfold get_stack_page, paging_pages, map_stack_page. keep; [apply frame_alloc_cur|].
    intros w r w' E. inv_bind. by eapply page_set_frame_cur.
  - unfold init_pages, paging_process. apply keeps_vm_do. intros w r w' [= <- <-]. by eapply alter_threads.
  - intros fs. unfold unmap_store, paging_process. keep.
    intros w r w' E. inv_bind. by eapply page_unmap_cur.
  - intros pd. unfold free_frames, paging_process. apply keeps_vm_do. intros w r w' E. inv_bind.
    unfold frame_free in *. by eapply free_loop_cur.
  - intros pd. unfold destroy_pagedir, paging_process. apply keeps_vm_do. intros w r w' E. by inv_bind.
Qed.
End paging.
