(* ===== verification/Rendezvous.v ===== *)
(** * Parents and children

    Which child records exist, who refers to them and in which state they are, as a
    process executes, is loaded, waits and ends.  These are the invariants of the
    process tree, on its own data; ProcSteps.v shows that the code keeps them. *)
From S2P Require Import Prelude CInt Ext Threads PageTable UserCall ProcTree.
Open Scope Z_scope.

(** Where a thread is between two steps. *)
Inductive pc := InUser | InExecute (tid : Z) | ToLoad (parent : Z) | Failed | InWait (c : Z).

(** What the record of a child stands for: a thread that is still to load it, a thread
    that runs, or the status of one that has ended. *)
Inductive rstate := RLoading (t : Z) | RLive (t : Z) | REnded (v : Z).

(** The tree: the processes, the child records, the leashes and the program counters. *)
Record tree := Tree {
  t_procs : gmap Z node;
  t_heap : gmap Z child;
  t_leash : gmap Z leash;
  t_pcs : gmap Z pc
}.
#[export] Instance eta_tree : Eta tree := λ x, Tree (t_procs x) (t_heap x) (t_leash x) (t_pcs x).

Implicit Types (x : tree) (R : gmap Z rstate) (t c : Z) (n : node).

Definition record_ok (r : option rstate) (h : option child) : Prop :=
  match r, h with
  | Some (REnded v), Some k => c_terminated k = 1 ∧ c_status k = v
  | Some _, Some k => c_terminated k = 0
  | None, None => True
  | _, _ => False
  end.

(** [t] is the parent that answers for the record [c]. *)
Definition holds x t c : Prop :=
  (∃ n, t_procs x !! t = Some n ∧ c ∈ n_children n) ∨ (∃ l, t_leash x !! t = Some l ∧ l_child l = c).

Record tree_ok x R : Prop := {
  to_heap : ∀ c, record_ok (R !! c) (t_heap x !! c);
  to_load : ∀ t par, t_pcs x !! t = Some (ToLoad par) →
    ∃ l n, t_leash x !! par = Some l ∧ R !! l_child l = Some (RLoading t) ∧ success_set l = 0 ∧
      t_procs x !! t = Some n ∧ n_self n = None ∧ n_children n = [];
  to_loading : ∀ c t, R !! c = Some (RLoading t) →
    ∃ par l, t_pcs x !! t = Some (ToLoad par) ∧ t_leash x !! par = Some l ∧ l_child l = c;
  to_self : ∀ t n c, t_procs x !! t = Some n → n_self n = Some c → R !! c = Some (RLive t) ∧ n_usr n = true;
  to_live : ∀ c t, R !! c = Some (RLive t) → ∃ n, t_procs x !! t = Some n ∧ n_self n = Some c;
  to_pcs : ∀ t, is_Some (t_pcs x !! t) → is_Some (t_procs x !! t);
  to_children : ∀ t n, t_procs x !! t = Some n →
    NoDup (n_children n) ∧ (n_init n = false → n_children n = []) ∧
    (∀ c, c ∈ n_children n → is_Some (R !! c) ∧ ∀ t', R !! c ≠ Some (RLoading t'));
  to_leash : ∀ t l, t_leash x !! t = Some l →
    is_Some (R !! l_child l) ∧ (∃ tid, t_pcs x !! t = Some (InExecute tid)) ∧
    ∀ n, t_procs x !! t = Some n → l_child l ∉ n_children n;
  to_own : ∀ t1 t2 c, holds x t1 c → holds x t2 c → t1 = t2;
  to_wait : ∀ t c, t_pcs x !! t = Some (InWait c) → ∃ n, t_procs x !! t = Some n ∧ c ∈ n_children n;
  to_set : ∀ t l, t_leash x !! t = Some l → success_set l ≤ 0 → ∃ t', R !! l_child l = Some (RLoading t');
  to_exec : ∀ t tid, t_pcs x !! t = Some (InExecute tid) → is_Some (t_leash x !! t)
}.

(** ** The steps on the tree *)

Definition tree_execute t t' tid c (name : list Z) x : tree :=
  x <| t_procs ::= <[t' := Node [] false None false]> |>
    <| t_heap ::= <[c := MkChild 0 0 (-1)]> |>
    <| t_leash ::= <[t := MkLeash 0 false name c]> |>
    <| t_pcs ::= λ p, <[t' := ToLoad t]> (<[t := InExecute tid]> p) |>.

Definition set_node t (g : node → node) x : tree := x <| t_procs ::= alter g t |>.

Definition tree_load t par c (ok : bool) x : tree :=
  set_node t (λ n, n <| n_self := Some c |> <| n_usr := true |>) x
    <| t_leash ::= alter (λ l, l <| success := ok |> <| success_set := 1 |>) par |>
    <| t_pcs ::= <[t := if ok then InUser else Failed]> |>.

(** [process_execute] returns: with the new child, or without it. *)
Definition tree_adopt t tid c x : tree :=
  set_node t (λ n, n <| n_children ::= λ l, l ++ [c] |> <| n_init := true |>) x
    <| t_heap ::= alter (λ k, k <| c_tid := tid |>) c |>
    <| t_leash ::= delete t |> <| t_pcs ::= <[t := InUser]> |>.
Definition tree_drop t c x : tree :=
  x <| t_heap ::= delete c |> <| t_leash ::= delete t |> <| t_pcs ::= <[t := InUser]> |>.

Definition tree_wait t c x : tree := x <| t_pcs ::= <[t := InWait c]> |>.
Definition tree_waited t c x : tree :=
  set_node t (λ n, n <| n_children ::= list_remove c |>) x
    <| t_heap ::= delete c |> <| t_pcs ::= <[t := InUser]> |>.

(** The process [t] ends with its record [c] in state [k]; the records [freed] go. *)
Definition tree_exit t c (k : child) (freed : list Z) x : tree :=
  x <| t_procs ::= delete t |>
    <| t_heap ::= λ h, <[c := k]> (foldl (λ h y, delete y h) h freed) |>
    <| t_pcs ::= delete t |>.

(** ** They keep the tree in order *)

(** Case analysis on the lookups of updated maps. *)
Ltac lookups :=
  repeat match goal with
  | H : <[?i := _]> _ !! ?j = _ |- _ =>
      let E := fresh "E" in destruct (decide (i = j)) as [E|E];
        [subst; rewrite lookup_insert_eq in H|rewrite lookup_insert_ne in H by done]
  | H : delete ?i _ !! ?j = _ |- _ =>
      let E := fresh "E" in destruct (decide (i = j)) as [E|E];
        [subst; rewrite lookup_delete_eq in H|rewrite lookup_delete_ne in H by done]
  | H : alter _ ?i _ !! ?j = _ |- _ =>
      let E := fresh "E" in let a := fresh "a" in destruct (decide (i = j)) as [E|E];
        [subst; rewrite lookup_alter_eq in H; apply fmap_Some in H as (a & H & ?)
        |rewrite lookup_alter_ne in H by done]
  end; simplify_eq.

Lemma tree_execute_ok x R t t' tid c name :
  tree_ok x R → t_pcs x !! t = Some InUser → t_heap x !! c = None → t_procs x !! t' = None →
  tree_ok (tree_execute t t' tid c name x) (<[c := RLoading t']> R).
Proof.
  intros Ok Hpc Hc Ht'. pose proof Ok as [Oheap Oload Oloading Oself Olive Opcs Ochild Oleash Oown Owait Oset Oexec].
  assert (R !! c = None) as HRc.
  { specialize (Oheap c). rewrite Hc in Oheap. destruct (R !! c) as [[]|]; done. }
  assert (t_leash x !! t = None) as HL.
  { destruct (t_leash x !! t) as [l|] eqn:E; [|done]. destruct (Oleash t l E) as (_ & (? & ?) & _). congruence. }
  assert (t_pcs x !! t' = None) as Hpc'.
  { destruct (t_pcs x !! t') eqn:E; [|done]. destruct (Opcs t') as [? ?]; [by eexists|congruence]. }
  assert (t' ≠ t) by congruence.
  assert (∀ y r, R !! y = Some r → c ≠ y) as Hne by (intros y r Hy ->; congruence).
  split; unfold tree_execute; simpl.
  - intros y. destruct (decide (c = y)) as [->|]; [by rewrite !lookup_insert_eq|]. by rewrite !lookup_insert_ne.
  - intros s par Hs. lookups.
    + exists (MkLeash 0 false name c), (Node [] false None false). by rewrite !lookup_insert_eq.
    + destruct (Oload s par Hs) as (l & n & Hl & HR & Hv & Hn & ?). exists l, n.
      rewrite !lookup_insert_ne by (eauto || congruence). done.
  - intros y s Hy. lookups.
    + exists t, (MkLeash 0 false name y). by rewrite !lookup_insert_eq.
    + destruct (Oloading y s Hy) as (par & l & Hs & Hl & Ey). exists par, l.
      rewrite !lookup_insert_ne by congruence. done.
  - intros s n y Hs Hy. lookups. rewrite lookup_insert_ne; [by eapply Oself|].
    destruct (Oself s n y Hs Hy). by eapply Hne.
  - intros y s Hy. lookups. destruct (Olive y s Hy) as (n & Hs & ?). exists n.
    by rewrite lookup_insert_ne by congruence.
  - intros s. destruct (decide (t' = s)) as [->|]; [rewrite !lookup_insert_eq; by eexists|].
    rewrite (lookup_insert_ne _ t' s), (lookup_insert_ne (t_procs x)) by done.
    destruct (decide (t = s)) as [->|]; [|rewrite lookup_insert_ne by done; apply Opcs].
    intros _. apply Opcs. rewrite Hpc. by eexists.
  - intros s n Hs. lookups; [split; [constructor|split; [done|by intros y ?%elem_of_nil]]|].
    destruct (Ochild s n Hs) as (Hnd & Hin & Hall). split; [done|]. split; [done|]. intros y Hy.
    destruct (Hall y Hy) as [[r Hr] Hnl]. rewrite lookup_insert_ne by eauto. by split; [eexists|].
  - intros s l Hs. lookups.
    + simpl. rewrite lookup_insert_eq, (lookup_insert_ne _ t' s), lookup_insert_eq by done.
      split; [by eexists|]. split; [by eexists|]. intros n Hn Hin. lookups.
      destruct (Ochild s n Hn) as (_ & _ & Hall). destruct (Hall c Hin) as [[? ?] _]. congruence.
    + destruct (Oleash s l Hs) as ([r Hr] & (tid' & Htid) & Hnin).
      rewrite !lookup_insert_ne by (eauto || congruence). split; [by eexists|]. by split; [eexists|].
  - assert (∀ s y, holds (tree_execute t t' tid c name x) s y → (y = c ∧ s = t) ∨ (y ≠ c ∧ holds x s y)) as Hh.
    { intros s y [(n & Hn & Hy)|(l & Hl & Hy)]; simpl in *; lookups.
      - by apply elem_of_nil in Hy.
      - right. split; [|left; by exists n]. intros ->. destruct (Ochild s n Hn) as (_ & _ & Hall).
        destruct (Hall c Hy) as [[? ?] _]. congruence.
      - by left.
      - right. split; [|right; by exists l]. destruct (Oleash s l Hl) as ([r Hr] & _). congruence. }
    intros s1 s2 y H1%Hh H2%Hh. destruct H1 as [[? ?]|[? ?]], H2 as [[? ?]|[? ?]]; subst; try done. by eapply Oown.
  - intros s y Hs. lookups. destruct (Owait s y Hs) as (n & Hn & ?). exists n.
    by rewrite lookup_insert_ne by congruence.
  - intros s l Hs Hz. lookups; [exists t'; by rewrite lookup_insert_eq|]. destruct (Oset s l Hs Hz) as (s' & HR).
    exists s'. by rewrite lookup_insert_ne by eauto.
  - intros s tid' Hs. lookups; [rewrite lookup_insert_eq; by eexists|]. rewrite lookup_insert_ne by done. by eapply Oexec.
Qed.

(** The children and the leashes decide who holds a record. *)
Lemma holds_sub x x' :
  (∀ t n, t_procs x' !! t = Some n → ∃ n0, t_procs x !! t = Some n0 ∧ ∀ c, c ∈ n_children n → c ∈ n_children n0) →
  (∀ t l, t_leash x' !! t = Some l → ∃ l0, t_leash x !! t = Some l0 ∧ l_child l = l_child l0) →
  ∀ t c, holds x' t c → holds x t c.
Proof.
  intros Hp Hl t c [(n & Hn & Hc)|(l & El & <-)].
  - destruct (Hp t n Hn) as (n0 & ? & ?). left. exists n0. eauto.
  - destruct (Hl t l El) as (l0 & ? & ->). right. by exists l0.
Qed.

Lemma tree_load_ok x R t par l (ok : bool) :
  tree_ok x R → t_pcs x !! t = Some (ToLoad par) → t_leash x !! par = Some l →
  tree_ok (tree_load t par (l_child l) ok x) (<[l_child l := RLive t]> R).
Proof.
  intros Ok Hpc Hl. pose proof Ok as [Oheap Oload Oloading Oself Olive Opcs Ochild Oleash Oown Owait Oset Oexec].
  destruct (Oload t par Hpc) as (l' & n & Hl' & HR & Hv & Hn & Hself & Hch).
  rewrite Hl in Hl'. injection Hl' as <-.
  split; unfold tree_load, set_node; simpl.
  - intros y. destruct (decide (l_child l = y)) as [<-|]; [|by rewrite lookup_insert_ne].
    rewrite lookup_insert_eq. specialize (Oheap (l_child l)). by rewrite HR in Oheap.
  - intros s par' Hs. lookups; [by destruct ok|].
    destruct (Oload s par' Hs) as (l' & n' & El' & HR' & Hv' & Hn' & ? & ?).
    assert (l_child l ≠ l_child l') by congruence. assert (par ≠ par') by (intros <-; congruence).
    exists l', n'. by rewrite lookup_alter_ne, lookup_insert_ne, lookup_alter_ne.
  - intros y s Hy. lookups. destruct (Oloading y s Hy) as (par' & l' & Hs & El' & Ey).
    assert (t ≠ s) by (intros <-; congruence). assert (par ≠ par') by (intros <-; congruence).
    exists par', l'. by rewrite lookup_insert_ne, lookup_alter_ne.
  - intros s n' y Hs Hy. lookups.
    + simpl in Hy. injection Hy as <-. by rewrite lookup_insert_eq.
    + destruct (Oself s n' y Hs Hy) as [HRy ?]. rewrite lookup_insert_ne by congruence. done.
  - intros y s Hy. lookups.
    + exists (n <| n_self := Some (l_child l) |> <| n_usr := true |>). by rewrite lookup_alter_eq, Hn.
    + destruct (Olive y s Hy) as (n' & Hs & ?). exists n'. rewrite lookup_alter_ne by congruence. done.
  - intros s. destruct (decide (t = s)) as [->|].
    + rewrite lookup_insert_eq, lookup_alter_eq, Hn. by eexists.
    + rewrite lookup_insert_ne, lookup_alter_ne by done. apply Opcs.
  - intros s n' Hs. assert (∃ n0, t_procs x !! s = Some n0 ∧ n_children n' = n_children n0 ∧ n_init n' = n_init n0)
      as (n0 & Hn0 & -> & ->) by (lookups; by eexists).
    destruct (Ochild s n0 Hn0) as (? & ? & Hall). split; [done|]. split; [done|]. intros y Hy.
    destruct (Hall y Hy) as [? ?]. destruct (decide (l_child l = y)) as [<-|].
    + rewrite lookup_insert_eq. by split; [eexists|].
    + by rewrite lookup_insert_ne.
  - intros s l' Hs. assert (∃ l0, t_leash x !! s = Some l0 ∧ l_child l' = l_child l0) as (l0 & El0 & ->)
      by (lookups; by eexists).
    destruct (Oleash s l0 El0) as (HR0 & (tid & Htid) & Hnin). split; [|split].
    + destruct (decide (l_child l = l_child l0)) as [<-|]; [rewrite lookup_insert_eq; by eexists|by rewrite lookup_insert_ne].
    + exists tid. by rewrite lookup_insert_ne by congruence.
    + intros n' Hn'. lookups; by apply Hnin.
  - intros s1 s2 y H1 H2. apply (Oown s1 s2 y); (eapply holds_sub; [..|eassumption]); simpl;
      intros s ? Hs; lookups; by eexists.
  - intros s y Hs. lookups; [by destruct ok|]. destruct (Owait s y Hs) as (n' & Hn' & ?). exists n'.
    rewrite lookup_alter_ne by congruence. done.
  - intros s l' Hs Hz. lookups; [simpl in Hz; lia|]. destruct (Oset s l' Hs Hz) as (s' & HR'). exists s'.
    rewrite lookup_insert_ne; [done|]. intros El. assert (s = par) as ->; [|done]. eapply Oown; right; [by exists l'|by exists l].
  - intros s tid Hs. lookups; [by destruct ok|]. destruct (Oexec s tid Hs) as [l' Hl']. destruct (decide (par = s)) as [<-|].
    + rewrite lookup_alter_eq, Hl. by eexists.
    + rewrite lookup_alter_ne by done. by eexists.
Qed.

(** Only the program counter of a thread that is not loading changes. *)
Lemma tree_wait_ok x R t n c :
  tree_ok x R → t_pcs x !! t = Some InUser → t_procs x !! t = Some n → c ∈ n_children n →
  tree_ok (tree_wait t c x) R.
Proof.
  intros Ok Hpc Hn Hc. pose proof Ok as [Oheap Oload Oloading Oself Olive Opcs Ochild Oleash Oown Owait Oset Oexec].
  split; unfold tree_wait; simpl; try done.
  - intros s par Hs. lookups. by apply Oload.
  - intros y s Hy. destruct (Oloading y s Hy) as (par & l & Hs & ?). exists par, l.
    by rewrite lookup_insert_ne by congruence.
  - intros s. destruct (decide (t = s)) as [->|]; [|rewrite lookup_insert_ne by done; apply Opcs].
    rewrite Hn. by eexists.
  - intros s l Hs. destruct (Oleash s l Hs) as (? & (tid & Htid) & ?). split; [done|]. split; [|done].
    exists tid. by rewrite lookup_insert_ne by congruence.
  - intros s y Hs. lookups; [by exists n|by apply Owait].
  - intros s tid Hs. lookups. by eapply Oexec.
Qed.

Lemma tree_adopt_ok x R t tid l n :
  tree_ok x R → t_pcs x !! t = Some (InExecute tid) → t_leash x !! t = Some l → t_procs x !! t = Some n →
  (∀ t', R !! l_child l ≠ Some (RLoading t')) → tree_ok (tree_adopt t tid (l_child l) x) R.
Proof.
  intros Ok Hpc Hl Hn Hnl. pose proof Ok as [Oheap Oload Oloading Oself Olive Opcs Ochild Oleash Oown Owait Oset Oexec].
  destruct (Oleash t l Hl) as (HRc & _ & Hnin). specialize (Hnin n Hn).
  split; unfold tree_adopt, set_node; simpl.
  - intros y. specialize (Oheap y). destruct (decide (l_child l = y)) as [->|]; [|by rewrite lookup_alter_ne].
    rewrite lookup_alter_eq. destruct (R !! y) as [[]|], (t_heap x !! y); done.
  - intros s par Hs. lookups. destruct (Oload s par Hs) as (l' & n' & El' & HR' & Hv & Hn' & ? & ?).
    assert (t ≠ par) by (intros <-; naive_solver). exists l', n'. by rewrite lookup_delete_ne, lookup_alter_ne.
  - intros y s Hy. destruct (Oloading y s Hy) as (par & l' & Hs & El' & Ey).
    assert (t ≠ s) by congruence. assert (t ≠ par) by (intros <-; naive_solver).
    exists par, l'. by rewrite lookup_insert_ne, lookup_delete_ne.
  - intros s n' y Hs Hy. lookups; [by apply (Oself _ n)|by eapply Oself].
  - intros y s Hy. destruct (Olive y s Hy) as (n' & Hs & ?). destruct (decide (t = s)) as [<-|].
    + rewrite lookup_alter_eq, Hn. eexists. split; [done|]. simpl. congruence.
    + exists n'. by rewrite lookup_alter_ne.
  - intros s. destruct (decide (t = s)) as [<-|].
    + rewrite lookup_insert_eq, lookup_alter_eq, Hn. by eexists.
    + rewrite lookup_insert_ne, lookup_alter_ne by done. apply Opcs.
  - intros s n' Hs. lookups; [|by apply (Ochild s)]. simpl. destruct (Ochild _ n Hn) as (Hnd & _ & Hall).
    split; [|split; [done|]].
    + apply NoDup_app. split; [done|]. split; [by intros y Hy ->%list_elem_of_singleton|]. apply NoDup_singleton.
    + intros y [Hy| ->%list_elem_of_singleton]%elem_of_app; [by apply Hall|done].
  - intros s l' Hs. lookups. destruct (Oleash s l' Hs) as (? & (tid' & Htid) & Hni). split; [done|]. split.
    + exists tid'. by rewrite lookup_insert_ne.
    + intros n' Hn'. rewrite lookup_alter_ne in Hn' by done. by apply Hni.
  - assert (∀ s y, holds (tree_adopt t tid (l_child l) x) s y → holds x s y) as Hh.
    { intros s y [(n' & Hn' & Hy)|(l' & Hl' & Hy)]; simpl in *; lookups.
      - simpl in Hy. apply elem_of_app in Hy as [Hy| ->%list_elem_of_singleton]; [left; by exists n|right; by exists l].
      - left. by exists n'.
      - right. by exists l'. }
    intros s1 s2 y H1%Hh H2%Hh. by eapply Oown.
  - intros s y Hs. lookups. destruct (Owait s y Hs) as (n' & Hn' & ?). exists n'. by rewrite lookup_alter_ne.
  - intros s l' Hs Hz. lookups. by eapply Oset.
  - intros s tid' Hs. lookups. rewrite lookup_delete_ne by done. by eapply Oexec.
Qed.

Lemma tree_drop_ok x R t tid l n v :
  tree_ok x R → t_pcs x !! t = Some (InExecute tid) → t_leash x !! t = Some l → t_procs x !! t = Some n →
  R !! l_child l = Some (REnded v) → tree_ok (tree_drop t (l_child l) x) (delete (l_child l) R).
Proof.
  intros Ok Hpc Hl Hn HR. pose proof Ok as [Oheap Oload Oloading Oself Olive Opcs Ochild Oleash Oown Owait Oset Oexec].
  destruct (Oleash t l Hl) as (_ & _ & Hnin). specialize (Hnin n Hn).
  assert (holds x t (l_child l)) as Hhold by (right; by exists l).
  split; unfold tree_drop; simpl.
  - intros y. specialize (Oheap y). destruct (decide (l_child l = y)) as [->|]; [by rewrite !lookup_delete_eq|].
    by rewrite !lookup_delete_ne.
  - intros s par Hs. lookups. destruct (Oload s par Hs) as (l' & n' & El' & HR' & Hv & ?).
    assert (t ≠ par) by (intros <-; congruence). assert (l_child l ≠ l_child l') by congruence.
    exists l', n'. by rewrite !lookup_delete_ne.
  - intros y s Hy. lookups. destruct (Oloading y s Hy) as (par & l' & Hs & El' & Ey).
    assert (t ≠ s) by congruence. assert (t ≠ par) by (intros <-; congruence).
    exists par, l'. by rewrite lookup_insert_ne, lookup_delete_ne.
  - intros s n' y Hs Hy. destruct (Oself s n' y Hs Hy). by rewrite lookup_delete_ne by congruence.
  - intros y s Hy. lookups. by apply Olive.
  - intros s. destruct (decide (t = s)) as [<-|]; [|rewrite lookup_insert_ne by done; apply Opcs].
    rewrite Hn. by eexists.
  - intros s n' Hs. destruct (Ochild s n' Hs) as (? & ? & Hall). split; [done|]. split; [done|].
    intros y Hy. assert (l_child l ≠ y).
    { intros <-. assert (s = t) as -> by (eapply Oown; [left; by exists n'|done]). congruence. }
    rewrite lookup_delete_ne by done. by apply Hall.
  - intros s l' Hs. lookups. destruct (Oleash s l' Hs) as (? & (tid' & Htid) & Hni). split; [|split; [|done]].
    + rewrite lookup_delete_ne; [done|]. intros El. assert (t = s); [|done].
      eapply Oown; [done|]. right. by exists l'.
    + exists tid'. by rewrite lookup_insert_ne.
  - intros s1 s2 y H1 H2. apply (Oown s1 s2 y); (eapply holds_sub; [..|eassumption]); simpl;
      intros s ? Hs; lookups; by eexists.
  - intros s y Hs. lookups. by apply Owait.
  - intros s l' Hs Hz. lookups. destruct (Oset s l' Hs Hz) as (s' & HR'). exists s'.
    rewrite lookup_delete_ne by congruence. done.
  - intros s tid' Hs. lookups. rewrite lookup_delete_ne by done. by eapply Oexec.
Qed.

Lemma tree_waited_ok x R t c n v :
  tree_ok x R → t_pcs x !! t = Some (InWait c) → t_procs x !! t = Some n → c ∈ n_children n →
  R !! c = Some (REnded v) → tree_ok (tree_waited t c x) (delete c R).
Proof.
  intros Ok Hpc Hn Hc HR. pose proof Ok as [Oheap Oload Oloading Oself Olive Opcs Ochild Oleash Oown Owait Oset Oexec].
  assert (holds x t c) as Hhold by (left; by exists n).
  split; unfold tree_waited, set_node; simpl.
  - intros y. specialize (Oheap y). destruct (decide (c = y)) as [->|]; [by rewrite !lookup_delete_eq|].
    by rewrite !lookup_delete_ne.
  - intros s par Hs. lookups. destruct (Oload s par Hs) as (l' & n' & El' & HR' & Hv & Hn' & ?).
    assert (c ≠ l_child l') by congruence. exists l', n'. by rewrite lookup_delete_ne, lookup_alter_ne.
  - intros y s Hy. lookups. destruct (Oloading y s Hy) as (par & l' & Hs & El' & Ey).
    exists par, l'. by rewrite lookup_insert_ne by congruence.
  - intros s n' y Hs Hy. assert (∃ n0, t_procs x !! s = Some n0 ∧ n_self n0 = Some y ∧ n_usr n' = n_usr n0)
      as (n0 & Hn0 & Hy0 & ->) by (lookups; by eexists).
    destruct (Oself s n0 y Hn0 Hy0). by rewrite lookup_delete_ne by congruence.
  - intros y s Hy. lookups. destruct (Olive y s Hy) as (n' & Hs & Hy'). destruct (decide (t = s)) as [<-|].
    + rewrite lookup_alter_eq, Hn. eexists. split; [done|]. simpl. congruence.
    + exists n'. by rewrite lookup_alter_ne.
  - intros s. destruct (decide (t = s)) as [<-|].
    + rewrite lookup_insert_eq, lookup_alter_eq, Hn. by eexists.
    + rewrite lookup_insert_ne, lookup_alter_ne by done. apply Opcs.
  - intros s n' Hs. lookups.
    + destruct (Ochild _ n Hn) as (Hnd & Hini & Hall). simpl. split; [by apply NoDup_list_remove|].
      split; [intros E; by rewrite (Hini E)|]. intros y [Hne Hy]%elem_of_list_remove.
      rewrite lookup_delete_ne by done. by apply Hall.
    + destruct (Ochild s n' Hs) as (? & ? & Hall). split; [done|]. split; [done|]. intros y Hy.
      rewrite lookup_delete_ne; [by apply Hall|]. intros ->. assert (t = s); [|done].
      eapply Oown; [done|]. left. by exists n'.
  - intros s l' Hs. destruct (Oleash s l' Hs) as (? & (tid' & Htid) & Hni). split; [|split].
    + rewrite lookup_delete_ne; [done|]. intros El. assert (t = s) as <-.
      { eapply Oown; [done|]. right. by exists l'. }
      by apply (Hni n Hn); rewrite <- El.
    + exists tid'. by rewrite lookup_insert_ne by congruence.
    + intros n' Hn'. lookups. by apply Hni.
  - intros s1 s2 y H1 H2. apply (Oown s1 s2 y); (eapply holds_sub; [..|eassumption]); simpl;
      intros s ? Hs; lookups; eexists; (split; [done|]); try done.
    all: intros z Hz; simpl in Hz; by apply elem_of_list_remove in Hz as [_ ?].
  - intros s y Hs. lookups. destruct (Owait s y Hs) as (n' & Hn' & ?). exists n'. by rewrite lookup_alter_ne.
  - intros s l' Hs Hz. destruct (Oset s l' Hs Hz) as (s' & HR'). exists s'. by rewrite lookup_delete_ne by congruence.
  - intros s tid Hs. lookups. by eapply Oexec.
Qed.

Lemma lookup_free_all {A} (l : list Z) (m : gmap Z A) y :
  foldl (λ h y, delete y h) m l !! y = if decide (y ∈ l) then None else m !! y.
Proof.
  revert m. induction l as [|z l IH]; intros m; simpl; [done|]. rewrite IH.
  destruct (decide (y ∈ l)) as [Hy|Hy]; [by rewrite decide_True by (by right)|].
  destruct (decide (z = y)) as [->|]; [by rewrite lookup_delete_eq, decide_True by (by left)|].
  rewrite lookup_delete_ne by done. rewrite decide_False; [done|]. by intros [->|?]%elem_of_cons.
Qed.

Lemma tree_exit_ok x R t c n k :
  tree_ok x R → t_procs x !! t = Some n → n_self n = Some c →
  t_leash x !! t = None → (∀ par, t_pcs x !! t ≠ Some (ToLoad par)) →
  (∀ y s, y ∈ n_children n → R !! y ≠ Some (RLive s)) → c_terminated k = 1 →
  tree_ok (tree_exit t c k (n_children n) x)
    (<[c := REnded (c_status k)]> (foldl (λ h y, delete y h) R (n_children n))).
Proof.
  intros Ok Hn Hself Hlt Hpct Hfreed Hk.
  pose proof Ok as [Oheap Oload Oloading Oself Olive Opcs Ochild Oleash Oown Owait Oset Oexec].
  destruct (Oself t n c Hn Hself) as [HRc _]. destruct (Ochild t n Hn) as (_ & _ & Hall).
  assert (c ∉ n_children n) as Hcn by (intros Hin; by apply (Hfreed c t Hin)).
  assert (∀ s y, holds x s y → s ≠ t → y ∉ n_children n) as Hother.
  { intros s y Hh Hne Hin. apply Hne. eapply Oown; [done|]. left. by exists n. }
  set (R' := <[c := _]> _).
  assert (∀ y r, R' !! y = Some r → (y = c ∧ r = REnded (c_status k)) ∨ (y ≠ c ∧ y ∉ n_children n ∧ R !! y = Some r)) as HR'.
  { intros y r Hy. unfold R' in Hy. lookups; [by left|]. right. rewrite lookup_free_all in Hy.
    case_decide; [done|]. split_and!; congruence || done. }
  assert (∀ y, y ≠ c → y ∉ n_children n → R' !! y = R !! y) as Hsame.
  { intros y ? ?. unfold R'. by rewrite lookup_insert_ne, lookup_free_all, decide_False. }
  split; unfold tree_exit; simpl.
  - intros y. unfold R'. destruct (decide (c = y)) as [<-|]; [by rewrite !lookup_insert_eq|].
    rewrite !lookup_insert_ne, !lookup_free_all by done. case_decide; [done|apply Oheap].
  - intros s par Hs. lookups. destruct (Oload s par Hs) as (l' & n' & El' & HRl & ? & Hn' & ?). exists l', n'.
    rewrite lookup_delete_ne by done. rewrite Hsame; [done|congruence|]. intros Hin.
    destruct (Hall _ Hin) as [_ Hnl]. by apply (Hnl s).
  - intros y s Hy. apply HR' in Hy as [[? ?]|(? & ? & Hy)]; [done|].
    destruct (Oloading y s Hy) as (par & l' & Hs & ?). exists par, l'. rewrite lookup_delete_ne; [done|].
    intros <-. by apply (Hpct par).
  - intros s n' y Hs Hy. lookups. destruct (Oself s n' y Hs Hy) as [HRy ?]. rewrite Hsame; [done|congruence|].
    intros Hin. by apply (Hfreed y s).
  - intros y s Hy. apply HR' in Hy as [[? ?]|(? & ? & Hy)]; [done|]. destruct (Olive y s Hy) as (n' & Hs & ?).
    exists n'. rewrite lookup_delete_ne; [done|]. intros <-. congruence.
  - intros s. destruct (decide (t = s)) as [<-|]; [rewrite lookup_delete_eq; by intros [? ?]|].
    rewrite !lookup_delete_ne by done. apply Opcs.
  - intros s n' Hs. lookups. destruct (Ochild s n' Hs) as (? & ? & Hall'). split; [done|]. split; [done|].
    intros y Hy. destruct (decide (y = c)) as [->|].
    + unfold R'. rewrite lookup_insert_eq. by split; [eexists|].
    + rewrite Hsame; [by apply Hall'|done|]. apply (Hother s); [left; by exists n'|by apply not_eq_sym].
  - intros s l' Hs. assert (s ≠ t) by congruence. destruct (Oleash s l' Hs) as (? & (tid' & Htid) & Hni).
    split; [|split].
    + destruct (decide (l_child l' = c)) as [->|]; [unfold R'; rewrite lookup_insert_eq; by eexists|].
      rewrite Hsame; [done|done|]. apply (Hother s); [right; by exists l'|done].
    + exists tid'. by rewrite lookup_delete_ne.
    + intros n' Hn'. lookups. by apply Hni.
  - intros s1 s2 y H1 H2. apply (Oown s1 s2 y); (eapply holds_sub; [..|eassumption]); simpl;
      intros s ? Hs; lookups; by eexists.
  - intros s y Hs. lookups. destruct (Owait s y Hs) as (n' & Hn' & ?). exists n'. by rewrite lookup_delete_ne.
  - intros s l' Hs Hz. destruct (Oset s l' Hs Hz) as (s' & HR''). exists s'. rewrite Hsame; [done|congruence|].
    intros Hin. destruct (Hall _ Hin) as [_ Hnl]. by apply (Hnl s').
  - intros s tid Hs. lookups. by eapply Oexec.
Qed.
