(* ===== verification/ProcSteps.v ===== *)
(** * Processes start, wait and end

    All processes at once, in any kernel whose memory system keeps out of the process
    tree ([KeepsTree]; virtual-memory and user-programs are two): each step is a half of [process_execute],
    [start_process], [process_wait] or [thread_exit] of one of them, or any other
    kernel call.  A parent is told the status with which its child ended, once; and
    what happens when a parent ends first. *)
From S2P Require Import Prelude CInt Ext Threads Mmu PageDir Swap PageTable UserFiles Elf Frame Page VmSpec UserCall Exception UserMem Load Process Syscall ProcTree Rendezvous.
Open Scope Z_scope.

Section steps.
Context `{Vaddr, !Pte, Selectors, KernelMemory, StartRegs}.
Context {dev files : Type} `{BlockDevice dev, FileOps files, FileCalls files, KeepsTree dev files}.
Variable exit_message : option (list Z) → Z → list Z.

Record psys := MkPsys { psy : sys dev files; pcs : gmap Z pc }.

Implicit Types (s : sys dev files) (t c : Z) (σ : psys).

(** The state in which [t] runs. *)
Definition at_thread t σ : sys dev files := (psy σ) <| svm := (svm (psy σ)) <| current := t |> |>.

(** The thread is gone, with its page. *)
Definition thread_gone t s : sys dev files :=
  s <| uprocs ::= delete t |> <| svm := (svm s) <| procs ::= delete t |> |>.

(** What a step tells about child records: [Ended c v freed], the process of [c] ended
    with status [v] and took the records of its own children with it; [Waited c v], a
    parent was told [v] for [c]; [Dropped c], [process_execute] failed for [c]. *)
Inductive event := Tau | Ended (c v : Z) (freed : list Z) | Waited (c v : Z) | Dropped (c : Z).

Inductive pstep σ : event → psys → Prop :=
  | step_other t s' :
      (** any other kernel call of any thread, or a switch to it *)
      same_tree (at_thread t σ) s' → pstep σ Tau (MkPsys s' (pcs σ))
  | step_execute t name name_page child_page thread r s' :
      pcs σ !! t = Some InUser →
      (∀ c, child_page = Some c → child_heap (psy σ) !! c = None) →
      (∀ t' tid, thread = Some (t', tid) → uprocs (psy σ) !! t' = None) →
      execute_begin name_page child_page thread name (at_thread t σ) = Ret (Val r, s') →
      pstep σ Tau (MkPsys s' (match r, thread with
                              | Some tid, Some (t', _) => <[t' := ToLoad t]> (<[t := InExecute tid]> (pcs σ))
                              | _, _ => pcs σ
                              end))
  | step_load t par r s' :
      pcs σ !! t = Some (ToLoad par) →
      start_process par (at_thread t σ) = Ret (Val r, s') →
      pstep σ Tau (MkPsys s' (<[t := if r is Some _ then InUser else Failed]> (pcs σ)))
  | step_executed t tid l s1 v s' :
      pcs σ !! t = Some (InExecute tid) → tid ≠ TID_ERROR →
      leashes (psy σ) !! t = Some l →
      down_success_set (at_thread t σ) = Ret (Val true, s1) →
      execute_end tid s1 = Ret (Val v, s') →
      pstep σ (if success l then Tau else Dropped (l_child l)) (MkPsys s' (<[t := InUser]> (pcs σ)))
  | step_wait t tid r s' :
      pcs σ !! t = Some InUser →
      wait_begin tid (at_thread t σ) = Ret (Val r, s') →
      pstep σ Tau (MkPsys s' (match r with Some c => <[t := InWait c]> (pcs σ) | None => pcs σ end))
  | step_waited t c s1 v s' :
      pcs σ !! t = Some (InWait c) →
      down_terminated c (at_thread t σ) = Ret (Val true, s1) →
      wait_end c s1 = Ret (Val v, s') →
      pstep σ (Waited c v) (MkPsys s' (<[t := InUser]> (pcs σ)))
  | step_exit t status u c k s1 r s' :
      pcs σ !! t = Some InUser ∨ pcs σ !! t = Some Failed ∧ status = None →
      (** through [exit], or killed *)
      match status with
      | Some v => sys_exit v (at_thread t σ) = Ret (@Exits unit, s1)
      | None => s1 = at_thread t σ
      end →
      uprocs s1 !! t = Some u → self u = Some c → child_heap s1 !! c = Some k →
      exit_user exit_message s1 = Ret (Val r, s') →
      pstep σ (Ended c (c_status k) (children u)) (MkPsys (thread_gone t s') (delete t (pcs σ))).

(** The events of an orderly run: a process does not end before its children, and
    [process_execute] does not give back the record of a child whose load failed while
    that child is still there.  Both are things the code does not prevent: the first
    ends in a panic ([orphan_exit_panics]), the second is the race of process.c:75, in
    which the child raises a semaphore in a page that was freed and may be in use
    again.  Nothing is claimed of the runs with such events. *)
Definition alive σ c : Prop := ∃ t u, uprocs (psy σ) !! t = Some u ∧ self u = Some c.
Definition orderly σ (e : event) : Prop :=
  match e with
  | Ended _ _ freed => ∀ c, c ∈ freed → ¬ alive σ c
  | Dropped c => ¬ alive σ c
  | _ => True
  end.

(** The statuses that were left by processes and not yet told to their parents. *)
Definition pend_step (m : gmap Z Z) (e : event) : gmap Z Z :=
  match e with
  | Tau => m
  | Ended c v freed => <[c := v]> (foldl (λ m y, delete y m) m freed)
  | Waited c _ | Dropped c => delete c m
  end.

(** The program starts with its main thread.  Neither that nor another thread of the
    kernel is a user process. *)
Record booted σ : Prop := {
  bt_procs t u : uprocs (psy σ) !! t = Some u → tree_of u = Node [] false None false;
  bt_main : ∃ t, pcs σ = {[t := InUser]} ∧ is_Some (uprocs (psy σ) !! t);
  bt_heap : child_heap (psy σ) = ∅ ∧ leashes (psy σ) = ∅
}.

(** Orderly runs from [σ0], with the statuses pending at the end. *)
Inductive prun (σ0 : psys) : gmap Z Z → psys → Prop :=
  | run_nil : prun σ0 ∅ σ0
  | run_step m σ e σ' : prun σ0 m σ → pstep σ e σ' → orderly σ e → prun σ0 (pend_step m e) σ'.

(** ** The steps on the tree *)

Definition tree_view s (p : gmap Z pc) : tree :=
  Tree (tree_of <$> uprocs s) (child_heap s) (leashes s) p.

Lemma same_tree_view s s' p : same_tree s s' → tree_view s' p = tree_view s p.
Proof.
  intros [_ T Hh Hl _]. unfold tree_view. rewrite Hh, Hl. f_equal. apply map_eq. intros t.
  by rewrite !lookup_fmap.
Qed.

Lemma fmap_alter_tree (g : uproc → uproc) (h : node → node) t (m : gmap Z uproc) :
  (∀ u, m !! t = Some u → tree_of (g u) = h (tree_of u)) →
  tree_of <$> alter g t m = alter h t (tree_of <$> m).
Proof.
  intros Hg. apply map_eq. intros i. rewrite lookup_fmap. destruct (decide (t = i)) as [->|].
  - rewrite !lookup_alter_eq, lookup_fmap. destruct (m !! i) eqn:E; [|done]. simpl. by rewrite Hg.
  - by rewrite !lookup_alter_ne, lookup_fmap.
Qed.

Lemma execute_view σ t name np cp th r s' p :
  (∀ c, cp = Some c → child_heap (psy σ) !! c = None) →
  execute_begin np cp th name (at_thread t σ) = Ret (Val r, s') →
  match r, th with
  | Some tid, Some (t', _) => ∃ c, cp = Some c ∧
      tree_view s' (<[t' := ToLoad t]> (<[t := InExecute tid]> p))
        = tree_execute t t' tid c (take (Z.to_nat PGSIZE - 1) name) (tree_view (psy σ) p)
  | _, _ => r = None ∧ tree_view s' p = tree_view (psy σ) p
  end.
Proof.
  intros Hfresh. unfold execute_begin. destruct np as [np|]; [|by intros [= <- <-]].
  destruct cp as [c|]; [|by intros [= <- <-]]. specialize (Hfresh c eq_refl).
  intros (? & s1 & E1 & E)%call_bind_inv. injection E1 as _ <-. destruct th as [[t' tid]|].
  - apply call_bind_inv in E as (? & s2 & E2 & E). injection E2 as _ <-. injection E as <- <-.
    exists c. split; [done|]. unfold tree_view, tree_execute. simpl. by rewrite fmap_insert.
  - apply call_bind_inv in E as (? & s2 & E2 & E). injection E2 as _ <-. injection E as <- <-.
    split; [done|]. unfold tree_view. simpl. by rewrite delete_insert_id.
Qed.
Lemma same_tree_at t σ p : tree_view (at_thread t σ) p = tree_view (psy σ) p.
Proof. done. Qed.

(** [upd_cur] on the tree. *)
Lemma upd_cur_view g h s p : (∀ u, tree_of (g u) = h (tree_of u)) →
  tree_view (upd_cur g s) p = set_node (current (svm s)) h (tree_view s p).
Proof. intros Hg. unfold tree_view, set_node. simpl. by rewrite (fmap_alter_tree g h) by (intros; apply Hg). Qed.

Lemma load_view σ t par l r s' p :
  leashes (psy σ) !! par = Some l → success_set l = 0 →
  start_process par (at_thread t σ) = Ret (Val r, s') →
  tree_view s' (<[t := if r is Some _ then InUser else Failed]> p)
    = tree_load t par (l_child l) (if r is Some _ then true else false) (tree_view (psy σ) p).
Proof.
  intros Hl Hz. unfold start_process.
  intros (l' & s0 & E0 & (? & s1 & E1 & (b & s2 & E2 & (? & s3 & E3 & (? & s4 & E4 & (? & s5 & E5 &
    (? & s6 & E6 & E)%call_bind_inv)%call_bind_inv)%call_bind_inv)%call_bind_inv)%call_bind_inv)%call_bind_inv)%call_bind_inv.
  unfold get in E0. simpl in E0. rewrite Hl in E0. injection E0 as <- <-.
  injection E3 as _ <-. injection E4 as _ <-. injection E5 as _ <-. injection E6 as _ <-.
  pose proof (same_tree_trans _ _ _ (keeps_init_pages _ _ _ E1) (keeps_load _ _ _ _ E2)) as Hk.
  assert (current (svm s2) = t) as Ecur by (rewrite (sm_cur _ _ Hk); done).
  assert (leashes s2 = leashes (psy σ)) as EL by (by rewrite (sm_leash _ _ Hk)).
  assert (tree_view s2 p = tree_view (psy σ) p) as Ev.
  { rewrite (same_tree_view _ _ p Hk). done. }
  set (ok := match b with Some _ => true | None => false end) in *.
  assert (∃ u' : uproc → uproc, (if r is Some _ then true else false) = ok ∧
    (∀ q, tree_view s' q = Tree (tree_of <$> alter u' t (uprocs s2)) (child_heap s2)
        (alter (λ l, l <| success_set ::= sema_up |>) par
           (alter (λ l, l <| success := ok |>) par (leashes s2))) q) ∧
    ∀ u, tree_of (u' u) = (tree_of u) <| n_self := Some (l_child l) |> <| n_usr := true |>)
    as (u' & Er & Eview & Hu').
  { subst ok. destruct b as [[eip esp]|].
    - apply call_bind_inv in E as (? & s7 & E7 & E). injection E7 as _ <-. injection E as <- <-.
      exists (λ u, u <| self := Some (l_child l) |> <| usr_thread := true |> <| files_open := [] |>).
      split; [done|]. split; [|done]. intros q. unfold tree_view. simpl. by rewrite Ecur, !alter_alter.
    - injection E as <- <-. exists (λ u, u <| self := Some (l_child l) |> <| usr_thread := true |>).
      split; [done|]. split; [|done]. intros q. unfold tree_view. simpl. by rewrite Ecur, !alter_alter. }
  rewrite Eview. unfold tree_load, set_node, tree_view. rewrite Er. simpl. f_equal.
  - rewrite (fmap_alter_tree u' (λ n, n <| n_self := Some (l_child l) |> <| n_usr := true |>)) by (intros; exact (Hu' _)).
    f_equal. apply map_eq. intros i. rewrite !lookup_fmap.
    apply (sm_tree _ _ Hk i).
  - apply (sm_heap _ _ Hk).
  - rewrite EL, alter_alter. apply alter_ext. intros y Hy. rewrite Hl in Hy. injection Hy as <-.
    simpl. by rewrite Hz.
  - f_equal. rewrite <- Er. by destruct r.
Qed.

Lemma executed_view σ t tid l s1 v s' p :
  leashes (psy σ) !! t = Some l → tid ≠ TID_ERROR →
  (∀ u, uprocs (psy σ) !! t = Some u → children_init u = false → children u = []) →
  down_success_set (at_thread t σ) = Ret (Val true, s1) → execute_end tid s1 = Ret (Val v, s') →
  0 < success_set l ∧
  tree_view s' (<[t := InUser]> p)
    = if success l then tree_adopt t tid (l_child l) (tree_view (psy σ) p)
      else tree_drop t (l_child l) (tree_view (psy σ) p).
Proof.
  intros Hl Htid Hinit. unfold down_success_set, sema_down. simpl. rewrite Hl. simpl.
  destruct (Z.ltb_spec 0 (success_set l)); [|done]. intros [= <-]. intros E. split; [done|].
  unfold execute_end in E.
  apply call_bind_inv in E as (l' & s2 & E2 & E). unfold get in E2. simpl in E2.
  rewrite lookup_insert_eq in E2. injection E2 as <- <-. simpl in E.
  apply call_bind_inv in E as (? & s3 & E3 & E).
  apply call_bind_inv in E as (? & s4 & E4 & E). injection E4 as _ <-. injection E as <- <-.
  destruct (success l); simpl in E3.
  - rewrite (proj2 (Z.eqb_neq tid TID_ERROR)) in E3 by done.
    apply call_bind_inv in E3 as (? & s5 & E5 & E3). apply call_bind_inv in E3 as (? & s6 & E6 & E3).
    injection E6 as _ <-. injection E3 as _ <-. unfold modify in E5. apply bind_Ret_inv in E5 as (s7 & E7 & E5).
    injection E5 as _ <-. unfold child_at in E7. apply bind_Ret_inv in E7 as (k & _ & E7). injection E7 as <-.
    unfold tree_view, tree_adopt, set_node. simpl. f_equal.
    + rewrite alter_alter. apply fmap_alter_tree. intros u Hu. unfold tree_of. simpl.
      destruct (children_init u) eqn:Ei; simpl; [by rewrite Ei|]. by rewrite (Hinit u Hu Ei).
    + by rewrite delete_insert_eq.
  - injection E3 as _ <-. unfold tree_view, tree_drop. simpl. f_equal. by rewrite delete_insert_eq.
Qed.

Lemma find_child_in l tid s c : find_child l tid s = Ret (Some c) → c ∈ l.
Proof.
  induction l as [|y l IH]; simpl; [done|]. intros E. inv_bind.
  match goal with H : (if ?b then _ else _) = Ret _ |- _ => destruct b end; inv_bind; [by left|right; auto].
Qed.

Lemma wait_view σ t tid r s' p :
  wait_begin tid (at_thread t σ) = Ret (Val r, s') →
  tree_view s' p = tree_view (psy σ) p ∧
  (∀ c, r = Some c → ∃ u, uprocs (psy σ) !! t = Some u ∧ c ∈ children u).
Proof.
  unfold wait_begin, get, cur_proc. intros E. inv_bind. split; [done|]. intros c ->.
  match goal with H : uprocs _ !! _ = Some ?u |- _ => exists u end. split; [done|].
  match goal with H : (if ?b then _ else _) = Ret _ |- _ => destruct b end; inv_bind. by eapply find_child_in.
Qed.

Lemma waited_view σ t c s1 v s' p :
  down_terminated c (at_thread t σ) = Ret (Val true, s1) → wait_end c s1 = Ret (Val v, s') →
  (∃ k, child_heap (psy σ) !! c = Some k ∧ 0 < c_terminated k ∧ c_status k = v) ∧
  tree_view s' (<[t := InUser]> p) = tree_waited t c (tree_view (psy σ) p).
Proof.
  unfold down_terminated, sema_down, child_at. intros E1 E2. inv_bind. destruct (Z.ltb_spec 0 (c_terminated a)); [|done].
  match goal with H : Ret _ = Ret (_, s1) |- _ => injection H as <- end.
  match goal with H : child_heap _ !! _ = Some _ |- _ => rename H into Hk end.
  unfold wait_end in E2. apply call_bind_inv in E2 as (? & s2 & E & E2). injection E as _ <-.
  apply call_bind_inv in E2 as (st & s3 & E & E2). unfold get, child_at in E. inv_bind.
  match goal with H : alter _ _ _ !! _ = Some _ |- _ => rename H into Hk' end.
  apply call_bind_inv in E2 as (? & s4 & E & E2). injection E as _ <-. injection E2 as <- <-.
  rewrite lookup_alter_eq, Hk in Hk'. injection Hk' as <-. split; [by exists a|].
  unfold tree_view, tree_waited, set_node. simpl. f_equal.
  - by apply (fmap_alter_tree (λ u, u <| children ::= list_remove c |>)).
  - apply map_eq. intros i. destruct (decide (c = i)) as [->|]; [by rewrite !lookup_delete_eq|].
    by rewrite !lookup_delete_ne, lookup_alter_ne.
Qed.

Lemma free_children_view l s :
  foldl (λ s x, free_child x s) s l = s <| child_heap ::= λ h, foldl (λ h y, delete y h) h l |>.
Proof. revert s. induction l as [|c l IH]; intros s; simpl; [by destruct s|]. by rewrite IH. Qed.

(** The state after [process_exit] took the children's records. *)
Definition freed_state (u : uproc) s : sys dev files :=
  if children_init u
  then upd_cur (λ u, u <| children := [] |>) (s <| child_heap ::= λ h, foldl (λ h y, delete y h) h (children u) |>)
  else s.

Lemma process_exit_tree s s' u :
  process_exit exit_message s = Ret (Val tt, s') → cur_proc s = Ret u → same_tree (freed_state u s) s'.
Proof.
  unfold process_exit. intros (u0 & s0 & E0 & (st & s1 & E1 & (? & s2 & E2 &
    (? & s3 & E3 & E)%call_bind_inv)%call_bind_inv)%call_bind_inv)%call_bind_inv Eu.
  unfold get in E0. rewrite Eu in E0. injection E0 as <- <-.
  assert (s1 = s) as -> by (unfold get in E1; by inv_bind). injection E2 as _ <-.
  assert (same_tree (freed_state u s) s3) as Hs.
  { unfold freed_state. destruct (children_init u); injection E3 as _ <-; [|done].
    rewrite free_children_view. done. }
  eapply same_tree_trans; [exact Hs|]. revert E. generalize (Val (A := unit) tt). intros e E.
  assert (keeps (close_files (files_open u);; leave_pagedir : call (sys dev files) unit)) as Hk by keep.
  by apply Hk in E.
Qed.

Lemma freed_state_tree u s :
  uprocs s !! current (svm s) = Some u → (children_init u = false → children u = []) →
  tree_of <$> uprocs (freed_state u s)
    = alter (λ n, n <| n_children := [] |>) (current (svm s)) (tree_of <$> uprocs s) ∧
  child_heap (freed_state u s) = foldl (λ h y, delete y h) (child_heap s) (children u) ∧
  leashes (freed_state u s) = leashes s ∧ current (svm (freed_state u s)) = current (svm s).
Proof.
  intros Hu Hini. unfold freed_state. destruct (children_init u) eqn:Ei.
  - split; [|done]. by apply fmap_alter_tree.
  - rewrite Hini by done. split; [|done]. symmetry. apply alter_id. intros n.
    rewrite lookup_fmap, Hu. intros [= <-]. unfold tree_of. by rewrite Ei, Hini.
Qed.

(** The rest of [thread_exit]: the record of the process is signalled. *)
Lemma exit_user_tree s s' u c r :
  exit_user exit_message s = Ret (Val r, s') → uprocs s !! current (svm s) = Some u →
  (children_init u = false → children u = []) → self u = Some c → usr_thread u = true →
  (∀ i, i ≠ current (svm s) → tree_of <$> uprocs s' !! i = tree_of <$> uprocs s !! i) ∧
  child_heap s' = alter (λ k, k <| c_terminated ::= sema_up |>) c
                    (foldl (λ h y, delete y h) (child_heap s) (children u)) ∧
  leashes s' = leashes s ∧ r = Some c.
Proof.
  intros E Hu Hini Hc Husr. unfold exit_user in E. apply call_bind_inv in E as ([] & s2 & E2 & E).
  assert (cur_proc s = Ret u) as Ecp by (unfold cur_proc; by rewrite Hu).
  destruct (process_exit_tree _ _ _ E2 Ecp) as [C2 T2 P2 L2 _].
  destruct (freed_state_tree u s Hu Hini) as (Tf & Hf & Lf & Cf).
  apply call_bind_inv in E as (u2 & s3 & E3 & E). unfold get, cur_proc in E3. inv_bind.
  match goal with H : uprocs _ !! _ = Some u2 |- _ => rename H into Hu2; rewrite C2, Cf in Hu2 end.
  assert (tree_of u2 = (tree_of u) <| n_children := [] |>) as En.
  { specialize (T2 (current (svm s))). rewrite Hu2, <- lookup_fmap, Tf, lookup_alter_eq, lookup_fmap, Hu in T2.
    by apply (inj Some) in T2. }
  injection En as _ _ Es Eusr. simpl in Es, Eusr. rewrite Eusr, Es, Husr, Hc in E.
  apply call_bind_inv in E as (? & s4 & E4 & E). apply keeps_fs_do in E4 as [C4 T4 P4 L4 _].
  apply call_bind_inv in E as (c' & s5 & E5 & E). unfold get in E5. inv_bind.
  apply call_bind_inv in E as (? & s6 & E6 & E). unfold modify in E6. inv_bind. injection E as <- <-. simpl.
  split; [|split; [|split; [|done]]].
  - intros i Hi. rewrite T4, T2, <- lookup_fmap, Tf, lookup_alter_ne, lookup_fmap by done. done.
  - by rewrite P4, P2, Hf.
  - by rewrite L4, L2.
Qed.

Lemma sys_exit_inv v s s1 :
  sys_exit v s = Ret (@Exits unit, s1) →
  ∃ u c, uprocs s !! current (svm s) = Some u ∧ self u = Some c ∧
    s1 = s <| child_heap ::= alter (λ k, k <| c_status := v |>) c |>.
Proof.
  unfold sys_exit, mbind, call_bind, get, modify, cur_proc, thread_exit.
  destruct (uprocs s !! current (svm s)) as [u|] eqn:Hu; [|done]. simpl.
  destruct (self u) as [c|] eqn:Hc; [|done]. simpl.
  destruct (child_heap s !! c); [|done]. simpl. intros [= <-]. by exists u, c.
Qed.

(** [exit] only writes the status. *)
Lemma exit_start σ t status s1 u c :
  match status with
  | Some v => sys_exit v (at_thread t σ) = Ret (@Exits unit, s1)
  | None => s1 = at_thread t σ
  end →
  uprocs s1 !! t = Some u → self u = Some c →
  current (svm s1) = t ∧ uprocs s1 = uprocs (psy σ) ∧ leashes s1 = leashes (psy σ) ∧
  (∀ y, y ≠ c → child_heap s1 !! y = child_heap (psy σ) !! y) ∧
  (∀ k, child_heap s1 !! c = Some k →
    ∃ k0, child_heap (psy σ) !! c = Some k0 ∧ c_terminated k = c_terminated k0).
Proof.
  intros Hs1 Hu Hc. destruct status as [v|]; [|subst; split_and!; [done..|by eauto]].
  apply sys_exit_inv in Hs1 as (u0 & c0 & Hu0 & Hc0 & ->). simpl in *. rewrite Hu in Hu0. injection Hu0 as <-.
  rewrite Hc in Hc0. injection Hc0 as <-. split_and!; [done..| |].
  - intros y Hy. by rewrite lookup_alter_ne.
  - intros k Hk. rewrite lookup_alter_eq in Hk. destruct (child_heap (psy σ) !! c) as [k0|]; [|done].
    injection Hk as <-. by exists k0.
Qed.

Lemma exit_view σ t s1 u c k r s' p :
  current (svm s1) = t → uprocs s1 = uprocs (psy σ) → leashes s1 = leashes (psy σ) →
  (∀ y, y ≠ c → child_heap s1 !! y = child_heap (psy σ) !! y) →
  uprocs s1 !! t = Some u → self u = Some c → child_heap s1 !! c = Some k →
  exit_user exit_message s1 = Ret (Val r, s') →
  usr_thread u = true → (children_init u = false → children u = []) → c ∉ children u → c_terminated k = 0 →
  tree_view (thread_gone t s') (delete t p)
    = tree_exit t c (k <| c_terminated := 1 |>) (children u) (tree_view (psy σ) p).
Proof.
  intros Ecur Eu El Eh Hu Hc Hk E Husr Hini Hcn Hk0.
  rewrite <- Ecur in Hu. destruct (exit_user_tree _ _ _ _ _ E Hu Hini Hc Husr) as (T & P & L & _).
  rewrite Ecur in *. unfold tree_view, tree_exit. simpl. rewrite L, El. f_equal.
  - apply map_eq. intros i. rewrite lookup_fmap. destruct (decide (t = i)) as [->|]; [by rewrite !lookup_delete_eq|].
    rewrite !lookup_delete_ne, lookup_fmap, T, Eu by done. done.
  - rewrite P. apply map_eq. intros i. destruct (decide (c = i)) as [<-|].
    + rewrite lookup_alter_eq, lookup_free_all, decide_False, Hk, lookup_insert_eq by done. simpl.
      destruct k as [kt kz ks]. simpl in Hk0. by subst kz.
    + rewrite lookup_alter_ne, lookup_insert_ne, !lookup_free_all by done. case_decide; [done|]. by apply Eh.
Qed.

(** ** The invariant of orderly runs *)

Definition pinv (m : gmap Z Z) σ : Prop :=
  ∃ R, tree_ok (tree_view (psy σ) (pcs σ)) R ∧ ∀ c v, m !! c = Some v ↔ R !! c = Some (REnded v).

Lemma view_proc s p t u : uprocs s !! t = Some u → t_procs (tree_view s p) !! t = Some (tree_of u).
Proof. intros Hu. simpl. by rewrite lookup_fmap, Hu. Qed.

Lemma view_proc_inv s p t n : t_procs (tree_view s p) !! t = Some n → ∃ u, uprocs s !! t = Some u ∧ n = tree_of u.
Proof. simpl. rewrite lookup_fmap. intros (u & -> & Hu)%fmap_Some. by exists u. Qed.

Lemma live_alive σ p R c t : tree_ok (tree_view (psy σ) p) R → R !! c = Some (RLive t) → alive σ c.
Proof.
  intros Ok Hc. destruct (to_live _ _ Ok c t Hc) as (n & Hn & Hs).
  apply view_proc_inv in Hn as (u & Hu & ->). by exists t, u.
Qed.

(** The child whose loading is over. *)
Lemma not_loading x R t l : tree_ok x R → t_leash x !! t = Some l → 0 < success_set l →
  ∀ t', R !! l_child l ≠ Some (RLoading t').
Proof.
  intros Ok Hl Hset t' HR. destruct (to_loading _ _ Ok _ _ HR) as (par & l' & Hpc & Hl' & Ec).
  assert (par = t) as ->.
  { eapply (to_own _ _ Ok); [right; exists l'; split; [done|exact Ec]|right; by exists l]. }
  assert (l' = l) as -> by congruence. destruct (to_load _ _ Ok _ _ Hpc) as (l' & n & Hl'' & _ & Hz & _).
  assert (l' = l) as -> by congruence. lia.
Qed.

Lemma booted_inv σ : booted σ → pinv ∅ σ.
Proof.
  intros [Hu (t & Hp & Ht) [Hh Hl]]. exists ∅. split; [|done].
  assert (∀ i n, t_procs (tree_view (psy σ) (pcs σ)) !! i = Some n → n = Node [] false None false) as Hn.
  { intros i n (u & Hi & ->)%view_proc_inv. by eapply Hu. }
  assert (∀ i q, pcs σ !! i = Some q → i = t ∧ q = InUser) as Hpc.
  { rewrite Hp. by intros i q [-> ->]%lookup_singleton_Some. }
  split; unfold tree_view in *; simpl in *; rewrite ?Hh, ?Hl; try (intros; simplify_eq/=; done).
  - intros i par [_ ?]%Hpc. done.
  - intros i n c ->%Hn. done.
  - intros i [q [-> _]%Hpc]. by rewrite lookup_fmap, fmap_is_Some.
  - intros i n ->%Hn. split; [constructor|]. split; [done|]. by intros c ?%elem_of_nil.
  - intros t1 t2 c [(n & ->%Hn & ?%elem_of_nil)|(l & El & _)]; done.
  - intros i c [_ ?]%Hpc. done.
  - intros i tid [_ ?]%Hpc. done.
Qed.

Lemma step_execute_inv m σ t name np cp th r s' :
  pinv m σ → pcs σ !! t = Some InUser →
  (∀ c, cp = Some c → child_heap (psy σ) !! c = None) →
  (∀ t' tid, th = Some (t', tid) → uprocs (psy σ) !! t' = None) →
  execute_begin np cp th name (at_thread t σ) = Ret (Val r, s') →
  pinv m (MkPsys s' (match r, th with
                     | Some tid, Some (t', _) => <[t' := ToLoad t]> (<[t := InExecute tid]> (pcs σ))
                     | _, _ => pcs σ
                     end)).
Proof.
  intros (R & Ok & Hm) Hpc Hc Ht E. apply (execute_view σ t name np cp th r s' (pcs σ) Hc) in E. unfold pinv. simpl.
  destruct r as [tid|], th as [[t' tid']|]; try (destruct E as [_ ->]; exists R; split; [exact Ok|exact Hm]).
  destruct E as (c & -> & ->). specialize (Hc c eq_refl). specialize (Ht t' tid' eq_refl).
  exists (<[c := RLoading t']> R). split.
  - apply tree_execute_ok; [done..|]. simpl.
    by rewrite lookup_fmap, Ht.
  - intros y v. rewrite Hm. destruct (decide (c = y)) as [<-|]; [|by rewrite lookup_insert_ne].
    rewrite lookup_insert_eq. split; [|done]. intros HR. pose proof (to_heap _ _ Ok c) as Hk.
    rewrite HR in Hk. simpl in Hk. by rewrite Hc in Hk.
Qed.

Lemma step_load_inv m σ t par r s' :
  pinv m σ → pcs σ !! t = Some (ToLoad par) → start_process par (at_thread t σ) = Ret (Val r, s') →
  pinv m (MkPsys s' (<[t := if r is Some _ then InUser else Failed]> (pcs σ))).
Proof.
  intros (R & Ok & Hm) Hpc E. destruct (to_load _ _ Ok t par Hpc) as (l & n & Hl & HR & Hz & _).
  exists (<[l_child l := RLive t]> R). simpl. rewrite (load_view σ t par l r s' _ Hl Hz E). split.
  - eapply tree_load_ok; done.
  - intros y v. rewrite Hm. destruct (decide (l_child l = y)) as [<-|]; [|by rewrite lookup_insert_ne].
    rewrite lookup_insert_eq, HR. done.
Qed.

Lemma step_executed_inv m σ t tid l s1 v s' :
  pinv m σ → pcs σ !! t = Some (InExecute tid) → tid ≠ TID_ERROR → leashes (psy σ) !! t = Some l →
  down_success_set (at_thread t σ) = Ret (Val true, s1) → execute_end tid s1 = Ret (Val v, s') →
  (success l = false → ¬ alive σ (l_child l)) →
  pinv (if success l then m else delete (l_child l) m) (MkPsys s' (<[t := InUser]> (pcs σ))).
Proof.
  intros (R & Ok & Hm) Hpc Htid Hl E1 E2 Hdead.
  destruct (to_pcs _ _ Ok t) as [n Hn]; [by eexists|].
  apply view_proc_inv in Hn as (u & Hu & ->).
  destruct (executed_view σ t tid l s1 v s' (pcs σ) Hl Htid) as [Hset Ev]; [|done..|].
  { intros u' Hu'. destruct (to_children _ _ Ok t _ (view_proc _ _ _ _ Hu')) as (_ & Hi & _). exact Hi. }
  pose proof (not_loading _ _ t l Ok Hl Hset) as Hnl. unfold pinv. simpl. rewrite Ev.
  destruct (success l).
  - exists R. split; [|done]. eapply tree_adopt_ok; [done..|by eapply view_proc|done].
  - exists (delete (l_child l) R). destruct (to_leash _ _ Ok t l Hl) as ([r Hr] & _ & _).
    destruct r as [t'|t'|w]; [by destruct (Hnl t')|by destruct Hdead; [done|eapply live_alive]|].
    split; [eapply tree_drop_ok; [done..|by eapply view_proc|done]|].
    intros y v'. destruct (decide (l_child l = y)) as [<-|]; [by rewrite !lookup_delete_eq|].
    by rewrite !lookup_delete_ne.
Qed.

Lemma step_waited_inv m σ t c s1 v s' :
  pinv m σ → pcs σ !! t = Some (InWait c) →
  down_terminated c (at_thread t σ) = Ret (Val true, s1) → wait_end c s1 = Ret (Val v, s') →
  m !! c = Some v ∧ pinv (delete c m) (MkPsys s' (<[t := InUser]> (pcs σ))).
Proof.
  intros (R & Ok & Hm) Hpc E1 E2. destruct (waited_view _ _ _ _ _ _ (pcs σ) E1 E2) as [(k & Hk & Hz & <-) Ev].
  pose proof (to_heap _ _ Ok c) as Hrec. simpl in Hrec. rewrite Hk in Hrec.
  destruct (to_wait _ _ Ok t c Hpc) as (n & Hn & Hc).
  assert (R !! c = Some (REnded (c_status k))) as HR.
  { destruct (R !! c) as [[]|]; simpl in Hrec; try lia. by destruct Hrec as [_ ->]. }
  split; [by apply Hm|]. exists (delete c R). simpl. rewrite Ev. split; [by eapply tree_waited_ok|].
  intros y v'. destruct (decide (c = y)) as [<-|]; [by rewrite !lookup_delete_eq|]. by rewrite !lookup_delete_ne.
Qed.

(** The end of a process, on the tree. *)
Lemma exit_tree_view σ R t status u c k s1 r s' :
  tree_ok (tree_view (psy σ) (pcs σ)) R →
  match status with
  | Some v => sys_exit v (at_thread t σ) = Ret (@Exits unit, s1)
  | None => s1 = at_thread t σ
  end →
  uprocs s1 !! t = Some u → self u = Some c → child_heap s1 !! c = Some k →
  exit_user exit_message s1 = Ret (Val r, s') → (∀ y, y ∈ children u → ¬ alive σ y) →
  t_procs (tree_view (psy σ) (pcs σ)) !! t = Some (tree_of u) ∧ R !! c = Some (RLive t) ∧ r = Some c ∧
  tree_view (thread_gone t s') (delete t (pcs σ))
    = tree_exit t c (k <| c_terminated := 1 |>) (children u) (tree_view (psy σ) (pcs σ)).
Proof.
  intros Ok Hs1 Hu Hc Hk E Hdead.
  destruct (exit_start _ _ _ _ _ _ Hs1 Hu Hc) as (Ecur & Eu & El & Eh & Ec).
  destruct (Ec k Hk) as (k0 & Hk0 & Ek). pose proof Hu as Hu0. rewrite Eu in Hu0.
  pose proof (view_proc _ (pcs σ) _ _ Hu0) as Hn. destruct (to_self _ _ Ok t _ c Hn Hc) as [HRc Husr].
  destruct (to_children _ _ Ok t _ Hn) as (_ & Hini & _).
  assert (c ∉ children u) as Hcn by (intros Hin; by apply (Hdead c Hin); exists t, u).
  assert (c_terminated k = 0) as Hz.
  { pose proof (to_heap _ _ Ok c) as Hrec. simpl in Hrec. rewrite HRc, Hk0 in Hrec. simpl in Hrec. by rewrite Ek. }
  pose proof Hu as Hu1. rewrite <- Ecur in Hu1.
  destruct (exit_user_tree _ _ _ _ _ E Hu1 Hini Hc Husr) as (_ & _ & _ & Er).
  split_and!; [done..|]. by apply (exit_view σ t s1 u c k r s' (pcs σ)).
Qed.

Lemma step_exit_inv m σ t status u c k s1 r s' :
  pinv m σ → pcs σ !! t = Some InUser ∨ pcs σ !! t = Some Failed ∧ status = None →
  match status with
  | Some v => sys_exit v (at_thread t σ) = Ret (@Exits unit, s1)
  | None => s1 = at_thread t σ
  end →
  uprocs s1 !! t = Some u → self u = Some c → child_heap s1 !! c = Some k →
  exit_user exit_message s1 = Ret (Val r, s') → (∀ y, y ∈ children u → ¬ alive σ y) →
  pinv (<[c := c_status k]> (foldl (λ m y, delete y m) m (children u)))
    (MkPsys (thread_gone t s') (delete t (pcs σ))).
Proof.
  intros (R & Ok & Hm) Hpc Hs1 Hu Hc Hk E Hdead.
  destruct (exit_tree_view σ R t status u c k s1 r s' Ok Hs1 Hu Hc Hk E Hdead) as (Hn & HRc & _ & Ev).
  destruct (to_self _ _ Ok t _ c Hn Hc) as [_ Husr].
  exists (<[c := REnded (c_status k)]> (foldl (λ h y, delete y h) R (children u))).
  cbn [psy pcs].
  rewrite Ev. split.
  - refine (tree_exit_ok _ R t c (tree_of u) (k <| c_terminated := 1 |>) Ok Hn _ _ _ _ _); try done.
    + destruct (t_leash _ !! t) as [l|] eqn:Hl; [|done]. destruct (to_leash _ _ Ok t l Hl) as (_ & (tid & Htid) & _).
      simpl in Htid. destruct Hpc as [Hpc|[Hpc _]]; congruence.
    + intros par Hpar. simpl in Hpar. destruct Hpc as [Hpc|[Hpc _]]; congruence.
    + intros y s Hy HR. by eapply Hdead, live_alive.
  - intros y v. destruct (decide (c = y)) as [<-|].
    + rewrite !lookup_insert_eq. by split; intros [= ->].
    + rewrite !lookup_insert_ne, !lookup_free_all by done. case_decide; [done|apply Hm].
Qed.

Lemma pstep_inv m σ e σ' : pinv m σ → pstep σ e σ' → orderly σ e → pinv (pend_step m e) σ'.
Proof.
  intros Hi Hstep Hord. destruct Hstep; simpl in Hord |- *.
  - destruct Hi as (R & Ok & Hm). exists R. split; [|exact Hm]. simpl.
    by rewrite (same_tree_view (at_thread t σ) s').
  - by eapply step_execute_inv.
  - by eapply step_load_inv.
  - assert (success l = false → ¬ alive σ (l_child l)) as Hdead by (by destruct (success l)).
    pose proof (step_executed_inv m σ t tid l s1 v s' Hi) as Hi'. destruct (success l); by apply Hi'.
  - destruct (wait_view σ t tid r s' (match r with Some c => <[t := InWait c]> (pcs σ) | None => pcs σ end))
      as [Ev Hc]; [done|]. destruct Hi as (R & Ok & Hm). exists R. split; [|done]. simpl. rewrite Ev.
    destruct r as [c|]; [|done]. destruct (Hc c eq_refl) as (u & Hu & Hin).
    eapply (tree_wait_ok (tree_view (psy σ) (pcs σ))); [done..|by eapply view_proc|done].
  - by eapply step_waited_inv.
  - by eapply step_exit_inv.
Qed.

Lemma prun_inv σ0 m σ : booted σ0 → prun σ0 m σ → pinv m σ.
Proof. intros Hb. induction 1; [by apply booted_inv|by eapply pstep_inv]. Qed.

(** ** What parents and children can rely on *)

Lemma down_then_end σ t tid l k :
  leashes (psy σ) !! t = Some l → child_heap (psy σ) !! l_child l = Some k → 0 < success_set l →
  ∃ s1 v s', down_success_set (at_thread t σ) = Ret (Val true, s1) ∧ execute_end tid s1 = Ret (Val v, s').
Proof.
  intros Hl Hk Hset.
  assert (down_success_set (at_thread t σ) = Ret (Val true, (at_thread t σ)
    <| leashes ::= <[t := l <| success_set := success_set l - 1 |>]> |>)) as E1.
  { unfold down_success_set, sema_down. simpl. rewrite Hl. simpl. by rewrite (proj2 (Z.ltb_lt _ _)). }
  destruct ((if success l then tid else TID_ERROR) =? TID_ERROR) eqn:Et;
    (eexists _, _, _; split; [exact E1|]); unfold execute_end;
    (call_ret by (unfold get; simpl; rewrite lookup_insert_eq; reflexivity)); simpl; rewrite Et.
  - reflexivity.
  - unfold modify, child_at, mbind, call_bind. simpl. rewrite Hk. simpl. reflexivity.
Qed.

(** C7. In an orderly run, in which no process ends before its children and no
    [process_execute] gives back the record of a child that is still alive (a child
    whose load failed: process.c:75 does so before that child has ended, and a
    [process_wait] that meets the freed record can return early), [process_wait] of a
    child that was not waited for yet returns the status with which the child ended
    (-1 if it was killed), and no earlier: while the child runs, there is nothing that
    the parent could return. *)
Theorem wait_returns_exit_status σ0 m σ c v σ' :
  booted σ0 → prun σ0 m σ → pstep σ (Waited c v) σ' → m !! c = Some v ∧ ¬ alive σ c.
Proof.
  intros Hb Hrun Hstep. pose proof (prun_inv _ _ _ Hb Hrun) as Hi. inversion Hstep as [| | |?????? E| |? ? ? ? ? Hpc E1 E2|].
  { by destruct (success _). }
  subst. destruct (step_waited_inv _ _ _ _ _ _ _ Hi Hpc E1 E2) as [Hc _]. split; [done|].
  destruct Hi as (R & Ok & Hm). intros (s & u & Hu & Hself). apply view_proc with (p := pcs σ) in Hu.
  destruct (to_self _ _ Ok s _ c Hu Hself) as [HR _]. apply Hm in Hc. congruence.
Qed.

(** C21. In an orderly run no rendezvous blocks for ever: a parent that waits for a child can go
    on as soon as the child has ended, and one that started a child as soon as the child
    has tried to load its program. *)
Theorem rendezvous_goes_on σ0 m σ t :
  booted σ0 → prun σ0 m σ →
  (∀ c, pcs σ !! t = Some (InWait c) → alive σ c ∨ ∃ v σ', pstep σ (Waited c v) σ') ∧
  (∀ tid, pcs σ !! t = Some (InExecute tid) → tid ≠ TID_ERROR →
     (∃ t', pcs σ !! t' = Some (ToLoad t)) ∨ ∃ e σ', pstep σ e σ' ∧ pcs σ' !! t = Some InUser).
Proof.
  intros Hb Hrun. destruct (prun_inv _ _ _ Hb Hrun) as (R & Ok & Hm). split.
  - intros c Hpc. destruct (to_wait _ _ Ok t c Hpc) as (n & Hn & Hc).
    destruct (to_children _ _ Ok t n Hn) as (_ & _ & Hall). destruct (Hall c Hc) as [[r Hr] Hnl].
    destruct r as [t'|t'|v]; [by destruct (Hnl t')|left; by eapply live_alive|]. right.
    pose proof (to_heap _ _ Ok c) as Hk. rewrite Hr in Hk. simpl in Hk.
    destruct (child_heap (psy σ) !! c) as [k|] eqn:Ek; [|done]. destruct Hk as [Hz <-].
    eexists _, _. eapply step_waited; [done| |].
    + unfold down_terminated, child_at. simpl. rewrite Ek. simpl. unfold sema_down. rewrite Hz. reflexivity.
    + unfold wait_end. call_ret by reflexivity.
      call_ret by (unfold get, child_at; simpl; rewrite lookup_alter_eq, Ek; reflexivity). reflexivity.
  - intros tid Hpc Htid. destruct (to_exec _ _ Ok t tid Hpc) as [l Hl]. simpl in Hl.
    destruct (Z.le_gt_cases (success_set l) 0) as [Hz|Hset].
    + left. destruct (to_set _ _ Ok t l Hl Hz) as (t' & HR).
      destruct (to_loading _ _ Ok _ _ HR) as (par & l' & Hpc' & Hl' & Ec). exists t'. simpl in Hpc'. rewrite Hpc'.
      do 2 f_equal. eapply (to_own _ _ Ok); right; [by exists l'|by exists l].
    + right. destruct (to_leash _ _ Ok t l Hl) as ([r Hr] & _). pose proof (to_heap _ _ Ok (l_child l)) as Hk.
      rewrite Hr in Hk. simpl in Hk. destruct (child_heap (psy σ) !! l_child l) as [k|] eqn:Ek; [|by destruct r].
      destruct (down_then_end σ t tid l k Hl Ek Hset) as (s1 & v & s' & E1 & E2).
      eexists _, _. split; [by eapply step_executed|]. simpl. by rewrite lookup_insert_eq.
Qed.

(** C33. A process that ends before one of its children takes the child's record with it.
    The child then cannot end: [exit], a kill and every other way into [thread_exit]
    go through the record that is gone. *)
Theorem orphan_exit_panics σ0 m σ c v freed σ' x t u :
  booted σ0 → prun σ0 m σ → pstep σ (Ended c v freed) σ' → x ∈ freed →
  uprocs (psy σ') !! t = Some u → self u = Some x →
  exit_user exit_message (at_thread t σ') = Panic ∧
  ∀ status, sys_exit (A := unit) status (at_thread t σ') = Panic.
Proof.
  intros Hb Hrun Hstep Hx Hu Hself. destruct (prun_inv _ _ _ Hb Hrun) as (R & Ok & _).
  inversion Hstep as [| | |? ? ? ? ? ? ? ? ? ? E| | |p status up ? k s1 r s' Hpc Hs1 Hup Hc Hk E]; [by destruct (success _)|]. subst.
  destruct (exit_start _ _ _ _ _ _ Hs1 Hup Hc) as (Ecur & Eu & _). pose proof Hup as Hup0. rewrite Eu in Hup0.
  pose proof (view_proc _ (pcs σ) _ _ Hup0) as Hn. destruct (to_self _ _ Ok p _ c Hn Hc) as [HRc Husr].
  destruct (to_children _ _ Ok p _ Hn) as (_ & Hini & _). rewrite <- Ecur in Hup.
  destruct (exit_user_tree _ _ _ _ _ E Hup Hini Hc Husr) as (T & P & _). rewrite Ecur in T.
  simpl in Hu. destruct (decide (p = t)) as [->|Hne]; [by rewrite lookup_delete_eq in Hu|].
  rewrite lookup_delete_ne in Hu by done.
  assert (x ≠ c) as Hxc.
  { intros ->. specialize (T t (not_eq_sym Hne)). rewrite Hu, Eu in T.
    destruct (uprocs (psy σ) !! t) as [u0|] eqn:Hu0; [|done]. apply (inj Some) in T. injection T as _ _ Es _.
    rewrite Hself in Es. destruct (to_self _ _ Ok t _ c (view_proc _ (pcs σ) _ _ Hu0) (eq_sym Es)) as [HR _]. congruence. }
  assert (child_heap s' !! x = None) as Hgone.
  { rewrite P, lookup_alter_ne by done. by rewrite lookup_free_all, decide_True. }
  split.
  - unfold exit_user, process_exit, mbind, call_bind, get, cur_proc, child_at. simpl.
    rewrite lookup_delete_ne, Hu by done. simpl. rewrite Hself. simpl. by rewrite Hgone.
  - intros status'. unfold sys_exit, mbind, call_bind, get, modify, cur_proc. simpl.
    rewrite lookup_delete_ne, Hu by done. simpl. rewrite Hself. simpl. by rewrite Hgone.
Qed.
End steps.
