(* ===== verification/UserKernel.v ===== *)
(** * The kernel with its processes
    (virtual-memory/threads/thread.c and userprog/process.c together)

    RoundRobin.v runs threads, ProcSteps.v the halves of [process_execute],
    [start_process], [process_wait] and [thread_exit].  Here the thread on the CPU is the
    one that takes such a step: processes are the [UserThreads] of the scheduler, and a
    process that finds a semaphore at zero waits on its list until [sema_up] wakes it. *)
From S2P Require Import Prelude CInt Ext Interrupt Threads Mmu PageDir Swap PageTable UserFiles Elf Frame Page VmSpec UserCall Exception UserMem Load Process Syscall ProcTree Rendezvous ProcSteps RunQueue RoundRobin.
From stdpp Require Import strings.
Open Scope Z_scope.

(** The semaphores that processes sleep on: [leash.success_set] of the thread that is in
    [process_execute], and [terminated] of a child record. *)
Inductive sema := SuccessSet (parent : Z) | Terminated (c : Z).

#[export] Instance sema_eq_dec : EqDecision sema.
Proof. solve_decision. Defined.
#[export] Instance sema_countable : Countable sema.
Proof.
  refine (inj_countable' (λ s, match s with SuccessSet p => inl p | Terminated c => inr c end)
    (λ s, match s with inl p => SuccessSet p | inr c => Terminated c end) _).
  by intros [].
Defined.

(** The processes, with the list of waiters of each semaphore; its value is in [child] or
    [leash]. *)
Record usys (dev files : Type) := MkUsys {
  procsys : psys (dev := dev) (files := files);
  waiters : gmap sema (list Z)
}.
Arguments MkUsys {dev files} _ _.
Arguments procsys {dev files} _.
Arguments waiters {dev files} _.
#[export] Instance eta_usys {dev files} : Eta (usys dev files) := λ u, MkUsys (procsys u) (waiters u).
#[export] Instance eta_psys {dev files} : Eta (psys (dev := dev) (files := files)) := λ σ, MkPsys (psy σ) (pcs σ).

(** [list_push_back] and the [thread_unblock] of [sema_up], on the list of waiters. *)
Definition waiting_on (w : gmap sema (list Z)) (sm : sema) : list Z := default [] (w !! sm).
Definition sema_pop (sm : sema) (w : gmap sema (list Z)) : list Z * gmap sema (list Z) :=
  match waiting_on w sm with
  | [] => ([], w)
  | t :: l => ([t], <[sm := l]> w)
  end.

Section kernel.
Context `{Vaddr, !Pte, Selectors, KernelMemory, StartRegs}.
Context {dev files : Type} `{BlockDevice dev, FileOps files, FileCalls files}.
Context `{!FaultHandler (sys dev files), !ProgramPages (sys dev files), !ProcessPages (sys dev files)}.
Variable exit_message : option (list Z) → Z → list Z.

Notation kcall := (call (sys dev files)).
Implicit Types (u : usys dev files) (t c : Z).

Definition upd_sys (s : sys dev files) u : usys dev files := u <| procsys ::= λ σ, σ <| psy := s |> |>.
Definition goes_to t (p : pc) u : usys dev files := u <| procsys ::= λ σ, σ <| pcs ::= <[t := p]> |> |>.

(** A call made by thread [t]. *)
Definition run_call {A} (m : kcall A) t u : outcome (ending A * usys dev files) :=
  '(e, s) ← m (at_thread t (procsys u)); Ret (e, upd_sys s u).

(** What thread.c sees.  The page of a thread holds its user fields and, with its stack,
    the place where it goes on. *)
#[local] Instance process_threads : UserThreads (usys dev files) := {|
  user_init t u := upd_sys (new_thread t [] (psy (procsys u))) u;
  user_free t u := u <| procsys ::= λ σ, MkPsys (thread_gone t (psy σ)) (delete t (pcs σ)) |>;
  has_pagedir t u :=
    match procs (svm (psy (procsys u))) !! t with
    | Some th => bool_decide (is_Some (pagedir th))
    | None => false
    end;
  process_activate t u := '(_, u') ← run_call Load.process_activate t u; Ret u';
  process_leave t u :=
    '(e, u') ← run_call (exit_user exit_message) t u;
    match e with
    | Val (Some c) => let '(l, w) := sema_pop (Terminated c) (waiters u') in Ret (u' <| waiters := w |>, l)
    | Val None => Ret (u', [])
    | _ => Panic
    end
|}.

Notation kern := (kern (usys dev files)).
Implicit Types (k : kern).

(** Sizes of the frames of [thread_create]. *)
Variables sizeof_switch_entry_frame sizeof_switch_threads_frame : Z.

(** The bytes of a file name, as [thread_create] is given it. *)
Definition to_string (l : list Z) : string :=
  foldr (λ b s, String.String (Ascii.ascii_of_N (Z.to_N b)) s) ""%string l.

Definition systems k : psys (dev := dev) (files := files) := procsys (user k).
Definition pc_at t k : option pc := pcs (systems k) !! t.

(** [sema_down] of a semaphore at zero. *)
Definition sleep (sm : sema) k : outcome kern :=
  let t := running k in
  let '(old_level, i) := intr_disable (cpu k) in
  thread_block old_level
    (k <| cpu := i |> <| user ::= λ u, u <| waiters ::= <[sm := waiting_on (waiters u) sm ++ [t]]> |> |>).

(** Operations of the thread on the CPU.  [KCall] is any other kernel call; one that ends in
    [thread_exit] is followed by [KExit]. *)
Inductive kop :=
  | KYield
  | KTick
  | KLevel (l : intr_level)
  | KIdle
  | KCall (m : kcall unit)
  | KExecute (name : list Z) (name_page child_page thread_page : option Z)
  | KStart
  | KGoOn
  | KWait (tid : Z)
  | KExit (status : option Z).

(** [process_execute] up to [sema_down]; the lists of its new semaphores are empty. *)
Definition kernel_execute (name : list Z) (name_page child_page thread_page : option Z) k : outcome kern :=
  let t := running k in
  '(tid, k1) ← (if bool_decide (is_Some name_page) && bool_decide (is_Some child_page)
                then thread_create sizeof_switch_entry_frame sizeof_switch_threads_frame
                       (to_string name) PRI_DEFAULT thread_page k
                else Ret (TID_ERROR, k));
  '(e, u) ← run_call (execute_begin name_page child_page ((λ t', (t', tid)) <$> thread_page) name) t (user k1);
  match e, child_page, thread_page with
  | Val (Some tid), Some c, Some t' =>
      let u1 := goes_to t' (ToLoad t) (goes_to t (InExecute tid) u) in
      Ret (k1 <| user := u1 <| waiters ::= λ w, delete (SuccessSet t) (delete (Terminated c) w) |> |>)
  | Val None, _, _ => Ret (k1 <| user := u |>)
  | _, _, _ => Panic
  end.

(** [start_process], with its [sema_up].  Leaving through [thread_exit] while the program
    is loaded panics: [self] is still null. *)
Definition kernel_start (parent : Z) k : outcome kern :=
  let t := running k in
  '(e, u) ← run_call (start_process parent) t (user k);
  match e with
  | Val r =>
      let '(l, w) := sema_pop (SuccessSet parent) (waiters u) in
      unblock_all l (k <| user := goes_to t (match r with Some _ => InUser | None => Failed end) (u <| waiters := w |>) |>)
  | _ => Panic
  end.

(** The rest of [process_execute], or to sleep (again); what became of the child. *)
Definition kernel_executed (tid : Z) k : outcome (event * kern) :=
  let t := running k in
  l ← deref (leashes (psy (systems k)) !! t);
  '(e, u) ← run_call down_success_set t (user k);
  match e with
  | Val true =>
      '(e', s) ← execute_end tid (psy (procsys u));
      match e' with
      | Val _ => Ret (if success l then Tau else Dropped (l_child l), k <| user := goes_to t InUser (upd_sys s u) |>)
      | _ => Panic
      end
  | Val false => k' ← sleep (SuccessSet t) k; Ret (Tau, k')
  | _ => Panic
  end.

(** The rest of [process_wait], and what it returned. *)
Definition kernel_waited (c : Z) k : outcome (event * kern) :=
  let t := running k in
  '(e, u) ← run_call (down_terminated c) t (user k);
  match e with
  | Val true =>
      '(e', s) ← wait_end c (psy (procsys u));
      match e' with
      | Val v => Ret (Waited c v, k <| user := goes_to t InUser (upd_sys s u) |>)
      | _ => Panic
      end
  | Val false => k' ← sleep (Terminated c) k; Ret (Tau, k')
  | _ => Panic
  end.

(** [process_wait] up to [sema_down]. *)
Definition kernel_wait (tid : Z) k : outcome kern :=
  let t := running k in
  '(e, u) ← run_call (wait_begin tid) t (user k);
  match e with
  | Val (Some c) => Ret (k <| user := goes_to t (InWait c) u |>)
  | Val None => Ret (k <| user := u |>)
  | _ => Panic
  end.

(** [exit], or the end of a process that is killed or failed to load. *)
Definition kernel_exit (status : option Z) k : outcome (event * kern) :=
  let t := running k in
  u ← match status with
      | Some v => '(_, u) ← run_call (sys_exit (A := unit) v) t (user k); Ret u
      | None => Ret (user k)
      end;
  p ← deref (uprocs (psy (procsys u)) !! t);
  c ← deref (self p);
  x ← child_at (psy (procsys u)) c;
  k' ← RoundRobin.thread_exit (k <| user := u |>);
  Ret (Ended c (c_status x) (children p), k').

(** The event that the processes see. *)
Definition run_op (op : kop) k : outcome (event * kern) :=
  match op with
  | KYield => k' ← thread_yield k; Ret (Tau, k')
  | KTick => k' ← tick_interrupt k; Ret (Tau, k')
  | KLevel l => '(_, i) ← intr_set_level l (cpu k); Ret (Tau, k <| cpu := i |>)
  | KIdle => k' ← idle_round k; Ret (Tau, k')
  | KCall m => '(_, u) ← run_call m (running k) (user k); Ret (Tau, k <| user := u |>)
  | KExecute name np cp tp => k' ← kernel_execute name np cp tp k; Ret (Tau, k')
  | KStart =>
      match pc_at (running k) k with
      | Some (ToLoad par) => k' ← kernel_start par k; Ret (Tau, k')
      | _ => Stuck
      end
  | KGoOn =>
      match pc_at (running k) k with
      | Some (InExecute tid) => kernel_executed tid k
      | Some (InWait c) => kernel_waited c k
      | _ => Stuck
      end
  | KWait tid => k' ← kernel_wait tid k; Ret (Tau, k')
  | KExit status => kernel_exit status k
  end.

Definition op_ticks (op : kop) : Z := match op with KTick => 1 | _ => 0 end.

(** Which thread may do what.  [palloc_get_page] returns pages that are not in use,
    identifiers have not wrapped around, and other kernel calls leave the process tree
    alone (ProcTree.v). *)
Definition op_ok (op : kop) k : Prop :=
  match op with
  | KYield | KTick | KLevel _ => True
  | KIdle => idle_thread k = Some (running k)
  | KCall m => pc_at (running k) k = Some InUser ∧ keeps m
  | KExecute _ _ cp tp =>
      pc_at (running k) k = Some InUser ∧ next_tid k ≠ TID_ERROR ∧
      (∀ c, cp = Some c → child_heap (psy (systems k)) !! c = None) ∧
      (∀ t', tp = Some t' → threads k !! t' = None)
  | KStart | KGoOn => True
  | KWait _ => pc_at (running k) k = Some InUser
  | KExit status =>
      pc_at (running k) k = Some InUser ∨ pc_at (running k) k = Some Failed ∧ status = None
  end.
End kernel.
