(* ===== verification/KernelLinks.v ===== *)
(** * The run queue and the process tree

    How the status of a thread, its place in the code and the lists of waiters hang
    together: a process is blocked exactly if it waits on a semaphore that is zero.  On
    the abstract queue (RunQueue.v) and tree (Rendezvous.v); KernelSpec.v applies it to
    the kernel. *)
From S2P Require Import Prelude CInt Ext Interrupt Threads PageTable UserCall ProcTree Rendezvous ProcSteps RunQueue UserKernel.
Open Scope Z_scope.

Implicit Types (q : rq) (x : tree) (w : gmap sema (list Z)) (t c p : Z) (sm : sema).

Definition value x sm : option Z :=
  match sm with
  | SuccessSet p => success_set <$> t_leash x !! p
  | Terminated c => c_terminated <$> t_heap x !! c
  end.

(** [t] is in the [sema_down] of [sm]. *)
Definition in_down x t sm : Prop :=
  match sm with
  | SuccessSet p => t = p ∧ ∃ tid, t_pcs x !! t = Some (InExecute tid)
  | Terminated c => t_pcs x !! t = Some (InWait c)
  end.

(** At most one process waits on a semaphore.  [o] is a semaphore that was just raised. *)
Record linked_but (o : option sema) q x w : Prop := {
  lk_idle i : idle q = Some i → t_pcs x !! i = None;
  lk_live t : is_Some (t_pcs x !! t) → ∃ s, sts q !! t = Some s ∧ s ≠ THREAD_DYING;
  lk_known t : is_Some (t_procs x !! t) → is_Some (sts q !! t);
  lk_main : is_Some (sts q !! initial q);
  lk_initial : (∀ n, t_procs x !! initial q = Some n → n_self n = None) ∧
    ∀ par, t_pcs x !! initial q ≠ Some (ToLoad par);
  lk_tid t tid : t_pcs x !! t = Some (InExecute tid) → tid ≠ TID_ERROR;
  lk_asleep t : is_Some (t_pcs x !! t) → sts q !! t = Some THREAD_BLOCKED →
    ∃ sm, waiting_on w sm = [t];
  lk_waiter sm : waiting_on w sm = [] ∨
    ∃ t, waiting_on w sm = [t] ∧ sts q !! t = Some THREAD_BLOCKED ∧ in_down x t sm ∧
         (o ≠ Some sm → value x sm = Some 0)
}.
Notation linked := (linked_but None).

(** What thread [t] may do to the tree, the semaphore that it raises, and the event. *)
Inductive tree_step x t : option sema → event → tree → Prop :=
  | ts_none : tree_step x t None Tau x
  | ts_load par l ok :
      t_pcs x !! t = Some (ToLoad par) → t_leash x !! par = Some l →
      tree_step x t (Some (SuccessSet par)) Tau (tree_load t par (l_child l) ok x)
  | ts_adopt tid l :
      t_pcs x !! t = Some (InExecute tid) → t_leash x !! t = Some l →
      tree_step x t None Tau (tree_adopt t tid (l_child l) x)
  | ts_drop tid l :
      t_pcs x !! t = Some (InExecute tid) → t_leash x !! t = Some l →
      tree_step x t None (Dropped (l_child l)) (tree_drop t (l_child l) x)
  | ts_wait c :
      t_pcs x !! t = Some InUser → tree_step x t None Tau (tree_wait t c x)
  | ts_waited c v :
      t_pcs x !! t = Some (InWait c) → tree_step x t None (Waited c v) (tree_waited t c x)
  | ts_exit c n k :
      is_Some (t_pcs x !! t) → t_procs x !! t = Some n → n_self n = Some c →
      tree_step x t (Some (Terminated c)) (Ended c (c_status k) (n_children n)) (tree_exit t c k (n_children n) x).

(** ** Lists of waiters *)

Lemma waiting_on_insert w sm sm' l :
  waiting_on (<[sm := l]> w) sm' = if decide (sm = sm') then l else waiting_on w sm'.
Proof. unfold waiting_on. case_decide; subst; [by rewrite lookup_insert_eq|by rewrite lookup_insert_ne]. Qed.

Lemma waiting_on_delete w sm sm' :
  waiting_on (delete sm w) sm' = if decide (sm = sm') then [] else waiting_on w sm'.
Proof. unfold waiting_on. case_decide; subst; [by rewrite lookup_delete_eq|by rewrite lookup_delete_ne]. Qed.

Section links.
Context (o : option sema).
Implicit Types (R : gmap Z rstate).

(** The same thread is not in two places. *)
Lemma in_down_inj x t sm sm' : in_down x t sm → in_down x t sm' → sm = sm'.
Proof.
  destruct sm, sm'; simpl.
  - by intros [-> _] [-> _].
  - intros (_ & tid & ?) ?. congruence.
  - intros ? (_ & tid & ?). congruence.
  - intros. congruence.
Qed.

(** Nor are two threads in [sema_down] of one semaphore. *)
Lemma in_down_one x R t t' sm : tree_ok x R → in_down x t sm → in_down x t' sm → t = t'.
Proof.
  intros Ok. destruct sm as [p|c]; simpl; [by intros [-> _] [-> _]|]. intros Ht Ht'.
  destruct (to_wait _ _ Ok _ _ Ht) as (n & ? & ?), (to_wait _ _ Ok _ _ Ht') as (n' & ? & ?).
  eapply (to_own _ _ Ok); left; eauto.
Qed.

(** The links read the queue only through these. *)
Lemma linked_status q q' x w :
  idle q' = idle q → initial q' = initial q → (is_Some (sts q !! initial q) → is_Some (sts q' !! initial q)) →
  (∀ t, is_Some (t_procs x !! t) → is_Some (sts q !! t) → is_Some (sts q' !! t)) →
  (∀ t, is_Some (t_pcs x !! t) → ∃ s, sts q' !! t = Some s ∧ s ≠ THREAD_DYING ∧
     (s = THREAD_BLOCKED ↔ sts q !! t = Some THREAD_BLOCKED)) →
  linked_but o q x w → linked_but o q' x w.
Proof.
  intros Ei En Hm Hk Hs [Li Ll Lk Lm Lin Lt La Lw]. split; rewrite ?Ei, ?En; try by auto.
  - intros t Ht. destruct (Hs t Ht) as (s & ? & ? & _). eauto.
  - intros t Ht Hb. destruct (Hs t Ht) as (s & Hs' & _ & Hiff). apply La; [done|]. apply Hiff. congruence.
  - intros sm. destruct (Lw sm) as [?|(t & Hw & Hb & Hd & Hv)]; [by left|right]. exists t.
    assert (is_Some (t_pcs x !! t)) as Ht by (destruct sm; simpl in Hd; [destruct Hd as (_ & ? & ->)|rewrite Hd]; by eexists).
    destruct (Hs t Ht) as (s & -> & _ & Hiff). apply Hiff in Hb as ->. done.
Qed.

Lemma linked_run q x w t : rq_wf q → linked_but o q x w → sts q !! t = Some THREAD_BLOCKED → t ≠ run q.
Proof. intros Hq _ Hb ->. rewrite (rq_run _ Hq) in Hb. done. Qed.

Lemma linked_pc q x w sm t : linked_but o q x w → in_down x t sm → is_Some (t_pcs x !! t).
Proof. intros _. destruct sm; simpl; [intros (_ & ? & ->)|intros ->]; by eexists. Qed.

(** The next thread on the CPU was not blocked, unless it is the idle thread. *)
Lemma next_not_blocked s q x w :
  rq_wf q → linked_but o q x w → is_Some (t_pcs x !! run (leave s q)) →
  sts q !! run (leave s q) ≠ Some THREAD_BLOCKED.
Proof.
  intros Hq Hl [? Hpc] Hb. destruct (leave_run_elem s q (wf_has_next s q Hq)) as [Hin|[_ Hid]].
  - apply rq_requeue_elem in Hin as [Hin|(E & _)].
    + rewrite (rq_ready _ Hq _ Hin) in Hb. done.
    + by apply (linked_run q x w _ Hq Hl Hb).
  - rewrite (lk_idle _ _ _ _ Hl _ Hid) in Hpc. done.
Qed.

(** Who is known is still there after a switch. *)
Lemma leave_known s q x t :
  rq_wf q → (s = THREAD_DYING → idle q ≠ Some (run q) ∧ t_procs x !! run q = None) →
  is_Some (t_procs x !! t) → is_Some (sts q !! t) → is_Some (sts (leave s q) !! t).
Proof.
  intros Hq Hd Hx Ht. rewrite leave_status by (done || naive_solver).
  destruct (decide (t = run (leave s q))); [by eexists|].
  destruct (decide (t = run q)) as [->|]; [|done]. rewrite decide_False; [by eexists|].
  intros [E _]. destruct (Hd E) as [_ E']. rewrite E' in Hx. by destruct Hx.
Qed.

(** A switch, if the thread on the CPU stays ready or is not a process (any more). *)
Lemma linked_leave s q x w :
  rq_wf q → s ≠ THREAD_RUNNING → (is_Some (t_pcs x !! run q) → s = THREAD_READY) →
  (s = THREAD_DYING → idle q ≠ Some (run q) ∧ t_procs x !! run q = None) →
  linked_but o q x w → linked_but o (leave s q) x w.
Proof.
  intros Hq Hs Hpc Hx Hl. destruct (leave_rest s q) as [Ei En].
  assert (s = THREAD_DYING → idle q ≠ Some (run q)) as Hd by naive_solver.
  apply (linked_status q); [done|done| | | |done].
  { intros Hm. by apply leave_initial. }
  { intros t. by apply leave_known. }
  intros t Ht.
  destruct (lk_live _ _ _ _ Hl t Ht) as (s0 & Hs0 & Hs0d). rewrite leave_status by done.
  destruct (decide (t = run (leave s q))) as [->|Hn].
  - eexists. split; [done|]. split; [done|]. split; [done|]. by intros ?%(next_not_blocked s q x w).
  - destruct (decide (t = run q)) as [->|].
    + rewrite (Hpc Ht). rewrite decide_False by naive_solver. eexists. split; [done|]. split; [done|].
      rewrite (rq_run _ Hq). naive_solver.
    + exists s0. rewrite Hs0. naive_solver.
Qed.

(** The thread on the CPU goes to sleep on [sm]. *)
Lemma linked_sleep R q x w sm :
  rq_wf q → tree_ok x R → in_down x (run q) sm → value x sm = Some 0 →
  linked_but o q x w → linked_but o (leave THREAD_BLOCKED q) x (<[sm := waiting_on w sm ++ [run q]]> w).
Proof.
  intros Hq Ok Hd Hz Hl. pose proof Hl as [Li Ll Lk Lm Lin Lt La Lw]. destruct (leave_rest THREAD_BLOCKED q) as [Ei En].
  assert (waiting_on w sm = []) as ->.
  { destruct (Lw sm) as [|(t & _ & Hb & Hd' & _)]; [done|]. destruct (linked_run _ _ _ _ Hq Hl Hb).
    by eapply in_down_one. }
  pose proof (linked_pc _ _ _ _ _ Hl Hd) as Hpc.
  assert (run (leave THREAD_BLOCKED q) ≠ run q) as Hne.
  { intros E. destruct (leave_run_elem THREAD_BLOCKED q (wf_has_next _ q Hq)) as [Hin|[_ Hid]].
    - apply rq_requeue_elem in Hin as [Hin|(_ & ? & _)]; [|done]. rewrite E in Hin. by apply (run_not_queued q).
    - rewrite E in Hid. rewrite (Li _ Hid) in Hpc. by destruct Hpc. }
  assert (∀ t, is_Some (t_pcs x !! t) → t ≠ run q →
    ∃ s, sts (leave THREAD_BLOCKED q) !! t = Some s ∧ s ≠ THREAD_DYING ∧
      (s = THREAD_BLOCKED ↔ sts q !! t = Some THREAD_BLOCKED)) as Hst.
  { intros t Ht Hr. destruct (Ll t Ht) as (s0 & Hs0 & Hs0d). rewrite leave_status by done.
    rewrite (decide_False (P := t = run q)) by done. case_decide as E.
    - subst t. eexists. split; [done|]. split; [done|]. split; [done|]. by intros ?%(next_not_blocked _ q x w).
    - exists s0. rewrite Hs0. naive_solver. }
  assert (sts (leave THREAD_BLOCKED q) !! run q = Some THREAD_BLOCKED) as Hrun.
  { rewrite leave_status by done. rewrite decide_False by done. rewrite decide_True by done.
    by rewrite decide_False by naive_solver. }
  split; rewrite ?Ei, ?En; try done; [|intros t Ht; apply (leave_known _ _ x); [done..|by apply Lk]|by apply leave_initial|..].
  - intros t Ht. destruct (decide (t = run q)) as [->|Hr]; [eauto|]. destruct (Hst t Ht Hr) as (s & ? & ? & _). eauto.
  - intros t Ht Hb. destruct (decide (t = run q)) as [->|Hr].
    { exists sm. by rewrite waiting_on_insert, decide_True. }
    destruct (Hst t Ht Hr) as (s & Hs & _ & Hiff). destruct (La t Ht) as (sm' & Hw); [apply Hiff; congruence|].
    exists sm'. rewrite waiting_on_insert. case_decide as E; [|done]. subst sm'.
    destruct (Lw sm) as [E|(t' & E & Hb' & Hd' & _)]; [congruence|].
    rewrite Hw in E. injection E as <-. destruct Hr. by eapply in_down_one.
  - intros sm'. rewrite waiting_on_insert. case_decide as E.
    { subst sm'. right. exists (run q). by split_and!. }
    destruct (Lw sm') as [?|(t & Hw & Hb & Hd' & Hv)]; [by left|right]. exists t.
    destruct (Hst t) as (s & -> & _ & Hiff); [by eapply linked_pc|by eapply linked_run|].
    apply Hiff in Hb as ->. done.
Qed.
End links.

(** [sema_up]: the waiter of a semaphore that was raised is woken. *)
Lemma linked_pop sm q x w l w' :
  rq_wf q → sema_pop sm w = (l, w') → linked_but (Some sm) q x w →
  (∀ t, t ∈ l → idle q ≠ Some t) ∧ linked (foldl (λ q t, wake t q) q l) x w'.
Proof.
  intros Hq Hp Hl. pose proof Hl as [Li Ll Lk Lm Lin Lt La Lw]. unfold sema_pop in Hp.
  destruct (Lw sm) as [E|(t & E & Hb & Hd & _)]; rewrite E in Hp; injection Hp as <- <-.
  - split; [by intros t ?%elem_of_nil|]. split; try done. intros sm'.
    destruct (Lw sm') as [?|(t & Hw & Hb & Hd & Hv)]; [by left|right]. exists t. split_and!; [done..|].
    intros _. apply Hv. intros [= <-]. congruence.
  - pose proof (linked_pc _ _ _ _ _ _ Hl Hd) as Hpc.
    split. { intros y ->%list_elem_of_singleton Hi. rewrite (Li _ Hi) in Hpc. by destruct Hpc. }
    cbn [foldl]. split; try done.
    + intros y Hy. simpl. destruct (decide (t = y)) as [->|]; [rewrite lookup_insert_eq|rewrite lookup_insert_ne by done]; eauto.
    + intros y Hy%Lk. simpl. destruct (decide (t = y)) as [->|]; [rewrite lookup_insert_eq; by eexists|by rewrite lookup_insert_ne].
    + simpl. destruct (decide (t = initial q)) as [->|]; [rewrite lookup_insert_eq; by eexists|by rewrite lookup_insert_ne].
    + intros y Hy. simpl. destruct (decide (t = y)) as [->|]; [by rewrite lookup_insert_eq|].
      rewrite lookup_insert_ne by done. intros Hby. destruct (La y Hy Hby) as (sm' & Hw). exists sm'.
      rewrite waiting_on_insert, decide_False; [done|]. intros ->. congruence.
    + intros sm'. rewrite waiting_on_insert. case_decide as Esm; [by left|].
      destruct (Lw sm') as [?|(y & Hw & Hby & Hdy & Hv)]; [by left|right]. exists y.
      assert (t ≠ y) as Hne by (intros ->; by apply Esm, (in_down_inj x y)).
      simpl. rewrite lookup_insert_ne by done. split_and!; [done..|]. intros _. apply Hv. congruence.
Qed.

(** ** Steps of the tree *)

(** The thread on the CPU changed the tree; it does not wait, so only the values of the
    semaphores of others matter. *)
Lemma linked_tree o q x x' w :
  rq_wf q → linked q x w →
  (∀ t, t ≠ run q → t_pcs x' !! t = t_pcs x !! t) →
  (∀ p' : pc, t_pcs x' !! run q = Some p' →
    is_Some (t_pcs x !! run q) ∧ (∀ par, p' ≠ ToLoad par) ∧ ∀ tid, p' = InExecute tid → tid ≠ TID_ERROR) →
  (∀ t n', t_procs x' !! t = Some n' → ∃ n, t_procs x !! t = Some n ∧ (t = initial q → n_self n' = n_self n)) →
  (∀ sm t, t ≠ run q → in_down x t sm → value x sm = Some 0 → o ≠ Some sm → value x' sm = Some 0) →
  linked_but o q x' w.
Proof.
  intros Hq Hl Hpc Hrun Hini Hval. pose proof Hl as [Li Ll Lk Lm [Ls Ll2] Lt La Lw].
  assert (∀ t, is_Some (t_pcs x' !! t) → is_Some (t_pcs x !! t)) as Hsub.
  { intros t. destruct (decide (t = run q)) as [->|Hne]; [|by rewrite Hpc]. intros [p' Hp']. by apply (Hrun p'). }
  split.
  - intros i Hi. destruct (t_pcs x' !! i) eqn:E; [|done].
    destruct (Hsub i) as [? Hs]; [by eexists|]. by rewrite (Li i Hi) in Hs.
  - intros t Ht. by apply Ll, Hsub.
  - intros t [n' Hn']. destruct (Hini t n' Hn') as (n & Hn & _). apply Lk. by eexists.
  - exact Lm.
  - split.
    + intros n' Hn'. destruct (Hini _ n' Hn') as (n & Hn & ->); [|done]. by apply Ls.
    + intros par Hp. destruct (decide (initial q = run q)) as [E|Hne]; [|rewrite Hpc in Hp by done; by eapply Ll2].
      rewrite E in Hp. destruct (Hrun _ Hp) as (_ & Hno & _). by eapply Hno.
  - intros t tid Ht. destruct (decide (t = run q)) as [->|Hne]; [|rewrite Hpc in Ht by done; by eapply Lt].
    destruct (Hrun _ Ht) as (_ & _ & Htid). by apply Htid.
  - intros t Ht. by apply La, Hsub.
  - intros sm. destruct (Lw sm) as [?|(t & Hw & Hb & Hd & Hv)]; [by left|right]. exists t.
    assert (t ≠ run q) as Hne by (by eapply linked_run).
    split_and!; [done..| |].
    + destruct sm; simpl in Hd |- *; by rewrite Hpc.
    + apply (Hval sm t); try done. by apply Hv.
Qed.

(** A record that [y] waits for has no other holder. *)
Lemma waited_holder x R t y c : tree_ok x R → t_pcs x !! y = Some (InWait c) → holds x t c → y = t.
Proof.
  intros Ok Hy Ht. destruct (to_wait _ _ Ok _ _ Hy) as (n & ? & ?). eapply (to_own _ _ Ok); [left; eauto|done].
Qed.

(** The thread on the CPU goes on at [p']. *)
Lemma linked_goes o q x x' w (p' : pc) :
  rq_wf q → linked q x w → is_Some (t_pcs x !! run q) → t_pcs x' = <[run q := p']> (t_pcs x) →
  (∀ par, p' ≠ ToLoad par) → (∀ tid, p' ≠ InExecute tid) →
  (∀ t n', t_procs x' !! t = Some n' → ∃ n, t_procs x !! t = Some n ∧ (t = initial q → n_self n' = n_self n)) →
  (∀ sm t, t ≠ run q → in_down x t sm → value x sm = Some 0 → o ≠ Some sm → value x' sm = Some 0) →
  linked_but o q x' w.
Proof.
  intros Hq Hl Hp E Hload Hexec. apply linked_tree; [done..| |].
  - intros t Ht. by rewrite E, lookup_insert_ne.
  - intros q'. rewrite E, lookup_insert_eq. intros [= <-]. split_and!; [done..|]. by intros tid ?%Hexec.
Qed.

Lemma self_alter (m : gmap Z node) t g i n' :
  (∀ n, n_self (g n) = n_self n) → alter g t m !! i = Some n' → ∃ n, m !! i = Some n ∧ n_self n' = n_self n.
Proof.
  intros Hg. destruct (decide (t = i)) as [->|].
  - rewrite lookup_alter_eq. intros (n & Hn & ->)%fmap_Some. by exists n.
  - rewrite lookup_alter_ne by done. intros Hn'. by exists n'.
Qed.

Lemma linked_step o e q x x' w R :
  rq_wf q → tree_ok x R → linked q x w → tree_step x (run q) o e x' → linked_but o q x' w.
Proof.
  intros Hq Ok Hl Hst. destruct Hst as [|par l ok Hp Hl'|tid l Hp Hl'|tid l Hp Hl'|c Hp|c v Hp|c n k Hp Hn Hself].
  - destruct Hl as [Li Ll Lk Lm Lin Lt La Lw]. by split.
  - assert (run q ≠ initial q) as Hne by (intros E; rewrite E in Hp; by eapply (lk_initial _ _ _ _ Hl)).
    apply (linked_goes _ q x _ _ (if ok then InUser else Failed)); [done|done|by eexists|done|by destruct ok|by destruct ok| |]; simpl.
    + intros t n'. destruct (decide (run q = t)) as [<-|]; [|rewrite lookup_alter_ne by done; by eauto].
      rewrite lookup_alter_eq. intros (n & Hn & ->)%fmap_Some. by exists n.
    + intros [p|c] t Ht Hd Hv Ho; [|done]. simpl in *. rewrite lookup_alter_ne; [done|]. congruence.
  - apply (linked_goes _ q x _ _ InUser); [done|done|by eexists|done|done|done| |]; simpl.
    + intros t n' (n & ? & ?)%self_alter; [by exists n|done].
    + intros [p|c] t Ht Hd Hv Ho; simpl in *.
      * destruct Hd as [-> _]. by rewrite lookup_delete_ne.
      * destruct (decide (l_child l = c)) as [->|]; [|by rewrite lookup_alter_ne].
        rewrite lookup_alter_eq. by destruct (t_heap x !! c).
  - apply (linked_goes _ q x _ _ InUser); [done|done|by eexists|done|done|done|by eauto|]; simpl.
    intros [p|c] t Ht Hd Hv Ho; simpl in *.
    + destruct Hd as [-> _]. by rewrite lookup_delete_ne.
    + rewrite lookup_delete_ne; [done|]. intros <-. apply Ht. eapply waited_holder; [done..|]. right. by exists l.
  - by apply (linked_goes _ q x _ _ (InWait c)); [done|done|by eexists|done|done|done|by eauto|].
  - apply (linked_goes _ q x _ _ InUser); [done|done|by eexists|done|done|done| |]; simpl.
    + intros t n' (n & ? & ?)%self_alter; [by exists n|done].
    + intros [p|c'] t Ht Hd Hv Ho; simpl in *; [done|].
      rewrite lookup_delete_ne; [done|]. intros <-. by apply Ht, (in_down_one x R t (run q) (Terminated c)).
  - apply (linked_tree _ q x); [done..| | | |]; simpl.
    + intros t Ht. by rewrite lookup_delete_ne.
    + intros q'. by rewrite lookup_delete_eq.
    + intros t n' [_ Hn']%lookup_delete_Some. by exists n'.
    + intros [p|c'] t Ht Hd Hv Ho; simpl in *; [done|].
      rewrite lookup_insert_ne by congruence. rewrite lookup_free_all. case_decide as Hin; [|done].
      destruct Ht. eapply waited_holder; [done..|]. left. by exists n.
Qed.

(** [process_execute]: the new thread is ready, and the new semaphores have no waiters. *)
Lemma linked_execute q x w t' tid c name :
  rq_wf q → linked q x w → t_pcs x !! run q = Some InUser → sts q !! t' = None → t_heap x !! c = None →
  tid ≠ TID_ERROR →
  linked (wake t' (spawn t' q)) (tree_execute (run q) t' tid c name x)
    (delete (SuccessSet (run q)) (delete (Terminated c) w)).
Proof.
  intros Hq [Li Ll Lk Lm [Ls Ll2] Lt La Lw] Hpc Ht' Hc Htid.
  assert (t' ≠ run q) as Hne by (intros ->; rewrite (rq_run _ Hq) in Ht'; done).
  assert (idle q ≠ Some t') as Hni.
  { intros Hi. destruct (rq_idle _ Hq) as (i & si & Hid & Hsi & _). congruence. }
  assert (∀ t, sts (wake t' (spawn t' q)) !! t = if decide (t = t') then Some THREAD_READY else sts q !! t) as Hst.
  { intros t. simpl. case_decide; [subst; by rewrite lookup_insert_eq|]. by rewrite !lookup_insert_ne. }
  assert (∀ sm t, sts q !! t = Some THREAD_BLOCKED → in_down x t sm → value x sm = Some 0 →
    t ≠ run q ∧ t ≠ t' ∧ SuccessSet (run q) ≠ sm ∧ Terminated c ≠ sm) as Hold.
  { intros sm t Hb Hd Hv. assert (t ≠ run q) by (intros ->; rewrite (rq_run _ Hq) in Hb; done).
    split_and!; [done|congruence|intros <-; by destruct Hd|intros <-; simpl in Hv; by rewrite Hc in Hv]. }
  split.
  - intros i Hi. simpl in *. rewrite !lookup_insert_ne; [by apply Li|intros <-; rewrite (Li _ Hi) in Hpc; done|congruence].
  - intros t Ht. rewrite Hst. case_decide as E; [by eexists|]. apply Ll. simpl in Ht.
    destruct (decide (run q = t)) as [<-|]; [by eexists|]. by rewrite !lookup_insert_ne in Ht.
  - intros t Ht. rewrite Hst. case_decide as E; [by eexists|]. apply Lk. simpl in Ht.
    by rewrite lookup_insert_ne in Ht by done.
  - rewrite Hst. case_decide; [by eexists|done].
  - assert (t' ≠ initial q) by (intros ->; rewrite Ht' in Lm; by destruct Lm). simpl.
    rewrite !(lookup_insert_ne _ t') by done. split; [done|]. intros par.
    destruct (decide (run q = initial q)) as [->|]; [by rewrite lookup_insert_eq|]. rewrite lookup_insert_ne by done. apply Ll2.
  - intros t tid'. simpl. destruct (decide (t' = t)) as [->|]; [by rewrite lookup_insert_eq|].
    rewrite lookup_insert_ne by done. destruct (decide (run q = t)) as [<-|].
    + rewrite lookup_insert_eq. by intros [= <-].
    + rewrite lookup_insert_ne by done. apply Lt.
  - intros t Ht. rewrite Hst. case_decide as E; [done|]. intros Hb. simpl in Ht.
    assert (run q ≠ t) as Hr by (intros <-; rewrite (rq_run _ Hq) in Hb; done).
    rewrite !lookup_insert_ne in Ht by done. destruct (La t Ht Hb) as (sm & Hw). exists sm.
    destruct (Lw sm) as [?|(y & Hw' & Hby & Hd & Hv)]; [congruence|]. rewrite Hw in Hw'. injection Hw' as <-.
    destruct (Hold sm t Hb Hd (Hv ltac:(done))) as (_ & _ & ? & ?). by rewrite !waiting_on_delete, !decide_False.
  - intros sm. rewrite !waiting_on_delete. repeat (case_decide; [by left|]).
    destruct (Lw sm) as [?|(t & Hw & Hb & Hd & Hv)]; [by left|right]. exists t.
    specialize (Hv ltac:(done)). destruct (Hold sm t Hb Hd Hv) as (Hr & Hn & ? & ?).
    split; [done|]. split; [by rewrite Hst, decide_False|].
    destruct sm as [p|c']; simpl in *; rewrite !lookup_insert_ne by congruence; [|done].
    by destruct Hd as [-> Hd].
Qed.

(** The value of [success_set] is never negative. *)
Lemma success_set_zero x R t l :
  tree_ok x R → t_leash x !! t = Some l → success_set l ≤ 0 → success_set l = 0.
Proof.
  intros Ok Hl Hz. destruct (to_set _ _ Ok t l Hl Hz) as (t' & HR).
  destruct (to_loading _ _ Ok _ _ HR) as (par & l' & Hpc & Hl' & Ec).
  assert (par = t) as ->.
  { eapply (to_own _ _ Ok); right; [by exists l'|by exists l]. }
  destruct (to_load _ _ Ok _ _ Hpc) as (l2 & n & Hl2 & _ & Hz2 & _). congruence.
Qed.

(** ** Pending statuses *)

(** While the parent of [c] waits and does not run, no one takes the status of [c]. *)
Lemma pending_step x R m t o e x' y c v :
  tree_ok x R → (∀ c v, m !! c = Some v ↔ R !! c = Some (REnded v)) → tree_step x t o e x' → y ≠ t →
  t_pcs x !! y = Some (InWait c) → m !! c = Some v →
  t_pcs x' !! y = Some (InWait c) ∧ pend_step m e !! c = Some v.
Proof.
  intros Ok Hm Hst Hy Hpc Hc.
  assert (∀ c', holds x t c' → c' ≠ c) as Hne by (intros c' Hh ->; by eapply Hy, waited_holder).
  destruct Hst as [|par l ok Hp Hl|tid l Hp Hl|tid l Hp Hl|c' Hp|c' v' Hp|c' n k Hp Hn Hself]; simpl;
    rewrite ?lookup_insert_ne, ?lookup_delete_ne by done; try by rewrite ?lookup_delete_ne.
  - split; [done|]. rewrite lookup_delete_ne; [done|]. apply Hne. right. by exists l.
  - split; [done|]. rewrite lookup_delete_ne; [done|]. apply Hne.
    destruct (to_wait _ _ Ok _ _ Hp) as (n & ? & ?). left. by exists n.
  - assert (c' ≠ c) as Hc'.
    { intros ->. apply Hm in Hc. destruct (to_self _ _ Ok _ _ _ Hn Hself) as [HR _]. congruence. }
    split; [done|]. rewrite lookup_insert_ne, lookup_free_all, decide_False; [done| |done].
    intros Hin. apply (Hne c); [|done]. left. by exists n.
Qed.
