(* ===== verification/KernelSpec.v ===== *)
(** * Correctness of the kernel with its processes

    Every operation of UserKernel.v is a step of the processes (ProcSteps.v) and a sequence
    of steps of the run queue (RunQueue.v), and keeps the links of KernelLinks.v.  So
    what is proved of processes under any interleaving holds under the scheduler, no
    wake-up is lost, and a parent is told the status of its child in bounded time. *)
From S2P Require Import Prelude CInt Ext Interrupt Threads Mmu PageDir Swap PageTable UserFiles Elf Frame Page VmSpec UserCall Exception UserMem Load Process Syscall ProcTree Rendezvous ProcSteps RunQueue RoundRobin RoundRobinSpec UserKernel KernelLinks.
From stdpp Require Import strings relations.
Open Scope Z_scope.

Section spec.
Context `{Vaddr, !Pte, Selectors, KernelMemory, StartRegs}.
Context {dev files : Type} `{BlockDevice dev, FileOps files, FileCalls files, KeepsTree dev files}.
Variable exit_message : option (list Z) → Z → list Z.

#[local] Hint Extern 0 (UserThreads (usys dev files)) => exact (process_threads exit_message) : typeclass_instances.

Notation kern := (kern (usys dev files)).
Notation kcall := (call (sys dev files)).
Notation pstep := (pstep exit_message).
Notation sleep := (sleep exit_message).
Notation kernel_waited := (kernel_waited exit_message).
Notation kernel_executed := (kernel_executed exit_message).
Notation kernel_exit := (kernel_exit exit_message).
Notation run_op := (run_op exit_message).
Notation kernel_execute := (kernel_execute exit_message).
Implicit Types (k : kern) (u : usys dev files) (t c p : Z) (m : gmap Z Z).

(** ** The processes and the threads *)

Lemma start_process_threads par : keeps_threads (start_process par : kcall _).
Proof. unfold start_process. keep_threads. Qed.
Lemma execute_end_threads tid : keeps_threads (execute_end tid : kcall _).
Proof. unfold execute_end. keep_threads. Qed.
Lemma wait_end_threads c : keeps_threads (wait_end c : kcall _).
Proof. unfold wait_end. keep_threads. Qed.
Lemma sys_exit_threads v : keeps_threads (sys_exit v : kcall unit).
Proof. unfold sys_exit. keep_threads. Qed.

Lemma process_exit_threads : keeps_threads (process_exit exit_message : kcall _).
Proof.
  unfold process_exit. keep_threads.
  apply keeps_threads_modify. intros s s' [= <-]. by rewrite free_children_view.
Qed.

Lemma exit_user_threads : keeps_threads (exit_user exit_message : kcall _).
Proof. unfold exit_user. apply keeps_threads_bind; [apply process_exit_threads|intros _]. keep_threads. Qed.

Lemma process_activate_keeps : keeps (Load.process_activate : kcall unit).
Proof. unfold Load.process_activate. keep. intros w r w' E. by inv_bind. Qed.

(** The threads whose pages hold user fields. *)
Definition threads_of u : gset Z := dom (procs (svm (psy (procsys u)))).

Lemma run_call_inv {A} (call : kcall A) t u e u' :
  run_call call t u = Ret (e, u') → ∃ s, call (at_thread t (procsys u)) = Ret (e, s) ∧ u' = upd_sys s u.
Proof. unfold run_call. intros E. inv_bind. eauto. Qed.

Lemma run_call_threads {A} (call : kcall A) t u e u' :
  keeps_threads call → run_call call t u = Ret (e, u') → threads_of u' = threads_of u.
Proof. intros Hk (s & E & ->)%run_call_inv. by destruct (Hk _ _ _ E). Qed.

#[export] Instance process_threads_laws : UserThreadsLaws (usys dev files).
Proof.
  refine {| user_ok u t := t ∈ threads_of u |}; unfold threads_of.
  - intros t u x [Hx|Hx]; simpl; set_solver.
  - intros t u x Hne Hx. simpl. set_solver.
  - intros t u Ht. apply elem_of_dom in Ht as [th Hth].
    assert (run_call Load.process_activate t u = Ret (Val tt,
      upd_sys ((at_thread t (procsys u)) <| svm ::= λ w, w <| vmmu := pagedir_activate (pagedir th) (vmmu w) |> |>) u)) as E.
    { unfold run_call, Load.process_activate, vm_do, PageTable.thread_current. simpl. by rewrite Hth. }
    exists (upd_sys ((at_thread t (procsys u)) <| svm ::= λ w, w <| vmmu := pagedir_activate (pagedir th) (vmmu w) |> |>) u).
    split; [|done]. unfold process_activate. simpl. by rewrite E.
  - intros t u u' l x E Hx. unfold process_leave in E. simpl in E. inv_bind.
    match goal with H : run_call _ _ _ = Ret (?e, ?u1) |- _ =>
      apply (run_call_threads _ _ _ _ _ exit_user_threads) in H; rename H into Hd; destruct e as [[c|]| |]; inv_bind end.
    + destruct (sema_pop _ _). inv_bind. unfold threads_of in Hd. by rewrite Hd.
    + unfold threads_of in Hd. by rewrite Hd.
Defined.

(** ** The state of the kernel *)

Definition tree_of_user u : tree := tree_view (psy (procsys u)) (pcs (procsys u)).
Definition tree_now k : tree := tree_of_user (user k).

(** [m]: the statuses left by processes and not yet told to their parents. *)
Record kinv m k : Prop := {
  ki_wf : rr_wf k;
  ki_slice : in_slice k;
  ki_tree : pinv m (systems k);
  ki_links : linked (view k) (tree_now k) (waiters (user k))
}.

(** What an operation of [n] ticks does, to threads and to processes. *)
Record op_spec (n : Z) k (e : event) k' : Prop := {
  os_effect : effect n k k';
  os_steps : ∃ σ, pstep (systems k) e σ ∧ rtc (λ a b, pstep a Tau b) σ (systems k');
  os_links : linked (view k') (tree_now k') (waiters (user k'));
  os_tree : (∃ o, tree_step (tree_now k) (running k) o e (tree_now k')) ∨
    (e = Tau ∧ ∀ t, t ≠ running k → is_Some (pc_at t k) → pc_at t k' = pc_at t k)
}.

Lemma pstep_refl σ : pstep σ Tau σ.
Proof.
  destruct σ as [s p]. apply (step_other exit_message (MkPsys s p) (current (svm s)) s). by destruct s as [[]].
Qed.

(** A switch to [t] only touches the address space. *)
Lemma activate_user t u u' :
  process_activate t u = Ret u' →
  same_tree (at_thread t (procsys u)) (psy (procsys u')) ∧ pcs (procsys u') = pcs (procsys u) ∧
  waiters u' = waiters u.
Proof.
  unfold process_activate. simpl. intros E. inv_bind.
  match goal with H : run_call _ _ _ = Ret _ |- _ => apply run_call_inv in H as (s & Hs & ->) end.
  split; [|done]. exact (process_activate_keeps _ _ _ Hs).
Qed.

Lemma activate_steps t u u' :
  process_activate t u = Ret u' →
  pstep (procsys u) Tau (procsys u') ∧ tree_of_user u' = tree_of_user u ∧ waiters u' = waiters u.
Proof.
  intros (Hs & Hp & Hw)%activate_user. split_and!; [|by unfold tree_of_user; rewrite (same_tree_view _ _ _ Hs), Hp|done].
  destruct (procsys u') as [s' p']. simpl in *. subst p'. by eapply step_other.
Qed.

Lemma switched_activate s l k k' :
  s ≠ THREAD_DYING → switched s l k k' → process_activate (running k') (user k) = Ret (user k').
Proof.
  intros Hs [_ _ _ _ (u & Hu & E) _]. rewrite bool_decide_eq_false_2 in E by naive_solver. congruence.
Qed.

(** The user part changed, and no thread was lost. *)
Lemma user_change k u :
  rr_wf k → in_slice k → threads_of u = threads_of (user k) →
  rr_wf (k <| user := u |>) ∧ effect 0 k (k <| user := u |>).
Proof.
  intros Hwf Hsl Hd.
  assert (rr_wf (k <| user := u |>)) as Hwf'.
  { apply (rr_wf_frame k); try done; [apply Hwf|]. intros x Hx. change (x ∈ threads_of u). by rewrite Hd. }
  split; [done|]. by apply same_view_effect.
Qed.

(** ** The operations of threads *)

(** The processes did not change, but for lists of waiters and the address space. *)
Lemma quiet_spec n k u k' :
  effect n k k' → procsys u = procsys (user k) →
  user k' = u ∨ process_activate (running k') u = Ret (user k') →
  linked (view k') (tree_now k) (waiters u) → op_spec n k Tau k'.
Proof.
  intros He Eu Hu Hl.
  assert (pstep (systems k) Tau (systems k') ∧ tree_now k' = tree_now k ∧ waiters (user k') = waiters u)
    as (Hst & Et & Ew).
  { unfold systems, tree_now, tree_of_user. rewrite <- Eu. destruct Hu as [->|Hu]; [|by apply (activate_steps (running k'))].
    split; [apply pstep_refl|done]. }
  split; [done|by exists (systems k')|by rewrite Et, Ew|]. left. exists None. rewrite Et. constructor.
Qed.

Lemma yield_spec m k k' : kinv m k → thread_yield k = Ret k' → op_spec 0 k Tau k'.
Proof.
  intros [Hwf Hsl Ht Hl] E. destruct (thread_yield_ret k Hwf (rr_wf_next _ k Hwf)) as (k2 & E2 & Hsw). ret_inj.
  apply (quiet_spec _ _ (user k)); [by eapply (switched_effect THREAD_READY)|done|right; by apply (switched_activate THREAD_READY (if_flag (cpu k)))|].
  rewrite (sw_view _ _ _ _ Hsw). apply linked_leave; [apply Hwf|done..].
Qed.

Lemma tick_spec m k k' : kinv m k → tick_interrupt k = Ret k' → op_spec 1 k Tau k'.
Proof.
  intros [Hwf Hsl Ht Hl] E. destruct (tick_effect k k' Hwf Hsl E) as (He & Hv & Hu).
  apply (quiet_spec _ _ (user k)); [done..|].
  destruct Hv as [->| ->]; [done|]. apply linked_leave; [apply Hwf|done..].
Qed.

Lemma level_spec m l o i k :
  kinv m k → intr_set_level l (cpu k) = Ret (o, i) → op_spec 0 k Tau (k <| cpu := i |>).
Proof.
  intros [Hwf Hsl Ht Hl] E. apply (quiet_spec _ _ (user k)); [|done|by left|exact Hl].
  apply same_view_effect; [done| |done|done]. apply (rr_wf_frame k); try done. pose proof (rr_ctx k Hwf).
  destruct l; simpl in E; unfold intr_enable, intr_disable in E; inv_bind; done.
Qed.

(** The thread on the CPU blocks, with interrupts off. *)
Lemma block_spec m l k u k' :
  kinv m k → procsys u = procsys (user k) →
  thread_block l (k <| cpu := (cpu k) <| if_flag := INTR_OFF |> |> <| user := u |>) = Ret k' →
  linked (leave THREAD_BLOCKED (view k)) (tree_now k) (waiters u) → op_spec 0 k Tau k'.
Proof.
  intros [Hwf Hsl Ht Hl] Eu E Hl'. set (k0 := k <| cpu := _ |> <| user := u |>) in E.
  assert (rr_wf k0) as Hwf0.
  { apply (rr_wf_frame k); try done; [apply Hwf|]. intros y Hy. change (y ∈ threads_of u). unfold threads_of. by rewrite Eu. }
  destruct (thread_block_ret l k0 Hwf0 (rr_wf_next _ k0 Hwf0) eq_refl) as (k2 & E2 & Hsw). ret_inj.
  apply (quiet_spec _ _ u); [|done|right; by apply (switched_activate THREAD_BLOCKED l k0)|].
  - apply (effect_from _ k0); [done..|]. by eapply (switched_effect THREAD_BLOCKED).
  - by rewrite (sw_view _ _ _ _ Hsw).
Qed.

Lemma idle_spec m k k' :
  kinv m k → idle_thread k = Some (running k) → idle_round k = Ret k' → op_spec 0 k Tau k'.
Proof.
  intros Hk Hi E. pose proof Hk as [Hwf Hsl Ht Hl]. apply (block_spec m INTR_ON k (user k) k' Hk eq_refl).
  - rewrite <- E. unfold idle_round, intr_disable. by destruct k.
  - apply linked_leave; [apply Hwf|done| |done|done]. intros [p Hp].
    change (t_pcs (tree_now k) !! running k = Some p) in Hp. by rewrite (lk_idle _ _ _ _ Hl (running k) Hi) in Hp.
Qed.

Lemma sleep_spec m sm k k' :
  kinv m k → in_down (tree_now k) (running k) sm → value (tree_now k) sm = Some 0 →
  sleep sm k = Ret k' → op_spec 0 k Tau k'.
Proof.
  intros Hk Hd Hv E. pose proof Hk as [Hwf Hsl (R & Ok & _) Hl].
  apply (block_spec m (if_flag (cpu k)) k
    ((user k) <| waiters ::= <[sm := waiting_on (waiters (user k)) sm ++ [running k]]> |>) k' Hk); [done| |].
  - exact E.
  - by eapply linked_sleep; [apply Hwf|..].
Qed.

(** ** The operations of processes *)

Lemma tree_now_ok m k : kinv m k → ∃ R, tree_ok (tree_now k) R ∧ ∀ c v, m !! c = Some v ↔ R !! c = Some (REnded v).
Proof. by intros [_ _ ? _]. Qed.

(** No thread is woken, and none switched to. *)
Lemma user_spec m k e u :
  kinv m k → threads_of u = threads_of (user k) → waiters u = waiters (user k) →
  pstep (systems k) e (procsys u) → tree_step (tree_now k) (running k) None e (tree_of_user u) →
  op_spec 0 k e (k <| user := u |>).
Proof.
  intros Hk Hd Hw Hst Ht. destruct (tree_now_ok m k Hk) as (R & Ok & _). destruct Hk as [Hwf Hsl _ Hl].
  destruct (user_change k u Hwf Hsl Hd) as [Hwf' He]. split; [done|by exists (procsys u)| |left; by exists None].
  change (linked (view k) (tree_of_user u) (waiters u)). rewrite Hw. by eapply linked_step; [apply Hwf|..].
Qed.

Lemma call_spec m (call : kcall unit) e k u :
  kinv m k → keeps call → run_call call (running k) (user k) = Ret (e, u) → op_spec 0 k Tau (k <| user := u |>).
Proof.
  intros Hk Hc E. pose proof (run_call_threads _ _ _ _ _ (keeps_tree_threads _ Hc) E) as Hd.
  apply run_call_inv in E as (s & E & ->). apply Hc in E.
  apply (user_spec m); [done..| |].
  - by apply (step_other exit_message _ (running k)).
  - unfold tree_of_user. simpl. rewrite (same_tree_view _ _ _ E). constructor.
Qed.

Lemma wait_spec m tid k k' :
  kinv m k → pc_at (running k) k = Some InUser → kernel_wait tid k = Ret k' → op_spec 0 k Tau k'.
Proof.
  intros Hk Hpc E. unfold kernel_wait in E. inv_bind.
  match goal with H : run_call _ _ _ = Ret (?z, _) |- _ =>
    apply run_call_inv in H as (s & Hs & ->); destruct z as [r| |] end; [|done..].
  assert (same_threads (svm (at_thread (running k) (systems k))) (svm s)) as [_ Hd].
  { assert (keeps_threads (wait_begin tid : kcall _)) as Hkt by (unfold wait_begin; keep_threads). by eapply Hkt. }
  pose proof (step_wait exit_message _ _ _ _ _ Hpc Hs) as Hst.
  pose proof (λ q, proj1 (wait_view (systems k) (running k) tid r s q Hs)) as Ev.
  destruct r as [c|]; simplify_eq/=; (apply (user_spec m); [done|exact Hd|done|exact Hst|]).
  - change (tree_of_user _) with (tree_view s (<[running k := InWait c]> (pcs (systems k)))).
    rewrite Ev. by constructor.
  - change (tree_of_user _) with (tree_view s (pcs (systems k))). rewrite Ev. constructor.
Qed.

Lemma waited_spec m c k e k' :
  kinv m k → pc_at (running k) k = Some (InWait c) → kernel_waited c k = Ret (e, k') → op_spec 0 k e k'.
Proof.
  intros Hk Hpc E. destruct (tree_now_ok m k Hk) as (R & Ok & _). unfold kernel_waited in E. inv_bind.
  match goal with H : run_call _ _ _ = Ret (?z, _) |- _ =>
    apply run_call_inv in H as (s1 & Hs & ->); destruct z as [[]| |] end; [| |done..]; inv_bind.
  - match goal with H : wait_end _ _ = Ret (?z, _) |- _ => rename H into Hs'; destruct z as [v| |]; inv_bind end.
    destruct (waited_view (systems k) (running k) c s1 v _ (pcs (systems k)) Hs Hs') as [_ Ev].
    apply (user_spec m); [done| |done|exact (step_waited exit_message _ _ _ _ _ _ Hpc Hs Hs')|].
    + destruct (wait_end_threads _ _ _ _ Hs') as [_ Hd]. unfold threads_of. simpl. rewrite Hd.
      unfold down_terminated in Hs. inv_bind. by destruct (sema_down _); simplify_eq/=.
    + change (tree_of_user _) with (tree_view s (<[running k := InUser]> (pcs (systems k)))). rewrite Ev.
      by constructor.
  - match goal with H : sleep _ _ = Ret _ |- _ => rename H into Hsl end.
    apply (sleep_spec m (Terminated c)); [done|exact Hpc| |done].
    unfold down_terminated, child_at, sema_down in Hs. inv_bind.
    match goal with H : child_heap _ !! c = Some ?x |- _ => rename H into Hc end.
    pose proof (to_heap _ _ Ok c) as Hrec. simpl in Hc, Hrec |- *. rewrite Hc in Hrec |- *. simpl.
    f_equal. destruct (Z.ltb_spec 0 (c_terminated a)); [done|].
    destruct (R !! c) as [[]|]; simpl in Hrec; [done|done|lia|done].
Qed.

Lemma executed_spec m tid k e k' :
  kinv m k → pc_at (running k) k = Some (InExecute tid) → kernel_executed tid k = Ret (e, k') → op_spec 0 k e k'.
Proof.
  intros Hk Hpc E. destruct (tree_now_ok m k Hk) as (R & Ok & _).
  pose proof (lk_tid _ _ _ _ (ki_links _ _ Hk) _ _ Hpc) as Htid. unfold kernel_executed in E. inv_bind.
  match goal with H : leashes _ !! _ = Some ?z |- _ => rename H into Hl, z into l end.
  match goal with H : run_call _ _ _ = Ret (?z, _) |- _ =>
    apply run_call_inv in H as (s1 & Hs & ->); destruct z as [[]| |] end; [| |done..]; inv_bind.
  - match goal with H : execute_end _ _ = Ret (?z, ?s) |- _ => rename H into Hs'; destruct z as [v| |]; inv_bind end.
    assert (∀ up : uproc, uprocs (psy (systems k)) !! running k = Some up → children_init up = false → children up = []) as Hini.
    { intros up Hu. by destruct (to_children _ _ Ok _ _ (view_proc _ (pcs (systems k)) _ _ Hu)) as (_ & ? & _). }
    destruct (executed_view (systems k) (running k) tid l s1 v _ (pcs (systems k)) Hl Htid Hini Hs Hs') as [_ Ev].
    apply (user_spec m);
      [done| |done|exact (step_executed exit_message _ _ _ _ _ _ _ Hpc Htid Hl Hs Hs')|].
    + destruct (execute_end_threads _ _ _ _ Hs') as [_ Hd]. unfold threads_of. simpl. rewrite Hd.
      unfold down_success_set in Hs. inv_bind. by destruct (sema_down _); simplify_eq/=.
    + change (tree_of_user _) with (tree_view s (<[running k := InUser]> (pcs (systems k)))). rewrite Ev.
      destruct (success l); by econstructor.
  - match goal with H : sleep _ _ = Ret _ |- _ => rename H into Hsl end.
    apply (sleep_spec m (SuccessSet (running k))); [done|by split; [|exists tid]| |done].
    pose proof Hl as Hl2. unfold systems in Hl2.
    unfold down_success_set, sema_down in Hs. simpl in Hs. rewrite Hl2 in Hs. simpl in Hs.
    simpl. unfold systems. rewrite Hl2. simpl. f_equal. apply (success_set_zero (tree_now k) R (running k)); [done..|].
    by destruct (Z.ltb_spec 0 (success_set l)).
Qed.

(** Waking does not switch. *)
Lemma unblock_effect l k k' :
  rr_wf k → in_slice k → unblock_all l k = Ret k' → (∀ t, t ∈ l → idle_thread k ≠ Some t) →
  effect 0 k k' ∧ view k' = foldl (λ q t, wake t q) (view k) l ∧ user k' = user k.
Proof.
  intros Hwf Hsl E Hi. destruct (unblock_all_Ret l k k' Hwf E Hi) as (Hwf' & Hv & Ek).
  split; [|split; [done|by rewrite Ek]]. split; [done| |by eapply foldl_wake_steps|].
  - unfold in_slice in *. by rewrite Ek.
  - split; [done|]. exists l. left. split; [|rewrite Ek; simpl; lia].
    change (queue (view k') = ready_list k ++ l). rewrite Hv. apply foldl_wake_rest.
Qed.

(** The user part changed, [sm] was raised and its waiter woken. *)
Lemma raise_spec m k u sm e l w k' :
  kinv m k → threads_of u = threads_of (user k) → sema_pop sm (waiters (user k)) = (l, w) →
  pstep (systems k) e (procsys u) → tree_step (tree_now k) (running k) (Some sm) e (tree_of_user u) →
  unblock_all l (k <| user := u <| waiters := w |> |>) = Ret k' → op_spec 0 k e k'.
Proof.
  intros Hk Hd Hp Hst Ht E. destruct (tree_now_ok m k Hk) as (R & Ok & _). destruct Hk as [Hwf Hsl _ Hl].
  set (u' := u <| waiters := w |>) in E. destruct (user_change k u' Hwf Hsl Hd) as [Hwf' _].
  assert (linked_but (Some sm) (view k) (tree_of_user u) (waiters (user k))) as Hl'
    by (by eapply linked_step; [apply Hwf|..]).
  destruct (linked_pop sm (view k) _ _ l w (rr_queue _ Hwf) Hp Hl') as [Hi Hl2].
  destruct (unblock_effect l _ k' Hwf' Hsl E Hi) as (He & Hv & Eu).
  assert (tree_now k' = tree_of_user u) as Et by (unfold tree_now; by rewrite Eu).
  split; [by apply (effect_from _ (k <| user := u' |>))| | |].
  - exists (systems k'). unfold systems. by rewrite Eu.
  - rewrite Hv, Et, Eu. exact Hl2.
  - left. exists (Some sm). by rewrite Et.
Qed.

Lemma start_spec m par k k' :
  kinv m k → pc_at (running k) k = Some (ToLoad par) → kernel_start par k = Ret k' → op_spec 0 k Tau k'.
Proof.
  intros Hk Hpc E. destruct (tree_now_ok m k Hk) as (R & Ok & _). unfold kernel_start in E. inv_bind.
  match goal with H : run_call _ _ _ = Ret (?z, _) |- _ =>
    rename H into Hs; destruct z as [r| |] end; [|done..].
  pose proof (run_call_threads _ _ _ _ _ (start_process_threads par) Hs) as Hd.
  apply run_call_inv in Hs as (s & Hs & ->).
  destruct (to_load _ _ Ok _ _ Hpc) as (l & n & Hl & _ & Hz & _).
  pose proof (load_view (systems k) (running k) par l r s (pcs (systems k)) Hl Hz Hs) as Ev.
  pose proof (step_load exit_message _ _ _ _ _ Hpc Hs) as Hst.
  destruct (sema_pop _ _) as [woken w] eqn:Ep.
  eapply (raise_spec m k (goes_to (running k) (if r is Some _ then InUser else Failed) (upd_sys s (user k)))
    (SuccessSet par)); [done|exact Hd|exact Ep|exact Hst| |
    by match goal with H : unblock_all _ _ = Ret _ |- _ => exact H end].
  change (tree_of_user _) with (tree_view s (<[running k := if r is Some _ then InUser else Failed]> (pcs (systems k)))).
  rewrite Ev. by constructor.
Qed.

(** What [execute_begin] does when all pages are there; the user fields of the new thread
    are already zero. *)
Definition executed_sys t' (name : list Z) c (s : sys dev files) : sys dev files :=
  (new_thread t' name (s <| child_heap ::= <[c := MkChild 0 (sema_init 0) (-1)]> |>))
    <| leashes ::= <[current (svm s) := MkLeash (sema_init 0) false (take (Z.to_nat PGSIZE - 1) name) c]> |>.

Lemma execute_ret np c t' tid name (s : sys dev files) :
  execute_begin (Some np) (Some c) (Some (t', tid)) name s = Ret (Val (Some tid), executed_sys t' name c s).
Proof. done. Qed.

Lemma executed_sys_new t' l name c (s : sys dev files) : executed_sys t' name c (new_thread t' l s) = executed_sys t' name c s.
Proof. unfold executed_sys, new_thread. simpl. by rewrite !insert_insert_eq. Qed.

Variables sef stf : Z.
Hypotheses (sef_words : sef mod 4 = 0) (stf_words : stf mod 4 = 0).

(** [process_execute] that fails before there is a thread. *)
Lemma execute_none_ret np cp th name (s : sys dev files) :
  th = None ∨ np = None ∨ cp = None → (∀ c, cp = Some c → child_heap s !! c = None) →
  execute_begin np cp th name s = Ret (Val None, s).
Proof.
  intros Hth Hc. unfold execute_begin. destruct np; [|done]. destruct cp as [c|]; [|done].
  destruct Hth as [->|[?|?]]; [|done..]. specialize (Hc c eq_refl). destruct s. simpl in *.
  unfold mbind, call_bind, modify, free_child. simpl. by rewrite delete_insert_id.
Qed.

Lemma execute_none m np cp th name k e u :
  kinv m k → (∀ c, cp = Some c → child_heap (psy (systems k)) !! c = None) →
  th = None ∨ np = None ∨ cp = None →
  run_call (execute_begin np cp th name) (running k) (user k) = Ret (e, u) →
  e = Val None ∧ op_spec 0 k Tau (k <| user := u |>).
Proof.
  intros Hk Hc Hth (s & Hs & ->)%run_call_inv.
  rewrite (execute_none_ret np cp th name (at_thread (running k) (procsys (user k))) Hth Hc) in Hs. injection Hs as <- <-. split; [done|].
  apply (user_spec m); [done..| |].
  - by apply (step_other exit_message _ (running k)).
  - constructor.
Qed.

(** [process_execute] up to its [sema_down]. *)
Definition executed_user t' (name : list Z) c k : usys dev files :=
  MkUsys (MkPsys (executed_sys t' name c (at_thread (running k) (systems k)))
            (<[t' := ToLoad (running k)]> (<[running k := InExecute (next_tid k)]> (pcs (systems k)))))
    (delete (SuccessSet (running k)) (delete (Terminated c) (waiters (user k)))).

Lemma created_spec m (np : Z) name c t' k k1 :
  kinv m k → pc_at (running k) k = Some InUser → next_tid k ≠ TID_ERROR →
  child_heap (psy (systems k)) !! c = None → threads k !! t' = None →
  rr_wf k1 → view k1 = wake t' (spawn t' (view k)) → thread_ticks k1 = thread_ticks k →
  user k1 = user_init t' (user k) → op_spec 0 k Tau (k1 <| user := executed_user t' name c k |>).
Proof.
  intros Hk Hpc Htid Hc Ht' Hwf1 Hv1 Hticks Eu1. pose proof Hk as [Hwf Hsl _ Hl].
  destruct (tree_now_ok m k Hk) as (R & Ok & _). set (k' := k1 <| user := _ |>).
  assert (sts (view k) !! t' = None) as Hst by (by rewrite view_status, Ht').
  assert (t_pcs (tree_now k) !! t' = None) as Hpt.
  { destruct (t_pcs (tree_now k) !! t') eqn:Hq; [|done].
    destruct (lk_live _ _ _ _ Hl t') as (s & Hs & _); [by eexists|congruence]. }
  assert (uprocs (psy (systems k)) !! t' = None) as Hup.
  { destruct (uprocs (psy (systems k)) !! t') as [up|] eqn:Hup; [|done].
    destruct (lk_known _ _ _ _ Hl t') as [? ?]; [by eexists; apply view_proc|congruence]. }
  assert (rr_wf k') as Hwf'.
  { apply (rr_wf_frame k1); try done; [apply Hwf1|]. intros y. rewrite Eu1.
    change (y ∈ threads_of (user_init t' (user k)) → y ∈ threads_of (executed_user t' name c k)).
    unfold threads_of. simpl. by rewrite !dom_insert_L. }
  split.
  - apply (wake_effect t' (spawn t' (view k))); try done. apply spawn_wake_steps; [apply Hwf|done].
  - exists (systems k'). split; [|done].
    apply (step_execute exit_message (systems k) (running k) name (Some np) (Some c) (Some (t', next_tid k))
      (Some (next_tid k))); [done|by intros ? [= <-]|by intros ? ? [= <- <-]|done].
  - change (linked (view k1) (tree_of_user (executed_user t' name c k)) (waiters (executed_user t' name c k))).
    rewrite Hv1.
    destruct (execute_view (systems k) (running k) name (Some np) (Some c) (Some (t', next_tid k)) (Some (next_tid k))
      (executed_sys t' name c (at_thread (running k) (systems k))) (pcs (systems k))) as (c' & [= <-] & Ev);
      [by intros ? [= <-]|done|].
    change (tree_of_user (executed_user t' name c k)) with
      (tree_view (executed_sys t' name c (at_thread (running k) (systems k)))
        (<[t' := ToLoad (running k)]> (<[running k := InExecute (next_tid k)]> (pcs (systems k))))).
    rewrite Ev. by apply (linked_execute (view k)); [apply Hwf|..].
  - right. split; [done|]. intros y Hy Hpy. unfold pc_at. simpl.
    rewrite !lookup_insert_ne; [done|done|]. intros <-.
    change (is_Some (t_pcs (tree_now k) !! t')) in Hpy. rewrite Hpt in Hpy. by destruct Hpy.
Qed.

Lemma execute_spec m name np cp tp k k' :
  kinv m k → op_ok (KExecute name np cp tp) k →
  kernel_execute sef stf name np cp tp k = Ret k' → op_spec 0 k Tau k'.
Proof.
  intros Hk (Hpc & Htid & Hc & Ht') E. pose proof Hk as [Hwf Hsl _ Hl].
  destruct (tree_now_ok m k Hk) as (R & Ok & _). unfold kernel_execute in E.
  destruct (decide (tp = None ∨ np = None ∨ cp = None)) as [Hno|Hall].
  { assert (∃ tid, (if bool_decide (is_Some np) && bool_decide (is_Some cp)
      then thread_create sef stf (to_string name) PRI_DEFAULT tp k else Ret (TID_ERROR, k)) = Ret (tid, k)) as [tid Ek].
    { destruct np, cp; simpl; eauto. destruct Hno as [->|[?|?]]; [by eexists|done..]. }
    rewrite Ek in E. revert E. ret. intros E. inv_bind.
    match goal with H : run_call _ _ _ = Ret _ |- _ => apply (execute_none m) in H as [-> He] end; [|done..|].
    - by simplify_eq/=.
    - destruct Hno as [->|?]; auto. }
  destruct np as [np|]; [|by destruct Hall; auto]. destruct cp as [c|]; [|by destruct Hall; auto].
  destruct tp as [t'|]; [|by destruct Hall; auto].
  change (bool_decide (is_Some (Some np)) && bool_decide (is_Some (Some c))) with true in E. cbv iota in E.
  specialize (Hc c eq_refl). specialize (Ht' t' eq_refl).
  destruct (thread_create_ret sef stf sef_words stf_words (to_string name) PRI_DEFAULT t' k Hwf Ht' ltac:(done))
    as (k1 & th & E1 & Hok1 & Hv1 & Hticks & _ & _ & _ & _ & Eu1 & _).
  assert (rr_wf k1) as Hwf1 by (apply (rr_ok_idle k); [done..|by rewrite Hv1]).
  rewrite E1 in E. cbn [mbind outcome_bind fmap option_fmap option_map] in E. unfold run_call in E.
  rewrite execute_ret in E. cbn [mbind outcome_bind] in E. injection E as <-.
  match goal with |- op_spec _ _ _ (k1 <| user := ?u |>) => assert (u = executed_user t' name c k) as -> end.
  - rewrite Eu1. change (at_thread (running k) (procsys (user_init t' (user k)))) with
      (new_thread t' [] (at_thread (running k) (systems k))). by rewrite executed_sys_new.
  - by eapply created_spec.
Qed.

(** What the user part of [thread_exit] returns. *)
Lemma leave_inv t u u2 l :
  process_leave t u = Ret (u2, l) →
  ∃ r s', exit_user exit_message (at_thread t (procsys u)) = Ret (Val r, s') ∧
    procsys u2 = MkPsys s' (pcs (procsys u)) ∧
    match r with Some c => sema_pop (Terminated c) (waiters u) = (l, waiters u2) | None => l = [] end.
Proof.
  unfold process_leave. simpl. intros E. inv_bind.
  match goal with H : run_call _ _ _ = Ret (?z, _) |- _ =>
    apply run_call_inv in H as (s & Hs & ->); destruct z as [[c|]| |]; inv_bind end.
  - simpl in *. destruct (sema_pop (Terminated c) (waiters u)) as [l' w] eqn:Ep. inv_bind. by exists (Some c), s.
  - by exists None, s.
Qed.

Lemma sys_exit_exits v (s s' : sys dev files) e : sys_exit v s = Ret (e, s') → e = @Exits unit.
Proof.
  unfold sys_exit, mbind, call_bind, get, modify, UserCall.thread_exit.
  destruct (cur_proc s) as [up| |]; simpl; [|done..]. destruct (self up) as [c|]; simpl; [|done].
  destruct (child_heap s !! c); simpl; congruence.
Qed.

(** The status that [exit] leaves in the record. *)
Lemma exit_status_inv (status : option Z) k u :
  match status with
  | Some v => '(_, u) ← run_call (sys_exit (A := unit) v) (running k) (user k); Ret u
  | None => Ret (user k)
  end = Ret u →
  match status with
  | Some v => sys_exit v (at_thread (running k) (systems k)) = Ret (@Exits unit, at_thread (running k) (procsys u))
  | None => at_thread (running k) (procsys u) = at_thread (running k) (systems k)
  end ∧ pcs (procsys u) = pcs (systems k) ∧ waiters u = waiters (user k) ∧ threads_of u = threads_of (user k).
Proof.
  destruct status as [v|]; [|by intros [= <-]]. intros E. inv_bind.
  match goal with H : run_call _ _ _ = Ret (?z, _) |- _ =>
    pose proof (run_call_threads _ _ _ _ _ (sys_exit_threads v) H) as Hd;
    apply run_call_inv in H as (s & Hs & ->); assert (z = Exits) as -> by by eapply sys_exit_exits end.
  split; [|done]. unfold systems in *. rewrite Hs. do 2 f_equal.
  by apply sys_exit_inv in Hs as (up & c & _ & _ & ->).
Qed.

Lemma same_tree_gone t (s s' : sys dev files) : same_tree s s' → same_tree (thread_gone t s) (thread_gone t s').
Proof.
  intros [Ec Et Eh El Ed]. split; try done.
  - intros i. simpl. destruct (decide (t = i)) as [->|]; [by rewrite !lookup_delete_eq|].
    by rewrite !lookup_delete_ne.
  - simpl. by rewrite !dom_delete_L, Ed.
Qed.

(** The end of the switch away from a process that is gone. *)
Lemma exit_switch t s' n u2 u3 :
  procsys u2 = MkPsys s' (pcs (procsys u2)) → process_activate n u2 = Ret u3 →
  pstep (MkPsys (thread_gone t s') (delete t (pcs (procsys u2)))) Tau (procsys (user_free t u3)) ∧
  tree_of_user (user_free t u3) = tree_view (thread_gone t s') (delete t (pcs (procsys u2))) ∧
  waiters (user_free t u3) = waiters u2.
Proof.
  intros E2 (Hs & Hp & Hw)%activate_user. rewrite E2 in Hs.
  assert (procsys (user_free t u3) = MkPsys (thread_gone t (psy (procsys u3))) (delete t (pcs (procsys u2)))) as ->
    by (simpl; by rewrite Hp).
  pose proof (same_tree_gone t _ _ Hs) as Hs'. split.
  { exact (step_other exit_message (MkPsys (thread_gone t s') (delete t (pcs (procsys u2)))) n _ Hs'). }
  split; [|done]. unfold tree_of_user. simpl. rewrite Hp. by rewrite (same_tree_view _ _ _ Hs').
Qed.

(** The user part of [thread_exit], for a process with record [c], named [x] when it
    ends: the step of the process, the list of threads to wake, and the tree. *)
Record left_spec k c (x : child) (up : uproc) u2 (l : list Z) : Prop := {
  lf_pcs : procsys u2 = MkPsys (psy (procsys u2)) (pcs (systems k));
  lf_step : pstep (systems k) (Ended c (c_status x) (children up))
    (MkPsys (thread_gone (running k) (psy (procsys u2))) (delete (running k) (pcs (systems k))));
  lf_tree : tree_view (thread_gone (running k) (psy (procsys u2))) (delete (running k) (pcs (systems k)))
    = tree_exit (running k) c (x <| c_terminated := 1 |>) (children up) (tree_now k);
  lf_initial : running k ≠ initial_thread k;
  lf_idle : ∀ t, t ∈ l → idle_thread k ≠ Some t;
  lf_links : linked (foldl (λ q t, wake t q) (view k) l)
    (tree_exit (running k) c (x <| c_terminated := 1 |>) (children up) (tree_now k)) (waiters u2);
  lf_step_tree : tree_step (tree_now k) (running k) (Some (Terminated c)) (Ended c (c_status x) (children up))
    (tree_exit (running k) c (x <| c_terminated := 1 |>) (children up) (tree_now k))
}.

Lemma leave_spec m status k u up c x u2 l :
  kinv m k → op_ok (KExit status) k →
  match status with
  | Some v => sys_exit v (at_thread (running k) (systems k)) = Ret (@Exits unit, at_thread (running k) (procsys u))
  | None => at_thread (running k) (procsys u) = at_thread (running k) (systems k)
  end →
  pcs (procsys u) = pcs (systems k) → waiters u = waiters (user k) →
  uprocs (psy (procsys u)) !! running k = Some up → self up = Some c → child_heap (psy (procsys u)) !! c = Some x →
  (∀ y, y ∈ children up → ¬ alive (systems k) y) →
  process_leave (running k) u = Ret (u2, l) → left_spec k c x up u2 l.
Proof.
  intros Hk Hpc Hs1 Hpu Hwu Hup Hself Hc Hord E. pose proof Hk as [Hwf Hsl _ Hl].
  destruct (tree_now_ok m k Hk) as (R & Ok & _).
  apply leave_inv in E as (r & s' & Hexit & E2 & Hr).
  destruct (exit_tree_view exit_message (systems k) R (running k) status up c x
    (at_thread (running k) (procsys u)) r s') as (Hn & _ & -> & Ev); [done|by destruct status|done..|].
  assert (is_Some (t_pcs (tree_now k) !! running k)) as Hpt by (destruct Hpc as [?|[? _]]; by eexists).
  pose proof (ts_exit (tree_now k) (running k) c (tree_of up) (x <| c_terminated := 1 |>) Hpt Hn Hself) as Hts.
  pose proof (linked_step _ _ _ _ _ _ R (rr_queue _ Hwf) Ok Hl Hts) as Hl'. rewrite Hwu in Hr.
  destruct (linked_pop _ _ _ _ _ _ (rr_queue _ Hwf) Hr Hl') as [Hi Hl2].
  split; rewrite ?E2; [by rewrite Hpu| |exact Ev| |done|done|done].
  - by eapply (step_exit exit_message (systems k) (running k) status up c x); [|destruct status|..].
  - intros En. destruct (lk_initial _ _ _ _ Hl) as [Hini _].
    change (t_procs (tree_now k) !! running k = Some (tree_of up)) in Hn. rewrite En in Hn.
    specialize (Hini _ Hn). simpl in Hini. congruence.
Qed.

Lemma exit_spec m status k e k' :
  kinv m k → op_ok (KExit status) k → kernel_exit status k = Ret (e, k') → orderly (systems k) e →
  op_spec 0 k e k'.
Proof.
  intros Hk Hpc E Hord. pose proof Hk as [Hwf Hsl _ Hl].
  unfold kernel_exit in E. apply bind_Ret_inv in E as (u & Eu & E).
  apply exit_status_inv in Eu as (Hs1 & Hpu & Hwu & Hdu). inv_bind.
  match goal with H : uprocs _ !! _ = Some ?z |- _ => rename H into Hup, z into up end.
  match goal with H : self up = Some ?z |- _ => rename H into Hself, z into c end.
  match goal with H : child_at _ c = Ret ?z |- _ => unfold child_at in H; apply deref_Ret_inv in H; rename H into Hc, z into x end.
  match goal with H : RoundRobin.thread_exit _ = Ret _ |- _ => rename H into Hx end.
  set (k0 := k <| user := u |>) in *. destruct (user_change k u Hwf Hsl Hdu) as [Hwf0 _].
  pose proof (λ u2 l, leave_spec m status k u up c x u2 l Hk Hpc Hs1 Hpu Hwu Hup Hself Hc Hord) as Hleave.
  assert (event_ok Exit k0) as Hok.
  { split; [|intros u2 l t El; apply (lf_idle _ _ _ _ _ _ (Hleave u2 l El))].
    intros Hi. assert (pc_at (running k) k = None) as Hno by exact (lk_idle _ _ _ _ Hl (running k) Hi).
    by destruct Hpc as [?|[? _]]; congruence. }
  destruct (thread_exit_inv k0 k' Hwf0 Hok Hx) as (u2 & l & k1 & El & _ & _ & Hwf1 & Hv1 & E1 & lv & Hsw).
  destruct (Hleave u2 l El) as [E2 Hst Ev Hini _ Hl2 Hts].
  pose proof (exit_effect k0 k' Hwf0 Hok Hx) as He. destruct Hsw as [Hv _ _ _ (u3 & Hu3 & Eu') _].
  assert (user k1 = u2 ∧ running k1 = running k ∧ initial_thread k1 = initial_thread k) as (Eu1 & Er1 & Ei1)
    by (by rewrite E1).
  rewrite Er1, Ei1, bool_decide_eq_true_2 in Eu' by done. rewrite Eu1 in Hu3. 
  assert (pcs (procsys u2) = pcs (systems k)) as Ep by (by rewrite E2).
  rewrite <- Ep in E2. destruct (exit_switch (running k) _ _ u2 u3 E2 Hu3) as (Hst2 & Et & Ew).
  rewrite Ep in *. rewrite <- Eu' in *.
  assert (tree_now k' = tree_exit (running k) c (x <| c_terminated := 1 |>) (children up) (tree_now k)) as Et'
    by (rewrite <- Ev; exact Et).
  split.
  - by apply (effect_from _ k0).
  - eexists. split; [exact Hst|]. apply rtc_once. exact Hst2.
  - rewrite Et', Ew, Hv. apply linked_leave; [apply Hwf1|done| | |by rewrite Hv1].
    + simpl. rewrite Er1, lookup_delete_eq. by intros [? ?].
    + intros _. simpl. rewrite Er1. split; [rewrite E1; apply Hok|]. by rewrite lookup_delete_eq.
  - left. exists (Some (Terminated c)). by rewrite Et'.
Qed.

(** ** Runs of the kernel *)

Lemma op_correct m op k e k' :
  kinv m k → op_ok op k → run_op sef stf op k = Ret (e, k') → orderly (systems k) e →
  op_spec (op_ticks op) k e k'.
Proof.
  intros Hk Hok E Hord.
  destruct op as [| |l| |call|name np cp tp| | |tid|status]; cbn [run_op op_ticks] in E |- *.
  - inv_bind. by eapply yield_spec.
  - inv_bind. by eapply tick_spec.
  - apply bind_Ret_inv in E as ([o i] & Hi & [= <- <-]). by eapply level_spec.
  - inv_bind. by eapply idle_spec.
  - apply bind_Ret_inv in E as ([z u] & Hu & [= <- <-]). destruct Hok. by eapply call_spec.
  - inv_bind. by eapply execute_spec.
  - destruct (pc_at (running k) k) as [[]|] eqn:Hpc; try done. inv_bind. by eapply start_spec.
  - destruct (pc_at (running k) k) as [[]|] eqn:Hpc; try done; [by eapply executed_spec|by eapply waited_spec].
  - inv_bind. by eapply wait_spec.
  - by eapply exit_spec.
Qed.

Lemma taus_inv m σ σ' : rtc (λ a b, pstep a Tau b) σ σ' → pinv m σ → pinv m σ'.
Proof. induction 1 as [|a b d Hst _ IH]; [done|]. intros Hi. apply IH. by apply (pstep_inv exit_message m a Tau b). Qed.

Lemma taus_run m σ0 σ σ' : rtc (λ a b, pstep a Tau b) σ σ' → prun exit_message σ0 m σ → prun exit_message σ0 m σ'.
Proof.
  induction 1 as [|a b d Hst _ IH]; [done|]. intros Hr. apply IH. by apply (run_step exit_message σ0 m a Tau b).
Qed.

Lemma op_keeps m n k e k' : kinv m k → op_spec n k e k' → orderly (systems k) e → kinv (pend_step m e) k'.
Proof.
  intros Hk [[Hwf Hsl _ _] (σ & Hst & Hr) Hl _] Hord. split; [done..| |done].
  by eapply taus_inv, pstep_inv; [exact Hr|apply Hk|..].
Qed.

(** The main thread runs, there is an idle thread, and no process yet. *)
Record kbooted k : Prop := {
  kb_wf : rr_wf k;
  kb_slice : in_slice k;
  kb_booted : booted (systems k);
  kb_main : running k = initial_thread k ∧ pcs (systems k) = {[running k := InUser]};
  kb_known t : is_Some (uprocs (psy (systems k)) !! t) → is_Some (threads k !! t);
  kb_idle : idle_thread k ≠ Some (running k);
  kb_waiters : waiters (user k) = ∅
}.

(** Runs in which no process ends before its children, with the statuses that are not
    yet told to the parents. *)
Inductive krun k0 : gmap Z Z → kern → Prop :=
  | krun_boot : krun k0 ∅ k0
  | krun_op m k op e k' :
      krun k0 m k → op_ok op k → run_op sef stf op k = Ret (e, k') → orderly (systems k) e →
      krun k0 (pend_step m e) k'.

Lemma kbooted_inv k : kbooted k → kinv ∅ k.
Proof.
  intros [Hwf Hsl Hb [Em Hp] Hk Hi Hw]. split; [done|done|by apply booted_inv|].
  assert (∀ t, is_Some (pcs (systems k) !! t) → t = running k) as Hpc.
  { intros t. rewrite Hp. by intros [? [? _]%lookup_singleton_Some]. }
  pose proof (rq_run _ (rr_queue _ Hwf)) as Hrun. simpl in Hrun.
  assert (∀ sm, waiting_on (waiters (user k)) sm = []) as Hnil by (intros sm; by rewrite Hw).
  unfold systems in *. split; simpl.
  - intros i Hid. destruct (pcs (procsys (user k)) !! i) eqn:E; [|done]. destruct Hi. rewrite Hid. f_equal.
    apply Hpc. by eexists.
  - intros t ->%Hpc. eauto.
  - intros t. rewrite !lookup_fmap, !fmap_is_Some. apply Hk.
  - rewrite <- Em. by eexists.
  - rewrite <- Em. split; [|intros par; by rewrite Hp, lookup_singleton_eq].
    intros n. rewrite lookup_fmap. intros (up & Hup & ->)%fmap_Some. by rewrite (bt_procs _ Hb _ _ Hup).
  - intros t tid. rewrite Hp. by intros [_ ?]%lookup_singleton_Some.
  - intros t ->%Hpc. rewrite Hrun. done.
  - intros sm. left. apply Hnil.
Qed.

Lemma krun_inv k0 m k : kbooted k0 → krun k0 m k → kinv m k.
Proof.
  intros Hb. induction 1; [by apply kbooted_inv|]. eapply op_keeps; [done|by eapply op_correct|done].
Qed.

(** A record that someone waits for stands for a live child or one that has ended. *)
Lemma waited_record m k t c :
  kinv m k → pc_at t k = Some (InWait c) →
  ∃ x, child_heap (psy (systems k)) !! c = Some x ∧
    (c_terminated x = 0 ∧ alive (systems k) c ∨ c_terminated x = 1 ∧ m !! c = Some (c_status x)).
Proof.
  intros Hk Hpc. destruct (tree_now_ok m k Hk) as (R & Ok & Hm).
  destruct (to_wait _ _ Ok t c Hpc) as (n & Hn & Hc).
  destruct (to_children _ _ Ok t n Hn) as (_ & _ & Hall). destruct (Hall c Hc) as [[r Hr] Hnl].
  pose proof (to_heap _ _ Ok c) as Hx. rewrite Hr in Hx.
  change (t_heap (tree_now k)) with (child_heap (psy (systems k))) in Hx.
  destruct (child_heap (psy (systems k)) !! c) as [x|]; [|by destruct r]. exists x. split; [done|].
  destruct r as [t'|t'|v]; [by destruct (Hnl t')|left; split; [done|by eapply live_alive]|right].
  destruct Hx as [? <-]. split; [done|]. by apply Hm.
Qed.

(** What a blocked process waits for is still to come. *)
Lemma blocked_waits m k t :
  kinv m k → is_Some (pc_at t k) → sts (view k) !! t = Some THREAD_BLOCKED →
  (∃ c, pc_at t k = Some (InWait c) ∧ waiting_on (waiters (user k)) (Terminated c) = [t] ∧ alive (systems k) c) ∨
  (∃ tid t', pc_at t k = Some (InExecute tid) ∧ waiting_on (waiters (user k)) (SuccessSet t) = [t] ∧
     pc_at t' k = Some (ToLoad t)).
Proof.
  intros Hk Hpc Hb. destruct (tree_now_ok m k Hk) as (R & Ok & Hm). pose proof (ki_links _ _ Hk) as Hl.
  destruct (lk_asleep _ _ _ _ Hl t Hpc Hb) as [sm Hw].
  destruct (lk_waiter _ _ _ _ Hl sm) as [?|(t' & Hw' & _ & Hd & Hz)]; [congruence|].
  rewrite Hw in Hw'. injection Hw' as <-. specialize (Hz ltac:(done)). destruct sm as [p|c].
  - destruct Hd as [<- [tid Htid]]. right.
    destruct (t_leash (tree_now k) !! t) as [l|] eqn:El; [|simpl in Hz, El; by rewrite El in Hz].
    assert (success_set l = 0) as Hzero by (simpl in Hz, El; rewrite El in Hz; by injection Hz).
    destruct (to_set _ _ Ok t l El) as [t' HR]; [lia|]. exists tid, t'. split_and!; [done|done|].
    destruct (to_loading _ _ Ok _ _ HR) as (par & l' & Hpar & Hl' & Ec).
    assert (par = t) as -> by (eapply (to_own _ _ Ok); right; [by exists l'|by exists l]). exact Hpar.
  - left. exists c. split_and!; [done|done|]. destruct (waited_record m k t c Hk Hd) as (x & Hx & Hcase).
    simpl in Hz. unfold systems in Hx. rewrite Hx in Hz. injection Hz as Hz.
    destruct Hcase as [[_ ?]|[? _]]; [done|lia].
Qed.

Lemma runs_or_waits m k t :
  kinv m k → is_Some (pc_at t k) →
  t = running k ∨ t ∈ ready_list k ∨
  (∃ c, pc_at t k = Some (InWait c) ∧ waiting_on (waiters (user k)) (Terminated c) = [t] ∧ alive (systems k) c) ∨
  (∃ tid t', pc_at t k = Some (InExecute tid) ∧ waiting_on (waiters (user k)) (SuccessSet t) = [t] ∧
     pc_at t' k = Some (ToLoad t)).
Proof.
  intros Hk Hpc. pose proof Hk as [Hwf _ _ Hl].
  destruct (lk_live _ _ _ _ Hl t Hpc) as (s & Hs & Hdy). destruct s; [| | |done].
  - left. by apply (rq_single _ (rr_queue _ Hwf)).
  - right; left. destruct (rq_queued _ (rr_queue _ Hwf) t Hs) as [|Hi]; [done|].
    assert (pc_at t k = None) as Hno by exact (lk_idle _ _ _ _ Hl t Hi). rewrite Hno in Hpc. by destruct Hpc.
  - do 2 right. by eapply blocked_waits.
Qed.

Lemma ended_not_alive m k c v : kinv m k → m !! c = Some v → ¬ alive (systems k) c.
Proof.
  intros Hk Hm (t & up & Hu & Hself). destruct (tree_now_ok m k Hk) as (R & Ok & HmR). apply HmR in Hm.
  destruct (to_self _ _ Ok t _ c (view_proc _ (pcs (systems k)) _ _ Hu) Hself) as [HR _]. congruence.
Qed.

(** C5. Every orderly run of the kernel is a run of its processes under the interleavings of
    ProcSteps.v, with the same statuses pending, and a run of the abstract FIFO queue;
    what holds of those holds of the kernel. *)
Theorem kernel_refines k0 m k :
  kbooted k0 → krun k0 m k →
  prun exit_message (systems k0) m (systems k) ∧ rtc rq_step (view k0) (view k) ∧ rq_wf (view k).
Proof.
  intros Hb Hr. split; [|split; [|apply (krun_inv k0 m k Hb Hr)]].
  - induction Hr as [|m k op e k' Hr IH Hok E Hord]; [constructor|].
    destruct (op_correct m op k e k') as [_ (σ & Hst & Htau) _ _]; [by eapply krun_inv|done..|].
    eapply taus_run; [exact Htau|]. by econstructor.
  - induction Hr as [|m k op e k' Hr IH Hok E Hord]; [done|].
    destruct (op_correct m op k e k') as [He _ _ _]; [by eapply krun_inv|done..|].
    etrans; [exact IH|apply He].
Qed.

(** C4. No wake-up is lost.  In every orderly run, a process is on the CPU or in the ready
    list, or it sleeps on a semaphore that is still to be raised: in [process_wait]
    because the child is alive, in [process_execute] because the new thread has still
    to load its program. *)
Theorem no_lost_wakeup k0 m k t :
  kbooted k0 → krun k0 m k → is_Some (pc_at t k) →
  t = running k ∨ t ∈ ready_list k ∨
  (∃ c, pc_at t k = Some (InWait c) ∧ waiting_on (waiters (user k)) (Terminated c) = [t] ∧ alive (systems k) c) ∨
  (∃ tid t', pc_at t k = Some (InExecute tid) ∧ waiting_on (waiters (user k)) (SuccessSet t) = [t] ∧
     pc_at t' k = Some (ToLoad t)).
Proof. intros Hb Hr. by apply (runs_or_waits m), (krun_inv k0). Qed.

(** What the kernel does in [n] ticks. *)
Definition kstep (n : Z) k k' : Prop :=
  ∃ op e, n = op_ticks op ∧ op_ok op k ∧ run_op sef stf op k = Ret (e, k') ∧ orderly (systems k) e.

(** [p] waits for a child that has ended with status [v]. *)
Definition can_be_told p c v k : Prop :=
  ∃ m, kinv m k ∧ pc_at p k = Some (InWait c) ∧ m !! c = Some v.

Lemma still_can_be_told p c v n k k' :
  running k ≠ p → can_be_told p c v k → kstep n k k' → can_be_told p c v k'.
Proof.
  intros Hne (m & Hk & Hpc & Hm) (op & e & -> & Hok & E & Hord).
  pose proof (op_correct m op k e k' Hk Hok E Hord) as Hop.
  exists (pend_step m e). split; [by eapply op_keeps|].
  destruct (tree_now_ok m k Hk) as (R & Ok & HmR). destruct Hop as [_ _ _ [[o Ht]|[-> Hpcs]]].
  - by eapply (pending_step (tree_now k) R m (running k) o e (tree_now k')).
  - split; [|done]. rewrite Hpcs; [done|done|by eexists].
Qed.

(** It is told as soon as it runs. *)
Lemma told p c v k :
  can_be_told p c v k → running k = p → ∃ k', run_op sef stf KGoOn k = Ret (Waited c v, k').
Proof.
  intros (m & Hk & Hpc & Hm) Hr. destruct (waited_record m k p c Hk Hpc) as (x & Hx & Hcase).
  assert (c_terminated x = 1 ∧ c_status x = v) as [Hz Hv].
  { destruct Hcase as [[_ Ha]|[Hz Hm']]; [by destruct (ended_not_alive m k c v)|split; [done|congruence]]. }
  subst p. unfold run_op. rewrite Hpc. unfold kernel_waited, run_call.
  assert (down_terminated c (at_thread (running k) (procsys (user k))) =
    Ret (Val true, upd_child c (λ x, x <| c_terminated := 0 |>) (at_thread (running k) (procsys (user k))))) as E1.
  { unfold down_terminated, child_at, sema_down. simpl. unfold systems in Hx. rewrite Hx. simpl. by rewrite Hz. }
  rewrite E1. ret. cbn [psy procsys upd_sys].
  match goal with |- context [wait_end c ?s] => set (s1 := s) end.
  assert (∃ s2, wait_end c s1 = Ret (Val v, s2)) as [s2 ->].
  { unfold wait_end. call_ret by reflexivity.
    call_ret by (unfold get, child_at; simpl; unfold systems in Hx; rewrite lookup_alter_eq, Hx; reflexivity).
    call_ret by reflexivity. simpl. rewrite Hv. by eexists. }
  ret. by eexists.
Qed.

(** C3. In orderly runs a parent is told the status of its child in bounded time.  When a
    child that its parent waits for has ended with status [v], the parent, behind the
    threads of the ready list, gets the CPU within [TIME_SLICE] ticks for each of them,
    and then its [process_wait] returns [v].  Orderly, before and meanwhile, excludes
    two things: a process that ends before a child of it (the child's exit then
    panics, [orphan_exit_panics]), and a [process_execute] that gives back the record
    of a child whose load failed before that child has ended (the race of
    process.c:75, after which a parent may be told early or told a wrong status).
    Whatever else the processes do in between, the bound and the status hold. *)
Theorem parent_told_in_time k0 m k p c v n ks :
  kbooted k0 → krun k0 m k → pc_at p k = Some (InWait c) → m !! c = Some v → running k ≠ p →
  run_of kstep k n ks → TIME_SLICE * Z.of_nat (length (ready_list k)) ≤ n →
  ∃ k', k' ∈ ks ∧ running k' = p ∧ ∃ k'', run_op sef stf KGoOn k' = Ret (Waited c v, k'').
Proof.
  intros Hb Hr Hpc Hm Hne Hrun Hn. pose proof (krun_inv k0 m k Hb Hr) as Hk. pose proof Hk as [Hwf Hsl _ _].
  assert (p ∈ ready_list k) as Hin.
  { destruct (runs_or_waits m k p Hk) as [|[?|[(c' & Hpc' & _ & Ha)|(tid & t' & Hpc' & _)]]];
      [by eexists|done|done| |congruence].
    assert (c' = c) as -> by congruence. by destruct (ended_not_alive m k c v). }
  apply list_elem_of_split in Hin as (pre & post & Hq).
  destruct (runs_within kstep (can_be_told p c v) p k n ks pre) as (k' & Hk' & Hp & Htold); try done.
  - intros n' k1 k2 _ _ (m1 & Hk1 & _ & _) (op & e & -> & Hok & E & Hord).
    by destruct (op_correct m1 op k1 e k2).
  - intros n' k1 k2. by apply still_can_be_told.
  - by exists m.
  - by exists post.
  - rewrite Hq, length_app in Hn. simpl in Hn. pose proof (rr_ticks k Hwf). unfold TIME_SLICE in *. lia.
  - exists k'. split; [done|]. split; [done|]. by apply (told p).
Qed.
End spec.
