(* ===== verification/KernelStart.v ===== *)
(** * From the loader to the first process

    What thread_start (Startup.v) leaves, with the processes of UserKernel.v as the user
    part of the threads, is the state [kbooted] in which the runs of KernelSpec.v begin:
    whatever the timer did meanwhile, the main thread runs, the idle thread waits for the
    queue to be empty, and neither is a process. *)
From S2P Require Import Prelude CInt Ext Interrupt Threads Mmu PageDir Swap PageTable UserFiles Elf Frame Page VmSpec UserCall Exception UserMem Load Process Syscall ProcTree Rendezvous ProcSteps RunQueue RoundRobin RoundRobinSpec Startup UserKernel KernelLinks KernelSpec.
From stdpp Require Import strings relations.
Open Scope Z_scope.

Section start.
Context `{Vaddr, !Pte, Selectors, KernelMemory, StartRegs}.
Context {dev files : Type} `{BlockDevice dev, FileOps files, FileCalls files, KeepsTree dev files}.
Variable exit_message : option (list Z) → Z → list Z.

#[local] Hint Extern 0 (UserThreads (usys dev files)) => exact (process_threads exit_message) : typeclass_instances.
#[local] Hint Extern 0 (UserThreadsLaws (usys dev files)) => exact (process_threads_laws exit_message) : typeclass_instances.

Notation kern := (kern (usys dev files)).
Notation boot := (boot (usys dev files)).
Notation kbooted := (kbooted exit_message).
Implicit Types (k : kern) (b : boot) (u : usys dev files) (t c p : Z) (m : gmap Z Z).

(** No thread, no process, no semaphore with a waiter.  The thread that the loader starts
    is in no system call. *)
Record no_process t u : Prop := {
  np_uprocs : uprocs (psy (procsys u)) = ∅;
  np_heap : child_heap (psy (procsys u)) = ∅ ∧ leashes (psy (procsys u)) = ∅;
  np_pcs : pcs (procsys u) = {[t := InUser]};
  np_waiters : waiters u = ∅
}.

(** Address spaces are activated, the processes stay as they are. *)
Lemma activated_tree u u' :
  activated u u' → tree_of_user u' = tree_of_user u ∧ waiters u' = waiters u.
Proof.
  induction 1 as [|u1 u2 u3 [t Ht] _ [IH1 IH2]]; [done|].
  destruct (activate_steps exit_message t u1 u2 Ht) as (_ & E1 & E2). by rewrite IH1, IH2.
Qed.

(** A thread that is no process. *)
Definition kernel_node : node := Node [] false None false.

Lemma started_tree t i u :
  no_process t u → tree_of_user (user_init i (user_init t u)) =
    Tree {[i := kernel_node; t := kernel_node]} ∅ ∅ {[t := InUser]}.
Proof.
  intros [Hu [Hh Hl] Hp Hw]. unfold tree_of_user, tree_view. simpl. rewrite Hu, Hh, Hl, Hp. f_equal.
  by rewrite !fmap_insert, fmap_empty.
Qed.

Variables sef stf : Z.
Hypotheses (sef_words : sef mod 4 = 0) (stf_words : stf mod 4 = 0).
Notation thread_start := (thread_start sef stf).

Lemma started_booted u t i b :
  starting (user_init i (user_init t u)) t i b → main_at b = Started → no_process t u → kbooted (kernel b).
Proof.
  intros Hb Hst Hn. destruct (started_ok _ _ _ _ Hb Hst) as ((Hwf & Hsl & Hr & Hini & Hid & _) & Htwo & Hact).
  destruct (activated_tree _ _ Hact) as [Et Ew]. rewrite (started_tree t i u Hn) in Et.
  pose proof (f_equal t_procs Et) as Eu. pose proof (f_equal t_heap Et) as Eh.
  pose proof (f_equal t_leash Et) as El. pose proof (f_equal t_pcs Et) as Ep. simpl in Eu, Eh, El, Ep.
  assert (∀ x up, uprocs (psy (systems (kernel b))) !! x = Some up → (x = t ∨ x = i) ∧ tree_of up = kernel_node) as Hup.
  { intros x up Hx. pose proof (lookup_fmap tree_of (uprocs (psy (systems (kernel b)))) x) as E.
    rewrite Hx in E. unfold systems in E. rewrite Eu in E. simpl in E.
    apply lookup_insert_Some in E as [[<- E]|[_ [<- E]%lookup_singleton_Some]]; auto. }
  split; [done|done|split; [| |done]|by rewrite Hr, Hini| |rewrite Hid, Hr|].
  - intros x up Hx. by apply Hup in Hx as [_ ->].
  - exists t. split; [exact Ep|].
    assert (is_Some ((tree_of <$> uprocs (psy (systems (kernel b)))) !! t)) as Hs; [|by rewrite lookup_fmap, fmap_is_Some in Hs].
    unfold systems. rewrite Eu. destruct (decide (i = t)) as [->|]; [rewrite lookup_insert_eq; by eexists|].
    rewrite lookup_insert_ne, lookup_singleton_eq by done. by eexists.
  - intros x [up Hx]. assert (is_Some (sts (view (kernel b)) !! x)) as Hs.
    { apply Hup in Hx as [[->| ->] _].
      - destruct (two_main _ _ _ _ _ Htwo) as (s & -> & _). by eexists.
      - destruct (two_idle _ _ _ _ _ Htwo) as (s & -> & _). by eexists. }
    by rewrite view_status, fmap_is_Some in Hs.
  - intros [= E]. by apply (two_ne _ _ _ _ _ Htwo).
  - rewrite Ew. apply Hn.
Qed.

(** C6. From the loader's hand-over to the first process: [thread_init] and [thread_start]
    return after at most five steps of the two threads, whenever the timer interrupts
    them, and what they leave is the state in which the kernel's runs begin; so every
    orderly run of processes after it keeps the invariant of the scheduler, of the process
    tree and of the links between them. *)
Theorem kernel_boots i k :
  power_on k → no_process (running k) (user k) → i ≠ running k →
  ∃ k1 b0, thread_init k = Ret k1 ∧ thread_start (Some i) k1 = Ret b0 ∧
  ∀ n b, start_run b0 n b →
    (n ≤ 5)%nat ∧ (main_at b ≠ Started → ∃ b', boot_step b = Ret b') ∧
    (main_at b = Started → kbooted (kernel b) ∧
       ∀ m k', krun exit_message sef stf (kernel b) m k' → kinv exit_message m k').
Proof.
  intros Hk Hn Hi. destruct (thread_init_ret k Hk) as (k1 & E1 & Hok1 & Hsl1 & Hv1 & _ & Hr1 & Hu1).
  destruct (thread_start_ret _ _ sef_words stf_words i (running k) k1 _ Hok1 Hsl1 Hv1 Hi Hr1 Hu1) as (b0 & E0 & Hb0 & Hn0).
  exists k1, b0. split; [done|]. split; [done|]. intros n b Hrun.
  destruct (start_run_starting _ _ _ _ _ _ Hb0 Hrun) as [Hb Hle]. rewrite Hn0 in Hle.
  split; [lia|]. split.
  - intros Hns. destruct (boot_step_starting _ _ _ _ Hb Hns) as (b' & ? & _). by exists b'.
  - intros Hst. pose proof (started_booted _ _ _ _ Hb Hst Hn) as Hkb. split; [done|].
    intros m k' Hr. by apply (krun_inv exit_message sef stf sef_words stf_words (kernel b)).
Qed.
End start.
