(* ===== verification/UserMemSpec.v ===== *)
(** * What kernel accesses to user memory do

    For addresses that are mapped: a load returns the byte of the frame, a store
    changes that byte only, and the rest of the state is as before, the accessed
    and dirty bits apart. *)
From S2P Require Import Prelude CInt Ext Mmu PageDir Swap PageTable Frame Page UserCall Exception UserMem.
Open Scope Z_scope.

Section spec.
Context `{VaddrLaws, !Pte, !PteLaws, KernelMemory}.
Context {dev files : Type} `{BlockDevice dev, FileOps files, !FaultHandler (sys dev files)}.
Implicit Types (s : sys dev files) (w : vm dev files) (uaddr v : Z) (pds : gset Z).

(** The address space of the running process. *)
Record aspace pds (pd : Z) w : Prop := {
  as_cur : ∃ t, procs w !! current w = Some t ∧ pagedir t = Some pd;
  as_pd : pd ∈ pds ∧ kernel_page pd;
  as_mmu : mmu_wf pds (vmmu w)
}.

(** The user byte at [v]. *)
Definition user_byte pd w v : option Z :=
  match pagedir_get_page (Some pd) v (vmmu w) with
  | Ret (Some a) => ram w !! pg_round_down a ≫= λ page, page !! Z.to_nat (pg_ofs a)
  | _ => None
  end.

(** The bytes [l] are at [uaddr], all in user space. *)
Definition user_bytes pd w uaddr (l : list Z) : Prop :=
  ∀ i b, l !! i = Some b →
    user_addr (uaddr + Z.of_nat i) ∧ user_byte pd w (uaddr + Z.of_nat i) = Some b.

(** [s'] is [s] with other accessed bits. *)
Record same_user pds pd s s' : Prop := {
  su_rest : s' = s <| svm := (svm s) <| vmmu := vmmu (svm s') |> |>;
  su_aspace : aspace pds pd (svm s');
  su_bytes : ∀ v, user_addr v → user_byte pd (svm s') v = user_byte pd (svm s) v;
  su_map : ∀ v, user_addr v →
    pagedir_get_page (Some pd) v (vmmu (svm s')) = pagedir_get_page (Some pd) v (vmmu (svm s))
}.

Lemma same_user_refl pds pd s : aspace pds pd (svm s) → same_user pds pd s s.
Proof. intros Ha. split; [by destruct s as [[] ? ? ? ? ? ? ? ? ?]|done..]. Qed.

Lemma same_user_trans pds pd s1 s2 s3 :
  same_user pds pd s1 s2 → same_user pds pd s2 s3 → same_user pds pd s1 s3.
Proof.
  intros [E1 _ B1 M1] [E2 A2 B2 M2]. split; [|done| |].
  - rewrite E2 at 1. by rewrite E1.
  - intros v Hv. by rewrite B2, B1.
  - intros v Hv. by rewrite M2, M1.
Qed.

Lemma same_user_user_bytes pds pd s s' uaddr l :
  same_user pds pd s s' → user_bytes pd (svm s) uaddr l → user_bytes pd (svm s') uaddr l.
Proof. intros [_ _ Hb _] Hl i b Hi. destruct (Hl i b Hi). split; [done|]. by rewrite Hb. Qed.

Lemma user_bytes_cons pd w uaddr b l :
  user_bytes pd w uaddr (b :: l) ↔
    (user_addr uaddr ∧ user_byte pd w uaddr = Some b) ∧ user_bytes pd w (uaddr + 1) l.
Proof.
  split.
  - intros Hl. split; [specialize (Hl O b eq_refl); by rewrite Z.add_0_r in Hl|].
    intros i c Hi. specialize (Hl (S i) c Hi).
    by replace (uaddr + 1 + Z.of_nat i) with (uaddr + Z.of_nat (S i)) by lia.
  - intros [Hb Hl] [|i] c Hi; [injection Hi as <-; by rewrite Z.add_0_r|].
    specialize (Hl i c Hi). by replace (uaddr + Z.of_nat (S i)) with (uaddr + 1 + Z.of_nat i) by lia.
Qed.

Lemma user_bytes_app pd w uaddr l1 l2 :
  user_bytes pd w uaddr (l1 ++ l2) ↔
    user_bytes pd w uaddr l1 ∧ user_bytes pd w (uaddr + Z.of_nat (length l1)) l2.
Proof.
  revert uaddr. induction l1 as [|b l1 IH]; intros uaddr; simpl.
  - rewrite Z.add_0_r. split; [|tauto]. intros Hl. split; [|done]. by intros i b.
  - rewrite !user_bytes_cons, IH.
    replace (uaddr + Z.of_nat (S (length l1))) with (uaddr + 1 + Z.of_nat (length l1)) by lia. tauto.
Qed.

Lemma user_addr_u32 v : user_addr v → u32 (v + 1) = v + 1.
Proof. intros [? ?]. destruct PHYS_BASE_spec. apply u32_id. unfold in_u32. lia. Qed.

(** The part of [user_byte] before the frame. *)
Lemma user_byte_Some pds pd w v b :
  aspace pds pd w → user_addr v → user_byte pd w v = Some b →
  ∃ a page, pagedir_get_page (Some pd) v (vmmu w) = Ret (Some a) ∧
    ram w !! pg_round_down a = Some page ∧ page !! Z.to_nat (pg_ofs a) = Some b.
Proof.
  intros [_ [Hpd _] Hw] Hv. unfold user_byte. rewrite (pagedir_get_page_ret pds) by done.
  destruct (translate _ v) as [a|]; [|done].
  intros (page & Hpage & Hb)%bind_Some. by exists a, page.
Qed.

Lemma translate_user_ret pds pd s v :
  aspace pds pd (svm s) → user_addr v →
  translate_user v s = Ret (Val (translate (pte_of (vmmu (svm s)) pd v) v), s).
Proof.
  intros [(t & Ht & Epd) [Hpd _] Hw] Hv. unfold translate_user, vm_get, get, thread_current.
  rewrite Ht. ret. rewrite Epd, (pagedir_get_page_ret pds) by done. by destruct s.
Qed.

(** A mapped byte is reached without a fault. *)
Lemma touch_ret pds pd s v b (write : bool) :
  aspace pds pd (svm s) → user_addr v → user_byte pd (svm s) v = Some b →
  ∃ a page, touch v write s = Ret (Val a, s) ∧ pagedir_get_page (Some pd) v (vmmu (svm s)) = Ret (Some a) ∧
    ram (svm s) !! pg_round_down a = Some page ∧ page !! Z.to_nat (pg_ofs a) = Some b.
Proof.
  intros Ha Hv Hb. destruct (user_byte_Some pds pd (svm s) v b Ha Hv Hb) as (a & page & Hget & Hp & Hpb).
  exists a, page. split; [|done]. unfold touch. call_ret by (by eapply translate_user_ret).
  destruct Ha as [_ [Hpd _] Hw]. rewrite (pagedir_get_page_ret pds) in Hget by done.
  injection Hget as ->. done.
Qed.

(** Setting the accessed bit changes no byte. *)
Lemma set_accessed_same pds pd s v m :
  aspace pds pd (svm s) → user_addr v →
  pagedir_set_accessed (Some pd) v true (vmmu (svm s)) = Ret m →
  same_user pds pd s (s <| svm := (svm s) <| vmmu := m |> |>).
Proof.
  intros [(t & Ht & Epd) [Hpd Hk] Hw] Hv Hm. unfold pagedir_set_accessed in Hm.
  destruct (change_flag_translate pds (vmmu (svm s)) pd v PTE_A true Hw Hpd Hk Hv)
    as (m' & Hm' & Hw' & _ & Htr); [by left|]. ret_inj. split; [done| | |intros u; by apply Htr].
  - split; [by exists t|done|done].
  - intros u Hu. unfold user_byte.
    change (vmmu (svm (s <| svm := (svm s) <| vmmu := m' |> |>))) with m'. by rewrite Htr.
Qed.

Lemma load_byte_ret pds pd s v b :
  aspace pds pd (svm s) → user_addr v → user_byte pd (svm s) v = Some b →
  ∃ s', load_byte v s = Ret (Val b, s') ∧ same_user pds pd s s'.
Proof.
  intros Ha Hv Hb. unfold load_byte. rewrite (proj2 (is_user_vaddr_spec v)) by apply Hv.
  destruct (touch_ret pds pd s v b false Ha Hv Hb) as (a & page & Ht & _ & Hp & Hpb).
  call_ret Ht. pose proof Ha as [(t & Hcur & Epd) [Hpd Hk] Hw].
  destruct (change_flag_translate pds (vmmu (svm s)) pd v PTE_A true Hw Hpd Hk Hv)
    as (m & Hm & _); [by left|].
  exists (s <| svm := (svm s) <| vmmu := m |> |>). split; [|by apply set_accessed_same with v].
  unfold vm_do, thread_current. rewrite Hcur. ret. rewrite Epd. unfold pagedir_set_accessed.
  rewrite Hm. ret. rewrite Hp. ret. rewrite Hpb. by ret.
Qed.

Lemma load_bytes_ret pds pd l s uaddr :
  aspace pds pd (svm s) → user_bytes pd (svm s) uaddr l →
  ∃ s', load_bytes (length l) uaddr s = Ret (Val l, s') ∧ same_user pds pd s s'.
Proof.
  revert s uaddr. induction l as [|b l IH]; intros s uaddr Ha Hl; simpl.
  { exists s. split; [done|]. by apply same_user_refl. }
  apply user_bytes_cons in Hl as [[Hu Hb] Hl].
  destruct (load_byte_ret pds pd s uaddr b Ha Hu Hb) as (s1 & E1 & S1).
  call_ret E1. rewrite user_addr_u32 by done.
  destruct (IH s1 (uaddr + 1)) as (s2 & E2 & S2); [apply S1|by eapply same_user_user_bytes|].
  call_ret E2. exists s2. split; [done|]. by eapply same_user_trans.
Qed.

(** A string ends at its terminator. *)
Lemma load_string_ret pds pd l n s uaddr :
  aspace pds pd (svm s) → user_bytes pd (svm s) uaddr (l ++ [0]) → 0 ∉ l → (length l < n)%nat →
  ∃ s', load_string n uaddr s = Ret (Val l, s') ∧ same_user pds pd s s'.
Proof.
  revert n s uaddr. induction l as [|b l IH]; intros n s uaddr Ha Hl Hz Hn;
    (destruct n as [|n]; [lia|]); simpl in Hl |- *;
    apply user_bytes_cons in Hl as [[Hu Hb] Hl];
    destruct (load_byte_ret pds pd s uaddr _ Ha Hu Hb) as (s1 & E1 & S1);
    call_ret E1.
  - simpl. by exists s1.
  - rewrite (proj2 (Z.eqb_neq b 0)) by set_solver. rewrite user_addr_u32 by done.
    destruct (IH n s1 (uaddr + 1)) as (s2 & E2 & S2);
      [apply S1|by eapply same_user_user_bytes|set_solver|simpl in Hn; lia|].
    call_ret E2. exists s2. split; [done|]. by eapply same_user_trans.
Qed.

Lemma load_word_ret pds pd s uaddr x :
  aspace pds pd (svm s) → user_bytes pd (svm s) uaddr (le 4 x) →
  ∃ s', load_word uaddr s = Ret (Val (u32 x), s') ∧ same_user pds pd s s'.
Proof.
  intros Ha Hl. destruct (load_bytes_ret pds pd (le 4 x) s uaddr Ha Hl) as (s' & E & S).
  exists s'. split; [|done]. unfold load_word. call_ret E.
  by rewrite unle_le4.
Qed.
End spec.
