(* ===== verification/LoadSpec.v ===== *)
(** * What loading a segment does

    While frames are left that were never handed out, [load_segment] gives the new
    process exactly the bytes of the file, followed by zeros, and touches nothing
    else of its address space. *)
From S2P Require Import Prelude CInt Ext Mmu PageDir Swap PageTable UserFiles Elf Frame Page VmSpec UserCall Exception UserMem UserMemSpec Load.
Open Scope Z_scope.

Section spec.
Context `{VaddrLaws, !Pte, !PteLaws, Selectors, KernelMemory}.
Context {dev files : Type} `{BlockDeviceLaws dev, FileCallsLaws files}.
Implicit Types (s : sys dev files) (w : vm dev files) (file upage kpage v p : Z) (pds : gset Z).

(** ** The supplemental page table as a map *)

Definition page_entry w u : option page :=
  match find_upage u w with Ret (Some p) => pages w !! p | _ => None end.

(** The pages of the running process exist. *)
Definition table_ok w : Prop :=
  ∀ t p, procs w !! current w = Some t → p ∈ sup_page_table t → is_Some (pages w !! p).

Lemma find_in_ret m l w : (∀ p, p ∈ l → is_Some (pages w !! p)) →
  ∃ r, find_in m l w = Ret r ∧ ∀ p, r = Some p → is_Some (pages w !! p).
Proof.
  induction l as [|p l IH]; intros Hl; simpl; [by exists None|]. unfold page_at.
  destruct (Hl p) as [pg E]; [by left|]. rewrite E. ret.
  destruct (m pg); [exists (Some p); naive_solver|]. apply IH. intros q Hq. apply Hl. by right.
Qed.

Lemma find_upage_entry w t u : table_ok w → procs w !! current w = Some t →
  page_entry w u = None ↔ find_upage u w = Ret None.
Proof.
  intros Hok Ht. unfold page_entry. unfold find_upage, find_page, thread_current. rewrite Ht. ret.
  destruct (find_in_ret (match_upage u) (sup_page_table t) w) as ([p|] & -> & Hp).
  - intros q Hq. by eapply Hok.
  - destruct (Hp p) as [pg ->]; naive_solver.
  - done.
Qed.

Lemma find_in_app m l1 l2 w : find_in m l1 w = Ret None → find_in m (l1 ++ l2) w = find_in m l2 w.
Proof.
  induction l1 as [|p l1 IH]; simpl; [done|]. intros ?. inv_bind.
  match goal with H : page_at _ _ = Ret _ |- _ => rewrite H end. ret.
  destruct (m _); [done|]. by apply IH.
Qed.

Lemma find_in_app_Some m l1 l2 w p : find_in m l1 w = Ret (Some p) → find_in m (l1 ++ l2) w = Ret (Some p).
Proof.
  induction l1 as [|q l1 IH]; simpl; [done|]. intros ?. inv_bind.
  match goal with H : page_at _ _ = Ret _ |- _ => rewrite H end. ret.
  destruct (m _); [done|]. by apply IH.
Qed.

Lemma find_in_pages m l w w' : (∀ p, p ∈ l → pages w' !! p = pages w !! p) →
  find_in m l w' = find_in m l w.
Proof.
  induction l as [|p l IH]; intros Hl; [done|]. simpl. unfold page_at. rewrite Hl by (by left).
  destruct (pages w !! p) as [pg|]; [|done]. ret. destruct (m pg); [done|]. apply IH.
  intros q Hq. apply Hl. by right.
Qed.

Lemma page_entry_same w w' u :
  current w' = current w → procs w' = procs w → pages w' = pages w → page_entry w' u = page_entry w u.
Proof.
  intros Ec Et Ep. unfold page_entry. rewrite (find_upage_same _ w w') by (by apply same_table_frame).
  by rewrite Ep.
Qed.

(** A new page at the end of the table. *)
Definition add_page p (pg : page) w : vm dev files :=
  upd_thread (λ t, t <| sup_page_table ::= λ l, l ++ [p] |>) (w <| pages ::= <[p := pg]> |>).

Lemma add_page_entry w t p (pg : page) u :
  table_ok w → procs w !! current w = Some t → pages w !! p = None → page_entry w (p_upage pg) = None →
  table_ok (add_page p pg w) ∧
  page_entry (add_page p pg w) u = if decide (u = p_upage pg) then Some pg else page_entry w u.
Proof.
  intros Hok Ht Hp Hnone.
  assert (procs (add_page p pg w) !! current w = Some (t <| sup_page_table ::= λ l, l ++ [p] |>)) as Ht'.
  { change (procs (add_page p pg w)) with (alter (λ t, t <| sup_page_table ::= λ l, l ++ [p] |>) (current w) (procs w)).
    by rewrite lookup_alter_eq, Ht. }
  assert (∀ q, q ∈ sup_page_table t → q ≠ p) as Hne.
  { intros q Hq ->. destruct (Hok t p Ht Hq). congruence. }
  assert (∀ q, pages (add_page p pg w) !! q = if decide (q = p) then Some pg else pages w !! q) as Hpages.
  { intros q. change (pages (add_page p pg w)) with (<[p := pg]> (pages w)).
    case_decide as E; [subst; by rewrite lookup_insert_eq|by rewrite lookup_insert_ne]. }
  split.
  { intros t' q E Hq. change (current (add_page p pg w)) with (current w) in E. rewrite Ht' in E.
    injection E as <-. simpl in Hq. rewrite Hpages. case_decide as Eq; [by eexists|].
    apply elem_of_app in Hq as [Hq| ->%list_elem_of_singleton]; [by eapply Hok|done]. }
  assert (find_in (match_upage u) (sup_page_table t) (add_page p pg w)
          = find_in (match_upage u) (sup_page_table t) w) as Esame.
  { apply find_in_pages. intros q Hq. rewrite Hpages, decide_False by (by apply Hne). done. }
  apply (find_upage_entry w t _ Hok Ht) in Hnone.
  unfold page_entry. unfold find_upage, find_page, thread_current in *.
  change (current (add_page p pg w)) with (current w). rewrite Ht in *. rewrite Ht'. ret. simpl.
  destruct (find_in_ret (match_upage u) (sup_page_table t) w) as ([q|] & Eq & Hq).
  { intros q Hq. by eapply Hok. }
  - rewrite (find_in_app_Some _ _ _ _ q) by (by rewrite Esame). rewrite Eq.
    destruct (Hq q eq_refl) as [pq Epq]. rewrite Hpages.
    destruct (decide (q = p)) as [->|]; [congruence|].
    destruct (decide (u = p_upage pg)) as [->|]; [|done]. simpl in Hnone. congruence.
  - rewrite find_in_app by (by rewrite Esame). rewrite Eq. simpl. unfold page_at. rewrite Hpages.
    rewrite decide_True by done. ret. unfold match_upage. destruct (Z.eqb_spec (p_upage pg) u) as [E|E].
    + rewrite Hpages, !decide_True by done. done.
    + by rewrite decide_False by (by intros ->).
Qed.

Lemma page_set_frame_new w t p upage kpage (writable : bool) :
  procs w !! current w = Some t → find_upage upage w = Ret None →
  page_set_frame (Some p) upage kpage writable w
    = Ret (add_page p (MkPage (pagedir t) (Some kpage) upage true None 0 writable None) w).
Proof.
  intros Ht Hf. unfold page_set_frame, page_alloc, page_in_table, thread_current. rewrite Hf. ret.
  rewrite Ht. ret.
  assert ((if upage =? 0 then Ret false else Ret (bool_decide (is_Some (@None Z)))) = Ret false) as -> by
    by destruct (upage =? 0).
  ret. change (current (w <| pages ::= _ |>)) with (current w).
  change (procs (w <| pages ::= _ |>)) with (procs w). rewrite Ht. ret. unfold page_at. simpl.
  rewrite lookup_insert_eq. ret. rewrite eqb_reflx. ret. unfold upd_page, add_page. simpl.
  by rewrite alter_insert_eq.
Qed.
(** ** A process that is being loaded *)

(** The allocations to come give new pages and new [struct page]s. *)
Definition fresh_alloc w (al : allocs) : Prop :=
  ∃ m p, al_table al = Some m ∧ al_page al = Some p ∧ kernel_page m ∧
    tables (vmmu w) !! m = None ∧ pages w !! p = None.
Definition fresh_allocs w (als : list allocs) : Prop :=
  Forall (fresh_alloc w) als ∧ NoDup (al_table <$> als) ∧ NoDup (al_page <$> als).

(** The frames [l] are unused, of full size, apart from each other, and mapped
    nowhere in the process. *)
Record loading pds pd (l : list Z) s : Prop := {
  ld_vm : vm_ok pds pd (svm s);
  ld_unused : unused (svm s) l;
  ld_frames : ∀ f, f ∈ l → ∃ fr page, frames (svm s) !! f = Some fr ∧
    ram (svm s) !! f_kpage fr = Some page ∧ Z.of_nat (length page) = PGSIZE;
  ld_unmapped : ∀ f fr v a, f ∈ l → frames (svm s) !! f = Some fr → user_addr v →
    pagedir_get_page (Some pd) v (vmmu (svm s)) = Ret (Some a) → pg_round_down a ≠ f_kpage fr;
  ld_apart : ∀ f g fr gr, f ∈ l → g ∈ l → frames (svm s) !! f = Some fr → frames (svm s) !! g = Some gr →
    f_kpage fr = f_kpage gr → f = g;
  ld_nodup : NoDup l;
  ld_table : table_ok (svm s);
  ld_allocs : fresh_allocs (svm s) (fetches s) ∧ (length l ≤ length (fetches s))%nat
}.

Lemma loading_aspace pds pd l s : loading pds pd l s → aspace pds pd (svm s).
Proof. intros [[Hcur (? & ? & _) Hw _ _ _] _ _ _ _ _ _ _]. by split. Qed.

Lemma page_offset_sub k v : kernel_page k → user_addr v → pg_round_down (k + v mod PGSIZE) = k ∧
  Z.to_nat (pg_ofs (k + v mod PGSIZE)) = Z.to_nat (v mod PGSIZE).
Proof.
  intros [_ [a ->]] _. pose proof (Z.mod_pos_bound v PGSIZE eq_refl).
  rewrite pg_round_down_spec, pg_ofs_spec.
  assert ((a * PGSIZE + v mod PGSIZE) mod PGSIZE = v mod PGSIZE) as ->.
  { by rewrite Z.add_comm, Z.mod_add, Z.mod_mod. }
  split; [lia|done].
Qed.

(** The new page as [map_frame] enters it. *)
Definition new_page pd kpage upage (writable : bool) : page :=
  MkPage (Some pd) (Some kpage) upage true None 0 writable None.

(** [s'] is [s] with the page [upage] mapped to the frame [kpage]. *)
Record mapped pds pd upage kpage (writable : bool) s s' : Prop := {
  mp_rest : s' = s <| svm := svm s' |> <| fetches := fetches s' |>;
  mp_ram : ram (svm s') = ram (svm s);
  mp_files : vfiles (svm s') = vfiles (svm s);
  mp_map : ∀ v, user_addr v → pagedir_get_page (Some pd) v (vmmu (svm s')) =
    if decide (v / PGSIZE = upage / PGSIZE) then Ret (Some (kpage + v mod PGSIZE))
    else pagedir_get_page (Some pd) v (vmmu (svm s));
  mp_entry : ∀ u, page_entry (svm s') u =
    if decide (u = upage) then Some (new_page pd kpage upage writable) else page_entry (svm s) u
}.

Lemma map_frame_ret pds pd f l s fr upage (writable : bool) :
  loading pds pd (f :: l) s → frames (svm s) !! f = Some fr →
  user_addr upage → (PGSIZE | upage) → pagedir_get_page (Some pd) upage (vmmu (svm s)) = Ret None →
  page_entry (svm s) upage = None →
  ∃ s', map_frame upage writable s = Ret (Val (f_kpage fr), s') ∧ loading pds pd l s' ∧
    kernel_page (f_kpage fr) ∧ mapped pds pd upage (f_kpage fr) writable s s'.
Proof.
  intros [Hok Hun Hfr Hunm Hap Hnd Htab [(Hfresh & Hnt & Hnp) Hlen]] Hf Hu Ha Hget Hent.
  destruct (fetches s) as [|al als] eqn:Eals; [simpl in Hlen; lia|].
  apply Forall_cons in Hfresh as [(m & p & Em & Ep & Hkm & Hm & Hp) Hfresh].
  apply NoDup_cons in Hnt as [Hmn Hnt]. apply NoDup_cons in Hnp as [Hpn Hnp].
  apply NoDup_cons in Hnd as [Hfl Hnd].
  destruct (frame_alloc_in_turn pds pd (svm s) f l fr al upage writable m)
    as (w1 & Halloc & Hok1 & Hun1 & E1 & Hmap & Hsm & Htabs); [done..|].
  pose proof (vo_cur _ _ _ Hok) as (t & Ht & Hpdt).
  assert (same_table (svm s) w1) as Hst by (by eapply frame_alloc_same).
  assert (page_entry w1 upage = None) as Hent1.
  { unfold page_entry in *. rewrite (find_upage_same _ _ _ Hst). by rewrite E1. }
  assert (current w1 = current (svm s)) as Ec by (by rewrite E1).
  assert (procs w1 = procs (svm s)) as Eprocs by (by rewrite E1).
  assert (pages w1 = pages (svm s)) as Epages by (by rewrite E1).
  assert (table_ok w1) as Htab1 by (intros t' q; rewrite Ec, Eprocs, Epages; apply Htab).
  assert (procs w1 !! current w1 = Some t) as Ht1 by (by rewrite Ec, Eprocs).
  set (pg := new_page pd (f_kpage fr) upage writable).
  set (w2 := add_page p pg w1).
  assert (∀ u, page_entry w2 u = if decide (u = upage) then Some pg else page_entry w1 u) as Hent2.
  { intros u. apply (add_page_entry w1 t p pg u); [done|done|by rewrite Epages|done]. }
  set (s1 := s <| fetches := als |>). exists (s1 <| svm := w2 |>).
  assert (frames w2 = <[f := PageTable.MkFrame (f_kpage fr) (Some pd) upage]> (frames (svm s))) as Efr.
  { change (frames w2) with (frames w1). by rewrite E1. }
  assert (∀ g, g ∈ l → frames w2 !! g = frames (svm s) !! g) as Hfrl.
  { intros g Hg. rewrite Efr, lookup_insert_ne; [done|]. by intros ->. }
  assert (kernel_page (f_kpage fr)) as Hkp.
  { assert (f ∈ frame_table (svm s)) as Hft.
    { destruct Hun as (_ & _ & l0 & ->). apply elem_of_app. right. by left. }
    destruct (vo_frame _ _ _ Hok f Hft) as (fr' & Hf' & Hkp & _).
    rewrite Hf in Hf'. by injection Hf' as <-. }
  split; [|split; [split|split; [done|split]]].
  - unfold map_frame. call_ret by (unfold next_allocs; rewrite Eals; reflexivity).
    call_ret by (unfold vm_do; change (svm (s <| fetches := als |>)) with (svm s); rewrite Halloc; reflexivity).
    call_ret by (unfold vm_do; cbn [svm rset]; rewrite Ep;
      rewrite (page_set_frame_new w1 t p) by (done || by apply (find_upage_entry w1 t)); reflexivity).
    rewrite Hpdt. done.
  - destruct Hok1 as [_ ? ? ? ? ?]. split; [|done..].
    exists (t <| sup_page_table ::= λ l, l ++ [p] |>). split; [|done]. simpl.
    by rewrite lookup_alter_eq, Ht1.
  - by destruct l.
  - intros g Hg. destruct (Hfr g) as (gr & page & Hgr & Hram & Hlp); [by right|]. exists gr, page.
    split; [|split; [|done]].
    + change (frames w2 !! g = Some gr). by rewrite Hfrl.
    + change (ram w1 !! f_kpage gr = Some page). by rewrite E1.
  - intros g gr v a Hg. change (frames w2 !! g = Some gr → user_addr v →
      pagedir_get_page (Some pd) v (vmmu w1) = Ret (Some a) → pg_round_down a ≠ f_kpage gr).
    rewrite Hfrl by done. intros Hgr Hv. rewrite Hmap by (done || apply Hok). case_decide as Epg.
    + intros [= <-]. destruct (page_offset_sub (f_kpage fr) v Hkp Hv) as [-> _]. intros E.
      apply Hfl. rewrite (Hap f g fr gr); [done|by left|by right|done..].
    + apply (Hunm g); [by right|done..].
  - intros g h gr hr Hg Hh. change (frames w2 !! g = Some gr → frames w2 !! h = Some hr →
      f_kpage gr = f_kpage hr → g = h).
    rewrite !Hfrl by done. apply Hap; by right.
  - done.
  - apply (add_page_entry w1 t p pg upage); [done|done|by rewrite Epages|done].
  - simpl in Hlen |- *. split; [|lia]. split; [|done]. rewrite Forall_forall in Hfresh |- *.
    intros al' Hal. destruct (Hfresh al' Hal) as (m' & p' & Em' & Ep' & Hkm' & Hm' & Hp').
    exists m', p'. split_and!; [done|done|done| |].
    + change (tables (vmmu w1) !! m' = None). apply Htabs; [|done]. intros ->.
      apply Hmn. rewrite Em, <- Em'. by apply list_elem_of_fmap_2.
    + change (<[p := pg]> (pages w1) !! p' = None). rewrite lookup_insert_ne, Epages; [done|]. intros ->.
      apply Hpn. rewrite Ep, <- Ep'. by apply list_elem_of_fmap_2.
  - by destruct s.
  - change (ram w1 = ram (svm s)). by rewrite E1.
  - change (vfiles w1 = vfiles (svm s)). by rewrite E1.
  - intros v Hv. change (vmmu (svm (s1 <| svm := w2 |>))) with (vmmu w1).
    rewrite Hmap by (done || apply Hok). case_decide as D; destruct (decide _); tauto || done.
  - intros u. change (svm (s1 <| svm := w2 |>)) with w2. rewrite Hent2. case_decide; [done|].
    unfold page_entry. rewrite (find_upage_same _ _ _ Hst). by rewrite Epages.
Qed.
(** ** One page *)

(** Writing to a frame that is not one of [l], and to the files. *)
Definition put (kpage : Z) (page : list Z) (fs : files) s : sys dev files :=
  s <| svm := (svm s) <| vfiles := fs |> <| ram := <[kpage := page]> (ram (svm s)) |> |>.

Lemma loading_put pds pd l s kpage page fs :
  loading pds pd l s → (∀ f fr, f ∈ l → frames (svm s) !! f = Some fr → f_kpage fr ≠ kpage) →
  loading pds pd l (put kpage page fs s).
Proof.
  intros [[] Hun Hfr Hunm Hap Hnd Htab Hal] Hne.
  split; [by split|by destruct l| |done..].
  intros f Hf. destruct (Hfr f Hf) as (fr & old & Efr & Hold & Hlen). exists fr, old.
  split; [done|]. split; [|done]. simpl. rewrite lookup_insert_ne; [done|]. by apply not_eq_sym, (Hne f).
Qed.

(** The page [upage] holds [page] in [s'], which is [s] otherwise. *)
Record filled pd upage (writable : bool) (page : list Z) s s' : Prop := {
  fl_rest : s' = s <| svm := svm s' |> <| fetches := fetches s' |>;
  fl_byte : ∀ v, user_addr v → user_byte pd (svm s') v =
    if decide (v / PGSIZE = upage / PGSIZE) then page !! Z.to_nat (v mod PGSIZE)
    else user_byte pd (svm s) v;
  fl_map : ∀ v, user_addr v → v / PGSIZE ≠ upage / PGSIZE →
    pagedir_get_page (Some pd) v (vmmu (svm s')) = pagedir_get_page (Some pd) v (vmmu (svm s));
  fl_entry : ∃ k, ∀ u, page_entry (svm s') u =
    if decide (u = upage) then Some (new_page pd k upage writable) else page_entry (svm s) u
}.

Lemma mapped_filled pds pd upage kpage (writable : bool) l s s1 page fs :
  loading pds pd l s1 → kernel_page kpage → mapped pds pd upage kpage writable s s1 →
  (∀ v a, user_addr v → pagedir_get_page (Some pd) v (vmmu (svm s)) = Ret (Some a) → pg_round_down a ≠ kpage) →
  filled pd upage writable page s (put kpage page fs s1).
Proof.
  intros Hld Hk [E Hram _ Hmap Hent] Hunm. split.
  - unfold put. rewrite E. by destruct s.
  - intros v Hv. unfold user_byte. change (vmmu (svm (put kpage page fs s1))) with (vmmu (svm s1)).
    change (ram (svm (put kpage page fs s1))) with (<[kpage := page]> (ram (svm s1))).
    rewrite Hmap by done. case_decide.
    + destruct (page_offset_sub kpage v Hk Hv) as [-> ->]. by rewrite lookup_insert_eq.
    + destruct (pagedir_get_page (Some pd) v (vmmu (svm s))) as [[a|]| |] eqn:Ea; try done.
      rewrite lookup_insert_ne by (by apply not_eq_sym, (Hunm v)). by rewrite Hram.
  - intros v Hv Hne. change (vmmu (svm (put kpage page fs s1))) with (vmmu (svm s1)).
    by rewrite Hmap, decide_False.
  - exists kpage. intros u. rewrite <- Hent. by apply page_entry_same.
Qed.

Lemma load_page_ret pds pd f l s file upage n (writable : bool) :
  loading pds pd (f :: l) s →
  user_addr upage → (PGSIZE | upage) → pagedir_get_page (Some pd) upage (vmmu (svm s)) = Ret None →
  page_entry (svm s) upage = None →
  0 ≤ n ≤ PGSIZE → 0 ≤ file_tell file (vfiles (svm s)) →
  file_tell file (vfiles (svm s)) + n ≤ Z.of_nat (length (file_data file (vfiles (svm s)))) →
  ∃ s', load_page file upage n writable s = Ret (Val true, s') ∧ loading pds pd l s' ∧
    filled pd upage writable
      (slice (Z.to_nat (file_tell file (vfiles (svm s)))) (Z.to_nat n) (file_data file (vfiles (svm s)))
         ++ replicate (Z.to_nat (PGSIZE - n)) 0) s s' ∧
    file_tell file (vfiles (svm s')) = file_tell file (vfiles (svm s)) + n ∧
    ∀ g, file_data g (vfiles (svm s')) = file_data g (vfiles (svm s)).
Proof.
  intros Hld Hu Ha Hget Hent Hn Hpos Hlen.
  destruct (ld_frames _ _ _ _ Hld f) as (fr & page & Hf & Hram & Hlp); [by left|].
  destruct (map_frame_ret pds pd f l s fr upage writable) as (s1 & E1 & Hld1 & Hk & Hmp); [done..|].
  pose proof Hmp as [_ Eram Efs Hmap _].
  destruct (file_read_spec file n (vfiles (svm s))) as (fs & Erd & Htell & Hdata); [lia..|].
  set (b := slice _ (Z.to_nat n) _) in *.
  assert (length b = Z.to_nat n) as Hlb by (apply length_slice; lia).
  set (kpage := f_kpage fr) in *.
  set (zeros := replicate (Z.to_nat (PGSIZE - n)) 0).
  assert (splice (Z.to_nat n) zeros (splice 0 b page) = b ++ zeros) as Epage.
  { rewrite <- Hlb. rewrite (splice_splice_app 0 b zeros).
    - apply splice_full. unfold zeros. rewrite length_app, Hlb, length_replicate. lia.
    - unfold zeros. rewrite Hlb, length_replicate. unfold PGSIZE in *. lia. }
  exists (put kpage (b ++ zeros) fs s1). split; [|split; [|split]].
  4: { split; [|exact Hdata]. change (file_tell file fs = file_tell file (vfiles (svm s)) + n). lia. }
  - unfold load_page. call_ret E1. rewrite (proj2 (Z.eqb_neq kpage 0)).
    2: { destruct Hk as [? _]. destruct PHYS_BASE_spec. lia. }
    call_ret by (unfold fs_do, vm_do; rewrite Efs, Erd; reflexivity).
    call_ret by (unfold write_frame, vm_do; simpl; rewrite Eram, Hram; reflexivity).
    rewrite (proj2 (Z.eqb_eq _ n)) by lia. cbn [negb].
    call_ret by (unfold write_frame, vm_do; simpl; rewrite lookup_insert_eq; reflexivity).
    change (Z.to_nat 0) with 0%nat. fold zeros. rewrite Epage. unfold pure, put.
    rewrite Eram. simpl. by rewrite insert_insert_eq.
  - apply loading_put; [done|]. intros g gr Hg Hgr E.
    apply (ld_unmapped _ _ _ _ Hld1 g gr upage (kpage + upage mod PGSIZE)); [done..| |].
    + by rewrite Hmap, decide_True.
    + destruct (page_offset_sub kpage upage Hk Hu) as [-> _]. done.
  - eapply mapped_filled; [done..|]. intros v a Hv Hva. apply (ld_unmapped _ _ _ _ Hld f fr v a); [by left|done..].
Qed.
(** ** The loop *)

(** [n] pages from [upage] on. *)
Definition in_pages upage (n : nat) v : Prop := upage ≤ v < upage + Z.of_nat n * PGSIZE.
#[local] Instance in_pages_dec upage n v : Decision (in_pages upage n v).
Proof. unfold in_pages. apply _. Defined.

(** What a byte of the pages becomes: [read] bytes of the file from [pos] on, then zeros. *)
Definition segment_byte (data : list Z) (pos read off : Z) : option Z :=
  if off <? read then data !! Z.to_nat (pos + off) else Some 0.

(** [n] pages from [upage] on have [content]; [s'] is [s] otherwise. *)
Record filled_pages pd upage (n : nat) (content : Z → option Z) s s' : Prop := {
  fp_rest : s' = s <| svm := svm s' |> <| fetches := fetches s' |>;
  fp_byte : ∀ v, user_addr v → user_byte pd (svm s') v =
    if decide (in_pages upage n v) then content (v - upage) else user_byte pd (svm s) v;
  fp_map : ∀ v, user_addr v → ¬ in_pages upage n v →
    pagedir_get_page (Some pd) v (vmmu (svm s')) = pagedir_get_page (Some pd) v (vmmu (svm s))
}.

(** In virtual-memory they are entered in the supplemental page table, too. *)
Record loaded pd upage (n : nat) (writable : bool) (content : Z → option Z) s s' : Prop := {
  lo_rest : s' = s <| svm := svm s' |> <| fetches := fetches s' |>;
  lo_byte : ∀ v, user_addr v → user_byte pd (svm s') v =
    if decide (in_pages upage n v) then content (v - upage) else user_byte pd (svm s) v;
  lo_entry : ∀ u, (PGSIZE | u) → in_pages upage n u →
    ∃ k, page_entry (svm s') u = Some (new_page pd k u writable);
  lo_other : ∀ u, ¬ in_pages upage n u → page_entry (svm s') u = page_entry (svm s) u;
  lo_map : ∀ v, user_addr v → ¬ in_pages upage n v →
    pagedir_get_page (Some pd) v (vmmu (svm s')) = pagedir_get_page (Some pd) v (vmmu (svm s))
}.

Lemma loaded_filled pd upage n (writable : bool) content s s' :
  loaded pd upage n writable content s s' → filled_pages pd upage n content s s'.
Proof. by intros []. Qed.

(** The pages are new: not mapped, and not in the table of the process. *)
Definition free_pages pd upage (n : nat) w : Prop :=
  ∀ u, (PGSIZE | u) → in_pages upage n u →
    pagedir_get_page (Some pd) u (vmmu w) = Ret None ∧ page_entry w u = None.

Lemma page_div upage v : (PGSIZE | upage) → v / PGSIZE = upage / PGSIZE ↔ in_pages upage 1 v.
Proof.
  intros [a ->]. rewrite Z.div_mul by done. unfold in_pages.
  pose proof (Z_div_mod_eq_full v PGSIZE). pose proof (Z.mod_pos_bound v PGSIZE eq_refl). unfold PGSIZE in *.
  split; [intros; lia|]. intros. symmetry. apply Z.div_unique with (v - a * 4096); lia.
Qed.

Lemma page_mod upage v : (PGSIZE | upage) → in_pages upage 1 v → v mod PGSIZE = v - upage.
Proof.
  intros [a ->] Hv. unfold in_pages in Hv. symmetry. apply Z.mod_unique with a; unfold PGSIZE in *; lia.
Qed.

Lemma in_pages_S upage n v :
  in_pages upage (S n) v ↔ in_pages upage 1 v ∨ in_pages (upage + PGSIZE) n v.
Proof. unfold in_pages, PGSIZE. lia. Qed.

Lemma in_pages_next upage n v : in_pages (upage + PGSIZE) n v → ¬ in_pages upage 1 v.
Proof. unfold in_pages, PGSIZE. lia. Qed.

(** The first page of a segment, and the pages after it. *)
Lemma segment_byte_first (data : list Z) pos read off :
  let n := if read <? PGSIZE then read else PGSIZE in
  0 ≤ pos → 0 ≤ read → pos + n ≤ Z.of_nat (length data) → 0 ≤ off < PGSIZE →
  (slice (Z.to_nat pos) (Z.to_nat n) data ++ replicate (Z.to_nat (PGSIZE - n)) 0) !! Z.to_nat off
    = segment_byte data pos read off.
Proof.
  intros n Hp Hr Hl Ho. unfold segment_byte. assert (n = Z.min read PGSIZE) as En by (unfold n; case_bool; lia).
  assert (length (slice (Z.to_nat pos) (Z.to_nat n) data) = Z.to_nat n) as Els by (apply length_slice; lia).
  destruct (Z.ltb_spec off read).
  - rewrite lookup_app_l, lookup_slice by lia. f_equal. lia.
  - rewrite lookup_app_r, Els by lia. apply lookup_replicate_2. unfold PGSIZE in *. lia.
Qed.

Lemma segment_byte_next (data : list Z) pos read off :
  let n := if read <? PGSIZE then read else PGSIZE in
  0 ≤ read → 0 ≤ off →
  segment_byte data (pos + n) (read - n) off = segment_byte data pos read (off + PGSIZE).
Proof.
  intros n Hr Ho. unfold segment_byte, n.
  destruct (Z.ltb_spec read PGSIZE), (Z.ltb_spec (off + PGSIZE) read); case_bool;
    unfold PGSIZE in *; try lia; f_equal; f_equal; lia.
Qed.

Lemma filled_loaded pd upage (writable : bool) page s s' content :
  (PGSIZE | upage) → filled pd upage writable page s s' →
  (∀ off, 0 ≤ off < PGSIZE → page !! Z.to_nat off = content off) →
  loaded pd upage 1 writable content s s'.
Proof.
  intros Ha [Er Eb Em [k Ee]] Hc. split; [done| | | |].
  - intros v Hv. rewrite Eb by done. destruct (decide (in_pages upage 1 v)) as [Hin|Hin].
    + rewrite decide_True by (by apply page_div). rewrite (page_mod upage) by done. apply Hc.
      unfold in_pages, PGSIZE in *. lia.
    + rewrite decide_False; [done|]. by rewrite page_div.
  - intros u [b ->] Hin. exists k. rewrite Ee. destruct Ha as [a ->]. unfold in_pages, PGSIZE in Hin.
    assert (b = a) as -> by lia. by rewrite decide_True.
  - intros u Hin. rewrite Ee, decide_False; [done|]. intros ->. apply Hin. unfold in_pages, PGSIZE. lia.
  - intros v Hv Hin. apply Em; [done|]. by rewrite page_div.
Qed.

Lemma loaded_trans pd upage n (writable : bool) content s s1 s2 :
  0 ≤ upage → upage + Z.of_nat (S n) * PGSIZE ≤ PHYS_BASE →
  loaded pd upage 1 writable content s s1 →
  loaded pd (upage + PGSIZE) n writable (λ off, content (off + PGSIZE)) s1 s2 →
  loaded pd upage (S n) writable content s s2.
Proof.
  intros Hup Hle [E1 B1 N1 O1 M1] [E2 B2 N2 O2 M2]. split.
  - rewrite E2 at 1. by rewrite E1.
  - intros v Hv. rewrite B2 by done. destruct (decide (in_pages (upage + PGSIZE) n v)) as [Hin|Hin].
    + rewrite decide_True by (rewrite in_pages_S; by right). f_equal. lia.
    + rewrite B1 by done. destruct (decide (in_pages upage 1 v)) as [Hin1|Hin1].
      * by rewrite decide_True by (rewrite in_pages_S; by left).
      * rewrite decide_False; [done|]. rewrite in_pages_S. tauto.
  - intros u Hu [Hin|Hin]%in_pages_S; [|by apply N2]. destruct (N1 u Hu Hin) as [k Ek]. exists k.
    rewrite O2; [done|]. intros Hin2. by apply in_pages_next in Hin2.
  - intros u Hin. rewrite in_pages_S in Hin. rewrite O2 by tauto. apply O1. tauto.
  - intros v Hv Hin. rewrite in_pages_S in Hin. rewrite M2 by tauto. apply M1; tauto.
Qed.
Lemma load_pages_ret pds pd (writable : bool) file data n l s fuel upage read zero :
  loading pds pd l s → (n ≤ length l)%nat → (n < fuel)%nat →
  (PGSIZE | upage) → 0 ≤ upage → upage + Z.of_nat n * PGSIZE ≤ PHYS_BASE → free_pages pd upage n (svm s) →
  0 ≤ read → 0 ≤ zero → read + zero = Z.of_nat n * PGSIZE →
  file_data file (vfiles (svm s)) = data → 0 ≤ file_tell file (vfiles (svm s)) →
  file_tell file (vfiles (svm s)) + read ≤ Z.of_nat (length data) →
  ∃ s', load_pages fuel file upage read zero writable s = Ret (Val true, s') ∧
    loading pds pd (drop n l) s' ∧
    loaded pd upage n writable (segment_byte data (file_tell file (vfiles (svm s))) read) s s' ∧
    ∀ g, file_data g (vfiles (svm s')) = file_data g (vfiles (svm s)).
Proof.
  intros Hld. revert l s fuel upage read zero Hld.
  destruct PHYS_BASE_spec as [[HB0 HB] _].
  induction n as [|n IH]; intros l s fuel upage read zero Hld Hl Hf Ha Hup Hle Hfree Hr Hz Erz Ed Hp Hlen;
    (destruct fuel as [|fuel]; [lia|]); cbn [load_pages].
  - rewrite (proj2 (Z.ltb_ge 0 read)), (proj2 (Z.ltb_ge 0 zero)) by lia. cbn [orb].
    exists s. split; [done|]. split; [done|]. split; [|done]. split; [by destruct s| | |done|done].
    + intros v Hv. rewrite decide_False; [done|]. unfold in_pages. lia.
    + intros u _. unfold in_pages. lia.
  - destruct l as [|f l]; [simpl in Hl; lia|].
    set (m := if read <? PGSIZE then read else PGSIZE).
    assert (0 ≤ m ≤ PGSIZE ∧ m ≤ read ∧ (m = read ∨ m = PGSIZE)) as (Hm & Hmr & Hmeq)
      by (unfold m; case_bool; unfold PGSIZE in *; lia).
    assert ((0 <? read) || (0 <? zero) = true) as ->.
    { rewrite orb_true_iff, !Z.ltb_lt. unfold PGSIZE in *. lia. }
    assert (user_addr upage) as Hu by (unfold user_addr, PGSIZE in *; lia).
    destruct (Hfree upage Ha) as [Hget Hent]; [unfold in_pages, PGSIZE; lia|].
    destruct (load_page_ret pds pd f l s file upage m writable)
      as (s1 & E1 & Hld1 & Hfill & Htell & Hdata); [done..|lia|done|rewrite Ed; lia|].
    call_ret E1. cbn [negb]. pose proof (filled_loaded pd upage writable _ s s1
      (segment_byte data (file_tell file (vfiles (svm s))) read) Ha Hfill) as Hone.
    rewrite Ed in Hone. specialize (Hone ltac:(intros off Ho; apply segment_byte_first; fold m; lia)).
    rewrite (u32_id (upage + _)), (u32_id (read - m)), (u32_id (zero - _))
      by (unfold in_u32, PGSIZE in *; lia).
    destruct (IH l s1 fuel (upage + PGSIZE) (read - m) (zero - (PGSIZE - m))) as (s2 & E2 & Hld2 & Hrest & Hd2).
    + done.
    + simpl in Hl. lia.
    + lia.
    + apply Z.divide_add_r; [done|by exists 1].
    + unfold PGSIZE. lia.
    + unfold PGSIZE in *. lia.
    + intros u Hau Hin. assert (¬ in_pages upage 1 u) as Hn1 by (by eapply in_pages_next).
      rewrite (lo_map _ _ _ _ _ _ _ Hone), (lo_other _ _ _ _ _ _ _ Hone); [|done| |done].
      * apply Hfree; [done|]. apply in_pages_S. by right.
      * unfold in_pages, user_addr, PGSIZE in *. lia.
    + lia.
    + unfold PGSIZE in *. lia.
    + unfold PGSIZE in *. lia.
    + by rewrite Hdata.
    + lia.
    + lia.
    + exists s2. split; [exact E2|]. split; [done|]. split; [|intros g; by rewrite Hd2].
      eapply loaded_trans; [done|done|exact Hone|]. rewrite Htell in Hrest.
      destruct Hrest as [R1 R2 R3 R4 R5]. split; [done| |done..].
      intros v Hv. rewrite R2 by done. case_decide as Hin; [|done]. apply segment_byte_next; [done|].
      unfold in_pages in Hin. lia.
Qed.

Lemma segment_asserts_ret ofs upage (read_bytes zero_bytes : Z) :
  (PGSIZE | ofs) → (PGSIZE | upage) → (PGSIZE | u32 (read_bytes + zero_bytes)) →
  segment_asserts ofs upage read_bytes zero_bytes = true.
Proof.
  intros Ho Ha Hn. unfold segment_asserts. rewrite (pg_ofs_zero upage) by done.
  rewrite (proj2 (Z.eqb_eq (_ mod _) 0)) by (by apply Z.mod_divide).
  rewrite (proj2 (Z.eqb_eq (Z.rem ofs _) 0)) by (by apply Z.rem_divide). done.
Qed.

Lemma load_segment_ret pds pd l s file ofs upage read_bytes zero_bytes (writable : bool) n :
  loading pds pd l s → (n ≤ length l)%nat →
  (PGSIZE | upage) → 0 ≤ upage → upage + Z.of_nat n * PGSIZE ≤ PHYS_BASE → free_pages pd upage n (svm s) →
  0 ≤ read_bytes → 0 ≤ zero_bytes → read_bytes + zero_bytes = Z.of_nat n * PGSIZE →
  (PGSIZE | ofs) → 0 ≤ ofs → ofs + read_bytes ≤ Z.of_nat (length (file_data file (vfiles (svm s)))) →
  ∃ s', load_segment file ofs upage read_bytes zero_bytes writable s = Ret (Val true, s') ∧
    loading pds pd (drop n l) s' ∧
    loaded pd upage n writable (segment_byte (file_data file (vfiles (svm s))) ofs read_bytes) s s' ∧
    ∀ g, file_data g (vfiles (svm s')) = file_data g (vfiles (svm s)).
Proof.
  intros Hld Hl Ha Hup Hle Hfree Hr Hz Erz Hao Ho Hlen. destruct PHYS_BASE_spec as [[HB0 HB] _].
  assert (u32 (read_bytes + zero_bytes) = Z.of_nat n * PGSIZE) as Eu.
  { rewrite Erz. apply u32_id. unfold in_u32, PGSIZE in *. lia. }
  unfold load_segment. rewrite segment_asserts_ret by (rewrite ?Eu; done || by apply Z.divide_factor_r).
  call_ret by reflexivity. rewrite Eu.
  destruct (file_seek_spec file ofs (vfiles (svm s)) Ho) as [Htell Hdata].
  set (s1 := s <| svm := (svm s) <| vfiles := file_seek file ofs (vfiles (svm s)) |> |>).
  call_ret by reflexivity. fold s1. rewrite Z.div_mul by done.
  destruct (load_pages_ret pds pd writable file (file_data file (vfiles (svm s))) n l s1
    (S (Z.to_nat (Z.of_nat n))) upage read_bytes zero_bytes) as (s' & E & Hld' & Hlo & Hd').
  - destruct Hld as [[] Hun ? ? ? ? ? ?]. split; [by split|by destruct l|done..].
  - done.
  - lia.
  - done.
  - done.
  - done.
  - intros u Hau Hin. destruct (Hfree u Hau Hin) as [? He]. split; [done|]. rewrite <- He.
    by apply page_entry_same.
  - done.
  - done.
  - done.
  - apply Hdata.
  - simpl. lia.
  - simpl. lia.
  - exists s'. split; [exact E|]. split; [done|]. split.
    + change (vfiles (svm s1)) with (file_seek file ofs (vfiles (svm s))) in Hlo. rewrite Htell in Hlo.
      destruct Hlo as [R1 R2 R3 R4 R5]. split; [|done|done| |done].
      * rewrite R1. unfold s1. by destruct s.
      * intros u Hu. rewrite R4 by done. by apply page_entry_same.
    + intros g. rewrite Hd'. apply Hdata.
Qed.

(** While enough frames are left, [load_segment] fills new pages of the process from a
    file that is long enough: a byte of the pages is the byte of the file at its
    distance from [upage], or zero after [read_bytes]; every other byte of the
    process is as before, the pages are entered with the permission asked for, and
    no file changes. *)
Theorem load_segment_correct pds pd l s file ofs upage read_bytes zero_bytes (writable : bool) n :
  loading pds pd l s → (n ≤ length l)%nat →
  (PGSIZE | upage) → 0 ≤ upage → upage + Z.of_nat n * PGSIZE ≤ PHYS_BASE → free_pages pd upage n (svm s) →
  0 ≤ read_bytes → 0 ≤ zero_bytes → read_bytes + zero_bytes = Z.of_nat n * PGSIZE →
  (PGSIZE | ofs) → 0 ≤ ofs → ofs + read_bytes ≤ Z.of_nat (length (file_data file (vfiles (svm s)))) →
  ∃ s', load_segment file ofs upage read_bytes zero_bytes writable s = Ret (Val true, s') ∧
    loading pds pd (drop n l) s' ∧
    loaded pd upage n writable (segment_byte (file_data file (vfiles (svm s))) ofs read_bytes) s s' ∧
    ∀ g, file_data g (vfiles (svm s')) = file_data g (vfiles (svm s)).
Proof. exact (load_segment_ret pds pd l s file ofs upage read_bytes zero_bytes writable n). Qed.
End spec.
