(* ===== verification/NoPaging.v ===== *)
(** * Processes without paging (user-programs/userprog/process.c)

    The stage before virtual-memory: a page of a process is a page of the user pool,
    mapped when the program is loaded, and a fault ends the process.  All but
    [install_page], the rounds of [load_segment], the page of the stack and what
    [process_exit] leaves out is the code of Load.v and Process.v.

    The state is that of virtual-memory, of which the frame table, the swap and the
    supplemental page tables stay unused; [al_page] of an allocation is the page that
    [palloc_get_page (PAL_USER)] returns, and [ram] has the pages of the user pool in
    use.  [pagedir_destroy], which frees the pages of the process here, and the page
    fault handler are those of the stock kernel, which is not in the repository. *)
From S2P Require Import Prelude CInt Ext Mmu PageDir Swap PageTable UserFiles Elf Frame Page UserCall Exception UserMem Load Process ProcTree.
Open Scope Z_scope.

(** What the stock kernel offers: the content of a page of the user pool that is handed
    out without [PAL_ZERO], its page fault handler, [pagedir_destroy], and what a
    store to the memory of the kernel does. *)
Class StockKernel (S : Type) := {
  pool_page : Z → list Z;
  stock_faults : FaultHandler S;
  stock_destroy : Z → call S unit;
  kernel_store : Z → Z → call S unit
}.

(** Nobody but process.c and syscall.c knows of child records. *)
Class StockKernelLaws (dev files : Type) `{StockKernel (sys dev files)} : Prop := {
  stock_faults_keeps uaddr (write : bool) : keeps (stock_faults uaddr write);
  stock_destroy_keeps pd : keeps (stock_destroy pd)
}.

Section no_paging.
Context `{Vaddr, !Pte, Selectors, KernelMemory, StartRegs}.
Context {dev files : Type} `{BlockDevice dev, FileOps files, FileCalls files, StockKernel (sys dev files)}.
Implicit Types (s : sys dev files) (file upage kpage esp t c : Z).

Notation kcall := (call (sys dev files)).

(** ** Pages *)

(** [palloc_get_page (PAL_USER)], with [PAL_ZERO] or not. *)
Definition palloc_get_user (zero : bool) : kcall (option Z) :=
  al ← next_allocs;
  match al_page al with
  | None => pure None
  | Some k =>
      vm_do (λ w, Ret (tt, w <| ram ::= <[k := if zero then replicate (Z.to_nat PGSIZE) 0 else pool_page k]> |>));;
      pure (Some k)
  end.

Definition install_page upage kpage (writable : bool) : kcall bool :=
  t ← vm_get thread_current;
  k ← vm_get (λ w, pagedir_get_page (pagedir t) upage (vmmu w));
  match k with
  | Some _ => pure false
  | None =>
      al ← next_allocs;
      vm_do (λ w, '(ok, m) ← pagedir_set_page (al_table al) (pagedir t) upage kpage writable (vmmu w);
                  Ret (ok, w <| vmmu := m |>))
  end.

(** One round of the loop of [load_segment]. *)
Definition load_page file upage (page_read_bytes : Z) (writable : bool) : kcall bool :=
  let page_zero_bytes := PGSIZE - page_read_bytes in
  kpage ← palloc_get_user false;
  match kpage with
  | None => pure false
  | Some kpage =>
      b ← fs_do (file_read file page_read_bytes);
      write_frame kpage 0 b;;
      if negb (Z.of_nat (length b) =? page_read_bytes) then
        free_frame_page kpage;;
        pure false
      else
        write_frame kpage page_read_bytes (replicate (Z.to_nat page_zero_bytes) 0);;
        ok ← install_page upage kpage writable;
        if negb ok then
          free_frame_page kpage;;
          pure false
        else pure true
  end.

(** [setup_stack] without the pushes. *)
Definition map_stack_page : kcall bool :=
  kpage ← palloc_get_user true;
  match kpage with
  | None => pure false
  | Some kpage =>
      success ← install_page (PHYS_BASE - PGSIZE) kpage true;
      if success : bool then pure true
      else
        free_frame_page kpage;;
        pure false
  end.

(** ** The rest of process.c, on these pages *)

Definition pool_pages : ProgramPages (sys dev files) :=
  {| load_one_page := load_page; get_stack_page := map_stack_page |}.

Definition pool_process : ProcessPages (sys dev files) := {|
  init_pages := pure tt;
  unmap_store _ := pure tt;
  free_frames _ := pure tt;
  destroy_pagedir := stock_destroy
|}.
#[local] Existing Instances stock_faults pool_pages pool_process.

Definition load_segment (file ofs upage read_bytes zero_bytes : Z) (writable : bool) : kcall bool :=
  Load.load_segment file ofs upage read_bytes zero_bytes writable.
Definition setup_stack (tokens : list (list Z)) : kcall (option Z) := Load.setup_stack tokens.
Definition load (file_name : list Z) : kcall (option (Z * Z)) := Load.load file_name.

Definition execute_begin (name_page child_page : option Z) (thread : option (Z * Z)) (name : list Z)
    : kcall (option Z) := Process.execute_begin name_page child_page thread name.
Definition execute_end (tid : Z) : kcall Z := Process.execute_end tid.
Definition start_process (parent : Z) : kcall (option start_frame) := Process.start_process parent.
Definition wait_begin (child_tid : Z) : kcall (option Z) := Process.wait_begin child_tid.
Definition wait_end (c : Z) : kcall Z := Process.wait_end c.
Definition process_exit (exit_message : option (list Z) → Z → list Z) : kcall unit :=
  Process.process_exit exit_message.
Definition process_activate : kcall unit := Load.process_activate.
End no_paging.

(** ** The process tree

    The theorems of ProcSteps.v hold for this kernel, too. *)
Section tree.
Context `{Vaddr, !Pte, Selectors, KernelMemory, StartRegs}.
Context {dev files : Type} `{BlockDevice dev, FileOps files, FileCalls files, StockKernelLaws dev files}.

Notation kcall := (call (sys dev files)).

#[local] Existing Instances stock_faults pool_pages pool_process.

Lemma keeps_palloc (zero : bool) : keeps (palloc_get_user zero : kcall (option Z)).
Proof. unfold palloc_get_user. keep. all: by intros w r w' [= <- <-]. Qed.
#[local] Hint Resolve keeps_palloc : keeps.

Lemma keeps_install_page upage kpage (writable : bool) : keeps (install_page upage kpage writable : kcall bool).
Proof. unfold install_page. keep. intros w r w' E. by inv_bind. Qed.
#[local] Hint Resolve keeps_install_page : keeps.

Lemma keeps_free_page kpage : keeps (free_frame_page kpage : kcall unit).
Proof. apply keeps_vm_do. by intros w r w' [= <- <-]. Qed.
#[local] Hint Resolve keeps_free_page keeps_write_frame : keeps.

#[export] Instance pool_keeps_tree : KeepsTree dev files.
Proof.
  split.
  - apply stock_faults_keeps.
  - intros file upage n writable. unfold load_one_page, pool_pages, load_page. keep.
  - unfold get_stack_page, pool_pages, map_stack_page. keep.
  - apply keeps_pure.
  - intros fs. apply keeps_pure.
  - intros pd. apply keeps_pure.
  - apply stock_destroy_keeps.
Qed.
End tree.
