(* ===== verification/SyscallBase.v ===== *)
(** * System calls without paging (user-programs/userprog/syscall.c)

    The stage before virtual-memory.  An address is valid if it is mapped: there is
    nothing to fetch, and whether the page may be written is not asked.  The table of
    file descriptors and [sys_exit] are the same code as in Syscall.v; of the calls
    for directories only empty functions exist. *)
From S2P Require Import Prelude CInt Ext Interrupt Mmu PageDir Swap PageTable UserFiles Frame Page UserCall Exception UserMem Load Syscall Process NoPaging.
From stdpp Require Import strings.
Open Scope Z_scope.

(** The other system call numbers in use ([lib/syscall-nr.h]). *)
Class DirectoryNumbers := {
  SYS_CHDIR : Z; SYS_MKDIR : Z; SYS_READDIR : Z; SYS_ISDIR : Z; SYS_INUMBER : Z
}.

Definition STD_IN : Z := 0.
Definition STD_OUT : Z := 1.
Definition MIN_USER_FD : Z := 2.
Definition MAX_PUTBUF_LEN : Z := 300.

Section syscall.
Context `{Vaddr, !Pte, KernelMemory, Syscall.SyscallNumbers, DirectoryNumbers}.
Context {dev files : Type} `{BlockDevice dev, FileOps files, FileCalls files}.
Context `{StockKernel (sys dev files), !Syscall.ProcessCalls (sys dev files)}.
Implicit Types (s : sys dev files) (uaddr esp fd f : Z).

#[local] Existing Instance stock_faults.

Notation kcall := (call (sys dev files)).

(** A bound on the length of the strings of user programs. *)
Variable max_string : nat.

(** ** Checking user addresses *)

Definition is_valid_uaddr uaddr : kcall bool :=
  if negb (is_user_vaddr uaddr) then pure false
  else
    kaddr ← translate_user uaddr;
    pure (bool_decide (kaddr ≠ None)).

Definition sys_exit {A} (status : Z) : kcall A := Syscall.sys_exit status.

(** [if (!is_valid_uaddr (...)) sys_exit (-1);] *)
Definition check uaddr : kcall unit :=
  ok ← is_valid_uaddr uaddr;
  if ok : bool then pure tt else sys_exit (-1).

(** The same for [n] consecutive bytes. *)
Fixpoint check_bytes (n : nat) uaddr : kcall unit :=
  match n with
  | O => pure tt
  | S n' => check uaddr;; check_bytes n' (u32 (uaddr + 1))
  end.

(** The argument at [esp], and [esp] after it. *)
Definition grab_arg esp : kcall (Z * Z) :=
  check_bytes 4 esp;;
  arg ← load_word esp;
  pure (arg, u32 (esp + 4)).

(** ** File descriptors *)

Definition create_fd (f : option Z) : kcall Z := Syscall.create_fd f false.
Definition fd_to_file_store fd : kcall (option Z) := Syscall.fd_to_file_store fd.
Definition fd_to_file fd : kcall (option Z) := Syscall.fd_to_file fd.
Definition remove_fd fd : kcall (option Z) := Syscall.remove_fd fd.

(** ** Stores of [file_read]

    The processor runs with write protection: a store of the kernel to a page that is
    present and read-only is a fault, too.  Nothing but the page tables stops a store
    above [PHYS_BASE]. *)
Definition store_any uaddr (b : Z) : kcall unit :=
  if negb (is_user_vaddr uaddr) then kernel_store uaddr b
  else
    k ← translate_user uaddr;
    writable ← vm_get (λ w, t ← thread_current w; is_flag PTE_W (pagedir t) uaddr (vmmu w));
    (if bool_decide (k ≠ None) && negb writable then kernel_faults uaddr true else pure tt);;
    store_byte uaddr b.

Fixpoint store_range (l : list Z) uaddr : kcall unit :=
  match l with
  | [] => pure tt
  | b :: l' => store_any uaddr b;; store_range l' (u32 (uaddr + 1))
  end.

(** ** The calls *)

Definition sys_halt : kcall unit := power_off.

(** The loop of [sys_exec]: the string at [c] is valid up to its terminator. *)
Fixpoint check_string (fuel : nat) c : kcall unit :=
  match fuel with
  | O => λ _, Stuck
  | S fuel' =>
      b ← load_byte c;
      if b =? 0 then pure tt
      else check (u32 (c + 1));; check_string fuel' (u32 (c + 1))
  end.

Definition sys_exec cmd_line : kcall Z :=
  check cmd_line;;
  check_string max_string cmd_line;;
  name ← load_string max_string cmd_line;
  Syscall.process_execute name.

Definition sys_wait (pid : Z) : kcall Z := Syscall.process_wait pid.

Definition sys_create file (initial_size : Z) : kcall bool :=
  check file;;
  name ← load_string max_string file;
  fs_do (filesys_create name (s32 initial_size)).

Definition sys_remove file : kcall bool :=
  check file;;
  name ← load_string max_string file;
  fs_do (filesys_remove name).

Definition sys_open file : kcall Z :=
  check file;;
  name ← load_string max_string file;
  f ← fs_do (filesys_open name);
  create_fd f.

Definition sys_filesize fd : kcall Z :=
  f ← fd_to_file fd;
  match f with
  | None => sys_exit (-1)
  | Some f => file_length_of f
  end.

Definition sys_read fd buffer (size : Z) : kcall Z :=
  ok ← is_valid_uaddr buffer;
  if negb ok || (fd =? STD_OUT) then sys_exit (-1)
  else if fd =? STD_IN then Syscall.input_getc
  else
    f ← fd_to_file fd;
    match f with
    | None => pure (-1)
    | Some f =>
        b ← fs_do (file_read f (s32 size));
        store_range b buffer;;
        pure (Z.of_nat (length b))
    end.

Definition putbuf buffer (n : Z) : kcall unit :=
  b ← load_bytes (Z.to_nat n) buffer;
  modify (λ s, Ret (s <| console ::= λ c, c ++ b |>)).

(** The loop of [sys_write] for the console, [remaining] bytes to go. *)
Fixpoint putbuf_loop (fuel : nat) buffer (remaining : Z) : kcall unit :=
  match fuel with
  | O => λ _, Stuck
  | S fuel' =>
      if MAX_PUTBUF_LEN <? remaining then
        putbuf buffer MAX_PUTBUF_LEN;;
        putbuf_loop fuel' buffer (u32 (remaining - MAX_PUTBUF_LEN))
      else putbuf buffer remaining
  end.

Definition sys_write fd buffer (size : Z) : kcall Z :=
  ok ← is_valid_uaddr buffer;
  if negb ok || (fd =? STD_IN) then sys_exit (-1)
  else
    check_bytes (Z.to_nat size) buffer;;
    if fd =? STD_OUT then
      putbuf_loop (S (Z.to_nat (size / MAX_PUTBUF_LEN))) buffer size;;
      pure (s32 size)
    else
      f ← fd_to_file fd;
      match f with
      | None => pure (-1)
      | Some f =>
          b ← load_bytes (Z.to_nat size) buffer;
          fs_do (file_write f b)
      end.

Definition sys_seek fd (position : Z) : kcall unit :=
  f ← fd_to_file fd;
  match f with
  | None => pure tt
  | Some f => fs_do (λ fs, (tt, file_seek f (s32 position) fs))
  end.

Definition sys_tell fd : kcall Z :=
  f ← fd_to_file fd;
  match f with
  | None => pure (u32 (-1))
  | Some f => vm_get (λ w, Ret (u32 (file_tell f (vfiles w))))
  end.

Definition sys_close fd : kcall unit :=
  f ← remove_fd fd;
  match f with
  | None => sys_exit (-1)
  | Some _ => pure tt
  end.

(** Functions with a result that end without [return]: what they were called with may
    decide it, nothing in the source does. *)
Variable no_return : list Z → Z.

Definition sys_chdir dir : kcall Z := pure (no_return [SYS_CHDIR; dir]).
Definition sys_mkdir dir : kcall Z := pure (no_return [SYS_MKDIR; dir]).
Definition sys_readdir fd name : kcall Z := pure (no_return [SYS_READDIR; fd; name]).
Definition sys_isdir fd : kcall Z := pure (no_return [SYS_ISDIR; fd]).
Definition sys_inumber fd : kcall Z := pure (no_return [SYS_INUMBER; fd]).

(** ** Dispatch *)

(** What [printf ("system call! %d\n", number)] prints. *)
Variable unknown_message : Z → list Z.

(** The value for [f->eax], if the call sets it. *)
Definition dispatch (number esp : Z) : kcall (option Z) :=
  if number =? SYS_HALT then sys_halt;; pure None
  else if number =? SYS_EXIT then
    '(status, _) ← grab_arg esp; sys_exit (s32 status)
  else if number =? SYS_EXEC then
    '(cmd_line, _) ← grab_arg esp; r ← sys_exec cmd_line; pure (Some r)
  else if number =? SYS_WAIT then
    '(pid, _) ← grab_arg esp; r ← sys_wait (s32 pid); pure (Some r)
  else if number =? SYS_CREATE then
    '(file, esp) ← grab_arg esp; '(initial_size, _) ← grab_arg esp;
    r ← sys_create file initial_size; pure (Some (Syscall.bool_word r))
  else if number =? SYS_REMOVE then
    '(file, _) ← grab_arg esp; r ← sys_remove file; pure (Some (Syscall.bool_word r))
  else if number =? SYS_OPEN then
    '(file, _) ← grab_arg esp; r ← sys_open file; pure (Some r)
  else if number =? SYS_FILESIZE then
    '(fd, _) ← grab_arg esp; r ← sys_filesize (s32 fd); pure (Some r)
  else if number =? SYS_READ then
    '(fd, esp) ← grab_arg esp; '(buffer, esp) ← grab_arg esp; '(size, _) ← grab_arg esp;
    r ← sys_read (s32 fd) buffer size; pure (Some r)
  else if number =? SYS_WRITE then
    '(fd, esp) ← grab_arg esp; '(buffer, esp) ← grab_arg esp; '(size, _) ← grab_arg esp;
    r ← sys_write (s32 fd) buffer size; pure (Some r)
  else if number =? SYS_SEEK then
    '(fd, esp) ← grab_arg esp; '(position, _) ← grab_arg esp;
    sys_seek (s32 fd) position;; pure None
  else if number =? SYS_TELL then
    '(fd, _) ← grab_arg esp; r ← sys_tell (s32 fd); pure (Some r)
  else if number =? SYS_CLOSE then
    '(fd, _) ← grab_arg esp; sys_close (s32 fd);; pure None
  else if number =? SYS_CHDIR then
    '(dir, _) ← grab_arg esp; r ← sys_chdir dir; pure (Some r)
  else if number =? SYS_MKDIR then
    '(dir, _) ← grab_arg esp; r ← sys_mkdir dir; pure (Some r)
  else if number =? SYS_READDIR then
    '(fd, esp) ← grab_arg esp; '(name, _) ← grab_arg esp;
    r ← sys_readdir (s32 fd) name; pure (Some r)
  else if number =? SYS_ISDIR then
    '(fd, _) ← grab_arg esp; r ← sys_isdir (s32 fd); pure (Some r)
  else if number =? SYS_INUMBER then
    '(fd, _) ← grab_arg esp; r ← sys_inumber (s32 fd); pure (Some r)
  else modify (λ s, Ret (s <| console ::= λ o, o ++ unknown_message number |>));; thread_exit.

Definition syscall_handler (f : intr_frame) : kcall intr_frame :=
  '(number, esp) ← grab_arg (esp f);
  r ← dispatch number esp;
  pure (match r with
        | Some v => f <| eax := u32 v |>
        | None => f
        end).
End syscall.

(** [syscall_init] *)
Definition syscall_init {H} (SEL_KCSEG : Z) (intr_stubs : Z → Z) (handler : H)
    (s : idt_state H) : outcome (idt_state H) :=
  intr_register_int SEL_KCSEG intr_stubs 48 3 INTR_ON handler "syscall" s.
