(* ===== verification/StackSpec.v ===== *)
(** * The stack of a new process

    [setup_stack] lays the words of the command line out so that [main] finds them
    through [argc] and [argv]. *)
From S2P Require Import Prelude CInt Ext Mmu PageDir Swap PageTable UserFiles Elf Frame Page VmSpec UserCall Exception UserMem UserMemSpec Load LoadSpec.
Open Scope Z_scope.

(** ** The image of the arguments *)

Abbreviation len l := (Z.of_nat (length l)).

Definition strings_image (tokens : list (list Z)) : list Z := concat ((λ t, t ++ [0]) <$> tokens).
Definition words_image (l : list Z) : list Z := concat (le 4 <$> l).

(** The addresses of the strings when the first one is at [p]. *)
Fixpoint string_ptrs (p : Z) (tokens : list (list Z)) : list Z :=
  match tokens with
  | [] => []
  | t :: l => p :: string_ptrs (p + len t + 1) l
  end.

Lemma length_string_ptrs p tokens : length (string_ptrs p tokens) = length tokens.
Proof. revert p. induction tokens as [|t l IH]; intros p; simpl; [done|]. by rewrite IH. Qed.

Lemma length_words_image l : len (words_image l) = 4 * len l.
Proof.
  unfold words_image. induction l as [|p l IH]; [done|]. cbn [fmap list_fmap concat].
  rewrite length_app, length_le. cbn [length]. lia.
Qed.

Lemma length_strings_cons t l : len (strings_image (t :: l)) = len t + 1 + len (strings_image l).
Proof. unfold strings_image. cbn [fmap list_fmap concat]. rewrite !length_app. cbn [length]. lia. Qed.

Lemma splice_cons {A} ofs (b : A) l page : (ofs + S (length l) ≤ length page)%nat →
  splice ofs (b :: l) page = splice (S ofs) l (<[ofs := b]> page).
Proof.
  intros Hle. replace (<[ofs := b]> page) with (splice ofs [b] page).
  - replace (S ofs) with (ofs + length [b])%nat by (simpl; lia).
    rewrite splice_splice_app by (simpl; lia). done.
  - unfold splice. simpl. rewrite insert_take_drop by lia. by rewrite Nat.add_1_r.
Qed.

Section spec.
Context `{VaddrLaws, !Pte, !PteLaws, KernelMemory}.
Context {dev files : Type} `{BlockDeviceLaws dev, FileCallsLaws files, !FaultHandler (sys dev files)}.
Implicit Types (s : sys dev files) (w : vm dev files) (v k esp : Z) (page img b l : list Z) (tokens : list (list Z)) (pds : gset Z).

Definition stack_image tokens : list Z :=
  let str := strings_image tokens in
  let esp := PHYS_BASE - len str in
  let align := replicate (Z.to_nat (u32 (esp - 4) mod 4)) 0 in
  let argv := words_image (string_ptrs esp tokens) ++ le 4 0 ++ align ++ str in
  le 4 0 ++ le 4 (len tokens) ++ le 4 (PHYS_BASE - len argv) ++ argv.

(** ** Stores to the stack page *)

Definition stack_base : Z := PHYS_BASE - PGSIZE.

(** The frame [k] with content [page] is mapped at the top of user memory. *)
Record stack_mem pds pd k page s : Prop := {
  sf_aspace : aspace pds pd (svm s);
  sf_map : ∀ v, in_pages stack_base 1 v →
    pagedir_get_page (Some pd) v (vmmu (svm s)) = Ret (Some (k + v mod PGSIZE));
  sf_kernel : kernel_page k;
  sf_page : ram (svm s) !! k = Some page ∧ len page = PGSIZE
}.

(** [s'] is [s] with another content of the frame [k] and other accessed and dirty bits. *)
Record only_frame pd k s s' : Prop := {
  of_rest : s' = s <| svm := (svm s) <| vmmu := vmmu (svm s') |> <| ram := ram (svm s') |> |>;
  of_ram : ∀ k', k' ≠ k → ram (svm s') !! k' = ram (svm s) !! k';
  of_map : ∀ v, user_addr v →
    pagedir_get_page (Some pd) v (vmmu (svm s')) = pagedir_get_page (Some pd) v (vmmu (svm s));
  of_writable : ∀ v, user_addr v →
    is_flag PTE_W (Some pd) v (vmmu (svm s')) = is_flag PTE_W (Some pd) v (vmmu (svm s))
}.

Lemma only_frame_refl pd k s : only_frame pd k s s.
Proof. split; [by destruct s as [[] ? ? ? ? ? ? ? ? ?]|done..]. Qed.

Lemma only_frame_trans pd k s1 s2 s3 : only_frame pd k s1 s2 → only_frame pd k s2 s3 → only_frame pd k s1 s3.
Proof.
  intros [E1 R1 M1 W1] [E2 R2 M2 W2]. split.
  - rewrite E2 at 1. by rewrite E1.
  - intros k' Hk. by rewrite R2, R1.
  - intros v Hv. by rewrite M2, M1.
  - intros v Hv. by rewrite W2, W1.
Qed.

Lemma stack_base_aligned : (PGSIZE | stack_base).
Proof.
  unfold stack_base. destruct PHYS_BASE_spec as [_ [a ->]]. exists (a * 1024 - 1). unfold PGSIZE. lia.
Qed.

Lemma stack_base_range : 0 ≤ stack_base ∧ stack_base + PGSIZE = PHYS_BASE ∧ PHYS_BASE < 4294967296.
Proof. unfold stack_base. destruct PHYS_BASE_spec as [? [a Ha]]. unfold PGSIZE. lia. Qed.

Lemma stack_user v : in_pages stack_base 1 v → user_addr v.
Proof. pose proof stack_base_range. unfold in_pages, user_addr. lia. Qed.

Lemma store_byte_stack pds pd k page s v (b : Z) :
  stack_mem pds pd k page s → in_pages stack_base 1 v →
  ∃ s', store_byte v b s = Ret (Val tt, s') ∧
    stack_mem pds pd k (<[Z.to_nat (v - stack_base) := b]> page) s' ∧ only_frame pd k s s'.
Proof.
  intros Hsf Hin. pose proof Hsf as [Has Hmap Hk [Hram Hlen]]. pose proof (stack_user v Hin) as Hv.
  pose proof (page_mod stack_base v stack_base_aligned Hin) as Emod.
  destruct (page_offset_sub k v Hk Hv) as [Eround Eofs].
  assert (∃ old, page !! Z.to_nat (v - stack_base) = Some old) as [old Hold].
  { apply lookup_lt_is_Some. unfold in_pages in Hin. unfold PGSIZE in *. lia. }
  assert (user_byte pd (svm s) v = Some old) as Hb.
  { unfold user_byte. rewrite Hmap by done. rewrite Eround, Eofs, Hram, Emod. done. }
  destruct (touch_ret pds pd s v old true Has Hv Hb) as (a & page' & Ht & Hget & _).
  rewrite Hmap in Hget by done. injection Hget as <-.
  pose proof Has as [(t & Hcur & Epd) [Hpd Hkp] Hw].
  destruct (change_flag_translate pds (vmmu (svm s)) pd v PTE_A true Hw Hpd Hkp Hv)
    as (m1 & E1 & Hw1 & _ & Htr1); [by left|].
  destruct (change_flag_translate pds m1 pd v PTE_D true Hw1 Hpd Hkp Hv)
    as (m2 & E2 & Hw2 & _ & Htr2); [by right|].
  set (s' := s <| svm := (svm s) <| vmmu := m2 |>
    <| ram := <[k := <[Z.to_nat (v - stack_base) := b]> page]> (ram (svm s)) |> |>).
  exists s'. split; [|split].
  - unfold store_byte. call_ret Ht. unfold vm_do, thread_current. rewrite Hcur. ret. rewrite Epd.
    unfold pagedir_set_accessed, pagedir_set_dirty. rewrite E1. ret. rewrite E2. ret.
    rewrite Eround, Eofs, Emod. unfold s'.
    rewrite <- (alter_insert_Some (λ page, <[Z.to_nat (v - stack_base) := b]> page) _ _ _ Hram). done.
  - split; [split; [by exists t|done|done]| |done|].
    + intros u Hu. change (vmmu (svm s')) with m2. rewrite Htr2, Htr1 by (done || by apply stack_user).
      by apply Hmap.
    + split; [apply lookup_insert_eq|]. by rewrite length_insert.
  - split; [done| | |].
    + intros k' Hne. apply lookup_insert_ne. by apply not_eq_sym.
    + intros u Hu. change (vmmu (svm s')) with m2. by rewrite Htr2, Htr1.
    + intros u Hu. change (vmmu (svm s')) with m2.
      rewrite (change_flag_writable pds m1 pd v PTE_D m2) by (done || by right).
      by apply (change_flag_writable pds _ pd v PTE_A m1); [..|left| |].
Qed.

Lemma store_bytes_stack pds pd k l page s v :
  stack_mem pds pd k page s → stack_base ≤ v → v + len l ≤ PHYS_BASE →
  ∃ s', store_bytes l v s = Ret (Val tt, s') ∧
    stack_mem pds pd k (splice (Z.to_nat (v - stack_base)) l page) s' ∧ only_frame pd k s s'.
Proof.
  revert page s v. induction l as [|b l IH]; intros page s v Hsf Hv Hle; simpl.
  { exists s. split; [done|]. split; [by rewrite splice_nil|apply only_frame_refl]. }
  pose proof (sf_page _ _ _ _ _ Hsf) as [_ Hlen]. simpl in Hle.
  pose proof stack_base_range as (? & ? & ?).
  destruct (store_byte_stack pds pd k page s v b Hsf) as (s1 & E1 & Hsf1 & Ho1).
  { unfold in_pages. lia. }
  call_ret E1. rewrite u32_id by (unfold in_u32; lia).
  destruct (IH _ s1 (v + 1) Hsf1) as (s2 & E2 & Hsf2 & Ho2); [lia|lia|].
  exists s2. split; [exact E2|]. split; [|by eapply only_frame_trans].
  rewrite splice_cons by lia.
  by replace (S (Z.to_nat (v - stack_base))) with (Z.to_nat (v + 1 - stack_base)) by lia.
Qed.
(** ** Pushes *)

(** The bytes [img] are at the top of the stack. *)
Definition pushed pds pd k img s : Prop :=
  ∃ page, stack_mem pds pd k page s ∧ len img ≤ PGSIZE ∧
    drop (Z.to_nat (PGSIZE - len img)) page = img.

Lemma push_ret pds pd k img b s :
  pushed pds pd k img s → len b + len img ≤ PGSIZE →
  ∃ s', push b (PHYS_BASE - len img) s = Ret (Val (PHYS_BASE - len (b ++ img)), s') ∧
    pushed pds pd k (b ++ img) s' ∧ only_frame pd k s s'.
Proof.
  intros (page & Hsf & Himg & Hdrop) Hle. pose proof stack_base_range as (? & ? & ?).
  pose proof (sf_page _ _ _ _ _ Hsf) as [_ Hlen].
  set (ofs := PGSIZE - len img - len b).
  destruct (store_bytes_stack pds pd k b page s (stack_base + ofs) Hsf) as (s' & E & Hsf' & Ho); [lia|lia|].
  exists s'. split; [|split; [|done]].
  - unfold push. rewrite u32_id by (unfold in_u32; lia).
    replace (PHYS_BASE - len img - len b) with (stack_base + ofs) by lia. call_ret E.
    rewrite length_app. unfold pure. do 3 f_equal. lia.
  - exists (splice (Z.to_nat (stack_base + ofs - stack_base)) b page). split; [done|].
    rewrite length_app. split; [lia|].
    replace (Z.to_nat (stack_base + ofs - stack_base)) with (Z.to_nat ofs) by lia.
    replace (Z.to_nat (PGSIZE - Z.of_nat (length b + length img))) with (Z.to_nat ofs) by lia.
    unfold splice. rewrite drop_app_length'; [|rewrite length_take; lia]. f_equal.
    etrans; [|exact Hdrop]. f_equal. lia.
Qed.

Lemma push_strings_ret pds pd k img tokens s :
  pushed pds pd k img s → len (strings_image tokens) + len img ≤ PGSIZE →
  ∃ s', push_strings tokens (PHYS_BASE - len img) s
      = Ret (Val (string_ptrs (PHYS_BASE - len (strings_image tokens ++ img)) tokens,
                  PHYS_BASE - len (strings_image tokens ++ img)), s') ∧
    pushed pds pd k (strings_image tokens ++ img) s' ∧ only_frame pd k s s'.
Proof.
  intros Hp. induction tokens as [|t l IH]; intros Hle; cbn [push_strings string_ptrs].
  { exists s. split; [done|]. split; [done|apply only_frame_refl]. }
  rewrite length_strings_cons in Hle. destruct IH as (s1 & E1 & Hp1 & Ho1); [lia|]. call_ret E1.
  destruct (push_ret pds pd k (strings_image l ++ img) (t ++ [0]) s1 Hp1) as (s2 & E2 & Hp2 & Ho2).
  { rewrite !length_app. cbn [length]. lia. }
  call_ret E2. exists s2.
  assert ((t ++ [0]) ++ strings_image l ++ img = strings_image (t :: l) ++ img) as Eimg.
  { unfold strings_image. cbn [fmap list_fmap concat]. by rewrite <- !app_assoc. }
  rewrite <- Eimg. split; [|split; [done|by eapply only_frame_trans]].
  set (sp := PHYS_BASE - len ((t ++ [0]) ++ _)).
  replace (PHYS_BASE - len (strings_image l ++ img)) with (sp + len t + 1); [done|].
  unfold sp. rewrite !length_app. cbn [length]. lia.
Qed.

Lemma push_words_ret pds pd k img l s :
  pushed pds pd k img s → 4 * len l + len img ≤ PGSIZE →
  ∃ s', push_words l (PHYS_BASE - len img) s = Ret (Val (PHYS_BASE - len (words_image l ++ img)), s') ∧
    pushed pds pd k (words_image l ++ img) s' ∧ only_frame pd k s s'.
Proof.
  intros Hp. induction l as [|x l IH]; intros Hle; cbn [push_words].
  { exists s. split; [done|]. split; [done|apply only_frame_refl]. }
  cbn [length] in Hle. destruct IH as (s1 & E1 & Hp1 & Ho1); [lia|]. call_ret E1.
  destruct (push_ret pds pd k (words_image l ++ img) (le 4 x) s1 Hp1) as (s2 & E2 & Hp2 & Ho2).
  { rewrite length_app, length_le. pose proof (length_words_image l). lia. }
  exists s2. assert (le 4 x ++ words_image l ++ img = words_image (x :: l) ++ img) as <-.
  { unfold words_image. cbn [fmap list_fmap concat]. by rewrite <- app_assoc. }
  split; [exact E2|]. split; [done|by eapply only_frame_trans].
Qed.

(** What is on the stack can be read there. *)
Lemma pushed_user_bytes pds pd k img s :
  pushed pds pd k img s → user_bytes pd (svm s) (PHYS_BASE - len img) img.
Proof.
  intros (page & [_ Hmap Hk [Hram Hlen]] & Himg & Hdrop) i b Hi.
  pose proof stack_base_range as (? & ? & ?). pose proof (lookup_lt_Some _ _ _ Hi).
  set (v := PHYS_BASE - len img + Z.of_nat i).
  assert (in_pages stack_base 1 v) as Hin by (unfold in_pages; lia).
  split; [by apply stack_user|]. unfold user_byte. rewrite Hmap by done.
  destruct (page_offset_sub k v Hk (stack_user v Hin)) as [-> ->]. rewrite Hram. simpl.
  rewrite (page_mod stack_base v stack_base_aligned Hin). rewrite <- Hdrop, lookup_drop in Hi.
  rewrite <- Hi. f_equal. lia.
Qed.

(** ** Reading the arguments back *)

Lemma user_bytes_strings pd w p tokens i t :
  user_bytes pd w p (strings_image tokens) → tokens !! i = Some t →
  ∃ q, string_ptrs p tokens !! i = Some q ∧ user_bytes pd w q (t ++ [0]).
Proof.
  revert p i. induction tokens as [|t' l IH]; intros p i Hb; [done|].
  change (strings_image (t' :: l)) with ((t' ++ [0]) ++ strings_image l) in Hb.
  apply user_bytes_app in Hb as [Ht Hl]. destruct i as [|i]; cbn [string_ptrs lookup list_lookup].
  - intros [= <-]. by exists p.
  - intros Hi. apply IH; [|done]. rewrite length_app in Hl. simpl in Hl.
    by replace (p + len t' + 1) with (p + Z.of_nat (length t' + 1)) by lia.
Qed.

Lemma user_bytes_words pd w p l i x :
  user_bytes pd w p (words_image l) → l !! i = Some x → user_bytes pd w (p + 4 * Z.of_nat i) (le 4 x).
Proof.
  revert p i. induction l as [|y l IH]; intros p i Hb; [done|].
  change (words_image (y :: l)) with (le 4 y ++ words_image l) in Hb.
  apply user_bytes_app in Hb as [Hy Hl]. destruct i as [|i]; cbn [lookup list_lookup].
  - intros [= <-]. by rewrite Z.add_0_r.
  - intros Hi. rewrite length_le in Hl. specialize (IH _ i Hl Hi).
    by replace (p + 4 * Z.of_nat (S i)) with (p + Z.of_nat 4 + 4 * Z.of_nat i) by lia.
Qed.
(** ** [setup_stack] *)

(** What [main] of the new process finds when it is entered with stack pointer [esp]:
    a return address, [argc] and [argv], the array ending with a null pointer. *)
Definition main_args pd w esp tokens : Prop :=
  ∃ argv, user_bytes pd w esp (le 4 0 ++ le 4 (len tokens) ++ le 4 argv) ∧
    (∀ i t, tokens !! i = Some t →
       ∃ p, user_bytes pd w (argv + 4 * Z.of_nat i) (le 4 p) ∧ user_bytes pd w p (t ++ [0])) ∧
    user_bytes pd w (argv + 4 * len tokens) (le 4 0).

Lemma stack_image_args pd w tokens :
  user_bytes pd w (PHYS_BASE - len (stack_image tokens)) (stack_image tokens) →
  main_args pd w (PHYS_BASE - len (stack_image tokens)) tokens.
Proof.
  unfold stack_image. set (str := strings_image tokens).
  set (align := replicate _ 0). set (ptrs := string_ptrs _ tokens).
  set (rest := le 4 0 ++ align ++ str). set (argv := PHYS_BASE - len (words_image ptrs ++ rest)).
  assert (∀ x, len (le 4 x) = 4) as Hle by (intros x; by rewrite length_le).
  assert (len (words_image ptrs) = 4 * len tokens) as Hptrs.
  { rewrite length_words_image. unfold ptrs. by rewrite length_string_ptrs. }
  set (head := le 4 0 ++ le 4 (len tokens) ++ le 4 argv).
  assert (le 4 0 ++ le 4 (len tokens) ++ le 4 argv ++ words_image ptrs ++ rest
    = head ++ words_image ptrs ++ rest) as -> by (unfold head; by rewrite <- !app_assoc).
  set (esp := PHYS_BASE - _). intros Hb. exists argv. apply user_bytes_app in Hb as [Hhead Hb].
  assert (esp + len head = argv) as Eargv.
  { unfold esp, argv, head. rewrite !length_app, !length_le. lia. }
  rewrite Eargv in Hb. apply user_bytes_app in Hb as [Hptr Hb]. rewrite Hptrs in Hb.
  apply user_bytes_app in Hb as [Hnull Hb]. apply user_bytes_app in Hb as [_ Hstr].
  split; [done|]. split; [|done]. intros i t Hi.
  replace (argv + 4 * len tokens + len (le 4 0) + len align) with (PHYS_BASE - len str) in Hstr
    by (unfold argv, rest; rewrite !length_app, !length_le; lia).
  destruct (user_bytes_strings pd w _ tokens i t Hstr Hi) as (p & Hp & Ht). exists p.
  split; [|done]. by apply user_bytes_words with ptrs.
Qed.

Lemma push_args_ret pds pd k tokens s :
  pushed pds pd k [] s → len (stack_image tokens) ≤ PGSIZE →
  ∃ s', push_args tokens s = Ret (Val (PHYS_BASE - len (stack_image tokens)), s') ∧
    pushed pds pd k (stack_image tokens) s' ∧ only_frame pd k s s'.
Proof.
  intros Hp Hfit. unfold push_args, stack_image in *. set (str := strings_image tokens) in *.
  set (align := replicate _ 0) in *. set (ptrs := string_ptrs _ tokens) in *.
  assert (len (words_image ptrs) = 4 * len ptrs) as Hwords by apply length_words_image.
  rewrite !length_app in Hfit. rewrite !length_le in Hfit.
  destruct (push_strings_ret pds pd k [] tokens s Hp) as (s2 & E2 & Hp2 & Ho2); [fold str; simpl; lia|].
  fold str in E2, Hp2. rewrite app_nil_r in E2, Hp2. simpl in E2. rewrite Z.sub_0_r in E2.
  call_ret E2. fold ptrs. fold align.
  destruct (push_ret pds pd k str align s2 Hp2) as (s3 & E3 & Hp3 & Ho3); [lia|]. call_ret E3.
  destruct (push_ret pds pd k (align ++ str) (le 4 0) s3 Hp3) as (s4 & E4 & Hp4 & Ho4);
    [rewrite length_app, length_le; lia|]. call_ret E4.
  destruct (push_words_ret pds pd k (le 4 0 ++ align ++ str) ptrs s4 Hp4) as (s5 & E5 & Hp5 & Ho5);
    [rewrite !length_app, length_le; lia|]. call_ret E5.
  set (argv := words_image ptrs ++ le 4 0 ++ align ++ str) in *.
  assert (len argv = 4 * len ptrs + 4 + len align + len str) as Hargv
    by (unfold argv; rewrite !length_app, length_le; lia).
  destruct (push_ret pds pd k argv (le 4 (PHYS_BASE - len argv)) s5 Hp5) as (s6 & E6 & Hp6 & Ho6);
    [rewrite length_le; lia|]. call_ret E6.
  destruct (push_ret pds pd k _ (le 4 (len tokens)) s6 Hp6) as (s7 & E7 & Hp7 & Ho7);
    [rewrite length_app, !length_le; lia|]. call_ret E7.
  destruct (push_ret pds pd k _ (le 4 0) s7 Hp7) as (s8 & E8 & Hp8 & Ho8);
    [rewrite !length_app, !length_le; lia|].
  exists s8. split; [exact E8|]. split; [exact Hp8|].
  repeat (eapply only_frame_trans; [eassumption|]). apply only_frame_refl.
Qed.

Lemma stack_image_aligned tokens : len (stack_image tokens) ≤ PGSIZE → (4 | PHYS_BASE - len (stack_image tokens)).
Proof.
  intros Hfit. pose proof stack_base_range as (? & ? & ?). unfold stack_image in *.
  set (str := strings_image tokens) in *. set (e := PHYS_BASE - len str) in *.
  set (align := replicate _ 0) in *. set (ptrs := string_ptrs _ tokens) in *.
  rewrite !length_app in *. rewrite !length_le in *. pose proof (length_words_image ptrs).
  assert (len align = (e - 4) mod 4) as Eal.
  { unfold align. rewrite length_replicate, u32_id by (unfold in_u32, e, PGSIZE in *; lia).
    rewrite Z2Nat.id; [done|]. by apply Z.mod_pos_bound. }
  exists ((e - 4) / 4 - len ptrs - 3). pose proof (Z_div_mod_eq_full (e - 4) 4). lia.
Qed.

Lemma map_frame_inv upage (writable : bool) s k s' :
  map_frame upage writable s = Ret (Val k, s') →
  ∃ al s1 s2, next_allocs s = Ret (Val al, s1) ∧ vm_do (frame_alloc al upage writable) s1 = Ret (Val k, s2) ∧
    vm_do (λ w, w' ← page_set_frame (al_page al) upage k writable w; Ret (tt, w')) s2 = Ret (Val tt, s').
Proof.
  intros (al & s1 & E1 & (k' & s2 & E2 & ([] & s3 & E3 & E4)%call_bind_inv)%call_bind_inv)%call_bind_inv.
  injection E4 as -> ->. by exists al, s1, s2.
Qed.

(** [setup_stack], wherever the page comes from. *)
Lemma setup_stack_pushed `{!ProgramPages (sys dev files)} pds pd k s s1 tokens :
  get_stack_page s = Ret (Val true, s1) → pushed pds pd k [] s1 → len (stack_image tokens) ≤ PGSIZE →
  ∃ esp s', setup_stack tokens s = Ret (Val (Some esp), s') ∧
    (4 | esp) ∧ stack_base ≤ esp < PHYS_BASE ∧ pushed pds pd k (stack_image tokens) s' ∧
    aspace pds pd (svm s') ∧ main_args pd (svm s') esp tokens ∧ only_frame pd k s1 s'.
Proof.
  intros E1 Hp1 Hfit. pose proof stack_base_range as (Hb0 & HB & Hmax).
  destruct (push_args_ret pds pd k tokens s1 Hp1 Hfit) as (s8 & E8 & Hp8 & Ho).
  exists (PHYS_BASE - len (stack_image tokens)), s8.
  split; [|split; [by apply stack_image_aligned|split; [|split; [done|split; [by destruct Hp8 as (? & [] & _)|split]]]]].
  - unfold setup_stack. call_ret E1. by call_ret E8.
  - split; [lia|]. assert (length (stack_image tokens) ≠ 0%nat); [|lia]. unfold stack_image.
    rewrite !length_app, !length_le. lia.
  - apply (stack_image_args pd (svm s8) tokens). by eapply pushed_user_bytes.
  - done.
Qed.

(** Memory below the stack page stays when the page is mapped and written. *)
Lemma below_stack_same pd k s s1 s' :
  only_frame pd k s1 s' → (∀ k', k' ≠ k → ram (svm s1) !! k' = ram (svm s) !! k') →
  (∀ v, user_addr v → ¬ in_pages stack_base 1 v →
     pagedir_get_page (Some pd) v (vmmu (svm s1)) = pagedir_get_page (Some pd) v (vmmu (svm s))) →
  (∀ v a, user_addr v → pagedir_get_page (Some pd) v (vmmu (svm s)) = Ret (Some a) → pg_round_down a ≠ k) →
  ∀ v, user_addr v → v < stack_base → user_byte pd (svm s') v = user_byte pd (svm s) v.
Proof.
  intros [_ Hram' Hmap' _] Hram Hmap Hun v Hv Hlt. unfold user_byte.
  rewrite Hmap', Hmap by (done || unfold in_pages; lia).
  destruct (pagedir_get_page (Some pd) v (vmmu (svm s))) as [[a|]| |] eqn:Eget; try done.
  rewrite Hram', Hram; [done|by apply (Hun v a)|by apply (Hun v a)].
Qed.

Lemma setup_stack_ret pds pd f l s tokens :
  loading pds pd (f :: l) s → free_pages pd stack_base 1 (svm s) → len (stack_image tokens) ≤ PGSIZE →
  ∃ esp s', setup_stack tokens s = Ret (Val (Some esp), s') ∧
    (4 | esp) ∧ stack_base ≤ esp < PHYS_BASE ∧
    aspace pds pd (svm s') ∧ main_args pd (svm s') esp tokens ∧
    ∀ v, user_addr v → v < stack_base → user_byte pd (svm s') v = user_byte pd (svm s) v.
Proof.
  intros Hld Hfree Hfit. pose proof stack_base_range as (Hb0 & HB & Hmax).
  assert (in_pages stack_base 1 stack_base) as Hin0 by (unfold in_pages, PGSIZE; lia).
  destruct (Hfree stack_base stack_base_aligned Hin0) as [Hget Hent].
  destruct (ld_frames _ _ _ _ Hld f) as (fr & page & Hf & Hram & Hlp); [by left|].
  destruct (map_frame_ret pds pd f l s fr stack_base true)
    as (s1 & E1 & Hld1 & Hk & [Erest Eram _ Hmap _]); [done..|by apply stack_user|apply stack_base_aligned|done|done|].
  set (k := f_kpage fr) in *.
  assert (pushed pds pd k [] s1) as Hp1.
  { exists page. split; [|split; [unfold PGSIZE; simpl; lia|]].
    - split; [by eapply loading_aspace| |done|by rewrite Eram]. intros v Hv.
      rewrite Hmap, decide_True; [done| |by apply stack_user]. by apply page_div; [apply stack_base_aligned|].
    - apply drop_ge. simpl. lia. }
  destruct (map_frame_inv _ _ _ _ _ E1) as (al & sa & sb & Ea & Eb & Ec).
  assert (get_stack_page s = Ret (Val true, s1)) as Estack.
  { unfold get_stack_page, paging_pages, map_stack_page. call_ret Ea. fold stack_base. call_ret Eb.
    rewrite (proj2 (Z.eqb_neq k 0)) by (destruct Hk as [? _], PHYS_BASE_spec; lia). by call_ret Ec. }
  destruct (setup_stack_pushed pds pd k s s1 tokens Estack Hp1 Hfit)
    as (esp & s8 & E8 & Hal & Hesp & _ & Has & Hargs & Ho).
  exists esp, s8. do 5 (split; [done|]). eapply below_stack_same; [exact Ho|by rewrite Eram| |].
  - intros v Hv Hnot. by rewrite Hmap, decide_False by (done || rewrite page_div by apply stack_base_aligned; done).
  - intros v a. apply (ld_unmapped _ _ _ _ Hld f fr v a); [by left|done].
Qed.

(** For words that fit in a page with their addresses, [setup_stack] maps a new page at
    the top of user memory and returns an aligned stack pointer at which [main] finds
    the words, in order; the rest of the process's memory is as before. *)
Theorem setup_stack_correct pds pd f l s tokens :
  loading pds pd (f :: l) s → free_pages pd stack_base 1 (svm s) → len (stack_image tokens) ≤ PGSIZE →
  ∃ esp s', setup_stack tokens s = Ret (Val (Some esp), s') ∧
    (4 | esp) ∧ stack_base ≤ esp < PHYS_BASE ∧
    aspace pds pd (svm s') ∧ main_args pd (svm s') esp tokens ∧
    ∀ v, user_addr v → v < stack_base → user_byte pd (svm s') v = user_byte pd (svm s) v.
Proof. exact (setup_stack_ret pds pd f l s tokens). Qed.
End spec.
