(* ===== verification/LoadExec.v ===== *)
(** * What loading an executable does

    [load] as a whole: for an executable whose segments do not overlap, the address
    space of the new process holds exactly the segments, and its arguments.  The proof
    is against [LoadsPages], what a kernel promises of the pages of a program;
    virtual-memory implements it at the end of the file. *)
From S2P Require Import Prelude CInt Ext Mmu PageDir Swap PageTable UserFiles Elf Frame Page VmSpec UserCall Exception UserMem UserMemSpec Load LoadSpec StackSpec.
Open Scope Z_scope.

(** ** The executable as bytes *)

Definition phdr_at (data : list Z) (ofs : Z) : Elf32_Phdr :=
  phdr_of (slice (Z.to_nat ofs) (Z.to_nat sizeof_phdr) data).

(** [n] program headers from [ofs] on. *)
Fixpoint phdrs_at (n : nat) (data : list Z) (ofs : Z) : list Elf32_Phdr :=
  match n with
  | O => []
  | S n' => phdr_at data ofs :: phdrs_at n' data (ofs + sizeof_phdr)
  end.

(** ** States of a load *)

Section states.
Context `{VaddrLaws, !Pte, !PteLaws}.
Context {dev files : Type}.
Implicit Types (s : sys dev files) (pds : gset Z).

Definition set_fs (fs : files) s : sys dev files := s <| svm := (svm s) <| vfiles := fs |> |>.

Definition activate (q : option Z) s : sys dev files :=
  s <| svm := (svm s) <| vmmu := pagedir_activate q (vmmu (svm s)) |> |>.

(** Loading CR3 changes no page table. *)
Lemma mmu_wf_activate pds t (q : option Z) : mmu_wf pds t → mmu_wf pds (pagedir_activate q t).
Proof. intros []. by split. Qed.

Lemma translate_activate pds t (q : option Z) pd v :
  mmu_wf pds t → pd ∈ pds → user_addr v →
  pagedir_get_page (Some pd) v (pagedir_activate q t) = pagedir_get_page (Some pd) v t.
Proof. intros Hw Hp Hv. rewrite !(pagedir_get_page_ret pds) by (done || by apply mmu_wf_activate). done. Qed.

(** Nothing is mapped. *)
Definition no_pages pd (w : vm dev files) : Prop :=
  ∀ v, user_addr v → pagedir_get_page (Some pd) v (vmmu w) = Ret None.
End states.

(** ** What [load] needs of the pages of a program

    [new_process pds m n s]: the running thread has no page directory yet, [m] is the
    page that it will get, and [n] pages can then be had.  [supply pds pd n s]: a program
    is being loaded in [pd], and [n] pages can be had.  [absent u w]: the kernel has no
    record of a page at [u]. *)
Class LoadsPages (dev files : Type) `{VaddrLaws, !Pte, KernelMemory, FileCallsLaws files,
    !FaultHandler (sys dev files), !ProgramPages (sys dev files)} := {
  new_process : gset Z → Z → nat → sys dev files → Prop;
  supply : gset Z → Z → nat → sys dev files → Prop;
  absent : Z → vm dev files → Prop;
  new_process_mallocs pds m n s l : new_process pds m n s → new_process pds m n (s <| mallocs := l |>);
  create_pagedir_supply pds m n s : new_process pds m n s →
    ∃ s', create_pagedir s = Ret (Val (Some m), s') ∧ supply ({[m]} ∪ pds) m n s' ∧
      no_pages m (svm s') ∧ (∀ u, absent u (svm s')) ∧ vfiles (svm s') = vfiles (svm s);
  supply_aspace pds pd n s : supply pds pd n s → aspace pds pd (svm s);
  supply_fs pds pd n s fs : supply pds pd n s → supply pds pd n (set_fs fs s);
  supply_eq pds pd n s s' : svm s' = svm s → fetches s' = fetches s → supply pds pd n s → supply pds pd n s';
  supply_activate pds pd n s q : supply pds pd n s → supply pds pd n (activate q s);
  absent_fs u s fs : absent u (svm (set_fs fs s)) ↔ absent u (svm s);
  absent_activate u s q : absent u (svm (activate q s)) ↔ absent u (svm s);
  load_segment_supply pds pd s file ofs upage read_bytes zero_bytes (writable : bool) n r :
    supply pds pd (n + r) s →
    (PGSIZE | upage) → 0 ≤ upage → upage + Z.of_nat n * PGSIZE ≤ PHYS_BASE →
    (∀ u, (PGSIZE | u) → in_pages upage n u →
       pagedir_get_page (Some pd) u (vmmu (svm s)) = Ret None ∧ absent u (svm s)) →
    0 ≤ read_bytes → 0 ≤ zero_bytes → read_bytes + zero_bytes = Z.of_nat n * PGSIZE →
    (PGSIZE | ofs) → 0 ≤ ofs → ofs + read_bytes ≤ Z.of_nat (length (file_data file (vfiles (svm s)))) →
    ∃ s', load_segment file ofs upage read_bytes zero_bytes writable s = Ret (Val true, s') ∧
      supply pds pd r s' ∧
      filled_pages pd upage n (segment_byte (file_data file (vfiles (svm s))) ofs read_bytes) s s' ∧
      (∀ u, ¬ in_pages upage n u → absent u (svm s) → absent u (svm s')) ∧
      ∀ g, file_data g (vfiles (svm s')) = file_data g (vfiles (svm s));
  setup_stack_supply pds pd n s tokens :
    supply pds pd (S n) s → pagedir_get_page (Some pd) stack_base (vmmu (svm s)) = Ret None →
    absent stack_base (svm s) → len (stack_image tokens) ≤ PGSIZE →
    ∃ esp s', setup_stack tokens s = Ret (Val (Some esp), s') ∧
      (4 | esp) ∧ stack_base ≤ esp < PHYS_BASE ∧
      aspace pds pd (svm s') ∧ main_args pd (svm s') esp tokens ∧
      ∀ v, user_addr v → v < stack_base → user_byte pd (svm s') v = user_byte pd (svm s) v
}.

Section exec.
Context `{VaddrLaws, !Pte, !PteLaws, KernelMemory}.
Context {dev files : Type} `{BlockDevice dev, FileCallsLaws files}.
Context `{!FaultHandler (sys dev files), !ProgramPages (sys dev files), !LoadsPages dev files}.
Implicit Types (s : sys dev files) (w : vm dev files) (file v u p : Z) (ph : Elf32_Phdr)
  (phs : list Elf32_Phdr) (data : list Z) (pds : gset Z).

(** The pages of a segment. *)
Definition seg_pages ph : nat :=
  let sg := segment_of ph in
  if p_type ph =? PT_LOAD then Z.to_nat ((sg_read_bytes sg + sg_zero_bytes sg) / PGSIZE) else 0.
Definition seg_in ph v : Prop := in_pages (sg_upage (segment_of ph)) (seg_pages ph) v.
#[local] Instance seg_in_dec ph v : Decision (seg_in ph v).
Proof. unfold seg_in, in_pages. apply _. Defined.

Definition total_pages phs : nat := sum_list_with seg_pages phs.

(** A header that [load] accepts for an executable with content [data]. *)
Record phdr_good data ph : Prop := {
  pg_words : phdr_words ph;
  pg_type : p_type ph ∉ [PT_DYNAMIC; PT_INTERP; PT_SHLIB];
  pg_load : p_type ph = PT_LOAD → loadable ph (len data) ∧ p_offset ph + p_filesz ph ≤ len data
}.

(** No two segments have a page in common. *)
Fixpoint separate phs : Prop :=
  match phs with
  | [] => True
  | ph :: l => (∀ ph' v, ph' ∈ l → seg_in ph v → ¬ seg_in ph' v) ∧ separate l
  end.

(** What [load_segment] needs to know of a segment. *)
Lemma segment_args data ph :
  phdr_good data ph → p_type ph = PT_LOAD → len data < 2147483648 →
  let sg := segment_of ph in let n := seg_pages ph in
  s32 (sg_ofs sg) = sg_ofs sg ∧ (PGSIZE | sg_upage sg) ∧ (PGSIZE | sg_ofs sg) ∧
  0 ≤ sg_upage sg ∧ sg_upage sg + Z.of_nat n * PGSIZE ≤ PHYS_BASE ∧
  0 ≤ sg_read_bytes sg ∧ 0 ≤ sg_zero_bytes sg ∧ sg_read_bytes sg + sg_zero_bytes sg = Z.of_nat n * PGSIZE ∧
  0 ≤ sg_ofs sg ∧ sg_ofs sg + sg_read_bytes sg ≤ len data.
Proof.
  intros [Hw _ Hl] Ht Hlen. destruct (Hl Ht) as [Hload Hend]. destruct PHYS_BASE_spec as [[HB0 HB] _].
  destruct (segment_of_ret ph (len data) Hw ltac:(lia) Hload) as (Ha & (Hr & Hz & Ho) & (Hu & Htop) & Hv & Hm & Eo & Er).
  unfold seg_pages. rewrite Ht. cbn [Z.eqb]. rewrite Z.eqb_refl.
  assert (s32 (sg_ofs (segment_of ph)) = sg_ofs (segment_of ph)) as Es by (apply s32_id; unfold in_s32; lia).
  unfold segment_asserts in Ha. rewrite Es, !andb_true_iff, !Z.eqb_eq, pg_ofs_spec in Ha.
  destruct Ha as [[Hmod Hup] Hofs]. rewrite u32_id in Hmod by (unfold in_u32, PGSIZE in *; lia).
  assert (sg_read_bytes (segment_of ph) + sg_zero_bytes (segment_of ph)
    = Z.of_nat (Z.to_nat ((sg_read_bytes (segment_of ph) + sg_zero_bytes (segment_of ph)) / PGSIZE)) * PGSIZE) as En.
  { rewrite Z2Nat.id by (apply Z.div_pos; unfold PGSIZE in *; lia).
    pose proof (Z_div_mod_eq_full (sg_read_bytes (segment_of ph) + sg_zero_bytes (segment_of ph)) PGSIZE). lia. }
  split; [done|]. split; [by apply Z.mod_divide|]. split; [by apply Z.rem_divide|].
  split; [unfold PGSIZE in *; lia|]. split; [lia|]. split; [done|]. split; [done|]. split; [done|]. split; [lia|].
  rewrite Er. destruct Hw as (? & ? & [? ?] & ?). destruct (Z.ltb_spec 0 (p_filesz ph)); lia.
Qed.

(** ** The segments are brought in *)

(** The pages of a segment are new. *)
Definition seg_free pd ph w : Prop :=
  ∀ u, (PGSIZE | u) → seg_in ph u → pagedir_get_page (Some pd) u (vmmu w) = Ret None ∧ absent u w.

(** [s'] is [s] with the segments [phs] in memory. *)
Record brought data phs pd s s' : Prop := {
  br_rest : s' = s <| svm := svm s' |> <| fetches := fetches s' |>;
  br_byte : ∀ ph v, ph ∈ phs → seg_in ph v → user_addr v →
    user_byte pd (svm s') v = segment_byte data (sg_ofs (segment_of ph)) (sg_read_bytes (segment_of ph))
                                (v - sg_upage (segment_of ph));
  br_other : ∀ v, user_addr v → (∀ ph, ph ∈ phs → ¬ seg_in ph v) →
    user_byte pd (svm s') v = user_byte pd (svm s) v ∧
    pagedir_get_page (Some pd) v (vmmu (svm s')) = pagedir_get_page (Some pd) v (vmmu (svm s));
  br_absent : ∀ u, (∀ ph, ph ∈ phs → ¬ seg_in ph u) → absent u (svm s) → absent u (svm s')
}.

Lemma brought_nil data pd s fs : brought data [] pd s (set_fs fs s).
Proof.
  split; [by destruct s|by intros ? ? ?%elem_of_nil|done|]. intros u _. by apply absent_fs.
Qed.

Lemma brought_set_fs data phs pd s fs s' : brought data phs pd (set_fs fs s) s' → brought data phs pd s s'.
Proof.
  intros [R B O E]. split; [by rewrite R; destruct s|done|done|]. intros u Hu Ha.
  apply E; [done|]. by apply absent_fs.
Qed.

Lemma brought_cons data ph phs pd s s1 s2 :
  (∀ ph' v, ph' ∈ phs → seg_in ph v → ¬ seg_in ph' v) →
  brought data [ph] pd s s1 → brought data phs pd s1 s2 → brought data (ph :: phs) pd s s2.
Proof.
  intros Hsep [R1 B1 O1 E1] [R2 B2 O2 E2]. split.
  - rewrite R2 at 1. by rewrite R1.
  - intros ph' v [->|Hin]%elem_of_cons Hv Hu; [|by apply B2].
    rewrite (proj1 (O2 v Hu ltac:(intros ph2 Hin; by apply Hsep))). apply B1; [by left|done..].
  - intros v Hu Hv.
    destruct (O2 v Hu) as [-> ->]; [intros ph' Hin; apply Hv; by right|].
    apply O1; [done|]. intros ph' ->%list_elem_of_singleton. apply Hv. by left.
  - intros u Hu Ha. apply E2; [intros ph' Hin; apply Hu; by right|].
    apply E1; [|done]. intros ph' ->%list_elem_of_singleton. apply Hu. by left.
Qed.

(** The case distinction on [p_type]. *)
Definition header_case file ph : call (sys dev files) bool :=
  if bool_decide (p_type ph ∈ [PT_DYNAMIC; PT_INTERP; PT_SHLIB]) then pure false
  else if p_type ph =? PT_LOAD then load_phdr file ph
  else pure true.

Lemma header_case_ret pds pd data r s file ph :
  supply pds pd (seg_pages ph + r) s → phdr_good data ph → len data < 2147483648 →
  file_data file (vfiles (svm s)) = data → seg_free pd ph (svm s) →
  ∃ s', header_case file ph s = Ret (Val true, s') ∧ supply pds pd r s' ∧
    brought data [ph] pd s s' ∧ file_data file (vfiles (svm s')) = data.
Proof.
  intros Hld Hgood Hlen Hdata Hfree. unfold header_case.
  rewrite bool_decide_false by apply (pg_type _ _ Hgood).
  destruct (Z.eqb_spec (p_type ph) PT_LOAD) as [Ht|Ht].
  - destruct (segment_args data ph Hgood Ht Hlen) as (Es & Hau & Hao & Hu0 & Hutop & Hr & Hz & En & Ho & Hend).
    destruct (pg_load _ _ Hgood Ht) as [Hload _].
    destruct (load_segment_supply pds pd s file (sg_ofs (segment_of ph)) (sg_upage (segment_of ph))
      (sg_read_bytes (segment_of ph)) (sg_zero_bytes (segment_of ph)) (sg_writable (segment_of ph)) (seg_pages ph) r)
      as (s' & E & Hld' & [R B M] & O & Hd); [done..|by rewrite Hdata|].
    exists s'. split; [|split; [done|split; [|by rewrite Hd]]].
    + unfold load_phdr. call_ret by reflexivity.
      rewrite (proj2 (validate_loadable ph file (vfiles (svm s)) (pg_words _ _ Hgood)
        ltac:(rewrite file_length_spec, Hdata; lia))) by (by rewrite file_length_spec, Hdata).
      by rewrite Es.
    + rewrite Hdata in B. split; [done| | |].
      * intros ph' v ->%list_elem_of_singleton Hv Hu. rewrite B by done. by rewrite decide_True.
      * intros v Hu Hv. assert (¬ in_pages (sg_upage (segment_of ph)) (seg_pages ph) v) as Hn by (apply Hv; by left).
        split; [rewrite B, decide_False by done; done|by apply M].
      * intros u Hu. apply O. apply Hu. by left.
  - assert (seg_pages ph = 0%nat) as E0 by (unfold seg_pages; by rewrite (proj2 (Z.eqb_neq _ _) Ht)).
    rewrite E0 in Hld. exists s. split; [done|]. split; [done|]. split; [|done].
    split; [by destruct s| |done|done]. intros ph' v ->%list_elem_of_singleton Hv. exfalso.
    unfold seg_in, in_pages in Hv. rewrite E0 in Hv. lia.
Qed.

Lemma seg_free_brought data phs pd ph s s' :
  brought data phs pd s s' → (∀ ph' v, ph' ∈ phs → seg_in ph' v → ¬ seg_in ph v) →
  (∀ u, seg_in ph u → user_addr u) → seg_free pd ph (svm s) → seg_free pd ph (svm s').
Proof.
  intros [_ _ O E] Hsep Hus Hfree u Hau Hu.
  assert (∀ ph', ph' ∈ phs → ¬ seg_in ph' u) as Hn by (intros ph' Hin Hu'; by apply (Hsep ph' u)).
  destruct (O u (Hus u Hu) Hn) as [_ ->]. destruct (Hfree u Hau Hu). split; [done|by apply E].
Qed.

Lemma seg_user data ph u : phdr_good data ph → len data < 2147483648 → seg_in ph u → user_addr u.
Proof.
  intros Hgood Hlen Hu. unfold seg_in, in_pages in Hu.
  destruct (Z.eqb_spec (p_type ph) PT_LOAD) as [Ht|Ht].
  - destruct (segment_args data ph Hgood Ht Hlen) as (_ & _ & _ & ? & ? & _). unfold user_addr. lia.
  - unfold seg_pages in Hu. rewrite (proj2 (Z.eqb_neq _ _) Ht) in Hu. lia.
Qed.

Lemma load_headers_ret pds pd data file n r s ofs :
  supply pds pd (total_pages (phdrs_at n data ofs) + r) s → len data < 2147483648 →
  file_data file (vfiles (svm s)) = data → 0 ≤ ofs → ofs + Z.of_nat n * sizeof_phdr ≤ len data →
  Forall (phdr_good data) (phdrs_at n data ofs) → separate (phdrs_at n data ofs) →
  (∀ ph, ph ∈ phdrs_at n data ofs → seg_free pd ph (svm s)) →
  ∃ s', load_headers n file ofs s = Ret (Val true, s') ∧ supply pds pd r s' ∧
    brought data (phdrs_at n data ofs) pd s s'.
Proof.
  intros Hld Hlen. revert s ofs Hld.
  induction n as [|n IH]; intros s ofs Hld Hdata Ho Hfit Hgood Hsep Hfree; cbn [load_headers phdrs_at].
  { exists s. split; [done|]. split; [done|]. pose proof (brought_nil data pd s (vfiles (svm s))) as Hb.
    replace (set_fs (vfiles (svm s)) s) with s in Hb; [done|]. by destruct s as [[] ? ? ? ? ? ? ? ? ?]. }
  cbn [phdrs_at] in *. set (ph := phdr_at data ofs) in *. set (phs := phdrs_at n data (ofs + sizeof_phdr)) in *.
  apply Forall_cons in Hgood as [Hph Hgood]. destruct Hsep as [Hone Hsep].
  unfold total_pages in *. cbn [sum_list_with] in *. rewrite <- Nat.add_assoc in Hld. unfold sizeof_phdr in *.
  call_ret by reflexivity. rewrite file_length_spec, Hdata.
  rewrite (proj2 (Z.ltb_ge ofs 0)), (proj2 (Z.ltb_ge (len data) ofs)) by lia. cbn [orb].
  call_ret by reflexivity.
  destruct (file_seek_spec file ofs (vfiles (svm s)) Ho) as [Htell Hd1].
  destruct (file_read_spec file 32 (file_seek file ofs (vfiles (svm s)))) as (fs & Erd & _ & Hd2); [lia|lia|].
  rewrite Htell, Hd1, Hdata in Erd.
  call_ret by (unfold fs_do, vm_do; simpl; unfold sizeof_phdr; rewrite Erd; reflexivity).
  rewrite (proj2 (Z.eqb_eq _ _)) by (unfold sizeof_phdr; rewrite length_slice by lia; lia). cbn [negb].
  change (phdr_of (slice (Z.to_nat ofs) (Z.to_nat 32) data)) with ph.
  set (s1 := set_fs fs s).
  destruct (header_case_ret pds pd data (sum_list_with seg_pages phs + r) s1 file ph) as (s2 & E2 & Hld2 & Hb2 & Hd).
  { by apply supply_fs. } { done. } { done. } { simpl. by rewrite Hd2, Hd1. }
  { intros u Hau Hu. destruct (Hfree ph ltac:(by left) u Hau Hu). split; [done|by apply absent_fs]. }
  assert (∀ ph' v, ph' ∈ [ph] → seg_in ph' v → ∀ ph2, ph2 ∈ phs → ¬ seg_in ph2 v) as Hone'
    by (intros ph' v ->%list_elem_of_singleton Hv ph2 Hin; by eapply Hone).
  destruct (IH s2 (ofs + 32)) as (s3 & E3 & Hld3 & Hb3); [done|done|lia|lia|done|done| |].
  { intros ph2 Hin. eapply seg_free_brought; [exact Hb2| | |].
    - intros ph' v Hin' Hv. by eapply Hone'.
    - intros u Hu. eapply seg_user; [|done|done]. by eapply Forall_forall in Hgood.
    - intros u Hau Hu. destruct (Hfree ph2 ltac:(by right) u Hau Hu). split; [done|by apply absent_fs]. }
  exists s3. split; [|split; [done|]].
  - fold (header_case file ph). call_ret E2. cbn [negb].
    rewrite s32_id by (unfold in_s32; lia). exact E3.
  - eapply brought_cons; [done| |exact Hb3]. by eapply brought_set_fs.
Qed.

(** ** [load] *)

Definition ehdr_at data : Elf32_Ehdr := ehdr_of (take (Z.to_nat sizeof_ehdr) data).
Definition segments data : list Elf32_Phdr :=
  phdrs_at (Z.to_nat (e_phnum (ehdr_at data))) data (e_phoff (ehdr_at data)).

(** An executable that can be loaded: its headers are inside the file, and its
    segments neither overlap nor reach the stack page. *)
Record executable data : Prop := {
  ex_len : len data < 2147483648;
  ex_ehdr : ehdr_ok (take (Z.to_nat sizeof_ehdr) data) = true;
  ex_phoff : 0 ≤ e_phoff (ehdr_at data) ∧
    e_phoff (ehdr_at data) + Z.of_nat (Z.to_nat (e_phnum (ehdr_at data))) * sizeof_phdr ≤ len data;
  ex_phdrs : Forall (phdr_good data) (segments data);
  ex_apart : separate (segments data);
  ex_stack : ∀ ph v, ph ∈ segments data → seg_in ph v → v < stack_base
}.

(** The state in which the headers are read. *)
Lemma load_prefix pds n m s mem rest name prog save f fs :
  new_process pds m n s → mallocs s = Some mem :: rest →
  strtok_r name = Some (prog, save) → filesys_open prog (vfiles (svm s)) = (Some f, fs) →
  executable (file_data f fs) →
  ∃ s1, load name s =
    (ok ← load_headers (Z.to_nat (e_phnum (ehdr_at (file_data f fs)))) f (e_phoff (ehdr_at (file_data f fs)));
     if negb ok then pure None
     else stack ← setup_stack (token_loop INPUT_BUF_SIZE (strtok_r name));
          match stack with
          | None => pure None
          | Some esp => pure (Some (e_entry (ehdr_at (file_data f fs)), esp))
          end) s1 ∧
    supply ({[m]} ∪ pds) m n s1 ∧ no_pages m (svm s1) ∧ (∀ u, absent u (svm s1)) ∧
    file_data f (vfiles (svm s1)) = file_data f fs.
Proof.
  intros Hready Hmem Htok Hopen Hex. set (data := file_data f fs) in *.
  set (sm := s <| mallocs := rest |>).
  destruct (create_pagedir_supply pds m n sm (new_process_mallocs _ _ _ _ _ Hready))
    as (s1 & E1 & Hld1 & Hno & Habs & Efs).
  pose proof (supply_aspace _ _ _ _ Hld1) as [(t & Ht & Hpd) [Hm _] Hw].
  set (s2 := activate (Some m) s1).
  assert (vfiles (svm s2) = vfiles (svm s)) as Efs2 by exact Efs.
  destruct (filesys_open_spec prog (vfiles (svm s)) f fs Hopen) as [Htell _].
  destruct (file_deny_write_spec f fs) as [Htell' Hdata'].
  destruct (file_read_spec f sizeof_ehdr (file_deny_write f fs)) as (fs' & Erd & _ & Hd); [done|lia|].
  rewrite Htell', Htell, Hdata' in Erd.
  assert (slice (Z.to_nat 0) (Z.to_nat sizeof_ehdr) data = take (Z.to_nat sizeof_ehdr) data) as Eb by done.
  set (s3 := set_fs fs' (upd_cur (λ x, x <| executing := Some f |>) (set_fs (file_deny_write f fs) (set_fs fs s2)))).
  exists s3. split; [|split; [|split; [|split]]].
  - unfold load. call_ret by (unfold malloc; rewrite Hmem; reflexivity). fold sm.
    call_ret by reflexivity. call_ret E1.
    call_ret by (unfold process_activate, vm_do, thread_current; rewrite Ht; simpl; rewrite Hpd; reflexivity).
    change (s1 <| svm := _ |>) with s2. rewrite Htok. call_ret by reflexivity. cbn [fst].
    call_ret by (unfold fs_do, vm_do; cbv beta; rewrite Efs2, Hopen; reflexivity).
    call_ret by reflexivity. call_ret by reflexivity.
    call_ret by (unfold fs_do, vm_do; simpl; rewrite Erd; reflexivity).
    change (file_data f fs) with data. rewrite Eb.
    fold (ehdr_at data). rewrite (ex_ehdr _ Hex). cbn [negb].
    pose proof (ex_len _ Hex). pose proof (ex_phoff _ Hex) as [? ?]. unfold sizeof_phdr in *.
    rewrite s32_id by (unfold in_s32; lia). reflexivity.
  - apply supply_fs. eapply (supply_eq _ _ _ (set_fs (file_deny_write f fs) (set_fs fs s2))); [done|done|].
    by apply supply_fs, supply_fs, supply_activate.
  - intros v Hv. change (vmmu (svm s3)) with (pagedir_activate (Some m) (vmmu (svm s1))).
    rewrite (translate_activate _ _ _ _ _ Hw Hm Hv). by apply Hno.
  - intros u. apply absent_fs. change (absent u (svm (set_fs (file_deny_write f fs) (set_fs fs s2)))).
    by apply absent_fs, absent_fs, absent_activate.
  - change (file_data f fs' = data). by rewrite Hd, Hdata'.
Qed.

(** A byte of a segment that is in memory. *)
Lemma segment_byte_at data ph off :
  phdr_good data ph → p_type ph = PT_LOAD → len data < 2147483648 → 0 ≤ off < p_memsz ph →
  seg_in ph (p_vaddr ph + off) ∧ user_addr (p_vaddr ph + off) ∧
  segment_byte data (sg_ofs (segment_of ph)) (sg_read_bytes (segment_of ph))
      (p_vaddr ph + off - sg_upage (segment_of ph))
    = if off <? p_filesz ph then data !! Z.to_nat (p_offset ph + off) else Some 0.
Proof.
  intros Hgood Ht Hlen Hoff. pose proof (segment_args data ph Hgood Ht Hlen) as (_ & _ & _ & Hu0 & Htop & _ & _ & En & _).
  destruct (pg_load _ _ Hgood Ht) as [Hload _].
  destruct (segment_of_ret ph (len data) (pg_words _ _ Hgood) ltac:(lia) Hload) as (_ & _ & _ & Hv & [Hm _] & Eo & Er).
  assert (seg_in ph (p_vaddr ph + off)) as Hin by (unfold seg_in, in_pages; lia).
  split; [done|]. split; [by eapply seg_user|]. unfold segment_byte. rewrite Er.
  destruct (Z.ltb_spec 0 (p_filesz ph)), (Z.ltb_spec off (p_filesz ph)); try lia.
  - rewrite (proj2 (Z.ltb_lt _ _)) by lia. f_equal. lia.
  - by rewrite (proj2 (Z.ltb_ge _ _)) by lia.
  - by rewrite (proj2 (Z.ltb_ge _ _)) by lia.
Qed.

Lemma load_ret pds n m s mem rest name prog save f fs :
  new_process pds m n s → mallocs s = Some mem :: rest →
  strtok_r name = Some (prog, save) → filesys_open prog (vfiles (svm s)) = (Some f, fs) →
  executable (file_data f fs) → (total_pages (segments (file_data f fs)) + 1 ≤ n)%nat →
  len (stack_image (token_loop INPUT_BUF_SIZE (strtok_r name))) ≤ PGSIZE →
  ∃ esp s', load name s = Ret (Val (Some (e_entry (ehdr_at (file_data f fs)), esp)), s') ∧
    aspace ({[m]} ∪ pds) m (svm s') ∧
    main_args m (svm s') esp (token_loop INPUT_BUF_SIZE (strtok_r name)) ∧
    (∀ ph off, ph ∈ segments (file_data f fs) → p_type ph = PT_LOAD → 0 ≤ off < p_memsz ph →
       user_byte m (svm s') (p_vaddr ph + off)
         = if off <? p_filesz ph then file_data f fs !! Z.to_nat (p_offset ph + off) else Some 0) ∧
    ∀ v, user_addr v → v < stack_base → (∀ ph, ph ∈ segments (file_data f fs) → ¬ seg_in ph v) →
      user_byte m (svm s') v = None.
Proof.
  intros Hready Hmem Htok Hopen Hex Hframes Hfit.
  destruct (load_prefix pds n m s mem rest name prog save f fs) as (s1 & Eload & Hld1 & Hun & Habs & Hd1); [done..|].
  set (data := file_data f fs) in *. pose proof Hex as [Hlen _ [Hpo Hpe] Hgood Hsep Hst].
  replace n with (total_pages (segments data) + S (n - 1 - total_pages (segments data)))%nat in Hld1 by lia.
  destruct (load_headers_ret ({[m]} ∪ pds) m data f (Z.to_nat (e_phnum (ehdr_at data)))
    (S (n - 1 - total_pages (segments data))) s1 (e_phoff (ehdr_at data)))
    as (s2 & E2 & Hld2 & [R2 B2 O2 N2]); try done.
  { intros ph Hph u Hau Hu. split; [|apply Habs]. apply Hun. eapply seg_user; [|done|done].
    by eapply Forall_forall in Hgood. }
  fold (segments data) in *.
  assert (∀ ph, ph ∈ segments data → ¬ seg_in ph stack_base) as Hns.
  { intros ph Hph Hin. specialize (Hst ph stack_base Hph Hin). lia. }
  pose proof stack_base_range as (Hb0 & HB & _).
  assert (user_addr stack_base) as Hus by (unfold user_addr, PGSIZE in *; lia).
  destruct (setup_stack_supply ({[m]} ∪ pds) m _ s2 (token_loop INPUT_BUF_SIZE (strtok_r name)) Hld2)
    as (esp & s3 & E3 & _ & _ & Has & Hmain & Hrest); [|by apply N2|done|].
  { by rewrite (proj2 (O2 stack_base Hus Hns)), Hun. }
  exists esp, s3. split; [|split; [done|split; [done|split]]].
  - rewrite Eload. call_ret E2. cbn [negb]. by call_ret E3.
  - intros ph off Hph Ht Hoff. assert (phdr_good data ph) as Hg by (by eapply Forall_forall in Hgood).
    destruct (segment_byte_at data ph off Hg Ht Hlen Hoff) as (Hin & Hu & <-).
    rewrite Hrest by (done || by apply (Hst ph)). by apply B2.
  - intros v Hu Hv Hnone. rewrite Hrest by done. rewrite (proj1 (O2 v Hu Hnone)).
    unfold user_byte. by rewrite Hun.
Qed.
End exec.

(** ** virtual-memory *)

Section paging.
Context `{VaddrLaws, !Pte, !PteLaws, Selectors, KernelMemory}.
Context {dev files : Type} `{BlockDeviceLaws dev, FileCallsLaws files}.
Implicit Types (s : sys dev files) (w : vm dev files) (file v u p : Z) (pds : gset Z).

Lemma loading_set_fs pds pd l s fs : loading pds pd l s → loading pds pd l (set_fs fs s).
Proof. intros [[] Hun ? ? ? ? ? ?]. split; [by split|by destruct l|done..]. Qed.

(** A new thread that is about to load a program: no page directory, no pages, and
    the frames [l] still to be handed out.  [m] is the page it gets as directory. *)
Record ready pds (l : list Z) (m : Z) s : Prop := {
  rd_cur : ∃ t, procs (svm s) !! current (svm s) = Some t ∧ sup_page_table t = [];
  rd_mmu : mmu_wf pds (vmmu (svm s)) ∧ init_page_dir (vmmu (svm s)) ∈ pds ∧
    no_user_pages (init_page_dir (vmmu (svm s))) (vmmu (svm s));
  rd_lock : frame_table_lock (svm s) = false;
  rd_table : frame_table (svm s) ≠ [] ∧ NoDup (frame_table (svm s));
  rd_frame : ∀ f, f ∈ frame_table (svm s) →
    ∃ fr, frames (svm s) !! f = Some fr ∧ frame_ok (vmmu (svm s)) (f_kpage fr);
  rd_unused : unused (svm s) l ∧ NoDup l;
  rd_frames : ∀ f, f ∈ l → ∃ fr page, frames (svm s) !! f = Some fr ∧
    ram (svm s) !! f_kpage fr = Some page ∧ Z.of_nat (length page) = PGSIZE;
  rd_apart : ∀ f g fr gr, f ∈ l → g ∈ l → frames (svm s) !! f = Some fr → frames (svm s) !! g = Some gr →
    f_kpage fr = f_kpage gr → f = g;
  rd_dir : kernel_page m ∧ tables (vmmu (svm s)) !! m = None;
  rd_allocs : ∃ al als, fetches s = al :: als ∧ al_table al = Some m ∧ fresh_allocs (svm s) als ∧
    (Some m ∉ (al_table <$> als)) ∧ (length l ≤ length als)%nat
}.

(** The process has no pages. *)
Definition blank pd w : Prop :=
  (∀ v, user_addr v → pagedir_get_page (Some pd) v (vmmu w) = Ret None) ∧ ∀ u, page_entry w u = None.

Lemma loading_eq pds pd l s s' : svm s' = svm s → fetches s' = fetches s → loading pds pd l s → loading pds pd l s'.
Proof. intros Es Ef []. split; rewrite ?Es, ?Ef; done. Qed.

Lemma create_pagedir_ret pds l m s :
  ready pds l m s →
  ∃ s', create_pagedir s = Ret (Val (Some m), s') ∧ loading ({[m]} ∪ pds) m l s' ∧ blank m (svm s') ∧
    vfiles (svm s') = vfiles (svm s).
Proof.
  intros [(t & Ht & Hsup) (Hw & Hi & Hno) Hlock Htab Hfr [Hun Hnd] Hfrs Hap [Hkm Hm] (al & als & Ef & Em & Hfresh & Hmn & Hlen)].
  destruct (pagedir_create_ret pds (vmmu (svm s)) m Hw Hi Hno Hm) as (dir & Ed & Ec & Hw' & Hno').
  set (mm := (vmmu (svm s)) <| tables := <[m := dir]> (tables (vmmu (svm s))) |>) in *.
  set (w' := upd_thread (λ t, t <| pagedir := Some m |>) ((svm s) <| vmmu := mm |>)).
  exists (s <| fetches := als |> <| svm := w' |>).
  assert (procs w' !! current w' = Some (t <| pagedir := Some m |>)) as Ht'.
  { unfold w'. simpl. by rewrite lookup_alter_eq, Ht. }
  assert (blank m w') as Hblank.
  { split.
    - intros v Hv. eapply no_user_pages_unmapped; [exact Hw'|set_solver|exact Hno'|done].
    - intros u. unfold page_entry, find_upage, find_page, thread_current. rewrite Ht'. simpl. by rewrite Hsup. }
  split; [|split; [|done]].
  - unfold create_pagedir. call_ret by (unfold next_allocs; rewrite Ef; reflexivity).
    unfold vm_do. rewrite Em. change (vmmu (svm _)) with (vmmu (svm s)). rewrite Ec. done.
  - split.
    + split; [by eexists| |done|done|done|done]. split; [set_solver|]. split; [done|].
      intros E. change (m = init_page_dir (vmmu (svm s))) in E. congruence.
    + by destruct l.
    + done.
    + intros f fr v a _ _ Hv. change (vmmu (svm (s <| fetches := als |> <| svm := w' |>))) with (vmmu w').
      by rewrite (proj1 Hblank v Hv).
    + done.
    + done.
    + intros t' p E Hp. simpl in E. change (procs w' !! current w' = Some t') in E. rewrite Ht' in E.
      injection E as <-. simpl in Hp. rewrite Hsup in Hp. by apply elem_of_nil in Hp.
    + split; [|done]. destruct Hfresh as (Hall & Hnt & Hnp). split; [|done].
      rewrite Forall_forall in Hall |- *. intros al' Hin.
      destruct (Hall al' Hin) as (m' & p' & Em' & Ep' & Hk' & Hm' & Hp'). exists m', p'.
      split_and!; [done|done|done| |done]. simpl. rewrite lookup_insert_ne; [done|]. intros ->.
      apply Hmn. rewrite <- Em'. by apply list_elem_of_fmap_2.
Qed.

Lemma loading_activate pds pd l s (q : option Z) : loading pds pd l s → loading pds pd l (activate q s).
Proof.
  intros [[Hcur Hpd Hw Hlock Htab Hfr] Hun Hfrs Hunm Hap Hnd Htb [(Hall & Hnt & Hnp) Hlen]].
  split; [split; [exact Hcur|exact Hpd|by apply mmu_wf_activate|exact Hlock|exact Htab|exact Hfr]|by destruct l|
    exact Hfrs| |exact Hap|exact Hnd|exact Htb|split; [split; [exact Hall|by split]|exact Hlen]].
  intros f fr v a Hf Hfr' Hv. change (vmmu (svm (activate q s))) with (pagedir_activate q (vmmu (svm s))).
  rewrite (translate_activate pds) by (done || apply Hpd). by apply (Hunm f).
Qed.


Lemma ready_mallocs pds l m s ms : ready pds l m s → ready pds l m (s <| mallocs := ms |>).
Proof. intros []. by split. Qed.

#[export] Program Instance paging_loads : LoadsPages dev files := {|
  new_process pds m n s := ∃ l, ready pds l m s ∧ (n ≤ length l)%nat;
  supply pds pd n s := ∃ l, loading pds pd l s ∧ (n ≤ length l)%nat;
  absent u w := page_entry w u = None
|}.
Next Obligation. intros pds m n s ms (l & Hl & Hn). exists l. split; [by apply ready_mallocs|done]. Qed.
Next Obligation.
  intros pds m n s (l & Hl & Hn). destruct (create_pagedir_ret pds l m s Hl) as (s' & E & Hld & [Hv He] & Hfs).
  exists s'. split; [done|]. split; [by exists l|done].
Qed.
Next Obligation. intros pds pd n s (l & Hl & _). by eapply loading_aspace. Qed.
Next Obligation. intros pds pd n s fs (l & Hl & Hn). exists l. split; [by apply loading_set_fs|done]. Qed.
Next Obligation. intros pds pd n s s' Es Ef (l & Hl & Hn). exists l. split; [by eapply loading_eq|done]. Qed.
Next Obligation. intros pds pd n s q (l & Hl & Hn). exists l. split; [by apply loading_activate|done]. Qed.
Next Obligation. intros u s fs. cbv beta. by rewrite (page_entry_same (svm s) (svm (set_fs fs s))). Qed.
Next Obligation. intros u s q. cbv beta. by rewrite (page_entry_same (svm s) (svm (activate q s))). Qed.
Next Obligation.
  intros pds pd s file ofs upage read_bytes zero_bytes writable n r (l & Hl & Hn) Hau Hu0 Hu Hfree Hr Hz En Hao Ho Hend.
  destruct (load_segment_ret pds pd l s file ofs upage read_bytes zero_bytes writable n)
    as (s' & E & Hld & Hlo & Hd); [done|lia|done..|].
  exists s'. split; [done|]. split; [exists (drop n l); rewrite length_drop; split; [done|lia]|].
  split; [by eapply loaded_filled|]. split; [|done]. intros u Hu'. by rewrite (lo_other _ _ _ _ _ _ _ Hlo).
Qed.
Next Obligation.
  intros pds pd n s tokens ([|f l] & Hl & Hn) Hget Hent Hfit; [simpl in Hn; lia|].
  apply (setup_stack_ret pds pd f l s tokens Hl); [|done]. intros u [a ->] Hu.
  assert (a * PGSIZE = stack_base) as ->; [|done].
  destruct stack_base_aligned as [b Hb]. unfold in_pages, PGSIZE in *. lia.
Qed.

(** C12. A new process that loads a good executable, with enough frames for its segments and
    its stack, is entered at [e_entry] with its arguments; in memory are exactly the
    segments: the bytes of the file, then zeros up to [p_memsz], and nothing outside
    the pages of the segments and the stack. *)
Theorem load_correct pds l m s mem rest name prog save f fs :
  ready pds l m s → mallocs s = Some mem :: rest →
  strtok_r name = Some (prog, save) → filesys_open prog (vfiles (svm s)) = (Some f, fs) →
  executable (file_data f fs) → (total_pages (segments (file_data f fs)) < length l)%nat →
  len (stack_image (token_loop INPUT_BUF_SIZE (strtok_r name))) ≤ PGSIZE →
  ∃ esp s', load name s = Ret (Val (Some (e_entry (ehdr_at (file_data f fs)), esp)), s') ∧
    aspace ({[m]} ∪ pds) m (svm s') ∧
    main_args m (svm s') esp (token_loop INPUT_BUF_SIZE (strtok_r name)) ∧
    (∀ ph off, ph ∈ segments (file_data f fs) → p_type ph = PT_LOAD → 0 ≤ off < p_memsz ph →
       user_byte m (svm s') (p_vaddr ph + off)
         = if off <? p_filesz ph then file_data f fs !! Z.to_nat (p_offset ph + off) else Some 0) ∧
    ∀ v, user_addr v → v < stack_base → (∀ ph, ph ∈ segments (file_data f fs) → ¬ seg_in ph v) →
      user_byte m (svm s') v = None.
Proof.
  intros Hready Hmem Htok Hopen Hex Hframes Hfit.
  eapply (load_ret pds (length l) m s mem rest name prog save f fs); try done; [|lia].
  by exists l.
Qed.
End paging.
