(* ===== verification/NoPagingSpec.v ===== *)
(** * What loading a segment does without paging

    A round of the loop of [load_segment] maps a page of the user pool with the bytes
    of the file, or undoes what it did; [load_segment] gives the process the bytes of
    the file and then zeros, as that of virtual-memory does. *)
From S2P Require Import Prelude CInt Ext Mmu PageDir Swap PageTable UserFiles Elf Frame Page VmSpec UserCall Exception UserMem UserMemSpec Load LoadSpec StackSpec LoadExec NoPaging.
Open Scope Z_scope.

Section spec.
Context `{VaddrLaws, !Pte, !PteLaws, KernelMemory}.
Context {dev files : Type} `{BlockDeviceLaws dev, FileCallsLaws files, StockKernel (sys dev files)}.
Implicit Types (s : sys dev files) (w : vm dev files) (file upage kpage v m k : Z) (pds : gset Z).

(** ** A page of the pool *)

(** An allocation that the pools can serve: a page of physical memory that no program
    uses, and a page for a page table. *)
Definition pool_alloc w (al : allocs) : Prop :=
  ∃ m k, al_table al = Some m ∧ al_page al = Some k ∧ kernel_page m ∧ tables (vmmu w) !! m = None ∧
    frame_ok (vmmu w) k ∧ ram w !! k = None ∧ Z.of_nat (length (pool_page k)) = PGSIZE.

(** A process that is being loaded; its pages are pages of the pool. *)
Record pool_loading pds pd s : Prop := {
  pl_aspace : aspace pds pd (svm s);
  pl_user : pd ≠ init_page_dir (vmmu (svm s));
  pl_allocs : Forall (pool_alloc (svm s)) (fetches s);
  pl_tables : NoDup (al_table <$> fetches s);
  pl_pages : NoDup (al_page <$> fetches s);
  pl_mapped : ∀ v a, user_addr v → pagedir_get_page (Some pd) v (vmmu (svm s)) = Ret (Some a) →
    is_Some (ram (svm s) !! pg_round_down a)
}.

(** Other allocations to come, of those that were to come. *)
Lemma pool_loading_fetches pds pd s als : pool_loading pds pd s → als `suffix_of` fetches s →
  pool_loading pds pd (s <| fetches := als |>).
Proof.
  intros [Ha Hu Hal Ht Hp Hm] [l E]. rewrite E in Hal, Ht, Hp.
  rewrite fmap_app in Ht, Hp. apply NoDup_app in Ht as (_ & _ & Ht). apply NoDup_app in Hp as (_ & _ & Hp).
  apply Forall_app in Hal as [_ Hal]. by split.
Qed.

(** The page [upage] is mapped to [kpage], with [page] in it. *)
Definition map_pool kpage (page : list Z) (fs : files) (t' : mmu) (als : list allocs) s : sys dev files :=
  s <| svm := (svm s) <| vfiles := fs |> <| vmmu := t' |> <| ram := <[kpage := page]> (ram (svm s)) |> |>
    <| fetches := als |>.

Definition unmapped pd upage w : bool :=
  match pagedir_get_page (Some pd) upage (vmmu w) with Ret None => true | _ => false end.

Lemma install_page_mapped pds pd s upage kpage (writable : bool) :
  aspace pds pd (svm s) → user_addr upage → unmapped pd upage (svm s) = false →
  install_page upage kpage writable s = Ret (Val false, s).
Proof.
  intros [(t & Ht & Epd) [Hpd _] Hw] Hu. unfold unmapped.
  rewrite (pagedir_get_page_ret pds) by done. destruct (translate _ _) as [a|] eqn:Ea; [|done]. intros _.
  unfold install_page.
  assert (vm_get thread_current s = Ret (Val t, s)) as Et.
  { unfold vm_get, get, thread_current. by rewrite Ht. }
  call_ret Et.
  assert (vm_get (λ w, pagedir_get_page (pagedir t) upage (vmmu w)) s = Ret (Val (Some a), s)) as Eg.
  { unfold vm_get, get. by rewrite Epd, (pagedir_get_page_ret pds), Ea. }
  by call_ret Eg.
Qed.

Lemma install_page_ret pds pd s upage kpage (writable : bool) al als m :
  aspace pds pd (svm s) → pd ≠ init_page_dir (vmmu (svm s)) → user_addr upage → (PGSIZE | upage) →
  frame_ok (vmmu (svm s)) kpage → fetches s = al :: als →
  al_table al = Some m → kernel_page m → tables (vmmu (svm s)) !! m = None →
  unmapped pd upage (svm s) = true →
  ∃ t', install_page upage kpage writable s
      = Ret (Val true, s <| fetches := als |> <| svm := (svm s) <| vmmu := t' |> |>) ∧
    mmu_wf pds t' ∧ same_mmu (vmmu (svm s)) t' ∧
    (∀ v, user_addr v → pagedir_get_page (Some pd) v t' =
       if decide (v / PGSIZE = upage / PGSIZE) then Ret (Some (kpage + v mod PGSIZE))
       else pagedir_get_page (Some pd) v (vmmu (svm s))) ∧
    ∀ x, x ≠ m → tables (vmmu (svm s)) !! x = None → tables t' !! x = None.
Proof.
  intros [(t & Ht & Epd) [Hpd _] Hw] Hi Hu Ha Hk Eals Em Hkm Hm. unfold unmapped.
  rewrite (pagedir_get_page_ret pds) by done. destruct (translate _ _) as [a|] eqn:Ea; [done|]. intros _.
  assert (flag_set PTE_P (pte_of (vmmu (svm s)) pd upage) = false) as Hnp.
  { unfold translate in Ea. by destruct (flag_set PTE_P _). }
  destruct (pagedir_set_page_ret pds (vmmu (svm s)) pd upage kpage writable m) as (t' & Es & _ & Hw' & Hsm & Hpte);
    [done..|].
  exists t'. split; [|split; [done|split; [done|split]]].
  - unfold install_page.
    assert (vm_get thread_current s = Ret (Val t, s)) as Et.
    { unfold vm_get, get, thread_current. by rewrite Ht. }
    call_ret Et.
    assert (vm_get (λ w, pagedir_get_page (pagedir t) upage (vmmu w)) s = Ret (Val None, s)) as Eg.
    { unfold vm_get, get. by rewrite Epd, (pagedir_get_page_ret pds), Ea. }
    call_ret Eg. call_ret by (unfold next_allocs; rewrite Eals; reflexivity).
    unfold vm_do. cbn [svm rset]. change (svm (s <| fetches := als |>)) with (svm s).
    by rewrite Em, Epd, Es.
  - intros v Hv. rewrite !(pagedir_get_page_ret pds) by done. unfold translate.
    rewrite Hpte by (done || by apply user_is_addr).
    destruct (pte_create_user_spec kpage writable) as (_ & Epg & HP & _); [apply Hk|].
    destruct (decide (v / PGSIZE = upage / PGSIZE)).
    + by rewrite decide_True, HP, Epg.
    + by rewrite decide_False by tauto.
  - intros x Hx. by eapply set_page_tables.
Qed.

(** ** One round *)

Lemma map_pool_filled pds pd s upage k page fs t' als content :
  pool_loading pds pd s → user_addr upage → (PGSIZE | upage) → kernel_page k → ram (svm s) !! k = None →
  (∀ v, user_addr v → pagedir_get_page (Some pd) v t' =
     if decide (v / PGSIZE = upage / PGSIZE) then Ret (Some (k + v mod PGSIZE))
     else pagedir_get_page (Some pd) v (vmmu (svm s))) →
  (∀ off, 0 ≤ off < PGSIZE → page !! Z.to_nat off = content off) →
  filled_pages pd upage 1 content s (map_pool k page fs t' als s).
Proof.
  intros Hld Hu Ha Hk Hram Hmap Hc. split; [by destruct s| |].
  - intros v Hv. unfold user_byte. change (vmmu (svm (map_pool k page fs t' als s))) with t'.
    change (ram (svm (map_pool k page fs t' als s))) with (<[k := page]> (ram (svm s))).
    rewrite Hmap by done. destruct (decide (in_pages upage 1 v)) as [Hin|Hin].
    + rewrite decide_True by (by apply page_div). destruct (page_offset_sub k v Hk Hv) as [-> ->].
      rewrite lookup_insert_eq. simpl. rewrite (page_mod upage) by done. apply Hc.
      unfold in_pages, PGSIZE in *. lia.
    + rewrite decide_False by (by rewrite page_div).
      destruct (pagedir_get_page (Some pd) v (vmmu (svm s))) as [[a|]| |] eqn:Ea; [|done..].
      destruct (pl_mapped _ _ _ Hld v a Hv Ea) as [old Eold].
      rewrite lookup_insert_ne; [done|]. congruence.
  - intros v Hv Hin. change (vmmu (svm (map_pool k page fs t' als s))) with t'.
    by rewrite Hmap, decide_False by (done || by rewrite page_div).
Qed.

Lemma map_pool_loading pds pd s upage k page fs t' al1 al2 als :
  pool_loading pds pd s → fetches s = al1 :: al2 :: als → al_page al1 = Some k → kernel_page k →
  mmu_wf pds t' → same_mmu (vmmu (svm s)) t' →
  (∀ v, user_addr v → pagedir_get_page (Some pd) v t' =
     if decide (v / PGSIZE = upage / PGSIZE) then Ret (Some (k + v mod PGSIZE))
     else pagedir_get_page (Some pd) v (vmmu (svm s))) →
  (∀ x, al_table al2 ≠ Some x → tables (vmmu (svm s)) !! x = None → tables t' !! x = None) →
  pool_loading pds pd (map_pool k page fs t' als s).
Proof.
  intros Hld E Ek Hk Hw' Hsm Hmap Htab.
  assert (pool_loading pds pd (s <| fetches := al2 :: als |>)) as [_ _ _ Hnt2 _ _].
  { apply pool_loading_fetches; [done|]. by exists [al1]. }
  assert (pool_loading pds pd (s <| fetches := als |>)) as [[Hc Hpd Hw] Hu Hal Hnt Hnp Hm].
  { apply pool_loading_fetches; [done|]. by exists [al1; al2]. }
  destruct Hld as [_ _ _ _ Hnp2 _]. rewrite E in Hnp2. apply NoDup_cons in Hnp2 as [Hne1 _].
  apply NoDup_cons in Hnt2 as [Hne2 _]. destruct Hsm as (Ei & Er & _). split; simpl in *.
  - by split.
  - by rewrite Ei.
  - rewrite Forall_forall in Hal |- *. intros al Hin.
    destruct (Hal al Hin) as (m & kp & Em & Ekp & Hkm & Hmm & [Hkk Hfr] & Hram & Hlen).
    exists m, kp. split_and!; try done; simpl in *.
    + apply Htab; [|done]. intros E2. apply Hne2. rewrite E2, <- Em. by apply list_elem_of_fmap_2.
    + split; [done|]. by rewrite Er.
    + rewrite lookup_insert_ne; [done|]. intros <-. apply Hne1. right. rewrite Ek, <- Ekp.
      by apply list_elem_of_fmap_2.
  - done.
  - done.
  - intros v a Hv. rewrite Hmap by done. case_decide.
    + intros [= <-]. destruct (page_offset_sub k v Hk Hv) as [-> _]. by rewrite lookup_insert_eq.
    + intros Ea. destruct (decide (pg_round_down a = k)) as [->|]; [by rewrite lookup_insert_eq|].
      rewrite lookup_insert_ne by done. by eapply Hm.
Qed.

(** [palloc_get_page] with a page left. *)
Lemma palloc_get_user_ret s al als k (zero : bool) : fetches s = al :: als → al_page al = Some k →
  palloc_get_user zero s = Ret (Val (Some k), s <| fetches := als |>
    <| svm := (svm s) <| ram ::= <[k := if zero then replicate (Z.to_nat PGSIZE) 0 else pool_page k]> |> |>).
Proof.
  intros E Ek. unfold palloc_get_user. call_ret by (unfold next_allocs; rewrite E; reflexivity).
  rewrite Ek. by call_ret by reflexivity.
Qed.

(** What is left of a round that failed: allocations and a read. *)
Definition undone fs als s : sys dev files :=
  s <| svm := (svm s) <| vfiles := fs |> |> <| fetches := als |>.

Lemma undone_loading pds pd s fs als : pool_loading pds pd s → als `suffix_of` fetches s →
  pool_loading pds pd (undone fs als s).
Proof.
  intros Hld Hals. destruct (pool_loading_fetches pds pd s als Hld Hals) as [[] ? ? ? ? ?].
  split; [by split|done..].
Qed.

(** A page of the pool in use, with [page] in it, and a read. *)
Definition pooled k page fs als s : sys dev files :=
  s <| svm := (svm s) <| vfiles := fs |> <| ram := <[k := page]> (ram (svm s)) |> |> <| fetches := als |>.

Lemma pooled_again k x y fs als s :
  s <| svm := (svm s) <| vfiles := fs |> <| ram := <[k := x]> (<[k := y]> (ram (svm s))) |> |>
    <| fetches := als |> = pooled k x fs als s.
Proof. by rewrite insert_insert_eq. Qed.

Lemma pooled_write k page fs als s ofs b :
  write_frame k ofs b (pooled k page fs als s)
    = Ret (Val tt, pooled k (splice (Z.to_nat ofs) b page) fs als s).
Proof.
  rewrite <- (pooled_again k (splice (Z.to_nat ofs) b page) page). unfold write_frame, vm_do.
  change (ram (svm (pooled k page fs als s))) with (<[k := page]> (ram (svm s))).
  by rewrite lookup_insert_eq.
Qed.

Lemma pooled_free k page fs als s : ram (svm s) !! k = None →
  free_frame_page k (pooled k page fs als s) = Ret (Val tt, undone fs als s).
Proof.
  intros Hk. assert (undone fs als s = s <| svm := (svm s) <| vfiles := fs |>
    <| ram := delete k (<[k := page]> (ram (svm s))) |> |> <| fetches := als |>) as ->; [|done].
  rewrite delete_insert_eq, delete_id by done. by destruct s as [[] ? ? ? ? ? ? ? ? ?].
Qed.

(** The page with the bytes [b] of the file, and the rest of it zeros. *)
Definition zero_filled (b : list Z) (n : Z) : list Z := b ++ replicate (Z.to_nat (PGSIZE - n)) 0.

Lemma zero_filled_page (b page : list Z) n : Z.of_nat (length b) = n → n ≤ PGSIZE →
  Z.of_nat (length page) = PGSIZE →
  splice (Z.to_nat n) (replicate (Z.to_nat (PGSIZE - n)) 0) (splice 0 b page) = zero_filled b n.
Proof.
  intros Hb Hn Hl. unfold zero_filled. replace (Z.to_nat n) with (length b) by lia.
  rewrite (splice_splice_app 0 b).
  - apply splice_full. rewrite length_app, length_replicate. lia.
  - rewrite length_replicate. unfold PGSIZE in *. lia.
Qed.

(** A round up to the test of what [file_read] returned. *)
Lemma load_page_read s al1 al2 als k file upage n (writable : bool) b fs :
  fetches s = al1 :: al2 :: als → al_page al1 = Some k → file_read file n (vfiles (svm s)) = (b, fs) →
  load_page file upage n writable s =
    (if negb (Z.of_nat (length b) =? n) then free_frame_page k;; pure false
     else
       write_frame k n (replicate (Z.to_nat (PGSIZE - n)) 0);;
       ok ← install_page upage k writable;
       if negb ok then free_frame_page k;; pure false else pure true)
    (pooled k (splice 0 b (pool_page k)) fs (al2 :: als) s).
Proof.
  intros E Ek Erd. unfold load_page.
  call_ret by (by apply palloc_get_user_ret with (al := al1)).
  assert (∀ s', s' = s <| fetches := al2 :: als |> <| svm := (svm s) <| ram ::= <[k := pool_page k]> |> |> →
    fs_do (file_read file n) s' = Ret (Val b, pooled k (pool_page k) fs (al2 :: als) s)) as E2.
  { intros s' ->. unfold fs_do, vm_do. change (vfiles (svm (_ <| svm := _ |>))) with (vfiles (svm s)). by rewrite Erd. }
  call_ret by (by apply E2). by call_ret by (apply pooled_write).
Qed.

Lemma pool_load_page_ret pds pd s al1 al2 als file upage n (writable : bool) :
  let fs := vfiles (svm s) in
  let b := slice (Z.to_nat (file_tell file fs)) (Z.to_nat n) (file_data file fs) in
  pool_loading pds pd s → fetches s = al1 :: al2 :: als → user_addr upage → (PGSIZE | upage) →
  0 ≤ n ≤ PGSIZE → 0 ≤ file_tell file fs →
  let ok := bool_decide (Z.of_nat (length b) = n) && unmapped pd upage (svm s) in
  let fs' := snd (file_read file n fs) in
  ∃ s', load_page file upage n writable s = Ret (Val ok, s') ∧
    pool_loading pds pd s' ∧ vfiles (svm s') = fs' ∧
    if ok then fetches s' = als ∧ filled_pages pd upage 1 (λ off, zero_filled b n !! Z.to_nat off) s s'
    else s' = undone fs' (al2 :: als) s.
Proof.
  intros fs b Hld E Hu Ha Hn Hpos ok fs'.
  pose proof (pl_allocs _ _ _ Hld) as Hal. rewrite E in Hal.
  apply Forall_cons in Hal as [(m1 & k & _ & Ek & _ & _ & Hk & Hram & Hlen) Hal].
  apply Forall_cons in Hal as [(m & k2 & Em & _ & Hkm & Hm & _) _].
  destruct (file_read_spec file n fs) as (fs2 & Erd & _ & Hdata); [lia|done|]. fold b in Erd.
  assert (fs' = fs2) as Efs by (unfold fs'; by rewrite Erd). clearbody fs'. subst fs2.
  rewrite (load_page_read s al1 al2 als k _ _ _ _ b fs') by done.
  assert (pool_loading pds pd (undone fs' (al2 :: als) s)) as Hundo.
  { apply undone_loading; [done|]. rewrite E. by exists [al1]. }
  unfold ok. destruct (Z.eqb_spec (Z.of_nat (length b)) n) as [Hb|Hb].
  2: { exists (undone fs' (al2 :: als) s). rewrite bool_decide_eq_false_2 by done. cbn [negb andb].
    split; [|done]. by call_ret by (by apply pooled_free). }
  rewrite bool_decide_eq_true_2 by done. cbn [negb andb].
  call_ret by (apply pooled_write). rewrite zero_filled_page by (done || lia).
  set (s4 := pooled k (zero_filled b n) fs' (al2 :: als) s).
  assert (aspace pds pd (svm s4)) as Ha4 by (destruct (pl_aspace _ _ _ Hld); by split).
  destruct (unmapped pd upage (svm s)) eqn:Hun.
  - destruct (install_page_ret pds pd s4 upage k writable al2 als m)
      as (t' & E5 & Hw' & Hsm & Hmap & Htab); try done; [by apply Hld|].
    exists (map_pool k (zero_filled b n) fs' t' als s). split; [by call_ret E5|]. split; [|split; [done|split; [done|]]].
    + eapply map_pool_loading; try done; [apply Hk|]. intros x Hx. apply Htab. congruence.
    + eapply map_pool_filled; try done. apply Hk.
  - exists (undone fs' (al2 :: als) s). split; [|done].
    call_ret by (by eapply install_page_mapped). cbn [negb]. by call_ret by (by apply pooled_free).
Qed.

(** ** The loop *)

Lemma filled_trans pd upage n content s s1 s2 :
  filled_pages pd upage 1 content s s1 →
  filled_pages pd (upage + PGSIZE) n (λ off, content (off + PGSIZE)) s1 s2 →
  filled_pages pd upage (S n) content s s2.
Proof.
  intros [E1 B1 M1] [E2 B2 M2]. split.
  - rewrite E2 at 1. by rewrite E1.
  - intros v Hv. rewrite B2 by done. destruct (decide (in_pages (upage + PGSIZE) n v)) as [Hin|Hin].
    + rewrite decide_True by (rewrite in_pages_S; by right). f_equal. lia.
    + rewrite B1 by done. destruct (decide (in_pages upage 1 v)) as [Hin1|Hin1].
      * by rewrite decide_True by (rewrite in_pages_S; by left).
      * rewrite decide_False; [done|]. rewrite in_pages_S. tauto.
  - intros v Hv Hin. rewrite in_pages_S in Hin. rewrite M2 by tauto. apply M1; tauto.
Qed.

Lemma filled_ext pd upage n content content' s s' :
  (∀ off, 0 ≤ off < Z.of_nat n * PGSIZE → content off = content' off) →
  filled_pages pd upage n content s s' → filled_pages pd upage n content' s s'.
Proof.
  intros Hc [E B M]. split; [done| |done]. intros v Hv. rewrite B by done.
  case_decide as Hin; [|done]. apply Hc. unfold in_pages in Hin. lia.
Qed.

(** No page of the segment is mapped. *)
Definition no_page_mapped pd upage (n : nat) w : Prop :=
  ∀ u, (PGSIZE | u) → in_pages upage n u → pagedir_get_page (Some pd) u (vmmu w) = Ret None.

#[local] Existing Instances stock_faults pool_pages.

(** A round that succeeds. *)
Lemma pool_first_page pds pd s al1 al2 als file upage read (writable : bool) :
  let fs := vfiles (svm s) in
  let n := if read <? PGSIZE then read else PGSIZE in
  pool_loading pds pd s → fetches s = al1 :: al2 :: als → user_addr upage → (PGSIZE | upage) →
  pagedir_get_page (Some pd) upage (vmmu (svm s)) = Ret None → 0 ≤ read → 0 ≤ file_tell file fs →
  file_tell file fs + n ≤ Z.of_nat (length (file_data file fs)) →
  ∃ s', load_page file upage n writable s = Ret (Val true, s') ∧ pool_loading pds pd s' ∧ fetches s' = als ∧
    filled_pages pd upage 1 (segment_byte (file_data file fs) (file_tell file fs) read) s s' ∧
    file_tell file (vfiles (svm s')) = file_tell file fs + n ∧
    ∀ g, file_data g (vfiles (svm s')) = file_data g fs.
Proof.
  intros fs n Hld E Hu Ha Hget Hr Hp Hlen.
  assert (0 ≤ n ≤ PGSIZE) as Hn by (unfold n; case_bool; unfold PGSIZE in *; lia).
  destruct (file_read_spec file n fs) as (fs' & Erd & Htell & Hdata); [lia|done|].
  destruct (pool_load_page_ret pds pd s al1 al2 als file upage n writable) as (s' & Es & Hld' & Efs & Hok); [done..|].
  fold fs in Es, Efs, Hok. rewrite Erd in Efs. cbn [snd] in Efs.
  assert (length (slice (Z.to_nat (file_tell file fs)) (Z.to_nat n) (file_data file fs)) = Z.to_nat n) as Els
    by (apply length_slice; lia).
  assert (unmapped pd upage (svm s) = true) as Hun by (unfold unmapped; by rewrite Hget).
  rewrite Els, Hun, bool_decide_eq_true_2 in Es, Hok by lia. destruct Hok as [Eals Hone].
  exists s'. split; [done|]. split; [done|]. split; [done|]. rewrite Efs, Htell, Els, Z2Nat.id by lia.
  split; [|done]. eapply filled_ext; [|exact Hone]. intros off Ho.
  apply segment_byte_first; fold n; unfold PGSIZE in *; lia.
Qed.

Lemma pool_load_pages_ret pds pd (writable : bool) file data n s fuel upage read zero :
  pool_loading pds pd s → (2 * n ≤ length (fetches s))%nat → (n < fuel)%nat →
  (PGSIZE | upage) → 0 ≤ upage → upage + Z.of_nat n * PGSIZE ≤ PHYS_BASE →
  no_page_mapped pd upage n (svm s) →
  0 ≤ read → 0 ≤ zero → read + zero = Z.of_nat n * PGSIZE →
  file_data file (vfiles (svm s)) = data → 0 ≤ file_tell file (vfiles (svm s)) →
  file_tell file (vfiles (svm s)) + read ≤ Z.of_nat (length data) →
  ∃ s', load_pages fuel file upage read zero writable s = Ret (Val true, s') ∧
    pool_loading pds pd s' ∧ fetches s' = drop (2 * n) (fetches s) ∧
    filled_pages pd upage n (segment_byte data (file_tell file (vfiles (svm s))) read) s s' ∧
    ∀ g, file_data g (vfiles (svm s')) = file_data g (vfiles (svm s)).
Proof.
  destruct PHYS_BASE_spec as [[HB0 HB] _].
  revert s fuel upage read zero.
  induction n as [|n IH]; intros s fuel upage read zero Hld Hl Hf Ha Hup Hle Hfree Hr Hz Erz Ed Hp Hlen;
    (destruct fuel as [|fuel]; [lia|]); cbn [load_pages].
  - rewrite (proj2 (Z.ltb_ge 0 read)), (proj2 (Z.ltb_ge 0 zero)) by lia. cbn [orb].
    exists s. split; [done|]. split; [done|]. split; [done|]. split; [|done]. split; [by destruct s| |done].
    intros v Hv. rewrite decide_False; [done|]. unfold in_pages. lia.
  - set (m := if read <? PGSIZE then read else PGSIZE).
    assert (0 ≤ m ≤ PGSIZE ∧ m ≤ read ∧ (m = read ∨ m = PGSIZE)) as (Hm & Hmr & Hmeq)
      by (unfold m; case_bool; unfold PGSIZE in *; lia).
    assert ((0 <? read) || (0 <? zero) = true) as ->.
    { rewrite orb_true_iff, !Z.ltb_lt. unfold PGSIZE in *. lia. }
    destruct (fetches s) as [|al1 [|al2 als]] eqn:Eals; [simpl in Hl; lia..|].
    destruct (pool_first_page pds pd s al1 al2 als file upage read writable)
      as (s1 & E1 & Hld1 & Eals1 & Hone & Htell & Hdata); try done.
    1: unfold user_addr, PGSIZE in *; lia.
    1: apply Hfree; [done|]; unfold in_pages, PGSIZE; lia.
    1: fold m; rewrite Ed; lia.
    fold m in E1, Htell. unfold load_one_page, pool_pages at 1. call_ret E1. cbn [negb].
    rewrite (u32_id (upage + _)), (u32_id (read - m)), (u32_id (zero - _))
      by (unfold in_u32, PGSIZE in *; lia).
    destruct (IH s1 fuel (upage + PGSIZE) (read - m) (zero - (PGSIZE - m)))
      as (s2 & E2 & Hld2 & Eals2 & Hrest & Hd2); rewrite ?Htell, ?Hdata; try done.
    all: try (rewrite ?Eals1; simpl in Hl; unfold PGSIZE in *; lia).
    + apply Z.divide_add_r; [done|by exists 1].
    + intros u Hau Hin. assert (¬ in_pages upage 1 u) as Hn1 by (by eapply in_pages_next).
      rewrite (fp_map _ _ _ _ _ _ Hone); [|unfold in_pages, user_addr, PGSIZE in *; lia|done].
      apply Hfree; [done|]. apply in_pages_S. by right.
    + exists s2. split; [exact E2|]. split; [done|]. split.
      { rewrite Eals2, Eals1. by replace (2 * S n)%nat with (S (S (2 * n))) by lia. }
      split; [|intros g; by rewrite Hd2].
      rewrite Ed in Hone. eapply filled_trans; [exact Hone|]. eapply filled_ext; [|exact Hrest].
      intros off Ho. rewrite Htell. apply segment_byte_next; lia.
Qed.

(** C34. A round of the loop of [load_segment] in user-programs is all or nothing.  It succeeds if
    the file has the bytes asked for and the page was not mapped: then the page has
    these bytes and zeros after them.  Otherwise nothing stays of it but a changed
    position in the file: the page of the pool is given back, and no memory and no
    mapping changes. *)
Theorem load_page_all_or_nothing pds pd s al1 al2 als file upage n (writable : bool) :
  let fs := vfiles (svm s) in
  let b := slice (Z.to_nat (file_tell file fs)) (Z.to_nat n) (file_data file fs) in
  pool_loading pds pd s → fetches s = al1 :: al2 :: als → user_addr upage → (PGSIZE | upage) →
  0 ≤ n ≤ PGSIZE → 0 ≤ file_tell file fs →
  let ok := bool_decide (Z.of_nat (length b) = n) && unmapped pd upage (svm s) in
  ∃ s', load_page file upage n writable s = Ret (Val ok, s') ∧ pool_loading pds pd s' ∧
    if ok then filled_pages pd upage 1 (λ off, zero_filled b n !! Z.to_nat off) s s'
    else ram (svm s') = ram (svm s) ∧ vmmu (svm s') = vmmu (svm s).
Proof.
  intros fs b Hld E Hu Ha Hn Hpos ok.
  destruct (pool_load_page_ret pds pd s al1 al2 als file upage n writable) as (s' & Es & Hld' & _ & Hok); [done..|].
  fold fs b ok in Es, Hok. exists s'. split; [done|]. split; [done|].
  destruct ok; [by destruct Hok|]. by rewrite Hok.
Qed.

Lemma pool_load_segment_ret pds pd s file ofs upage read_bytes zero_bytes (writable : bool) n :
  pool_loading pds pd s → (2 * n ≤ length (fetches s))%nat →
  (PGSIZE | upage) → 0 ≤ upage → upage + Z.of_nat n * PGSIZE ≤ PHYS_BASE →
  no_page_mapped pd upage n (svm s) →
  0 ≤ read_bytes → 0 ≤ zero_bytes → read_bytes + zero_bytes = Z.of_nat n * PGSIZE →
  (PGSIZE | ofs) → 0 ≤ ofs → ofs + read_bytes ≤ Z.of_nat (length (file_data file (vfiles (svm s)))) →
  ∃ s', NoPaging.load_segment file ofs upage read_bytes zero_bytes writable s = Ret (Val true, s') ∧
    pool_loading pds pd s' ∧ fetches s' = drop (2 * n) (fetches s) ∧
    filled_pages pd upage n (segment_byte (file_data file (vfiles (svm s))) ofs read_bytes) s s' ∧
    ∀ g, file_data g (vfiles (svm s')) = file_data g (vfiles (svm s)).
Proof.
  intros Hld Hl Ha Hup Hle Hfree Hr Hz Erz Hao Ho Hlen. destruct PHYS_BASE_spec as [[HB0 HB] _].
  assert (u32 (read_bytes + zero_bytes) = Z.of_nat n * PGSIZE) as Eu.
  { rewrite Erz. apply u32_id. unfold in_u32, PGSIZE in *. lia. }
  unfold NoPaging.load_segment, Load.load_segment.
  rewrite segment_asserts_ret by (rewrite ?Eu; done || by apply Z.divide_factor_r).
  call_ret by reflexivity. rewrite Eu, Z.div_mul by done.
  destruct (file_seek_spec file ofs (vfiles (svm s)) Ho) as [Htell Hdata].
  set (s1 := s <| svm := (svm s) <| vfiles := file_seek file ofs (vfiles (svm s)) |> |>).
  call_ret by reflexivity. fold s1.
  destruct (pool_load_pages_ret pds pd writable file (file_data file (vfiles (svm s))) n s1
    (S (Z.to_nat (Z.of_nat n))) upage read_bytes zero_bytes) as (s' & E & Hld' & Ef & [R B M] & Hd'); try done.
  - destruct Hld as [[] ? ? ? ? ?]. by split.
  - lia.
  - simpl. lia.
  - simpl. rewrite Htell. lia.
  - exists s'. split; [exact E|]. split; [done|]. split; [exact Ef|]. split.
    + change (vfiles (svm s1)) with (file_seek file ofs (vfiles (svm s))) in B. rewrite Htell in B.
      split; [|done|done]. rewrite R. unfold s1. by destruct s.
    + intros g. rewrite Hd'. apply Hdata.
Qed.

(** ** The stack *)

(** The page of the stack, in use and full of zeros. *)
Definition zero_page : list Z := replicate (Z.to_nat PGSIZE) 0.

Lemma map_stack_page_ret pds pd s al1 al2 als :
  pool_loading pds pd s → fetches s = al1 :: al2 :: als → unmapped pd stack_base (svm s) = true →
  ∃ k t', NoPaging.map_stack_page s = Ret (Val true, map_pool k zero_page (vfiles (svm s)) t' als s) ∧
    kernel_page k ∧ ram (svm s) !! k = None ∧ mmu_wf pds t' ∧
    (∀ v, user_addr v → pagedir_get_page (Some pd) v t' =
       if decide (v / PGSIZE = stack_base / PGSIZE) then Ret (Some (k + v mod PGSIZE))
       else pagedir_get_page (Some pd) v (vmmu (svm s))).
Proof.
  intros Hld E Hun. pose proof stack_base_range as (? & ? & ?).
  pose proof (pl_allocs _ _ _ Hld) as Hal. rewrite E in Hal.
  apply Forall_cons in Hal as [(m1 & k & _ & Ek & _ & _ & Hk & Hram & Hlen) Hal].
  apply Forall_cons in Hal as [(m & k2 & Em & _ & Hkm & Hm & _) _].
  set (s1 := s <| fetches := al2 :: als |> <| svm := (svm s) <| ram ::= <[k := zero_page]> |> |>).
  assert (palloc_get_user true s = Ret (Val (Some k), s1)) as E1 by (by apply palloc_get_user_ret with al1).
  destruct (install_page_ret pds pd s1 stack_base k true al2 als m)
    as (t' & E2 & Hw' & _ & Hmap & _); try done.
  { destruct (pl_aspace _ _ _ Hld). by split. }
  { apply Hld. }
  { unfold user_addr, PGSIZE in *. lia. }
  { apply stack_base_aligned. }
  exists k, t'. split; [|by destruct Hk]. unfold NoPaging.map_stack_page. call_ret E1. fold stack_base.
  call_ret E2. by destruct s as [[] ? ? ? ? ? ? ? ? ?].
Qed.

Lemma pool_setup_stack_ret pds pd s al1 al2 als tokens :
  pool_loading pds pd s → fetches s = al1 :: al2 :: als → unmapped pd stack_base (svm s) = true →
  len (stack_image tokens) ≤ PGSIZE →
  ∃ esp s', NoPaging.setup_stack tokens s = Ret (Val (Some esp), s') ∧
    (4 | esp) ∧ stack_base ≤ esp < PHYS_BASE ∧ aspace pds pd (svm s') ∧ main_args pd (svm s') esp tokens ∧
    ∀ v, user_addr v → v < stack_base → user_byte pd (svm s') v = user_byte pd (svm s) v.
Proof.
  intros Hld E Hun Hfit. pose proof stack_base_range as (? & ? & ?).
  destruct (map_stack_page_ret pds pd s al1 al2 als Hld E Hun) as (k & t' & E1 & Hk & Hram & Hw & Hmap).
  set (s1 := map_pool k zero_page (vfiles (svm s)) t' als s) in *.
  assert (pushed pds pd k [] s1) as Hp.
  { exists zero_page. split; [|split; [unfold PGSIZE; simpl; lia|]].
    - split; [by destruct (pl_aspace _ _ _ Hld); split| |done|].
      + intros v Hv. change (vmmu (svm s1)) with t'. rewrite Hmap by (by apply stack_user).
        rewrite decide_True; [done|]. by apply page_div; [apply stack_base_aligned|].
      + split; [apply lookup_insert_eq|]. unfold zero_page. by rewrite length_replicate.
    - apply drop_ge. unfold zero_page. by rewrite length_replicate. }
  assert (get_stack_page s = Ret (Val true, s1)) as Estack by exact E1.
  destruct (setup_stack_pushed pds pd k s s1 tokens Estack Hp Hfit)
    as (esp & s' & E2 & Hal & Hesp & _ & Has & Hargs & Ho).
  exists esp, s'. do 5 (split; [done|]). eapply below_stack_same; [exact Ho| | |].
  - intros k' Hk'. by apply lookup_insert_ne, not_eq_sym.
  - intros v Hv Hnot. change (vmmu (svm s1)) with t'. rewrite Hmap, decide_False by
      (done || rewrite page_div by apply stack_base_aligned; done). done.
  - intros v a Hv Ha Heq. destruct (pl_mapped _ _ _ Hld v a Hv Ha) as [x Hx]. congruence.
Qed.

(** ** [load] *)

(** A new thread that is about to load a program; [m] is the page it gets as directory,
    and [n] pages are left in the pools. *)
Record pool_ready pds m (n : nat) s : Prop := {
  pr_cur : is_Some (procs (svm s) !! current (svm s));
  pr_mmu : mmu_wf pds (vmmu (svm s)) ∧ init_page_dir (vmmu (svm s)) ∈ pds ∧
    no_user_pages (init_page_dir (vmmu (svm s))) (vmmu (svm s));
  pr_dir : kernel_page m ∧ tables (vmmu (svm s)) !! m = None;
  pr_allocs : ∃ al als, fetches s = al :: als ∧ al_table al = Some m ∧ Forall (pool_alloc (svm s)) als ∧
    NoDup (al_table <$> als) ∧ NoDup (al_page <$> als) ∧ Some m ∉ (al_table <$> als) ∧ (2 * n ≤ length als)%nat
}.

Lemma pool_create_pagedir_ret pds m n s : pool_ready pds m n s →
  ∃ s', create_pagedir s = Ret (Val (Some m), s') ∧ pool_loading ({[m]} ∪ pds) m s' ∧
    (2 * n ≤ length (fetches s'))%nat ∧ no_pages m (svm s') ∧ vfiles (svm s') = vfiles (svm s).
Proof.
  intros [[t Ht] (Hw & Hi & Hno) [Hkm Hm] (al & als & Ef & Em & Hall & Hnt & Hnp & Hmn & Hlen)].
  destruct (pagedir_create_ret pds (vmmu (svm s)) m Hw Hi Hno Hm) as (dir & Ed & Ec & Hw' & Hno').
  set (mm := (vmmu (svm s)) <| tables := <[m := dir]> (tables (vmmu (svm s))) |>) in *.
  set (w' := upd_thread (λ t, t <| pagedir := Some m |>) ((svm s) <| vmmu := mm |>)).
  assert (procs w' !! current w' = Some (t <| pagedir := Some m |>)) as Ht'.
  { unfold w'. simpl. by rewrite lookup_alter_eq, Ht. }
  assert (no_pages m w') as Hblank.
  { intros v Hv. eapply no_user_pages_unmapped; [exact Hw'|set_solver|exact Hno'|done]. }
  set (s' := s <| fetches := als |> <| svm := w' |>).
  exists s'. split; [|split; [split|split; [done|by split]]].
  - unfold create_pagedir. call_ret by (unfold next_allocs; rewrite Ef; reflexivity).
    unfold vm_do. rewrite Em. change (vmmu (svm _)) with (vmmu (svm s)). by rewrite Ec.
  - split; [by eexists| |done]. split; [set_solver|done].
  - intros E. change (m = init_page_dir (vmmu (svm s))) in E. congruence.
  - change (fetches s') with als. rewrite Forall_forall in Hall |- *. intros al' Hin.
    destruct (Hall al' Hin) as (m' & k' & Em' & Ek' & Hk' & Hm' & Hrest). exists m', k'.
    split_and!; try done; try apply Hrest. simpl. rewrite lookup_insert_ne; [done|]. intros ->.
    apply Hmn. rewrite <- Em'. by apply list_elem_of_fmap_2.
  - done.
  - done.
  - intros v a Hv E. change (vmmu (svm s')) with (vmmu w') in E. by rewrite Hblank in E.
Qed.

Lemma pool_loading_eq pds pd s s' : svm s' = svm s → fetches s' = fetches s →
  pool_loading pds pd s → pool_loading pds pd s'.
Proof. intros Es Ef []. split; rewrite ?Es, ?Ef; done. Qed.

Lemma pool_loading_set_fs pds pd s fs : pool_loading pds pd s → pool_loading pds pd (set_fs fs s).
Proof. intros [[] ? ? ? ? ?]. by split; [split|..]. Qed.

Lemma pool_loading_activate pds pd s (q : option Z) : pool_loading pds pd s → pool_loading pds pd (activate q s).
Proof.
  intros [[Hc [Hpd Hk] Hw] Hu Hal Hnt Hnp Hm].
  split; [split; [exact Hc|by split|by apply mmu_wf_activate]|exact Hu|exact Hal|exact Hnt|exact Hnp|].
  intros v a Hv. change (vmmu (svm (activate q s))) with (pagedir_activate q (vmmu (svm s))).
  rewrite (translate_activate pds) by done. by apply Hm.
Qed.

#[export] Program Instance pool_loads : LoadsPages dev files := {|
  new_process := pool_ready;
  supply pds pd n s := pool_loading pds pd s ∧ (2 * n ≤ length (fetches s))%nat;
  absent _ _ := True
|}.
Next Obligation. intros pds m n s l []. by split. Qed.
Next Obligation.
  intros pds m n s Hr. destruct (pool_create_pagedir_ret pds m n s Hr) as (s' & E & Hld & Hlen & Hno & Hfs).
  by exists s'.
Qed.
Next Obligation. intros pds pd n s [[] _]. done. Qed.
Next Obligation. intros pds pd n s fs [Hl Hn]. split; [by apply pool_loading_set_fs|done]. Qed.
Next Obligation. intros pds pd n s s' Es Ef [Hl Hn]. split; [by eapply pool_loading_eq|by rewrite Ef]. Qed.
Next Obligation. intros pds pd n s q [Hl Hn]. split; [by apply pool_loading_activate|done]. Qed.
Next Obligation. done. Qed.
Next Obligation. done. Qed.
Next Obligation.
  intros pds pd s file ofs upage read_bytes zero_bytes writable n r [Hl Hn] Hau Hu0 Hu Hfree Hr Hz En Hao Ho Hend.
  destruct (pool_load_segment_ret pds pd s file ofs upage read_bytes zero_bytes writable n)
    as (s' & E & Hld & Ef & Hfill & Hd); try done; [lia|by intros u Hau' Hu'; apply Hfree|].
  exists s'. split; [exact E|]. split; [|done]. split; [done|]. rewrite Ef, length_drop. lia.
Qed.
Next Obligation.
  intros pds pd n s tokens [Hl Hn] Hget _ Hfit.
  destruct (fetches s) as [|al1 [|al2 als]] eqn:Eals; [simpl in Hn; lia..|].
  apply (pool_setup_stack_ret pds pd s al1 al2 als tokens Hl Eals); [|done]. unfold unmapped. by rewrite Hget.
Qed.

(** C13. [load] of user-programs does what that of virtual-memory does, out of the user pool: a
    new process that loads a good executable while there are pages left is entered at
    [e_entry] with its arguments; in memory are exactly the segments: the bytes of the
    file, then zeros up to [p_memsz], and nothing outside the pages of the segments and
    the stack. *)
Theorem pool_load_correct pds m n s mem rest name prog save f fs :
  pool_ready pds m n s → mallocs s = Some mem :: rest →
  strtok_r name = Some (prog, save) → filesys_open prog (vfiles (svm s)) = (Some f, fs) →
  executable (file_data f fs) → (total_pages (segments (file_data f fs)) + 1 ≤ n)%nat →
  len (stack_image (token_loop INPUT_BUF_SIZE (strtok_r name))) ≤ PGSIZE →
  ∃ esp s', NoPaging.load name s = Ret (Val (Some (e_entry (ehdr_at (file_data f fs)), esp)), s') ∧
    aspace ({[m]} ∪ pds) m (svm s') ∧
    main_args m (svm s') esp (token_loop INPUT_BUF_SIZE (strtok_r name)) ∧
    (∀ ph off, ph ∈ segments (file_data f fs) → p_type ph = PT_LOAD → 0 ≤ off < p_memsz ph →
       user_byte m (svm s') (p_vaddr ph + off)
         = if off <? p_filesz ph then file_data f fs !! Z.to_nat (p_offset ph + off) else Some 0) ∧
    ∀ v, user_addr v → v < stack_base → (∀ ph, ph ∈ segments (file_data f fs) → ¬ seg_in ph v) →
      user_byte m (svm s') v = None.
Proof. exact (load_ret pds n m s mem rest name prog save f fs). Qed.
End spec.
