(* ===== verification/LoadSample.v ===== *)
(** * A process on which the theorems about loading apply

    Two frames are free, and file 5 holds the program. *)
From stdpp Require Import sorting.
From S2P Require Import Prelude CInt Ext Mmu PageDir Swap PageTable UserFiles Elf Frame VmSpec VmSample UserCall Exception UserMem UserMemSpec Load LoadSpec StackSpec LoadExec.
Open Scope Z_scope.

#[local] Existing Instances Ia32.vaddr Ia32.vaddr_laws Ia32.pte Ia32.pte_laws.
#[local] Existing Instances Ramdisk.ops Ramdisk.laws.

(** Files with a position; a name is the list of one file number. *)
Module PosFiles.
Record t := Files { data : gmap Z (list Z); pos : gmap Z Z }.

Definition bytes (f : Z) (fs : t) : list Z := default [] (data fs !! f).
Definition tell (f : Z) (fs : t) : Z := default 0 (pos fs !! f).
Definition seek (f p : Z) (fs : t) : t := Files (data fs) (<[f := p]> (pos fs)).
Definition set (f : Z) (b : list Z) (fs : t) : t := Files (<[f := b]> (data fs)) (pos fs).

#[export] Instance ops : FileOps t := {|
  file_length f fs := Z.of_nat (length (bytes f fs));
  file_read_at f n off fs := (slice (Z.to_nat off) (Z.to_nat n) (bytes f fs), fs);
  file_write_at f b off fs := (Z.of_nat (length b), set f (splice (Z.to_nat off) b (bytes f fs)) fs)
|}.

#[export] Instance laws : FileOpsLaws t.
Proof.
  refine {| file_data := bytes |}.
  - done.
  - intros f n off fs _ _. by exists fs.
Defined.

#[export] Instance calls : FileCalls t := {|
  filesys_create _ _ fs := (false, fs);
  filesys_remove _ fs := (false, fs);
  filesys_open name fs :=
    match name with
    | [f] => if data fs !! f is Some _ then (Some f, seek f 0 fs) else (None, fs)
    | _ => (None, fs)
    end;
  file_read f n fs :=
    let b := slice (Z.to_nat (tell f fs)) (Z.to_nat n) (bytes f fs) in
    (b, seek f (tell f fs + Z.of_nat (length b)) fs);
  file_write f b fs := (Z.of_nat (length b), set f (splice (Z.to_nat (tell f fs)) b (bytes f fs)) fs);
  file_seek := seek;
  file_tell := tell;
  file_reopen f fs := (Some f, fs);
  file_close _ fs := fs;
  file_deny_write _ fs := fs
|}.

Lemma tell_seek f p fs : tell f (seek f p fs) = p.
Proof. unfold tell, seek. simpl. by rewrite lookup_insert_eq. Qed.

#[export] Instance calls_laws : FileCallsLaws t.
Proof.
  split.
  - intros f p fs _. by split; [apply tell_seek|].
  - intros f n fs _ _. eexists. split; [reflexivity|]. by split; [apply tell_seek|].
  - intros name fs f fs' E. unfold filesys_open, calls in E. destruct name as [|x [|]]; try done.
    destruct (data fs !! x); [|done]. injection E as -> <-. by split; [apply tell_seek|].
  - done.
Qed.
End PosFiles.
#[local] Existing Instances PosFiles.ops PosFiles.laws PosFiles.calls PosFiles.calls_laws.

#[local] Instance selectors : Selectors := {| SEL_KCSEG := 8; SEL_UCSEG := 27 |}.
#[local] Instance kernel_memory : KernelMemory := {| kernel_byte _ := 0; kernel_esp := 3221229568 |}.

Definition program : list Z := replicate 100 3 ++ [1; 2; 3; 4; 5].

Definition load_vm : vm Ramdisk.disk PosFiles.t :=
  MkVm {[ code_frame := page_of 7; stack_frame := page_of 9 ]} sample_mmu boot_swap [1; 2]
    {[ 1 := PageTable.MkFrame code_frame None 0; 2 := PageTable.MkFrame stack_frame None 0 ]} false 1 false ∅
    {[ 1 := MkThread (Some user_pd) [] ]} 1 (PosFiles.Files {[ 5 := program ]} ∅).

Definition load_sys : sys Ramdisk.disk PosFiles.t :=
  MkSys load_vm {[ 1 := MkUproc [112] [] false None true None [] ]} ∅ ∅ [] []
    [Some 90] [MkAllocs (Some table_page) None (Some 10); MkAllocs (Some table_page2) None (Some 11)] 0 ∅.

Lemma load_vm_frames f fr : frames load_vm !! f = Some fr →
  f = 1 ∧ fr = PageTable.MkFrame code_frame None 0 ∨ f = 2 ∧ fr = PageTable.MkFrame stack_frame None 0.
Proof.
  change (frames load_vm) with (<[1 := PageTable.MkFrame code_frame None 0]>
    ({[ 2 := PageTable.MkFrame stack_frame None 0 ]} : gmap Z frame)).
  rewrite lookup_insert_Some, lookup_singleton_Some. naive_solver.
Qed.

Lemma load_vm_unmapped v : user_addr v → pagedir_get_page (Some user_pd) v sample_mmu = Ret None.
Proof.
  intros Hv. rewrite (pagedir_get_page_ret sample_pds) by (exact sample_mmu_wf || (apply sample_in; by right) || done).
  unfold pte_of. unfold word. cbn [fst snd]. rewrite (sample_pd user_pd) by (apply sample_in; by right). ret.
  rewrite lookup_replicate_2 by (by apply pd_no_lt, user_is_addr). done.
Qed.

Lemma load_sys_loading : loading sample_pds user_pd [1; 2] load_sys.
Proof.
  split.
  - split.
    + eexists. split; reflexivity.
    + split; [apply sample_in; by right|]. split; [exact user_pd_page|discriminate].
    + exact sample_mmu_wf.
    + reflexivity.
    + split; [discriminate|]. repeat constructor; set_solver.
    + intros f [->|[->|[]%elem_of_nil]%elem_of_cons]%elem_of_cons;
        eexists; (split; [reflexivity|]); repeat split; try discriminate; by apply aligned.
  - split; [reflexivity|]. split; [reflexivity|]. by exists [].
  - intros f [->|[->|[]%elem_of_nil]%elem_of_cons]%elem_of_cons;
      eexists _, _; (split; [reflexivity|]); split; reflexivity.
  - intros f fr v a _ _ Hv. change (vmmu (svm load_sys)) with sample_mmu. by rewrite load_vm_unmapped.
  - intros f g fr gr _ _ [[-> ->]|[-> ->]]%load_vm_frames [[-> ->]|[-> ->]]%load_vm_frames; done.
  - repeat constructor; set_solver.
  - intros t p [= <-] []%elem_of_nil.
  - split; [split; [|split]|simpl; lia].
    + repeat constructor; eexists _, _; (split_and!; [reflexivity..| |reflexivity|reflexivity]);
        [exact table_page_ok|exact table_page2_ok].
    + repeat constructor; set_solver.
    + repeat constructor; set_solver.
Qed.

Lemma load_sys_free upage n : 0 ≤ upage → upage + Z.of_nat n * PGSIZE ≤ PHYS_BASE →
  free_pages user_pd upage n (svm load_sys).
Proof.
  intros ? ? u _ Hin. split; [|reflexivity]. change (vmmu (svm load_sys)) with sample_mmu.
  apply load_vm_unmapped. unfold in_pages, user_addr in *. lia.
Qed.

(** Five bytes at offset 100 of the file, at 100 in the code page. *)
Definition sample_phdr : Elf32_Phdr := MkPhdr 1 100 (code_page + 100) 0 5 10 6 4096.

Lemma sample_phdr_words : phdr_words sample_phdr.
Proof. repeat split; discriminate. Qed.

Lemma sample_phdr_loadable : loadable sample_phdr 105.
Proof. repeat split; discriminate. Qed.

Lemma validate_segment_correct_witness :
  validate_segment sample_phdr 5 (vfiles load_vm) = true ↔
    loadable sample_phdr (file_length 5 (vfiles load_vm)).
Proof.
  apply (validate_segment_correct sample_phdr 5 (vfiles load_vm)).
  - exact sample_phdr_words.
  - split; [discriminate|reflexivity].
Defined.

Lemma load_segment_correct_witness :
  ∃ s', load_segment 5 0 code_page 105 3991 true load_sys = Ret (Val true, s') ∧
    loading sample_pds user_pd [2] s' ∧
    loaded user_pd code_page 1 true (segment_byte (file_data 5 (vfiles load_vm)) 0 105) load_sys s' ∧
    ∀ g, file_data g (vfiles (svm s')) = file_data g (vfiles (svm load_sys)).
Proof.
  apply (load_segment_correct sample_pds user_pd [1; 2] load_sys 5 0 code_page 105 3991 true 1).
  - exact load_sys_loading.
  - simpl. lia.
  - by apply aligned.
  - discriminate.
  - discriminate.
  - apply load_sys_free; discriminate.
  - discriminate.
  - discriminate.
  - reflexivity.
  - by exists 0.
  - discriminate.
  - discriminate.
Defined.

(** "echo hi" *)
Definition sample_words : list (list Z) := [[101; 99; 104; 111]; [104; 105]].

Lemma setup_stack_correct_witness :
  ∃ esp s', setup_stack sample_words load_sys = Ret (Val (Some esp), s') ∧
    (4 | esp) ∧ stack_base ≤ esp < PHYS_BASE ∧
    aspace sample_pds user_pd (svm s') ∧ main_args user_pd (svm s') esp sample_words ∧
    ∀ v, user_addr v → v < stack_base → user_byte user_pd (svm s') v = user_byte user_pd (svm load_sys) v.
Proof.
  apply (setup_stack_correct sample_pds user_pd 1 [2] load_sys sample_words).
  - exact load_sys_loading.
  - apply load_sys_free; discriminate.
  - discriminate.
Defined.

(** An executable: one segment, whose bytes follow the headers. *)
Definition image : list Z :=
  ELF_MAGIC ++ replicate 9 0 ++ le 2 2 ++ le 2 3 ++ le 4 1 ++ le 4 code_page ++ le 4 52 ++ le 4 0 ++ le 4 0 ++
  le 2 52 ++ le 2 32 ++ le 2 1 ++ le 2 0 ++ le 2 0 ++ le 2 0 ++
  le 4 1 ++ le 4 84 ++ le 4 (code_page + 84) ++ le 4 0 ++ le 4 5 ++ le 4 10 ++ le 4 6 ++ le 4 4096 ++
  [1; 2; 3; 4; 5].

Definition image_phdr : Elf32_Phdr := MkPhdr 1 84 (code_page + 84) 0 5 10 6 4096.

Lemma image_segments : segments image = [image_phdr].
Proof. vm_compute. reflexivity. Qed.

Lemma image_executable : executable image.
Proof.
  split.
  - by vm_compute.
  - by vm_compute.
  - split; by vm_compute.
  - rewrite image_segments. repeat constructor; try by vm_compute.
    intros [E|[E|[E|[]%elem_of_nil]%elem_of_cons]%elem_of_cons]%elem_of_cons; discriminate E.
  - rewrite image_segments. split; [|done]. by intros ph v ?%elem_of_nil.
  - rewrite image_segments. intros ph v ->%list_elem_of_singleton. unfold seg_in, in_pages.
    replace (sg_upage (segment_of image_phdr)) with code_page by (vm_compute; reflexivity).
    replace (seg_pages image_phdr) with 1%nat by (vm_compute; reflexivity).
    replace stack_base with (code_page + 3086708736) by (vm_compute; reflexivity). unfold PGSIZE. lia.
Qed.

(** A thread about to load it. *)
Definition new_dir : Z := user_pd + 32768.
Definition ready_sys : sys Ramdisk.disk PosFiles.t :=
  MkSys (load_vm <| procs := {[ 1 := MkThread None [] ]} |> <| vfiles := PosFiles.Files {[ 97 := image ]} ∅ |>)
    {[ 1 := MkUproc [97] [] false None true None [] ]} ∅ ∅ [] []
    [Some 90] [MkAllocs (Some new_dir) None None; MkAllocs (Some table_page) None (Some 10);
               MkAllocs (Some table_page2) None (Some 11)] 0 ∅.

Lemma ready_sys_ready : ready sample_pds [1; 2] new_dir ready_sys.
Proof.
  destruct load_sys_loading as [[_ _ Hw Hlock Htab Hfr] Hun Hfrs _ Hap Hnd _ [(Hall & Hnt & Hnp) Hlen]].
  split; try done.
  - by eexists.
  - split; [done|]. split; [apply sample_in; by left|]. intros i Hi.
    unfold word. cbn [fst snd]. change (vmmu (svm ready_sys)) with sample_mmu. change (init_page_dir sample_mmu) with boot_pd.
    rewrite (sample_pd boot_pd) by (apply sample_in; by left). ret.
    assert (addr PHYS_BASE) as Hb by by split. apply pd_no_lt in Hb.
    by rewrite lookup_replicate_2 by (etrans; [exact Hi|exact Hb]).
  - split; [|reflexivity]. repeat split; try discriminate. by apply aligned.
  - eexists _, _. split; [reflexivity|]. split; [reflexivity|]. split; [|split; [|done]].
    + split; [exact Hall|by split].
    + set_solver.
Qed.

Definition opened_files : PosFiles.t := PosFiles.seek 97 0 (vfiles (svm ready_sys)).
Abbreviation loaded_image := (file_data 97 opened_files).

Lemma load_correct_witness :
  ∃ esp s', load [97] ready_sys = Ret (Val (Some (e_entry (ehdr_at loaded_image), esp)), s') ∧
    aspace ({[new_dir]} ∪ sample_pds) new_dir (svm s') ∧
    main_args new_dir (svm s') esp (token_loop INPUT_BUF_SIZE (strtok_r [97])) ∧
    (∀ ph off, ph ∈ segments loaded_image → p_type ph = PT_LOAD → 0 ≤ off < p_memsz ph →
       user_byte new_dir (svm s') (p_vaddr ph + off)
         = if off <? p_filesz ph then loaded_image !! Z.to_nat (p_offset ph + off) else Some 0) ∧
    ∀ v, user_addr v → v < stack_base → (∀ ph, ph ∈ segments loaded_image → ¬ seg_in ph v) →
      user_byte new_dir (svm s') v = None.
Proof.
  apply (load_correct sample_pds [1; 2] new_dir ready_sys 90 [] [97] [97] [] 97
    opened_files).
  - exact ready_sys_ready.
  - reflexivity.
  - reflexivity.
  - reflexivity.
  - change (executable image). exact image_executable.
  - by vm_compute.
  - by vm_compute.
Defined.
