(* ===== verification/ProcSample.v ===== *)
(** * A run of processes on which the theorems of ProcSteps.v apply

    The main thread, 1, starts the process 2, and that one the process 4.  File 97
    is an executable without segments. *)
From stdpp Require Import sorting.
From S2P Require Import Prelude CInt Ext Mmu PageDir Swap PageTable UserFiles Elf Frame VmSpec VmSample UserCall Exception UserMem Load LoadSample Process Syscall ProcTree Rendezvous ProcSteps.
Open Scope Z_scope.

#[local] Existing Instances Ia32.vaddr Ia32.vaddr_laws Ia32.pte Ia32.pte_laws.
#[local] Existing Instances Ramdisk.ops Ramdisk.laws.
#[local] Existing Instances PosFiles.ops PosFiles.calls.
#[local] Existing Instances LoadSample.selectors LoadSample.kernel_memory.
#[local] Instance start_regs : StartRegs := {| SEL_UDSEG := 35; FLAG_IF := 512; FLAG_MBS := 2 |}.

(** "name: exit(status)": the name and the status. *)
Definition exit_message (name : option (list Z)) (status : Z) : list Z := default [] name ++ [status].

Definition psample : Type := psys (dev := Ramdisk.disk) (files := PosFiles.t).

(** The state after a call, and what it returned. *)
Definition after {A} (m : call (sys Ramdisk.disk PosFiles.t) A) s :=
  match m s with Ret (_, s') => s' | _ => s end.
Definition result {A} (m : call (sys Ramdisk.disk PosFiles.t) A) s : option (ending A) :=
  match m s with Ret (e, _) => Some e | _ => None end.

Lemma result_Some {A} (m : call (sys Ramdisk.disk PosFiles.t) A) s e :
  result m s = Some e → m s = Ret (e, after m s).
Proof. unfold result, after. destruct (m s) as [[? ?]| |]; naive_solver. Qed.

(** An ELF header without program headers. *)
Definition executable : list Z :=
  ELF_MAGIC ++ replicate 9 0 ++ le 2 2 ++ le 2 3 ++ le 4 1 ++ le 4 134512640 ++ le 4 52 ++ le 4 0 ++ le 4 0 ++
  le 2 52 ++ le 2 32 ++ le 2 0 ++ le 2 0 ++ le 2 0 ++ le 2 0.

Definition page_dir (n : Z) : Z := user_pd + 4096 * n.

Definition main_vm : vm Ramdisk.disk PosFiles.t :=
  MkVm {[ code_frame := page_of 7; stack_frame := page_of 9 ]} sample_mmu boot_swap [1; 2]
    {[ 1 := PageTable.MkFrame code_frame None 0; 2 := PageTable.MkFrame stack_frame None 0 ]} false 1 false ∅
    {[ 1 := MkThread None [] ]} 1 (PosFiles.Files {[ 97 := executable ]} ∅).

Definition main_sys : sys Ramdisk.disk PosFiles.t :=
  MkSys main_vm {[ 1 := MkUproc [109] [] false None false None [] ]} ∅ ∅ [] []
    [Some 90; Some 91]
    [MkAllocs (Some (page_dir 8)) None None; MkAllocs (Some (page_dir 9)) None (Some 10);
     MkAllocs (Some (page_dir 10)) None None; MkAllocs (Some (page_dir 11)) None (Some 11)] 0 ∅.

Definition boot : psample := MkPsys main_sys {[ 1 := InUser ]}.

Definition do_execute (c t tid : Z) : call (sys Ramdisk.disk PosFiles.t) (option Z) :=
  execute_begin (Some 400) (Some c) (Some (t, tid)) [97].

(** 1 starts 2, which loads, and 1 has its child. *)
Definition started : psample :=
  MkPsys (after (do_execute 300 2 3) (at_thread 1 boot)) (<[2 := ToLoad 1]> (<[1 := InExecute 3]> (pcs boot))).
Definition did_load : psample :=
  MkPsys (after (start_process 1) (at_thread 2 started)) (<[2 := InUser]> (pcs started)).
Definition got_child : psample :=
  MkPsys (after (execute_end 3) (after down_success_set (at_thread 1 did_load))) (<[1 := InUser]> (pcs did_load)).

(** 1 waits for 2, which ends with status 7. *)
Definition waiting : psample :=
  MkPsys (after (wait_begin 3) (at_thread 1 got_child)) (<[1 := InWait 300]> (pcs got_child)).
Definition ended : psample :=
  MkPsys (thread_gone 2 (after (exit_user exit_message) (after (sys_exit (A := unit) 7) (at_thread 2 waiting))))
    (delete 2 (pcs waiting)).
Definition waited : psample :=
  MkPsys (after (wait_end 300) (after (down_terminated 300) (at_thread 1 ended))) (<[1 := InUser]> (pcs ended)).

(** Or 2 starts 4, and ends before it. *)
Definition started' : psample :=
  MkPsys (after (do_execute 301 4 5) (at_thread 2 got_child)) (<[4 := ToLoad 2]> (<[2 := InExecute 5]> (pcs got_child))).
Definition did_load' : psample :=
  MkPsys (after (start_process 2) (at_thread 4 started')) (<[4 := InUser]> (pcs started')).
Definition got_child' : psample :=
  MkPsys (after (execute_end 5) (after down_success_set (at_thread 2 did_load'))) (<[2 := InUser]> (pcs did_load')).
Definition orphaned : psample :=
  MkPsys (thread_gone 2 (after (exit_user exit_message) (at_thread 2 got_child'))) (delete 2 (pcs got_child')).

Abbreviation prun := (prun exit_message).
Abbreviation pstep := (pstep exit_message).

Ltac run := by (apply result_Some; vm_compute).

Lemma boot_booted : booted boot.
Proof.
  split; [|by exists 1|done]. intros t u.
  change (({[ 1 := MkUproc [109] [] false None false None [] ]} : gmap Z uproc) !! t = Some u →
    tree_of u = Node [] false None false).
  by intros [_ <-]%lookup_singleton_Some.
Qed.

Lemma started_step : pstep boot Tau started.
Proof.
  apply (step_execute exit_message boot 1 [97] (Some 400) (Some 300) (Some (2, 3)) (Some 3)); [done..|by intros t' tid [= <- <-]|run].
Qed.

Lemma did_load_step : pstep started Tau did_load.
Proof. apply (step_load exit_message started 2 1 (Some (MkStart 35 35 27 514 134512640 3221225448))); [done|run]. Qed.

Lemma got_child_step : pstep did_load Tau got_child.
Proof.
  apply (step_executed exit_message did_load 1 3 (MkLeash 1 true [97] 300)
    (after down_success_set (at_thread 1 did_load)) 3); [done..|run|run].
Qed.

Lemma waiting_step : pstep got_child Tau waiting.
Proof. apply (step_wait exit_message got_child 1 3 (Some 300)); [done|run]. Qed.

Lemma ended_step : pstep waiting (Ended 300 7 []) ended.
Proof.
  apply (step_exit exit_message waiting 2 (Some 7)
    (MkUproc [97] [] false (Some 300) true (Some 97) []) 300 (MkChild 3 0 7)
    (after (sys_exit (A := unit) 7) (at_thread 2 waiting)) (Some 300)); [left; by vm_compute|run|by vm_compute..|run].
Qed.

Lemma waited_step : pstep ended (Waited 300 7) waited.
Proof.
  apply (step_waited exit_message ended 1 300 (after (down_terminated 300) (at_thread 1 ended)) 7); [done|run|run].
Qed.

Lemma got_child_run : prun boot ∅ got_child.
Proof.
  change (prun boot (pend_step (pend_step (pend_step ∅ Tau) Tau) Tau) got_child).
  eapply run_step; [|exact got_child_step|done]. eapply run_step; [|exact did_load_step|done].
  eapply run_step; [|exact started_step|done]. constructor.
Qed.

Lemma ended_run : prun boot {[ 300 := 7 ]} ended.
Proof.
  change (prun boot (pend_step (pend_step ∅ Tau) (Ended 300 7 [])) ended).
  eapply run_step; [eapply run_step; [exact got_child_run|exact waiting_step|done]|exact ended_step|].
  by intros c ?%elem_of_nil.
Qed.

Lemma wait_returns_exit_status_witness : ({[ 300 := 7 ]} : gmap Z Z) !! 300 = Some 7 ∧ ¬ alive ended 300.
Proof.
  apply (wait_returns_exit_status exit_message boot {[ 300 := 7 ]} ended 300 7 waited).
  - exact boot_booted.
  - exact ended_run.
  - exact waited_step.
Defined.

(** The parent cannot go on before the child has loaded; then it can. *)
Lemma did_load_run : prun boot ∅ did_load.
Proof.
  change (prun boot (pend_step (pend_step ∅ Tau) Tau) did_load).
  eapply run_step; [|exact did_load_step|done]. eapply run_step; [constructor|exact started_step|done].
Qed.

Lemma rendezvous_goes_on_witness :
  (∃ t', pcs did_load !! t' = Some (ToLoad 1)) ∨ ∃ e σ', pstep did_load e σ' ∧ pcs σ' !! 1 = Some InUser.
Proof.
  apply (proj2 (rendezvous_goes_on exit_message boot ∅ did_load 1 boot_booted did_load_run) 3).
  - reflexivity.
  - discriminate.
Defined.

Lemma started_step' : pstep got_child Tau started'.
Proof.
  apply (step_execute exit_message got_child 2 [97] (Some 400) (Some 301) (Some (4, 5)) (Some 5));
    [by vm_compute|by intros c [= <-]; vm_compute|by intros t' tid [= <- <-]; vm_compute|run].
Qed.

Lemma did_load_step' : pstep started' Tau did_load'.
Proof.
  apply (step_load exit_message started' 4 2 (Some (MkStart 35 35 27 514 134512640 3221225448)));
    [by vm_compute|run].
Qed.

Lemma got_child_step' : pstep did_load' Tau got_child'.
Proof.
  apply (step_executed exit_message did_load' 2 5 (MkLeash 1 true [97] 301)
    (after down_success_set (at_thread 2 did_load')) 5); [by vm_compute|done|by vm_compute|run|run].
Qed.

Lemma orphaned_step : pstep got_child' (Ended 300 (-1) [301]) orphaned.
Proof.
  apply (step_exit exit_message got_child' 2 None (MkUproc [97] [301] true (Some 300) true (Some 97) []) 300
    (MkChild 3 0 (-1)) (at_thread 2 got_child') (Some 300)); [left; by vm_compute|done|by vm_compute..|run].
Qed.

Lemma got_child_run' : prun boot ∅ got_child'.
Proof.
  change (prun boot (pend_step (pend_step (pend_step ∅ Tau) Tau) Tau) got_child').
  eapply run_step; [|exact got_child_step'|done]. eapply run_step; [|exact did_load_step'|done].
  eapply run_step; [|exact started_step'|done]. exact got_child_run.
Qed.

Lemma orphan_exit_panics_witness :
  exit_user exit_message (at_thread 4 orphaned) = Panic ∧
  ∀ status, sys_exit (A := unit) status (at_thread 4 orphaned) = Panic.
Proof.
  apply (orphan_exit_panics exit_message boot ∅ got_child' 300 (-1) [301] orphaned 301 4
    (MkUproc [97] [] false (Some 301) true (Some 97) [])).
  - exact boot_booted.
  - exact got_child_run'.
  - exact orphaned_step.
  - by left.
  - by vm_compute.
  - reflexivity.
Defined.
