(* ===== verification/KernelSample.v ===== *)
(** * A run of the kernel on which the theorems of KernelSpec.v apply

    The main thread, 1, starts the process 2 and waits for it; thread 5 only computes,
    and 9 is the idle thread.  The files are those of ProcSample.v. *)
From stdpp Require Import strings relations.
From S2P Require Import Prelude CInt Ext Interrupt Threads Mmu PageDir Swap PageTable UserFiles Elf Frame VmSpec VmSample UserCall Exception UserMem Load LoadSample Process Syscall ProcTree Rendezvous ProcSteps ProcSample RunQueue RoundRobin RoundRobinSpec Startup UserKernel KernelLinks KernelSpec KernelStart.
Open Scope Z_scope.

#[local] Existing Instances Ia32.vaddr Ia32.vaddr_laws Ia32.pte Ia32.pte_laws.
#[local] Existing Instances Ramdisk.ops Ramdisk.laws.
#[local] Existing Instances PosFiles.ops PosFiles.calls.
#[local] Existing Instances LoadSample.selectors LoadSample.kernel_memory ProcSample.start_regs.
#[local] Hint Extern 0 (UserThreads (usys Ramdisk.disk PosFiles.t)) =>
  exact (process_threads ProcSample.exit_message) : typeclass_instances.
#[local] Hint Extern 0 (UserThreadsLaws (usys Ramdisk.disk PosFiles.t)) =>
  exact (process_threads_laws ProcSample.exit_message) : typeclass_instances.

Definition ksys : Type := kern (usys Ramdisk.disk PosFiles.t).

Definition kernel_thread : uproc := MkUproc [] [] false None false None [].
Definition kernel_sys : sys Ramdisk.disk PosFiles.t :=
  main_sys <| svm ::= λ w, w <| PageTable.procs :=
    {[ 1 := MkThread None []; 5 := MkThread None []; 9 := MkThread None [] ]} |> |>
    <| uprocs ::= λ m, {[ 5 := kernel_thread; 9 := kernel_thread ]} ∪ m |>.

Definition kboot : ksys := Kern
  (list_to_map [(1, mk 1 THREAD_RUNNING "main"); (5, mk 2 THREAD_READY "worker"); (9, mk 3 THREAD_BLOCKED "idle")])
  [5] [1; 5; 9] (Some 9) 1 1 4 0 0 0 0 (Intr INTR_ON false false)
  (list_to_map [(5, INTR_ON); (9, INTR_ON)])
  (MkUsys (MkPsys kernel_sys {[ 1 := InUser ]}) ∅).

Abbreviation kop := (kop (dev := Ramdisk.disk) (files := PosFiles.t)).

Abbreviation op_run := (run_op ProcSample.exit_message 4 28).
Definition op_after (op : kop) (k : ksys) : ksys := match op_run op k with Ret (_, k') => k' | _ => k end.
Definition op_event (op : kop) (k : ksys) : option event := match op_run op k with Ret (e, _) => Some e | _ => None end.

Lemma op_event_Some op k e : op_event op k = Some e → op_run op k = Ret (e, op_after op k).
Proof. unfold op_event, op_after. destruct (op_run op k) as [[? ?]| |]; naive_solver. Qed.

Definition ops_after (l : list kop) (k : ksys) : ksys := foldl (λ k op, op_after op k) k l.

(** [process_execute]: the new process loads its program, and the main thread gets its
    child; [process_wait]: it goes to sleep, and the process runs, and ends. *)
Definition start_op : kop := KExecute [97] (Some 400) (Some 300) (Some 2).
Definition load_ops : list kop := [KGoOn; KYield; KStart; KYield; KYield; KGoOn].
Definition k_executed : ksys := op_after start_op kboot.
Definition k_started : ksys := ops_after load_ops k_executed.
Definition k_asked : ksys := op_after (KWait 4) k_started.
Definition k_waiting : ksys := ops_after [KGoOn] k_asked.
Definition k_ended : ksys := op_after (KExit (Some 7)) k_waiting.

(** [n] ticks of the timer. *)
Fixpoint tick_trace (n : nat) (k : ksys) : list ksys :=
  match n with O => [] | S n' => op_after KTick k :: tick_trace n' (op_after KTick k) end.

Abbreviation krun := (krun ProcSample.exit_message 4 28 kboot).
Abbreviation kstep := (kstep ProcSample.exit_message 4 28).

Lemma kboot_wf : rr_wf kboot.
Proof.
  split; [split; [split|by eexists]|split|reflexivity|by split].
  - apply (bool_decide_unpack _). vm_compute. exact I.
  - intros t ->%list_elem_of_singleton. reflexivity.
  - intros t Ht. refine (map_Forall_lookup_1 (λ t s, s = THREAD_READY → t ∈ [5] ∨ Some 9 = Some t)
      (sts (view kboot)) t _ _ Ht eq_refl).
    apply (bool_decide_unpack _). vm_compute. exact I.
  - intros i [= <-]. exists THREAD_BLOCKED. split_and!; [done..|]. apply (bool_decide_unpack _). vm_compute. exact I.
  - reflexivity.
  - intros t Ht. refine (map_Forall_lookup_1 (λ t s, s = THREAD_RUNNING → t = 1) (sts (view kboot)) t _ _ Ht eq_refl).
    apply (bool_decide_unpack _). vm_compute. exact I.
  - change (map_Forall (λ _ th, magic th = THREAD_MAGIC) (threads kboot)).
    apply (bool_decide_unpack _). vm_compute. exact I.
  - intros t [th Ht]. refine (map_Forall_lookup_1 (λ t _, t ∈ threads_of (user kboot)) (threads kboot) t th _ Ht).
    apply (bool_decide_unpack _). vm_compute. exact I.
Qed.

Lemma kboot_booted : kbooted ProcSample.exit_message kboot.
Proof.
  split; [exact kboot_wf|reflexivity|split; [|by exists 1|done]|by split| |by vm_compute|done].
  - intros t u Hu. refine (map_Forall_lookup_1 (λ _ u, tree_of u = Node [] false None false)
      (uprocs (psy (systems kboot))) t u _ Hu). by apply (bool_decide_unpack _).
  - intros t [u Hu]. refine (map_Forall_lookup_1 (λ t _, is_Some (threads kboot !! t))
      (uprocs (psy (systems kboot))) t u _ Hu). apply (bool_decide_unpack _). vm_compute. exact I.
Qed.

(** Operations without a condition, that only the acting process notices. *)
Fixpoint quiet (l : list kop) (k : ksys) : bool :=
  match l with
  | [] => true
  | (KYield | KStart | KGoOn) as op :: l' =>
      match op_event op k with Some Tau => quiet l' (op_after op k) | _ => false end
  | _ => false
  end.

Lemma quiet_step op l k :
  quiet (op :: l) k = true → op_ok op k ∧ op_event op k = Some Tau ∧ quiet l (op_after op k) = true.
Proof. by destruct op; simpl; try done; destruct (op_event _ k) as [[]|]. Qed.

Lemma quiet_run l m k : krun m k → quiet l k = true → krun m (ops_after l k).
Proof.
  revert k. induction l as [|op l IH]; intros k Hr; [done|]. intros (Hok & He & Hq)%quiet_step.
  apply (IH (op_after op k)); [|done].
  by apply (krun_op ProcSample.exit_message 4 28 kboot m k op Tau); [..|apply op_event_Some|].
Qed.

Lemma tau_run op m k : krun m k → op_ok op k → op_event op k = Some Tau → krun m (op_after op k).
Proof.
  intros Hr Hok He. by apply (krun_op ProcSample.exit_message 4 28 kboot m k op Tau); [..|apply op_event_Some|].
Qed.

Lemma executed_run : krun ∅ k_executed.
Proof.
  apply tau_run; [constructor| |by vm_compute].
  split; [by vm_compute|]. split; [by vm_compute|]. split; [by intros c [= <-]; vm_compute|by intros t [= <-]; vm_compute].
Qed.

Lemma started_run : krun ∅ k_started.
Proof. apply quiet_run; [exact executed_run|]. by vm_compute. Qed.

Lemma asked_run : krun ∅ k_asked.
Proof. apply tau_run; [exact started_run|by vm_compute|by vm_compute]. Qed.

Lemma waiting_run : krun ∅ k_waiting.
Proof. apply quiet_run; [exact asked_run|]. by vm_compute. Qed.

Lemma k_ended_run : krun {[ 300 := 7 ]} k_ended.
Proof.
  change (krun (pend_step ∅ (Ended 300 7 [])) k_ended).
  apply (krun_op ProcSample.exit_message 4 28 kboot ∅ k_waiting (KExit (Some 7)));
    [exact waiting_run|left; by vm_compute|apply op_event_Some; by vm_compute|by intros c ?%elem_of_nil].
Qed.

Lemma kernel_refines_witness :
  ProcSteps.prun ProcSample.exit_message (systems kboot) {[ 300 := 7 ]} (systems k_ended) ∧
  rtc rq_step (view kboot) (view k_ended) ∧ rq_wf (view k_ended).
Proof.
  apply (kernel_refines ProcSample.exit_message 4 28 eq_refl eq_refl kboot {[ 300 := 7 ]} k_ended).
  - exact kboot_booted.
  - exact k_ended_run.
Defined.

(** The main thread sleeps, and its child is alive. *)
Lemma no_lost_wakeup_witness :
  ∃ c, pc_at 1 k_waiting = Some (InWait c) ∧ waiting_on (waiters (user k_waiting)) (Terminated c) = [1] ∧
    alive (systems k_waiting) c.
Proof.
  destruct (no_lost_wakeup ProcSample.exit_message 4 28 eq_refl eq_refl kboot ∅ k_waiting 1
    kboot_booted waiting_run) as [Hr|[Hr|[Hw|(tid & t' & Hw & _)]]].
  - vm_compute. by eexists.
  - exfalso. revert Hr. by vm_compute.
  - exfalso. revert Hr. apply (bool_decide_unpack (¬ _)). by vm_compute.
  - exact Hw.
  - exfalso. revert Hw. by vm_compute.
Defined.

Lemma tick_trace_run n k :
  Forall (λ k, op_event KTick k = Some Tau) (k :: tick_trace n k) →
  run_of kstep k (Z.of_nat n) (tick_trace n k).
Proof.
  revert k. induction n as [|n IH]; intros k; simpl; [constructor|]. intros [Hk Hr]%Forall_cons.
  replace (Z.of_nat (S n)) with (1 + Z.of_nat n) by lia. econstructor; [|by apply IH].
  exists KTick, Tau. split; [done|]. split; [done|]. split; [by apply op_event_Some|done].
Qed.

Lemma parent_told_in_time_witness :
  ∃ k', k' ∈ tick_trace 4 k_ended ∧ running k' = 1 ∧ ∃ k'', op_run KGoOn k' = Ret (Waited 300 7, k'').
Proof.
  apply (parent_told_in_time ProcSample.exit_message 4 28 eq_refl eq_refl kboot {[ 300 := 7 ]} k_ended 1 300 7 4).
  - exact kboot_booted.
  - exact k_ended_run.
  - by vm_compute.
  - reflexivity.
  - by vm_compute.
  - apply (tick_trace_run 4). repeat (constructor; [by vm_compute|]). constructor.
  - by vm_compute.
Defined.

(** ** From the loader

    The kernel starts under the interrupts of Startup.v, and then its first process is
    made. *)
Definition kloader : ksys := Kern ∅ [] [] None 0 1 1 0 0 0 0 (Intr INTR_OFF false false) ∅
  (MkUsys (MkPsys (main_sys <| uprocs := ∅ |> <| svm ::= λ w, w <| PageTable.procs := ∅ |> |>) {[ 1 := InUser ]}) ∅).

Definition kfirst : boot (usys Ramdisk.disk PosFiles.t) :=
  boot_of kloader (k1 ← thread_init kloader; thread_start 4 28 (Some 9) k1).
Definition klast : boot (usys Ramdisk.disk PosFiles.t) := boot_trace interrupted kfirst.
Abbreviation kstarted := (kernel klast).

Lemma kloader_power_on : power_on kloader.
Proof. by split. Qed.
Lemma kloader_no_process : no_process (running kloader) (user kloader).
Proof. by split. Qed.

Lemma first_op k0 op :
  op_ok op k0 → op_event op k0 = Some Tau → KernelSpec.krun ProcSample.exit_message 4 28 k0 ∅ (op_after op k0).
Proof.
  intros Hok He. change (KernelSpec.krun ProcSample.exit_message 4 28 k0 (pend_step ∅ Tau) (op_after op k0)).
  apply (krun_op ProcSample.exit_message 4 28 k0 ∅ k0 op Tau); [constructor|done|by apply op_event_Some|done].
Qed.

Lemma first_process : KernelSpec.krun ProcSample.exit_message 4 28 kstarted ∅ (op_after start_op kstarted).
Proof.
  apply first_op; [|by vm_compute].
  split; [by vm_compute|]. split; [by vm_compute|]. split; [by intros c [= <-]; vm_compute|by intros t [= <-]; vm_compute].
Qed.

Lemma kernel_boots_witness :
  kbooted ProcSample.exit_message kstarted ∧ kinv ProcSample.exit_message ∅ (op_after start_op kstarted).
Proof.
  destruct (kernel_boots ProcSample.exit_message 4 28 eq_refl eq_refl 9 kloader kloader_power_on kloader_no_process
    ltac:(done)) as (k1 & b0 & E1 & E0 & Hall).
  assert (kfirst = b0) as <- by (unfold kfirst; rewrite E1; simpl; by rewrite E0).
  assert (start_run kfirst 5 klast) as Hr.
  { unfold klast. apply (trace_run interrupted 0 kfirst kfirst); [constructor|by vm_compute]. }
  destruct (Hall _ _ Hr) as (_ & _ & Hend). destruct Hend as [Hkb Hinv]; [by vm_compute|].
  exact (conj Hkb (Hinv ∅ _ first_process)).
Defined.
