(* ===== verification/SyscallSpec.v ===== *)
(** * Correctness of the system calls

    File descriptors name open files, and what happens for those that do not;
    pointers into the kernel end the process; the path of a [write] to the console
    from the registers to the screen. *)
From stdpp Require Import sorting.
From S2P Require Import Prelude CInt Ext Interrupt Mmu PageDir Swap PageTable UserFiles Frame Page UserCall Exception UserMem UserMemSpec Syscall.
Open Scope Z_scope.

Section spec.
Context `{VaddrLaws, !Pte, !PteLaws, Selectors, KernelMemory, SyscallNumbers}.
Context {dev files : Type} `{BlockDevice dev, FileOps files, FileCalls files}.
Context `{ProcessCalls (sys dev files)}.
Implicit Types (s : sys dev files) (w : vm dev files) (uaddr esp fd f : Z) (l : list (Z * Z)) (pds : gset Z).

(** ** The descriptor table *)

(** [files_open] of the running process holds the pairs [l] of descriptors and files,
    the newest first. *)
Definition fd_table s l : Prop :=
  ∃ u, uprocs s !! current (svm s) = Some u ∧ NoDup (files_open u) ∧
    Forall2 (λ p x, ∃ m, stores s !! p = Some (MkFileStore x.2 x.1 m)) (files_open u) l.

(** Descriptors count up from [MIN_USER_FD]. *)
Definition fds_ok l : Prop :=
  StronglySorted (λ x y : Z * Z, y.1 < x.1) l ∧ Forall (λ x : Z * Z, MIN_USER_FD ≤ x.1) l.

(** The descriptor [create_fd] gives. *)
Definition next_fd l : Z := match l with [] => MIN_USER_FD | (fd, _) :: _ => fd + 1 end.

Lemma fds_ok_next l fd : fds_ok l → fd ∈ l.*1 → fd < next_fd l.
Proof.
  intros [Hs _] Hin. destruct l as [|[fd0 f0] l]; [by apply elem_of_nil in Hin|]. simpl in *.
  apply StronglySorted_inv in Hs as [_ Hall]. apply elem_of_cons in Hin as [->|Hin]; [lia|].
  apply list_elem_of_fmap in Hin as (x & -> & Hx). rewrite Forall_forall in Hall.
  specialize (Hall x Hx). simpl in Hall. lia.
Qed.

Lemma fds_ok_cons l f : fds_ok l → fds_ok ((next_fd l, f) :: l).
Proof.
  intros Hl. pose proof (λ fd, fds_ok_next l fd Hl) as Hn. destruct Hl as [Hs Hm]. split.
  - constructor; [done|]. apply Forall_forall. intros x Hx. simpl. apply Hn.
    apply list_elem_of_fmap. by exists x.
  - constructor; [|done]. simpl. destruct l as [|[fd0 f0] l]; [done|].
    apply Forall_cons in Hm as [Hm _]. unfold next_fd, MIN_USER_FD in *. simpl in *. lia.
Qed.

Lemma fds_ok_functional l fd f g : fds_ok l → (fd, f) ∈ l → (fd, g) ∈ l → f = g.
Proof.
  intros [Hs _] Hf Hg. induction Hs as [|x l Hs IH Hall]; [by apply elem_of_nil in Hf|].
  rewrite Forall_forall in Hall.
  apply elem_of_cons in Hf as [<-|Hf], Hg as [[= Hg]|Hg]; subst; [done| | |by apply IH].
  - specialize (Hall _ Hg). simpl in Hall. lia.
  - specialize (Hall _ Hf). simpl in Hall. lia.
Qed.

(** The search stops at the first entry with the descriptor ... *)
Lemma find_store_found s ps l1 l2 fd f last :
  Forall2 (λ p x, ∃ m, stores s !! p = Some (MkFileStore x.2 x.1 m)) ps (l1 ++ (fd, f) :: l2) →
  fd ∉ l1.*1 →
  ∃ ps1 p ps2 m, ps = ps1 ++ p :: ps2 ∧ find_store ps last fd s = Ret (Some p) ∧
    stores s !! p = Some (MkFileStore f fd m) ∧
    Forall2 (λ p x, ∃ m, stores s !! p = Some (MkFileStore x.2 x.1 m)) ps1 l1 ∧
    Forall2 (λ p x, ∃ m, stores s !! p = Some (MkFileStore x.2 x.1 m)) ps2 l2.
Proof.
  revert ps last. induction l1 as [|[fd1 f1] l1 IH]; intros ps last Hps Hn; simpl in Hps;
    apply Forall2_cons_inv_r in Hps as (p & ps' & [m Hp] & Hps & ->); simpl; unfold store_at;
    rewrite Hp; ret; simpl in Hp |- *.
  - rewrite Z.eqb_refl. exists [], p, ps', m. split_and!; [done..|constructor|done].
  - rewrite (proj2 (Z.eqb_neq fd1 fd)) by (intros ->; apply Hn; by left).
    destruct (IH ps' (Some p) Hps) as (ps1 & q & ps2 & m' & -> & E & Hq & HL & HR).
    { intros Hin. apply Hn. by right. }
    exists (p :: ps1), q, ps2, m'. split_and!; [done|done|done| |done]. constructor; [by exists m|done].
Qed.

(** ... and ends at the last entry when there is none. *)
Lemma find_store_missing s ps l fd d :
  Forall2 (λ p x, ∃ m, stores s !! p = Some (MkFileStore x.2 x.1 m)) ps l → fd ∉ l.*1 →
  find_store ps d fd s = Ret (match last ps with Some p => Some p | None => d end).
Proof.
  intros Hps. revert d. induction Hps as [|p [fd1 f1] ps l [m Hp] Hps IH]; intros d Hn; [done|].
  simpl. unfold store_at. rewrite Hp. ret. simpl.
  rewrite (proj2 (Z.eqb_neq fd1 fd)) by (intros ->; apply Hn; by left).
  rewrite IH by (intros Hin; apply Hn; by right). destruct ps as [|q ps]; [done|].
  change (last (p :: q :: ps)) with (last (q :: ps)). destruct (last (q :: ps)) eqn:E; [done|].
  by apply last_None in E.
Qed.

Lemma fd_split l fd f :
  (fd, f) ∈ l → ∃ l1 f' l2, l = l1 ++ (fd, f') :: l2 ∧ fd ∉ l1.*1.
Proof.
  induction l as [|[fd0 f0] l IH]; [by intros ?%elem_of_nil|]. intros Hin.
  destruct (decide (fd0 = fd)) as [->|Hne]; [exists [], f0, l; split; [done|by intros ?%elem_of_nil]|].
  apply elem_of_cons in Hin as [[= -> _]|Hin]; [done|].
  destruct (IH Hin) as (l1 & f' & l2 & -> & Hn). exists ((fd0, f0) :: l1), f', l2.
  split; [done|]. intros [->|?]%elem_of_cons; done.
Qed.

(** An open descriptor: the entry that [fd_to_file_store] finds, and the rest of the
    table. *)
Lemma fd_open s l fd f :
  fd_table s l → fds_ok l → (fd, f) ∈ l →
  ∃ u p m, uprocs s !! current (svm s) = Some u ∧
    fd_to_file_store fd s = Ret (Val (Some p), s) ∧ stores s !! p = Some (MkFileStore f fd m) ∧
    Forall2 (λ p x, ∃ m, stores s !! p = Some (MkFileStore x.2 x.1 m))
      (list_remove p (files_open u)) (filter (λ x, x.1 ≠ fd) l) ∧ NoDup (files_open u).
Proof.
  intros (u & Hu & Hnd & Hps) Hok Hin. destruct (fd_split l fd f Hin) as (l1 & f' & l2 & -> & Hn).
  assert (f' = f) as -> by (eapply fds_ok_functional; [done| |done]; set_solver).
  destruct (find_store_found s _ l1 l2 fd f None Hps Hn) as (ps1 & p & ps2 & m & E & Hfind & Hp & H1' & H2').
  exists u, p, m. split; [done|].
  assert (MIN_USER_FD ≤ fd) as Hfd.
  { destruct Hok as [_ Hm]. rewrite Forall_forall in Hm. specialize (Hm (fd, f)). apply Hm. set_solver. }
  assert (fd ∉ l2.*1) as Hn2.
  { intros (x & -> & Hx)%list_elem_of_fmap. destruct Hok as [Hs _].
    clear -Hs Hx Hn. induction l1 as [|y l1 IH].
    - simpl in Hs. apply StronglySorted_inv in Hs as [_ Hall]. rewrite Forall_forall in Hall.
      specialize (Hall x Hx). simpl in Hall. lia.
    - simpl in Hs. apply StronglySorted_inv in Hs as [Hs _]. apply IH; try done.
      intros Hin'. apply Hn. by right. }
  split; [|split; [done|split; [|done]]].
  - unfold fd_to_file_store. rewrite (proj2 (Z.ltb_ge _ _)) by done. unfold get, cur_proc. rewrite Hu. ret.
    by rewrite Hfind.
  - rewrite E in Hnd |- *. apply NoDup_app in Hnd as (_ & Hd & Hnd).
    apply NoDup_cons in Hnd as [Hp2 _]. unfold list_remove. rewrite !filter_app.
    rewrite !filter_cons_False by (by intros Hc; apply Hc).
    assert (filter (λ y, y ≠ p) ps1 = ps1) as ->.
    { apply list_remove_not_elem. intros Hp1. eapply Hd; [exact Hp1|by left]. }
    assert (filter (λ y, y ≠ p) ps2 = ps2) as -> by (by apply list_remove_not_elem).
    rewrite !filter_id; [by apply Forall2_app| |].
    + intros x Hx <-. apply Hn2. apply list_elem_of_fmap. by exists x.
    + intros x Hx <-. apply Hn. apply list_elem_of_fmap. by exists x.
Qed.

Lemma fd_to_file_open s l fd f :
  fd_table s l → fds_ok l → (fd, f) ∈ l → fd_to_file fd s = Ret (Val (Some f), s).
Proof.
  intros Ht Hok Hin. destruct (fd_open s l fd f Ht Hok Hin) as (u & p & m & Hu & Hst & Hp & _).
  unfold fd_to_file. call_ret Hst. unfold get, store_at. rewrite Hp. by ret.
Qed.

(** A descriptor that is not open is taken for the oldest one. *)
Lemma fd_missing s l0 g f fd :
  fd_table s (l0 ++ [(g, f)]) → fds_ok (l0 ++ [(g, f)]) → MIN_USER_FD ≤ fd → fd ∉ (l0 ++ [(g, f)]).*1 →
  fd_to_file_store fd s = fd_to_file_store g s.
Proof.
  intros (u & Hu & _ & Hps) Hok Hfd Hn.
  assert (MIN_USER_FD ≤ g) as Hg.
  { destruct Hok as [_ Hm]. rewrite Forall_forall in Hm. apply (Hm (g, f)). set_solver. }
  assert (g ∉ l0.*1) as Hg0.
  { intros ([g' f'] & Heq & Hx)%list_elem_of_fmap. simpl in Heq. subst g'. destruct Hok as [Hs _].
    clear -Hs Hx. induction l0 as [|y l0 IH]; [by apply elem_of_nil in Hx|].
    simpl in Hs. apply StronglySorted_inv in Hs as [Hs Hall]. apply elem_of_cons in Hx as [<-|Hx]; [|by apply IH].
    rewrite Forall_forall in Hall. specialize (Hall (g, f)). simpl in Hall.
    assert (g < g) by (apply Hall; set_solver). lia. }
  destruct (find_store_found s _ l0 [] g f None Hps Hg0) as (ps1 & p & ps2 & m & E & Hfind & _ & _ & Hnil).
  apply Forall2_nil_inv_r in Hnil as ->. unfold fd_to_file_store.
  rewrite (proj2 (Z.ltb_ge fd _)), (proj2 (Z.ltb_ge g _)) by done. unfold get, cur_proc. rewrite Hu. ret.
  rewrite Hfind, (find_store_missing s _ _ fd None Hps Hn), E. by rewrite last_snoc.
Qed.

Lemma upd_cur_lookup (g : uproc → uproc) s u :
  uprocs s !! current (svm s) = Some u → uprocs (upd_cur g s) !! current (svm s) = Some (g u).
Proof. intros Hu. simpl. by rewrite lookup_alter_eq, Hu. Qed.

Lemma Forall_filter_keep {A} (P Q : A → Prop) `{∀ x, Decision (P x)} (l : list A) :
  Forall Q l → Forall Q (filter P l).
Proof. rewrite !Forall_forall. intros HQ x [_ Hx]%list_elem_of_filter. by apply HQ. Qed.

Lemma fds_ok_filter l (P : Z * Z → Prop) `{∀ x, Decision (P x)} : fds_ok l → fds_ok (filter P l).
Proof.
  intros [Hs Hm]. split; [|by apply Forall_filter_keep]. clear Hm.
  induction Hs as [|x l Hs IH Hall]; [constructor|]. rewrite filter_cons. case_decide; [|done].
  constructor; [done|by apply Forall_filter_keep].
Qed.

(** Unlinking the entry of an open descriptor. *)
Lemma remove_fd_ret s l fd f fd' :
  fd_table s l → fds_ok l → (fd, f) ∈ l → fd_to_file_store fd' s = fd_to_file_store fd s →
  ∃ s', remove_fd fd' s = Ret (Val (Some f), s') ∧ fd_table s' (filter (λ x, x.1 ≠ fd) l) ∧
    fds_ok (filter (λ x, x.1 ≠ fd) l) ∧ svm s' = svm s.
Proof.
  intros Ht Hok Hin Hsame. destruct (fd_open s l fd f Ht Hok Hin) as (u & p & m & Hu & Hst & Hp & Hrel & Hnd).
  set (s1 := upd_cur (λ u, u <| files_open ::= list_remove p |>) s).
  exists s1. split; [|split; [|split; [by apply fds_ok_filter|done]]].
  - unfold remove_fd. rewrite <- Hsame in Hst. call_ret Hst.
    rewrite (modify_then _ _ _ s1) by done. unfold get, store_at.
    change (stores s1) with (stores s). rewrite Hp. by ret.
  - exists (u <| files_open ::= list_remove p |>). split; [exact (upd_cur_lookup _ s u Hu)|].
    split; [by apply NoDup_list_remove|done].
Qed.

(** [create_fd] gives the file a descriptor that is not in use; afterwards the new and
    every earlier descriptor still name their files. *)
Theorem create_fd_roundtrip s l f (mapped : bool) p ms :
  fd_table s l → fds_ok l → mallocs s = Some p :: ms → stores s !! p = None → in_s32 (next_fd l) →
  ∃ s', create_fd (Some f) mapped s = Ret (Val (next_fd l), s') ∧
    fd_table s' ((next_fd l, f) :: l) ∧ fds_ok ((next_fd l, f) :: l) ∧ next_fd l ∉ l.*1 ∧
    ∀ fd g, (fd, g) ∈ (next_fd l, f) :: l → fd_to_file fd s' = Ret (Val (Some g), s').
Proof.
  intros (u & Hu & Hnd & Hps) Hok Hms Hp Hin.
  set (s1 := s <| mallocs := ms |>).
  set (s2 := upd_cur (λ u, u <| files_open ::= cons p |>)
    (s1 <| stores ::= <[p := MkFileStore f (next_fd l) mapped]> |>)).
  assert (p ∉ files_open u) as Hpu.
  { intros Hpu. apply list_elem_of_lookup in Hpu as (i & Hi).
    destruct (Forall2_lookup_l _ _ _ _ _ Hps Hi) as (x & _ & m & Hx). congruence. }
  assert (fd_table s2 ((next_fd l, f) :: l)) as Ht.
  { exists (u <| files_open ::= cons p |>). split; [exact (upd_cur_lookup _ s u Hu)|].
    split; [by apply NoDup_cons|]. change (stores s2) with (<[p := MkFileStore f (next_fd l) mapped]> (stores s)).
    constructor; [exists mapped; apply lookup_insert_eq|].
    eapply Forall2_impl; [exact Hps|]. intros q x [m Hq]. exists m. rewrite lookup_insert_ne; [done|congruence]. }
  exists s2. split; [|split; [done|split; [by apply fds_ok_cons|split]]].
  - unfold create_fd. call_ret by (unfold malloc; by rewrite Hms).
    change (s <| mallocs := ms |>) with s1.
    assert ((u ← cur_proc s1; match files_open u with
      | [] => Ret MIN_USER_FD
      | q :: _ => fs ← store_at s1 q; Ret (s32 (fs_fd fs + 1)) end) = Ret (next_fd l)) as E.
    { unfold cur_proc. change (uprocs s1) with (uprocs s). change (svm s1) with (svm s). rewrite Hu. ret.
      destruct Hps as [|q [fd0 f0] ps l [m Hq] _]; [done|]. unfold store_at.
      change (stores s1) with (stores s). rewrite Hq. ret. simpl. by rewrite s32_id. }
    call_ret by (unfold get; rewrite E; reflexivity). done.
  - intros Hn. pose proof (fds_ok_next l _ Hok Hn). lia.
  - intros fd g Hg. eapply fd_to_file_open; [done| |done]. by apply fds_ok_cons.
Qed.

(** The process has a live [struct child], in which it leaves its status. *)
Definition has_self s (c : Z) : Prop :=
  ∃ u ch, uprocs s !! current (svm s) = Some u ∧ self u = Some c ∧ child_heap s !! c = Some ch.

(** The state in which the process was ended with status -1. *)
Definition killed s (c : Z) : sys dev files :=
  s <| child_heap ::= alter (λ ch, ch <| c_status := -1 |>) c |>.

Lemma sys_exit_ret {A} s c :
  has_self s c → sys_exit (A := A) (-1) s = Ret (Exits, killed s c).
Proof.
  intros (u & ch & Hu & Hself & Hc). unfold sys_exit, mbind, call_bind, get, cur_proc. rewrite Hu. ret.
  rewrite Hself. ret. unfold modify. rewrite Hc. by ret.
Qed.

(** [sys_close] unlinks the descriptor, and the file stays open; for a descriptor that
    was never opened it unlinks the oldest one instead; and the process is ended for
    the console descriptors or when nothing is open. *)
Theorem sys_close_correct s l fd :
  fd_table s l → fds_ok l →
  (∀ f, (fd, f) ∈ l → ∃ s', sys_close fd s = Ret (Val tt, s') ∧
     fd_table s' (filter (λ x, x.1 ≠ fd) l) ∧ fds_ok (filter (λ x, x.1 ≠ fd) l) ∧ svm s' = svm s) ∧
  (∀ l0 g f, l = l0 ++ [(g, f)] → MIN_USER_FD ≤ fd → fd ∉ l.*1 → ∃ s', sys_close fd s = Ret (Val tt, s') ∧
     fd_table s' (filter (λ x, x.1 ≠ g) l) ∧ fds_ok (filter (λ x, x.1 ≠ g) l) ∧ svm s' = svm s) ∧
  (∀ c, fd < MIN_USER_FD ∨ l = [] → has_self s c → sys_close fd s = Ret (Exits, killed s c)).
Proof.
  intros Ht Hok. split; [|split].
  - intros f Hin. destruct (remove_fd_ret s l fd f fd Ht Hok Hin eq_refl) as (s' & E & Hr).
    exists s'. split; [|done]. unfold sys_close. by call_ret E.
  - intros l0 g f -> Hfd Hn.
    destruct (remove_fd_ret s _ g f fd Ht Hok ltac:(set_solver)) as (s' & E & Hr); [by eapply fd_missing|].
    exists s'. split; [|done]. unfold sys_close. by call_ret E.
  - intros c Hno Hself.
    assert (remove_fd fd s = Ret (Val None, s)) as E.
    { unfold remove_fd.
      assert (fd_to_file_store fd s = Ret (Val None, s)) as E; [|by call_ret E].
      unfold fd_to_file_store. destruct (Z.ltb_spec fd MIN_USER_FD) as [_|Hge]; [done|].
      destruct Hno as [Hlt| ->]; [lia|]. destruct Ht as (u & Hu & _ & Hps).
      apply Forall2_nil_inv_r in Hps. unfold get, cur_proc. rewrite Hu. ret. by rewrite Hps. }
    unfold sys_close. call_ret E. by apply sys_exit_ret.
Qed.

(** ** Pointers into the kernel *)

Lemma is_valid_kernel s uaddr esp (write : bool) :
  PHYS_BASE ≤ uaddr → is_valid_uaddr uaddr esp write s = Ret (Val false, s).
Proof.
  intros Hk. unfold is_valid_uaddr. destruct (is_user_vaddr uaddr) eqn:E; [|done].
  apply is_user_vaddr_spec in E. lia.
Qed.

Lemma check_kernel s uaddr esp (write : bool) c :
  PHYS_BASE ≤ uaddr → has_self s c → check uaddr esp write s = Ret (Exits, killed s c).
Proof.
  intros Hk Hc. unfold check. call_ret (is_valid_kernel s uaddr esp write Hk). by apply sys_exit_ret.
Qed.

(** C24. A pointer into the kernel, as the stack pointer of any system call (a null one too),
    or as the buffer of [read] and [write] or the string of [exec], [create], [remove]
    and [open], ends the process with status -1; nothing else happens, and the kernel
    does not panic.  [mmap], the one other call that takes an address, does not check
    it ([sys_mmap_takes_kernel_address] in SyscallSample.v). *)
Theorem kernel_pointers_end_process max_string unknown s c p :
  PHYS_BASE ≤ p → has_self s c →
  (∀ fd n esp, sys_read fd p n esp s = Ret (Exits, killed s c)) ∧
  (∀ fd n esp, sys_write fd p n esp s = Ret (Exits, killed s c)) ∧
  (∀ esp, sys_exec max_string p esp s = Ret (Exits, killed s c)) ∧
  (∀ n esp, sys_create max_string p n esp s = Ret (Exits, killed s c)) ∧
  (∀ esp, sys_remove max_string p esp s = Ret (Exits, killed s c)) ∧
  (∀ esp, sys_open max_string p esp s = Ret (Exits, killed s c)) ∧
  (∀ fr, Exception.esp fr = p ∨ Exception.esp fr = 0 →
     syscall_handler max_string unknown fr s = Ret (Exits, killed s c)).
Proof.
  intros Hp Hc. pose proof (λ esp b, check_kernel s p esp b c Hp Hc) as Hck.
  assert (p ≠ 0) as Hp0 by (pose proof PHYS_BASE_spec; lia).
  split; [|split; [|split; [|split; [|split; [|split]]]]].
  - intros fd n esp. unfold sys_read. destruct (fd =? STD_OUT); [|rewrite (call_bind_Val _ _ _ _ _ (is_valid_kernel s p esp true Hp))];
      by apply (sys_exit_ret (A := Z)).
  - intros fd n esp. unfold sys_write. destruct (fd =? STD_IN); [|rewrite (call_bind_Val _ _ _ _ _ (is_valid_kernel s p esp false Hp))];
      by apply (sys_exit_ret (A := Z)).
  - intros esp. unfold sys_exec. by rewrite (call_bind_Exits _ _ _ _ (Hck esp false)).
  - intros n esp. unfold sys_create. by rewrite (call_bind_Exits _ _ _ _ (Hck esp false)).
  - intros esp. unfold sys_remove. by rewrite (call_bind_Exits _ _ _ _ (Hck esp false)).
  - intros esp. unfold sys_open. by rewrite (call_bind_Exits _ _ _ _ (Hck esp false)).
  - intros fr [E|E]; unfold syscall_handler; rewrite E.
    + rewrite (proj2 (Z.eqb_neq p 0)) by done. call_ret by done.
      assert (grab_arg p s = Ret (Exits, killed s c)) as Eg; [|by rewrite (call_bind_Exits _ _ _ _ Eg)].
      unfold grab_arg. simpl. by rewrite (call_bind_Exits _ _ _ _ (call_bind_Exits _ _ _ _ (Hck 0 false))).
    + by rewrite (call_bind_Exits _ _ _ _ (sys_exit_ret (A := unit) s c Hc)).
Qed.

(** ** Writing to the console *)

(** [out] was printed, and otherwise only accessed bits changed. *)
Record prints pds pd s (out : list Z) s' : Prop := {
  pr_rest : s' = s <| svm := (svm s) <| vmmu := vmmu (svm s') |> |> <| console := console s ++ out |>;
  pr_aspace : aspace pds pd (svm s');
  pr_bytes : ∀ v, user_addr v → user_byte pd (svm s') v = user_byte pd (svm s) v
}.

Lemma prints_nothing pds pd s s' : same_user pds pd s s' → prints pds pd s [] s'.
Proof. intros [E A B _]. split; [|done..]. rewrite app_nil_r. rewrite E at 1. by destruct s. Qed.

Lemma prints_trans pds pd s1 s2 s3 out1 out2 :
  prints pds pd s1 out1 s2 → prints pds pd s2 out2 s3 → prints pds pd s1 (out1 ++ out2) s3.
Proof.
  intros [E1 _ B1] [E2 A2 B2]. split; [|done|].
  - rewrite E2 at 1. rewrite E1. simpl. by rewrite <- app_assoc.
  - intros v Hv. by rewrite B2, B1.
Qed.

Lemma prints_user_bytes pds pd s out s' uaddr (l : list Z) :
  prints pds pd s out s' → user_bytes pd (svm s) uaddr l → user_bytes pd (svm s') uaddr l.
Proof. intros [_ _ Hb] Hl i b Hi. destruct (Hl i b Hi). split; [done|]. by rewrite Hb. Qed.

Lemma user_bytes_take pd w uaddr (l : list Z) n : user_bytes pd w uaddr l → user_bytes pd w uaddr (take n l).
Proof. intros Hl i b Hi. apply Hl. by apply lookup_take_Some in Hi as [? _]. Qed.

Lemma is_valid_mapped pds pd s uaddr esp b :
  aspace pds pd (svm s) → user_addr uaddr → user_byte pd (svm s) uaddr = Some b →
  is_valid_uaddr uaddr esp false s = Ret (Val true, s).
Proof.
  intros Ha Hu Hb. unfold is_valid_uaddr. rewrite (proj2 (is_user_vaddr_spec uaddr)) by apply Hu.
  destruct (user_byte_Some pds pd _ _ _ Ha Hu Hb) as (a & page & Hget & _). cbn [negb].
  call_ret (translate_user_ret pds pd s uaddr Ha Hu).
  rewrite (pagedir_get_page_ret pds) in Hget by (done || apply Ha). by injection Hget as ->.
Qed.

Lemma check_bytes_mapped pds pd s uaddr esp (l : list Z) :
  aspace pds pd (svm s) → user_bytes pd (svm s) uaddr l →
  check_bytes (length l) uaddr esp false s = Ret (Val tt, s).
Proof.
  intros Ha. revert uaddr. induction l as [|b l IH]; intros uaddr Hl; [done|]. simpl.
  apply user_bytes_cons in Hl as [[Hu Hb] Hl].
  assert (check uaddr esp false s = Ret (Val tt, s)) as E.
  { unfold check. by call_ret (is_valid_mapped pds pd s uaddr esp b Ha Hu Hb). }
  call_ret E. rewrite user_addr_u32 by done. by apply IH.
Qed.

Lemma grab_arg_ret pds pd s sp x :
  aspace pds pd (svm s) → user_bytes pd (svm s) sp (le 4 x) →
  ∃ s', grab_arg sp s = Ret (Val (u32 x, u32 (sp + 4)), s') ∧ same_user pds pd s s'.
Proof.
  intros Ha Hl. unfold grab_arg.
  pose proof (check_bytes_mapped pds pd s sp 0 (le 4 x) Ha Hl) as E. rewrite length_le in E.
  call_ret E. destruct (load_word_ret pds pd s sp x Ha Hl) as (s' & E' & S). call_ret E'. by exists s'.
Qed.

Lemma putbuf_ret pds pd s buffer (l : list Z) :
  aspace pds pd (svm s) → user_bytes pd (svm s) buffer l →
  ∃ s', putbuf buffer (Z.of_nat (length l)) s = Ret (Val tt, s') ∧ prints pds pd s l s'.
Proof.
  intros Ha Hl. destruct (load_bytes_ret pds pd l s buffer Ha Hl) as (s1 & E & S).
  exists (s1 <| console ::= λ c, c ++ l |>). split.
  - unfold putbuf. rewrite Nat2Z.id. by call_ret E.
  - destruct S as [E1 A1 B1 _]. split; [|exact A1|exact B1]. rewrite E1 at 1. by destruct s.
Qed.

(** What the loop of [sys_write] prints: every full chunk is the first one again. *)
Definition repeated (k r : nat) (data : list Z) : list Z :=
  mjoin (replicate k (take 300 data)) ++ take r data.

Lemma putbuf_loop_ret pds pd buffer data k r fuel s :
  aspace pds pd (svm s) → user_bytes pd (svm s) buffer data →
  (300 * k + r ≤ length data)%nat → (r ≤ 300)%nat → (0 < k → 0 < r)%nat → (k < fuel)%nat →
  Z.of_nat (length data) < 4294967296 →
  ∃ s', putbuf_loop fuel buffer (Z.of_nat (300 * k + r)) s = Ret (Val tt, s') ∧
    prints pds pd s (repeated k r data) s'.
Proof.
  intros Ha Hl Hlen Hr Hk Hfuel Hw. revert fuel s Ha Hl Hlen Hk Hfuel.
  induction k as [|k IH]; intros fuel s Ha Hl Hlen Hk Hfuel; (destruct fuel as [|fuel]; [lia|]);
    cbn [putbuf_loop].
  - rewrite (proj2 (Z.ltb_ge _ _)) by (unfold MAX_PUTBUF_LEN; lia).
    destruct (putbuf_ret pds pd s buffer (take r data) Ha) as (s' & E & Hp);
      [by apply user_bytes_take|]. rewrite length_take_le in E by lia.
    by exists s'.
  - rewrite (proj2 (Z.ltb_lt _ _)) by (unfold MAX_PUTBUF_LEN; lia).
    destruct (putbuf_ret pds pd s buffer (take 300 data) Ha) as (s1 & E1 & P1);
      [by apply user_bytes_take|]. rewrite length_take_le in E1 by lia. call_ret E1.
    replace (u32 (Z.of_nat (300 * S k + r) - MAX_PUTBUF_LEN)) with (Z.of_nat (300 * k + r))
      by (rewrite u32_id; unfold in_u32, MAX_PUTBUF_LEN; lia).
    destruct (IH fuel s1) as (s2 & E2 & P2); [apply P1|by eapply prints_user_bytes|lia|lia|lia|].
    exists s2. split; [done|]. unfold repeated.
    change (mjoin (replicate (S k) (take 300 data))) with (take 300 data ++ mjoin (replicate k (take 300 data))).
    rewrite <- app_assoc. by eapply prints_trans.
Qed.

Context `{!SyscallNumbersLaws}.

Lemma user_bytes_addr pd w v x : user_bytes pd w v (le 4 x) → user_addr v ∧ u32 v = v.
Proof.
  intros Hl. apply user_bytes_cons in Hl as [[Hu _] _]. split; [done|]. destruct Hu, PHYS_BASE_spec.
  apply u32_id. unfold in_u32. lia.
Qed.

Lemma dispatch_write max_string unknown sp sp0 s :
  dispatch max_string unknown SYS_WRITE sp sp0 s =
    ('(fd, sp) ← grab_arg sp; '(buffer, sp) ← grab_arg sp; '(size, _) ← grab_arg sp;
     r ← sys_write (s32 fd) buffer size sp0; pure (Some r)) s.
Proof.
  pose proof syscall_numbers_differ as Hnd. unfold syscall_numbers in Hnd.
  rewrite !NoDup_cons, !not_elem_of_cons in Hnd. destruct_and!. unfold dispatch.
  by rewrite !(proj2 (Z.eqb_neq SYS_WRITE _)), Z.eqb_refl by congruence.
Qed.

(** [sys_write] of a mapped buffer to the console. *)
Lemma sys_write_console pds pd s buffer data sp0 (k r : nat) :
  let n := Z.of_nat (length data) in
  aspace pds pd (svm s) → 0 < n < 2147483648 → user_bytes pd (svm s) buffer data →
  length data = (300 * k + r)%nat → (0 < r ≤ 300)%nat →
  ∃ s', sys_write STD_OUT buffer n sp0 s = Ret (Val n, s') ∧ prints pds pd s (repeated k r data) s'.
Proof.
  intros n Ha Hn Hdata Hlen Hr. unfold sys_write. change (STD_OUT =? STD_IN) with false. cbv iota.
  assert (∃ b (l : list Z), data = b :: l) as (b & l & Edata) by (destruct data; [simpl in n; lia|eauto]).
  assert (is_valid_uaddr buffer sp0 false s = Ret (Val true, s)) as Ev.
  { rewrite Edata in Hdata. apply user_bytes_cons in Hdata as [[Hu Hb] _]. by eapply is_valid_mapped. }
  call_ret Ev. cbn [negb]. replace (Z.to_nat n) with (length data) by (unfold n; by rewrite Nat2Z.id).
  call_ret (check_bytes_mapped pds pd s buffer sp0 data Ha Hdata).
  change (STD_OUT =? STD_OUT) with true. cbv iota.
  destruct (putbuf_loop_ret pds pd buffer data k r (S (Z.to_nat (n / MAX_PUTBUF_LEN))) s)
    as (s' & E & Hp); [done..|lia|lia|lia| |lia|].
  { apply Nat.lt_succ_r. apply Nat2Z.inj_le. rewrite Z2Nat.id by (apply Z.div_pos; [lia|done]).
    apply Z.div_le_lower_bound; [done|]. unfold MAX_PUTBUF_LEN. lia. }
  exists s'. split; [|done]. rewrite <- Hlen in E. fold n in E. call_ret E.
  unfold pure. rewrite s32_id; [done|]. unfold in_s32. lia.
Qed.

(** C30. The system call [write (1, buffer, n)] of a user program: the number and the
    arguments on its stack, [n] mapped bytes [data] in the buffer.  The call returns
    [n].  Up to 300 bytes are printed as they are; of a longer buffer the first 300
    bytes are printed again for every further chunk. *)
Theorem write_call_prints max_string unknown pds pd s fr buffer data (k r : nat) :
  let n := Z.of_nat (length data) in
  aspace pds pd (svm s) → Exception.esp fr ≠ 0 → 0 < n < 2147483648 →
  user_bytes pd (svm s) (Exception.esp fr) (le 4 SYS_WRITE ++ le 4 STD_OUT ++ le 4 buffer ++ le 4 n) →
  user_bytes pd (svm s) buffer data → length data = (300 * k + r)%nat → (0 < r ≤ 300)%nat →
  ∃ s', syscall_handler max_string unknown fr s = Ret (Val (fr <| eax := n |>), s') ∧
    prints pds pd s (if bool_decide (n ≤ 300) then data else repeated k r data) s'.
Proof.
  intros n Ha Hsp Hn Hargs Hdata Hlen Hr. unfold syscall_handler.
  rewrite (proj2 (Z.eqb_neq _ _)) by done. call_ret by done.
  set (sp := Exception.esp fr) in *.
  apply user_bytes_app in Hargs as [Hnum Hargs]. apply user_bytes_app in Hargs as [Hfd Hargs].
  apply user_bytes_app in Hargs as [Hbuf Hsz]. rewrite !length_le in *.
  change (Z.of_nat 4) with 4 in *.
  assert (in_u32 SYS_WRITE) as Hw.
  { pose proof syscall_numbers_words as Hall. unfold syscall_numbers in Hall.
    rewrite !Forall_cons in Hall. tauto. }
  assert (user_addr buffer ∧ u32 buffer = buffer) as [Hub Eb].
  { destruct data as [|b l]; [simpl in n; lia|]. apply user_bytes_cons in Hdata as [[Hu _] _].
    split; [done|]. destruct Hu, PHYS_BASE_spec. apply u32_id. unfold in_u32. lia. }
  destruct (grab_arg_ret pds pd s sp SYS_WRITE Ha Hnum) as (s1 & E1 & S1). call_ret E1.
  rewrite (u32_id SYS_WRITE), (proj2 (user_bytes_addr _ _ _ _ Hfd)) by done.
  assert (∃ s', dispatch max_string unknown SYS_WRITE (sp + 4) sp s1 = Ret (Val (Some n), s') ∧
    prints pds pd s (repeated k r data) s') as (s' & E & Hp).
  { rewrite dispatch_write.
    pose proof (λ v bs, same_user_user_bytes _ _ _ _ v bs S1) as T1.
    destruct (grab_arg_ret pds pd s1 (sp + 4) STD_OUT) as (s2 & E2 & S2); [apply S1|by apply T1|].
    call_ret E2. pose proof (same_user_trans _ _ _ _ _ S1 S2) as S12.
    pose proof (λ v bs, same_user_user_bytes _ _ _ _ v bs S12) as T2.
    rewrite (proj2 (user_bytes_addr _ _ _ _ Hbuf)).
    destruct (grab_arg_ret pds pd s2 (sp + 4 + 4) buffer) as (s3 & E3 & S3); [apply S2|by apply T2|].
    call_ret E3. pose proof (same_user_trans _ _ _ _ _ S12 S3) as S13.
    pose proof (λ v bs, same_user_user_bytes _ _ _ _ v bs S13) as T3.
    rewrite (proj2 (user_bytes_addr _ _ _ _ Hsz)).
    destruct (grab_arg_ret pds pd s3 (sp + 4 + 4 + 4) n) as (s4 & E4 & S4); [apply S3|by apply T3|].
    call_ret E4. pose proof (same_user_trans _ _ _ _ _ S13 S4) as S14.
    rewrite Eb, (u32_id n) by (unfold in_u32; lia). change (s32 (u32 STD_OUT)) with STD_OUT.
    destruct (sys_write_console pds pd s4 buffer data sp k r) as (s5 & E5 & P5);
      [apply S4|done|by eapply same_user_user_bytes|done|done|].
    fold n in E5. call_ret E5. exists s5. split; [done|].
    change (repeated k r data) with ([] ++ repeated k r data). eapply prints_trans; [|exact P5].
    by apply prints_nothing. }
  call_ret E. exists s'. unfold pure. rewrite u32_id by (unfold in_u32; lia). split; [done|].
  case_bool_decide as Hle; [|done].
  replace (repeated k r data) with data in Hp; [done|]. unfold repeated.
  assert (k = 0 ∧ r = length data)%nat as [-> ->] by lia. by rewrite firstn_all.
Qed.
End spec.
