(* ===== verification/SyscallBaseSpec.v ===== *)
(** * Correctness of the system calls without paging

    Pointers to memory that the process does not have end it; but [sys_read] checks
    the first byte of its buffer only, and goes on into the memory of the kernel. *)
From S2P Require Import Prelude CInt Ext Interrupt Mmu PageDir Swap PageTable UserFiles Frame Page VmSpec UserCall Exception UserMem UserMemSpec Load LoadSpec StackSpec Syscall SyscallSpec NoPaging SyscallBase.
Open Scope Z_scope.

Section spec.
Context `{VaddrLaws, !Pte, !PteLaws, KernelMemory, SyscallNumbers, DirectoryNumbers}.
Context {dev files : Type} `{BlockDeviceLaws dev, FileCallsLaws files}.
Context `{StockKernel (sys dev files), !ProcessCalls (sys dev files)}.
Implicit Types (s : sys dev files) (w : vm dev files) (uaddr v esp fd f c : Z) (pds : gset Z).

#[local] Existing Instance stock_faults.

(** ** Pointers that are not valid *)

(** An address of the kernel, or one that is not mapped. *)
Definition invalid pd v w : Prop :=
  PHYS_BASE ≤ v ∨ (user_addr v ∧ pagedir_get_page (Some pd) v (vmmu w) = Ret None).

Lemma is_valid_cases pds pd s v : aspace pds pd (svm s) → 0 ≤ v →
  ∃ b, is_valid_uaddr v s = Ret (Val b, s) ∧ (invalid pd v (svm s) → b = false).
Proof.
  intros Ha Hv. unfold is_valid_uaddr. destruct (is_user_vaddr v) eqn:Eu; cbn [negb].
  2: { by exists false. }
  apply is_user_vaddr_spec in Eu. assert (user_addr v) as Hu by done.
  call_ret (translate_user_ret pds pd s v Ha Hu). eexists. split; [reflexivity|].
  intros [Hk|[_ Hn]]; [lia|]. rewrite (pagedir_get_page_ret pds) in Hn by (done || apply Ha).
  injection Hn as Hn. by rewrite Hn.
Qed.

Lemma check_cases pds pd s v c : aspace pds pd (svm s) → has_self s c → 0 ≤ v →
  check v s = Ret (Exits, killed s c) ∨ (check v s = Ret (Val tt, s) ∧ ¬ invalid pd v (svm s)).
Proof.
  intros Ha Hc Hv. destruct (is_valid_cases pds pd s v Ha Hv) as (b & E & Hb).
  unfold check. rewrite (call_bind_Val _ _ _ _ _ E). destruct b; [|left; by apply sys_exit_ret].
  right. split; [done|]. intros Hi. by discriminate (Hb Hi).
Qed.

Lemma check_invalid pds pd s v c : aspace pds pd (svm s) → has_self s c → 0 ≤ v →
  invalid pd v (svm s) → check v s = Ret (Exits, killed s c).
Proof. intros Ha Hc Hv Hi. by destruct (check_cases pds pd s v c Ha Hc Hv) as [?|[_ Hn]]. Qed.

(** One byte that is not valid is found wherever it is. *)
Lemma check_bytes_invalid pds pd s c n uaddr (i : nat) : aspace pds pd (svm s) → has_self s c →
  0 ≤ uaddr → uaddr + Z.of_nat n ≤ 4294967296 → (i < n)%nat → invalid pd (uaddr + Z.of_nat i) (svm s) →
  check_bytes n uaddr s = Ret (Exits, killed s c).
Proof.
  intros Ha Hc. revert uaddr i. induction n as [|n IH]; intros uaddr i Hu Hle Hi Hinv; [lia|].
  cbn [check_bytes]. destruct (check_cases pds pd s uaddr c Ha Hc Hu) as [E|[E Hok]].
  { by rewrite (call_bind_Exits _ _ _ _ E). }
  call_ret E. destruct i as [|i]; [by rewrite Z.add_0_r in Hinv|].
  rewrite u32_id by (unfold in_u32; lia). apply (IH (uaddr + 1) i); [lia..|].
  by replace (uaddr + 1 + Z.of_nat i) with (uaddr + Z.of_nat (S i)) by lia.
Qed.

Lemma same_user_invalid pds pd s s' v : same_user pds pd s s' → invalid pd v (svm s) → invalid pd v (svm s').
Proof. intros Hs [?|[Hu Hn]]; [by left|]. right. split; [done|]. by rewrite (su_map _ _ _ _ Hs). Qed.

Lemma same_user_self pds pd s s' c : same_user pds pd s s' → has_self s c → has_self s' c.
Proof. intros [-> _ _ _]. done. Qed.

(** A string that runs into memory that is not valid. *)
Lemma check_string_invalid pds pd (l : list Z) s c fuel name :
  aspace pds pd (svm s) → has_self s c → user_bytes pd (svm s) name l → 0 ∉ l → l ≠ [] →
  invalid pd (name + len l) (svm s) → (length l ≤ fuel)%nat →
  ∃ s', check_string fuel name s = Ret (Exits, killed s' c) ∧ same_user pds pd s s'.
Proof.
  revert s fuel name. induction l as [|b l IH]; intros s fuel name Ha Hc Hl Hz Hne Hinv Hf; [done|].
  destruct fuel as [|fuel]; [simpl in Hf; lia|]. cbn [check_string].
  apply user_bytes_cons in Hl as [[Hu Hb] Hl].
  destruct (load_byte_ret pds pd s name b Ha Hu Hb) as (s1 & E1 & S1). call_ret E1.
  rewrite (proj2 (Z.eqb_neq b 0)) by set_solver. rewrite user_addr_u32 by done.
  pose proof (same_user_self _ _ _ _ _ S1 Hc) as Hc1. pose proof (su_aspace _ _ _ _ S1) as Ha1.
  pose proof (same_user_invalid _ _ _ _ _ S1 Hinv) as Hinv1.
  replace (name + len (b :: l)) with (name + 1 + len l) in Hinv1 by (simpl; lia).
  destruct (check_cases pds pd s1 (name + 1) c) as [E2|[E2 Hok]]; [done|done|unfold user_addr in Hu; lia| |].
  { exists s1. by rewrite (call_bind_Exits _ _ _ _ E2). }
  call_ret E2. destruct l as [|b2 l]; [simpl in Hinv1; by rewrite Z.add_0_r in Hinv1|].
  destruct (IH s1 fuel (name + 1)) as (s2 & E & S2); try done.
  - by eapply same_user_user_bytes.
  - set_solver.
  - simpl in Hf |- *. lia.
  - exists s2. split; [done|]. by eapply same_user_trans.
Qed.

(** C20. The calls of user-programs that look at all of their memory end a process with status -1
    for any byte of it that is in the kernel or not mapped: the four bytes of the call
    number, every byte of the buffer of [sys_write], and the string of [sys_exec] up
    to its end; the other pointers are looked at where they point.  Nothing else
    happens, accessed bits apart. *)
Theorem invalid_memory_ends_process max_string no_return unknown pds pd s c :
  aspace pds pd (svm s) → has_self s c →
  (∀ fr i, 0 ≤ i < 4 → 0 ≤ Exception.esp fr → Exception.esp fr + 4 ≤ 4294967296 →
     invalid pd (Exception.esp fr + i) (svm s) →
     SyscallBase.syscall_handler max_string no_return unknown fr s = Ret (Exits, killed s c)) ∧
  (∀ fd buffer size i, 0 ≤ i < size → 0 ≤ buffer → buffer + size ≤ 4294967296 →
     invalid pd (buffer + i) (svm s) →
     SyscallBase.sys_write fd buffer size s = Ret (Exits, killed s c)) ∧
  (∀ name l, user_bytes pd (svm s) name l → 0 ∉ l → 0 ≤ name → invalid pd (name + len l) (svm s) →
     (length l ≤ max_string)%nat →
     ∃ s', SyscallBase.sys_exec max_string name s = Ret (Exits, killed s' c) ∧ same_user pds pd s s') ∧
  (∀ p, 0 ≤ p → invalid pd p (svm s) →
     (∀ fd n, SyscallBase.sys_read fd p n s = Ret (Exits, killed s c)) ∧
     (∀ n, SyscallBase.sys_create max_string p n s = Ret (Exits, killed s c)) ∧
     SyscallBase.sys_remove max_string p s = Ret (Exits, killed s c) ∧
     SyscallBase.sys_open max_string p s = Ret (Exits, killed s c)).
Proof.
  intros Ha Hc. split; [|split; [|split]].
  - intros fr i Hi Hlo Hhi Hinv. unfold SyscallBase.syscall_handler, SyscallBase.grab_arg.
    assert (check_bytes 4 (Exception.esp fr) s = Ret (Exits, killed s c)) as E.
    { apply (check_bytes_invalid pds pd s c 4 _ (Z.to_nat i)); try done; [lia|by rewrite Z2Nat.id by lia]. }
    by rewrite (call_bind_Exits _ _ _ _ (call_bind_Exits _ _ _ _ E)).
  - intros fd buffer size i Hi Hlo Hhi Hinv. unfold SyscallBase.sys_write.
    destruct (is_valid_cases pds pd s buffer Ha Hlo) as (b & E & _). call_ret E.
    destruct (negb b || (fd =? SyscallBase.STD_IN)); [by apply (sys_exit_ret (A := Z))|].
    assert (check_bytes (Z.to_nat size) buffer s = Ret (Exits, killed s c)) as Ec.
    { apply (check_bytes_invalid pds pd s c _ _ (Z.to_nat i)); try done; [lia..|by rewrite Z2Nat.id by lia]. }
    by rewrite (call_bind_Exits _ _ _ _ Ec).
  - intros name l Hl Hz Hn Hinv Hf. unfold SyscallBase.sys_exec.
    destruct (check_cases pds pd s name c Ha Hc Hn) as [E|[E Hok]].
    { exists s. rewrite (call_bind_Exits _ _ _ _ E). split; [done|]. by apply same_user_refl. }
    destruct (decide (l = [])) as [->|Hne]; [simpl in Hinv; by rewrite Z.add_0_r in Hinv|].
    destruct (check_string_invalid pds pd l s c max_string name) as (s' & Es & S); try done.
    exists s'. call_ret E. by rewrite (call_bind_Exits _ _ _ _ Es).
  - intros p Hp Hinv. pose proof (check_invalid pds pd s p c Ha Hc Hp Hinv) as E.
    split; [|split; [|split]].
    + intros fd n. unfold SyscallBase.sys_read. destruct (is_valid_cases pds pd s p Ha Hp) as (b & Eb & Hb).
      rewrite (Hb Hinv) in Eb. call_ret Eb. by apply (sys_exit_ret (A := Z)).
    + intros n. unfold SyscallBase.sys_create. by rewrite (call_bind_Exits _ _ _ _ E).
    + unfold SyscallBase.sys_remove. by rewrite (call_bind_Exits _ _ _ _ E).
    + unfold SyscallBase.sys_open. by rewrite (call_bind_Exits _ _ _ _ E).
Qed.

(** ** Reading past the end of user memory *)

Definition stack_writable pd w : Prop :=
  ∀ u, in_pages stack_base 1 u → is_flag PTE_W (Some pd) u (vmmu w) = Ret true.

Lemma store_any_stack pds pd k page s v (b : Z) :
  stack_mem pds pd k page s → stack_writable pd (svm s) → in_pages stack_base 1 v →
  ∃ s', store_any v b s = Ret (Val tt, s') ∧
    stack_mem pds pd k (<[Z.to_nat (v - stack_base) := b]> page) s' ∧ only_frame pd k s s'.
Proof.
  intros Hsf Hwr Hin. pose proof (stack_user v Hin) as Hv. pose proof Hsf as [Has _ _ _].
  destruct (store_byte_stack pds pd k page s v b Hsf Hin) as (s' & E & Hsf' & Ho).
  exists s'. split; [|done]. unfold store_any. rewrite (proj2 (is_user_vaddr_spec v)) by apply Hv. cbn [negb].
  call_ret (translate_user_ret pds pd s v Has Hv).
  destruct Has as [(t & Ht & Epd) _ _].
  call_ret by (unfold vm_get, get, thread_current; rewrite Ht; ret; rewrite Epd, Hwr by done; reflexivity).
  rewrite andb_false_r. by call_ret by reflexivity.
Qed.

(** The part of a store that is below [PHYS_BASE]. *)
Lemma store_range_stack pds pd k (l rest : list Z) page s v :
  stack_mem pds pd k page s → stack_writable pd (svm s) → stack_base ≤ v → v + len l = PHYS_BASE →
  ∃ s', store_range (l ++ rest) v s = store_range rest PHYS_BASE s' ∧
    stack_mem pds pd k (splice (Z.to_nat (v - stack_base)) l page) s' ∧ only_frame pd k s s'.
Proof.
  revert page s v. induction l as [|b l IH]; intros page s v Hsf Hwr Hv Hle; simpl in Hle |- *.
  { exists s. rewrite splice_nil. replace v with PHYS_BASE by lia. split; [done|]. split; [done|apply only_frame_refl]. }
  pose proof (sf_page _ _ _ _ _ Hsf) as [_ Hlen]. pose proof stack_base_range as (? & ? & ?).
  destruct (store_any_stack pds pd k page s v b Hsf Hwr) as (s1 & E1 & Hsf1 & Ho1); [unfold in_pages; lia|].
  call_ret E1. rewrite u32_id by (unfold in_u32; lia).
  destruct (IH _ s1 (v + 1) Hsf1) as (s2 & E2 & Hsf2 & Ho2); [|lia..|].
  { intros u Hu. rewrite (of_writable _ _ _ _ Ho1) by (by apply stack_user). by apply Hwr. }
  exists s2. split; [exact E2|]. split; [|by eapply only_frame_trans].
  rewrite splice_cons by lia.
  by replace (S (Z.to_nat (v - stack_base))) with (Z.to_nat (v + 1 - stack_base)) by lia.
Qed.

(** C19. [sys_read] of user-programs checks the first byte of the buffer only: with a buffer on the
    stack page and more bytes in the file than there are up to [PHYS_BASE], it fills the
    stack page to its end and goes on to store the next byte of the file in the first
    byte of the memory of the kernel. *)
Theorem sys_read_reaches_kernel pds pd k page s fd f buffer size :
  let fs := vfiles (svm s) in
  let b := slice (Z.to_nat (file_tell f fs)) (Z.to_nat size) (file_data f fs) in
  let room := Z.to_nat (PHYS_BASE - buffer) in
  stack_mem pds pd k page s → stack_writable pd (svm s) →
  SyscallBase.fd_to_file fd s = Ret (Val (Some f), s) → SyscallBase.MIN_USER_FD ≤ fd →
  stack_base ≤ buffer < PHYS_BASE → 0 ≤ size < 2147483648 → 0 ≤ file_tell f fs → (room < length b)%nat →
  ∃ s' x, b !! room = Some x ∧
    stack_mem pds pd k (splice (Z.to_nat (buffer - stack_base)) (take room b) page) s' ∧
    SyscallBase.sys_read fd buffer size s =
      ((kernel_store PHYS_BASE x;; store_range (drop (S room) b) (u32 (PHYS_BASE + 1)));;
       pure (Z.of_nat (length b))) s'.
Proof.
  intros fs b room Hsf Hwr Hfd Hfd2 Hbuf Hsize Hpos Hroom. pose proof stack_base_range as (? & ? & ?).
  destruct (lookup_lt_is_Some_2 b room Hroom) as [x Hx].
  destruct (file_read_spec f size fs) as (fs' & Erd & _); [lia|done|]. fold b in Erd.
  set (s1 := s <| svm := (svm s) <| vfiles := fs' |> |>).
  assert (stack_mem pds pd k page s1) as Hsf1 by (destruct Hsf as [[] ? ? ?]; by split; [split|..]).
  destruct (store_range_stack pds pd k (take room b) (drop room b) page s1 buffer Hsf1 Hwr)
    as (s' & E & Hsf' & _); [lia|rewrite length_take; unfold room in *; lia|].
  rewrite take_drop in E. rewrite (drop_S b x room Hx) in E. exists s', x. split; [done|]. split; [done|].
  assert (in_pages stack_base 1 buffer) as Hin by (unfold in_pages; lia).
  assert (is_valid_uaddr buffer s = Ret (Val true, s)) as Ev.
  { unfold is_valid_uaddr. rewrite (proj2 (is_user_vaddr_spec buffer)) by lia. cbn [negb].
    pose proof Hsf as [Has Hmap _ _]. pose proof (stack_user buffer Hin) as Hu.
    call_ret (translate_user_ret pds pd s buffer Has Hu). specialize (Hmap buffer Hin).
    rewrite (pagedir_get_page_ret pds) in Hmap by (done || apply Has). by injection Hmap as ->. }
  unfold SyscallBase.sys_read. call_ret Ev. unfold SyscallBase.MIN_USER_FD in Hfd2.
  rewrite (proj2 (Z.eqb_neq fd SyscallBase.STD_OUT)), (proj2 (Z.eqb_neq fd SyscallBase.STD_IN))
    by (unfold SyscallBase.STD_OUT, SyscallBase.STD_IN; lia).
  cbn [negb orb]. call_ret Hfd. rewrite s32_id by (unfold in_s32; lia).
  assert (fs_do (file_read f size) s = Ret (Val b, s1)) as Er.
  { unfold fs_do, vm_do. fold fs. by rewrite Erd. }
  call_ret Er. rewrite (call_bind_ext _ _ _ _ _ E). cbn [store_range]. unfold store_any.
  assert (is_user_vaddr PHYS_BASE = false) as ->; [|done].
  apply not_true_is_false. rewrite is_user_vaddr_spec. lia.
Qed.
End spec.
