(* ===== verification/SyscallSample.v ===== *)
(** * A process on which the theorems of SyscallSpec.v apply

    The process of VmSample.v with its stack and a buffer in its one page. *)
From stdpp Require Import sorting.
From S2P Require Import Prelude CInt Ext Mmu PageDir Swap PageTable UserFiles Frame VmSpec VmSample UserCall Exception UserMem UserMemSpec Syscall SyscallSpec.
Open Scope Z_scope.

#[local] Existing Instances Ia32.vaddr Ia32.vaddr_laws Ia32.pte Ia32.pte_laws.
#[local] Existing Instances Ramdisk.ops Ramdisk.laws file_map_ops.

#[local] Instance numbers : SyscallNumbers := {|
  SYS_HALT := 0; SYS_EXIT := 1; SYS_EXEC := 2; SYS_WAIT := 3; SYS_CREATE := 4; SYS_REMOVE := 5;
  SYS_OPEN := 6; SYS_FILESIZE := 7; SYS_READ := 8; SYS_WRITE := 9; SYS_SEEK := 10; SYS_TELL := 11;
  SYS_CLOSE := 12; SYS_MMAP := 13; SYS_MUNMAP := 14
|}.

#[local] Instance numbers_laws : SyscallNumbersLaws.
Proof.
  split.
  - apply (bool_decide_unpack _). vm_compute. exact I.
  - unfold syscall_numbers, in_u32. repeat constructor; discriminate.
Qed.

#[local] Instance selectors : Selectors := {| SEL_KCSEG := 8; SEL_UCSEG := 27 |}.
#[local] Instance kernel_memory : KernelMemory := {| kernel_byte _ := 0; kernel_esp := 3221229568 |}.

(** Files without names or positions: enough for the descriptors. *)
#[local] Instance file_map_calls : FileCalls file_map := {|
  filesys_create _ _ fs := (false, fs);
  filesys_remove _ fs := (false, fs);
  filesys_open _ fs := (None, fs);
  file_read f n fs := (take (Z.to_nat n) (default [] (fs !! f)), fs);
  file_write f b fs := (Z.of_nat (length b), <[f := b]> fs);
  file_seek _ _ fs := fs;
  file_tell _ _ := 0;
  file_reopen f fs := (Some f, fs);
  file_close _ fs := fs;
  file_deny_write _ fs := fs
|}.

Definition msys : Type := sys Ramdisk.disk file_map.

#[local] Instance no_processes : ProcessCalls msys := {|
  process_execute _ s := Ret (Val (-1), s);
  process_wait _ s := Ret (Val (-1), s)
|}.

(** The arguments of [write (1, buffer, 3)] at the start of the page, the text at 100. *)
Definition buffer : Z := code_page + 100.
Definition text : list Z := [72; 105; 10].
Definition user_page : list Z :=
  splice 100 text (splice 0 (le 4 SYS_WRITE ++ le 4 STD_OUT ++ le 4 buffer ++ le 4 3) (page_of 0)).

(** Two files are open, as 2 and 3. *)
Definition msys0 : msys := MkSys (full_vm <| ram := {[ code_frame := user_page ]} |>)
  {[ 1 := MkUproc [112] [] false (Some 50) true None [71; 70] ]}
  {[ 50 := MkChild 9 0 0 ]} {[ 70 := MkFileStore 5 2 false; 71 := MkFileStore 6 3 false ]}
  [62] [] [Some 72] [] 0 ∅.

Lemma msys0_aspace : aspace sample_pds user_pd (svm msys0).
Proof.
  split.
  - eexists. split; reflexivity.
  - split; [apply sample_in; by right|exact user_pd_page].
  - exact mapped_mmu_wf.
Qed.

Lemma msys0_table : fd_table msys0 [(3, 6); (2, 5)].
Proof.
  eexists. split; [reflexivity|]. split; [repeat constructor; set_solver|].
  repeat constructor; eexists; reflexivity.
Qed.

Lemma msys0_fds : fds_ok [(3, 6); (2, 5)].
Proof. split; repeat constructor; discriminate. Qed.

Lemma msys0_self : has_self msys0 50.
Proof. eexists _, _. split_and!; reflexivity. Qed.

Ltac user_bytes := repeat (apply user_bytes_cons; split; [split; [by split|vm_compute; reflexivity]|]);
  intros ? ? ?; done.

Lemma create_fd_roundtrip_witness :
  ∃ s', create_fd (Some 8) false msys0 = Ret (Val (next_fd [(3, 6); (2, 5)]), s') ∧
    fd_table s' ((next_fd [(3, 6); (2, 5)], 8) :: [(3, 6); (2, 5)]) ∧
    fds_ok ((next_fd [(3, 6); (2, 5)], 8) :: [(3, 6); (2, 5)]) ∧
    next_fd [(3, 6); (2, 5)] ∉ [(3, 6); (2, 5)].*1 ∧
    ∀ fd g, (fd, g) ∈ (next_fd [(3, 6); (2, 5)], 8) :: [(3, 6); (2, 5)] →
      fd_to_file fd s' = Ret (Val (Some g), s').
Proof.
  apply (create_fd_roundtrip msys0 [(3, 6); (2, 5)] 8 false 72 []).
  - exact msys0_table.
  - exact msys0_fds.
  - reflexivity.
  - reflexivity.
  - by split.
Defined.

(** Closing descriptor 9, which was never opened, closes 2. *)
Lemma sys_close_correct_witness :
  ∃ s', sys_close 9 msys0 = Ret (Val tt, s') ∧
    fd_table s' (filter (λ x, x.1 ≠ 2) [(3, 6); (2, 5)]) ∧
    fds_ok (filter (λ x, x.1 ≠ 2) [(3, 6); (2, 5)]) ∧ svm s' = svm msys0.
Proof.
  destruct (sys_close_correct msys0 [(3, 6); (2, 5)] 9 msys0_table msys0_fds) as (_ & Hno & _).
  apply (Hno [(3, 6)] 2 5).
  - reflexivity.
  - discriminate.
  - set_solver.
Defined.

Lemma kernel_pointers_end_process_witness :
  sys_read 2 3221225472 4 code_page msys0 = Ret (Exits, killed msys0 50).
Proof.
  assert (PHYS_BASE ≤ 3221225472) as Hle by (apply Z.le_refl).
  destruct (kernel_pointers_end_process 100 (λ _, []) msys0 50 3221225472 Hle msys0_self) as (Hr & _).
  apply Hr.
Defined.

Lemma write_call_prints_witness :
  ∃ s', syscall_handler 100 (λ _, []) (MkFrame 48 0 27 code_page 0) msys0
      = Ret (Val (MkFrame 48 0 27 code_page 3), s') ∧
    prints sample_pds user_pd msys0 text s'.
Proof.
  apply (write_call_prints 100 (λ _, []) sample_pds user_pd msys0 (MkFrame 48 0 27 code_page 0) buffer text 0 3).
  - exact msys0_aspace.
  - discriminate.
  - by split.
  - user_bytes.
  - user_bytes.
  - reflexivity.
  - simpl. lia.
Defined.

(** [sys_mmap] does not look whether its address is one of the process: the first page
    of the kernel becomes a page of the file in the table of the process. *)
Definition mapping_sys : msys := msys0 <| mallocs := [Some 90; Some 73] |>.

Lemma sys_mmap_takes_kernel_address :
  ∃ mapid s', sys_mmap 2 PHYS_BASE mapping_sys = Ret (Val mapid, s') ∧ mapid ≠ -1 ∧
    find_upage PHYS_BASE (svm s') = Ret (Some 90) ∧ pages (svm s') !! 90 =
      Some (MkPage (Some user_pd) None PHYS_BASE false (Some 5) 0 true None).
Proof.
  do 2 eexists. split; [vm_compute; reflexivity|]. split; [discriminate|]. split; reflexivity.
Qed.
