(* ===== verification/NoPagingSample.v ===== *)
(** * A process of user-programs on which the theorems about it apply

    Its program is file 5 of LoadSample.v; the pools have two pages for it. *)
From stdpp Require Import sorting.
From S2P Require Import Prelude CInt Ext Mmu PageDir Swap PageTable UserFiles Elf Frame VmSpec VmSample UserCall Exception UserMem UserMemSpec Load LoadSpec StackSpec LoadExec LoadSample Syscall SyscallSpec NoPaging NoPagingSpec SyscallBase SyscallBaseSpec.
Open Scope Z_scope.

#[local] Existing Instances Ia32.vaddr Ia32.vaddr_laws Ia32.pte Ia32.pte_laws.
#[local] Existing Instances Ramdisk.ops Ramdisk.laws.
#[local] Existing Instances PosFiles.ops PosFiles.laws PosFiles.calls PosFiles.calls_laws.

#[local] Instance kernel_memory : KernelMemory := {| kernel_byte _ := 0; kernel_esp := 3221229568 |}.

#[local] Instance numbers : SyscallNumbers := {|
  SYS_HALT := 0; SYS_EXIT := 1; SYS_EXEC := 2; SYS_WAIT := 3; SYS_CREATE := 4; SYS_REMOVE := 5;
  SYS_OPEN := 6; SYS_FILESIZE := 7; SYS_READ := 8; SYS_WRITE := 9; SYS_SEEK := 10; SYS_TELL := 11;
  SYS_CLOSE := 12; SYS_MMAP := 13; SYS_MUNMAP := 14
|}.
#[local] Instance directory_numbers : DirectoryNumbers := {|
  SYS_CHDIR := 15; SYS_MKDIR := 16; SYS_READDIR := 17; SYS_ISDIR := 18; SYS_INUMBER := 19
|}.

Definition psys : Type := sys Ramdisk.disk PosFiles.t.

(** A kernel fault ends the process; pages of the pool are handed out as they were. *)
#[local] Instance stock : StockKernel psys := {|
  pool_page _ := page_of 204;
  stock_faults _ _ := thread_exit;
  stock_destroy _ := pure tt;
  kernel_store _ _ := pure tt
|}.

#[local] Instance no_processes : ProcessCalls psys := {|
  process_execute _ s := Ret (Val (-1), s);
  process_wait _ s := Ret (Val (-1), s)
|}.

(** The pages of the kernel and of the user pool. *)
Definition page_at (i : Z) : Z := user_pd + i * 4096.

Lemma page_at_kernel i : 0 ≤ i < 1024 → kernel_page (page_at i).
Proof.
  intros Hi. unfold kernel_page, page_at, user_pd. change PHYS_BASE with 3221225472. split; [lia|].
  exists (786433 + i). unfold PGSIZE. lia.
Qed.

Lemma page_at_frame i m : 0 ≤ i < 1000 → init_ram_pages m = 1024 → frame_ok m (page_at i).
Proof.
  intros Hi Hm. split; [apply page_at_kernel; lia|]. rewrite Hm. change (vtop (page_at i)) with (page_at i - 3221225472).
  change PTSHIFT with 12. rewrite Z.shiftr_div_pow2 by done. unfold page_at, user_pd.
  apply Z.div_lt_upper_bound; lia.
Qed.

Definition pool_allocs : list allocs :=
  [MkAllocs (Some (page_at 10)) None (Some (page_at 20)); MkAllocs (Some (page_at 11)) None (Some (page_at 21));
   MkAllocs (Some (page_at 12)) None (Some (page_at 22)); MkAllocs (Some (page_at 13)) None (Some (page_at 23))].

Lemma pool_allocs_good (s : psys) : vmmu (svm s) = sample_mmu → ram (svm s) = ∅ →
  Forall (pool_alloc (svm s)) pool_allocs.
Proof.
  intros Em Er. repeat constructor; eexists _, _; rewrite Em, Er; (split_and!; [reflexivity..| | | | |];
    [by apply page_at_kernel|by vm_compute|by apply page_at_frame|reflexivity|reflexivity]).
Qed.

Lemma pool_allocs_apart :
  NoDup (al_table <$> pool_allocs) ∧ NoDup (al_page <$> pool_allocs) ∧ Some new_dir ∉ (al_table <$> pool_allocs).
Proof. split_and!; apply (bool_decide_unpack _); by vm_compute. Qed.

Definition pool_sys : psys :=
  load_sys <| svm := load_vm <| ram := ∅ |> |> <| fetches := pool_allocs |>.

Lemma pool_sys_loading : pool_loading sample_pds user_pd pool_sys.
Proof.
  split.
  - split; [by eexists| |exact sample_mmu_wf]. split; [apply sample_in; by right|exact user_pd_page].
  - discriminate.
  - by apply pool_allocs_good.
  - apply pool_allocs_apart.
  - apply pool_allocs_apart.
  - intros v a Hv E. change (vmmu (svm pool_sys)) with sample_mmu in E. by rewrite load_vm_unmapped in E.
Qed.

Lemma pool_unmapped v : user_addr v → unmapped user_pd v (svm pool_sys) = true.
Proof.
  intros Hv. unfold unmapped. change (vmmu (svm pool_sys)) with sample_mmu. by rewrite load_vm_unmapped.
Qed.

(** The file has 105 bytes: a round that asks for 200 fails, and leaves no trace. *)
Lemma load_page_all_or_nothing_witness :
  ∃ s', NoPaging.load_page 5 code_page 200 true pool_sys = Ret (Val false, s') ∧
    pool_loading sample_pds user_pd s' ∧
    ram (svm s') = ram (svm pool_sys) ∧ vmmu (svm s') = vmmu (svm pool_sys).
Proof.
  pose proof (load_page_all_or_nothing sample_pds user_pd pool_sys
    (MkAllocs (Some (page_at 10)) None (Some (page_at 20))) (MkAllocs (Some (page_at 11)) None (Some (page_at 21)))
    (drop 2 pool_allocs) 5 code_page 200 true pool_sys_loading eq_refl code_page_user
    ltac:(by apply aligned) ltac:(by split) ltac:(discriminate)) as Hround.
  rewrite bool_decide_eq_false_2 in Hround by (vm_compute; discriminate). exact Hround.
Defined.

(** A thread about to load the program of LoadSample.v. *)
Definition pool_ready_sys : psys :=
  ready_sys <| svm := (svm ready_sys) <| ram := ∅ |> |>
    <| fetches := MkAllocs (Some new_dir) None None :: pool_allocs |>.

Lemma pool_ready_sys_ready : pool_ready sample_pds new_dir 2 pool_ready_sys.
Proof.
  destruct ready_sys_ready as [_ Hmmu _ _ _ _ _ _ Hdir _]. split.
  - by eexists.
  - exact Hmmu.
  - exact Hdir.
  - eexists _, _. split; [reflexivity|]. split; [reflexivity|]. split; [by apply pool_allocs_good|].
    destruct pool_allocs_apart as (? & ? & ?). split_and!; try done.
Qed.

Lemma pool_load_correct_witness :
  ∃ esp s', NoPaging.load [97] pool_ready_sys = Ret (Val (Some (e_entry (ehdr_at loaded_image), esp)), s') ∧
    aspace ({[new_dir]} ∪ sample_pds) new_dir (svm s') ∧
    main_args new_dir (svm s') esp (token_loop INPUT_BUF_SIZE (strtok_r [97])) ∧
    (∀ ph off, ph ∈ segments loaded_image → p_type ph = PT_LOAD → 0 ≤ off < p_memsz ph →
       user_byte new_dir (svm s') (p_vaddr ph + off)
         = if off <? p_filesz ph then loaded_image !! Z.to_nat (p_offset ph + off) else Some 0) ∧
    ∀ v, user_addr v → v < stack_base → (∀ ph, ph ∈ segments loaded_image → ¬ seg_in ph v) →
      user_byte new_dir (svm s') v = None.
Proof.
  apply (pool_load_correct sample_pds new_dir 2 pool_ready_sys 90 [] [97] [97] [] 97 opened_files).
  - exact pool_ready_sys_ready.
  - reflexivity.
  - reflexivity.
  - reflexivity.
  - change (executable image). exact image_executable.
  - by vm_compute.
  - by vm_compute.
Defined.

(** ** The process with its stack *)

Definition stack_mmu : mmu :=
  match pagedir_set_page (Some (page_at 11)) (Some user_pd) stack_base (page_at 20) true sample_mmu with
  | Ret (true, m) => m
  | _ => sample_mmu
  end.

Lemma stack_mmu_ok :
  mmu_wf sample_pds stack_mmu ∧
  ∀ v, in_pages stack_base 1 v → pte_of stack_mmu user_pd v = pte_create_user (page_at 20) true.
Proof.
  destruct (pagedir_set_page_ret sample_pds sample_mmu user_pd stack_base (page_at 20) true (page_at 11))
    as (m & E & _ & Hw & _ & Hpte).
  - exact sample_mmu_wf.
  - apply sample_in. by right.
  - discriminate.
  - by split.
  - apply stack_base_aligned.
  - by apply page_at_frame.
  - by apply page_at_kernel.
  - reflexivity.
  - reflexivity.
  - unfold stack_mmu. rewrite E. split; [done|]. intros v Hv.
    rewrite Hpte by (by apply user_is_addr, stack_user || (apply sample_in; by right)).
    rewrite decide_True; [done|]. split; [done|]. by apply page_div; [apply stack_base_aligned|].
Qed.

(** Descriptor 2 is file 5, and the status of the process is kept at 50. *)
Definition stack_sys : psys :=
  pool_sys <| svm := (svm pool_sys) <| vmmu := stack_mmu |> <| ram := {[ page_at 20 := page_of 0 ]} |> |>
    <| uprocs := {[ 1 := MkUproc [112] [] false (Some 50) true None [70] ]} |>
    <| stores := {[ 70 := MkFileStore 5 2 false ]} |> <| child_heap := {[ 50 := MkChild 9 0 0 ]} |>.

Lemma stack_sys_aspace : aspace sample_pds user_pd (svm stack_sys).
Proof.
  split; [by eexists| |apply stack_mmu_ok]. split; [apply sample_in; by right|exact user_pd_page].
Qed.

Lemma stack_sys_mem : stack_mem sample_pds user_pd (page_at 20) (page_of 0) stack_sys.
Proof.
  split.
  - exact stack_sys_aspace.
  - intros v Hv. change (vmmu (svm stack_sys)) with stack_mmu. destruct stack_mmu_ok as [Hw Hpte].
    rewrite (pagedir_get_page_ret sample_pds) by (done || (apply sample_in; by right) || by apply stack_user).
    rewrite Hpte by done. unfold translate.
    destruct (pte_create_user_spec (page_at 20) true) as (_ & -> & -> & _); [by apply page_at_kernel|done].
  - by apply page_at_kernel.
  - split; reflexivity.
Qed.

Lemma stack_sys_writable : stack_writable user_pd (svm stack_sys).
Proof.
  intros v Hv. change (vmmu (svm stack_sys)) with stack_mmu. destruct stack_mmu_ok as [Hw Hpte].
  rewrite (is_flag_ret sample_pds) by (done || (apply sample_in; by right) || by apply user_is_addr, stack_user).
  rewrite Hpte by done.
  by destruct (pte_create_user_spec (page_at 20) true) as (_ & _ & _ & _ & -> & _); [apply page_at_kernel|].
Qed.

Lemma stack_sys_self : has_self stack_sys 50.
Proof. eexists _, _. split_and!; reflexivity. Qed.

(** A buffer of four bytes at the very end of user memory. *)
Lemma sys_read_reaches_kernel_witness :
  ∃ s' x, take 100 program !! 4%nat = Some x ∧
    stack_mem sample_pds user_pd (page_at 20) (splice 4092 (take 4 (take 100 program)) (page_of 0)) s' ∧
    SyscallBase.sys_read 2 3221225468 100 stack_sys =
      ((kernel_store PHYS_BASE x;; store_range (drop 5 (take 100 program)) (u32 (PHYS_BASE + 1)));;
       pure 100) s'.
Proof.
  exact (sys_read_reaches_kernel sample_pds user_pd (page_at 20) (page_of 0) stack_sys 2 5 3221225468 100
    stack_sys_mem stack_sys_writable eq_refl ltac:(discriminate) ltac:(by split) ltac:(by split)
    ltac:(discriminate) ltac:(by apply Nat.ltb_lt)).
Defined.

(** Printing a buffer whose last byte would be in the kernel. *)
Lemma invalid_memory_ends_process_witness :
  SyscallBase.sys_write 1 3221225468 5 stack_sys = Ret (Exits, killed stack_sys 50).
Proof.
  destruct (invalid_memory_ends_process 100 (λ _, 0) (λ _, []) sample_pds user_pd stack_sys 50
    stack_sys_aspace stack_sys_self) as (_ & Hw & _).
  apply (Hw 1 3221225468 5 4).
  - by split.
  - discriminate.
  - discriminate.
  - by left.
Defined.
