(* ===== verification/Gates.v ===== *)
(** * The interrupt descriptor table after start-up

    [intr_init], [exception_init] and [syscall_init] in the order of
    [threads/init.c]: which vectors a user program may raise itself, and which
    handlers run with interrupts off. *)
From S2P Require Import Prelude CInt Ext Interrupt Mmu PageDir Swap PageTable Frame Page UserCall Exception UserMem Syscall.
From stdpp Require Import strings.
Open Scope Z_scope.

(** The fields of a gate: privilege level and type. *)
Definition gate_dpl (g : Z) : Z := (g / 2 ^ 45) mod 2 ^ 2.
Definition gate_type (g : Z) : Z := (g / 2 ^ 40) mod 2 ^ 5.

Section gates.
Context {H : Type} (kill page_fault syscall_handler : H).
Variable SEL_KCSEG : Z.
Variable intr_stubs : Z → Z.
Hypothesis sel_range : 0 ≤ SEL_KCSEG < 65536.
Hypothesis stubs_range : ∀ v, 0 < intr_stubs v < 4294967296.
Implicit Types (s : idt_state H) (v dpl : Z) (level : intr_level).

Definition level_type level : Z := match level with INTR_ON => 15 | INTR_OFF => 14 end.

Lemma make_gate_ret v dpl type :
  0 ≤ dpl ≤ 3 → 0 ≤ type ≤ 15 →
  ∃ g, make_gate SEL_KCSEG (intr_stubs v) dpl type = Ret g ∧ gate_dpl g = dpl ∧ gate_type g = type.
Proof.
  intros Hd Ht. pose proof (stubs_range v). rewrite make_gate_value by done. eexists. split; [done|].
  unfold gate_dpl, gate_type. change (2 ^ 45) with 35184372088832. change (2 ^ 40) with 1099511627776.
  change (2 ^ 2) with 4. change (2 ^ 5) with 32.
  split; Z.to_euclidean_division_equations; lia.
Qed.

(** One registration. *)
Record registration := Reg {
  reg_vec : Z; reg_dpl : Z; reg_level : intr_level; reg_handler : H; reg_name : string
}.

Definition register_one (r : registration) s : outcome (idt_state H) :=
  intr_register_int SEL_KCSEG intr_stubs (reg_vec r) (reg_dpl r) (reg_level r) (reg_handler r)
    (reg_name r) s.

Fixpoint register_all (l : list registration) s : outcome (idt_state H) :=
  match l with [] => Ret s | r :: l' => s' ← register_one r s; register_all l' s' end.

(** The gate of [v] belongs to the registration of [v], or is as in [s]. *)
Definition gate_of (l : list registration) s v (g : Z) : Prop :=
  match list_find (λ r, reg_vec r = v) l with
  | Some (_, r) => gate_dpl g = reg_dpl r ∧ gate_type g = level_type (reg_level r)
  | None => idt s !! v = Some g
  end.

Definition handler_of (l : list registration) s v : option H :=
  match list_find (λ r, reg_vec r = v) l with
  | Some (_, r) => Some (reg_handler r)
  | None => intr_handlers s !! v
  end.

Lemma register_one_ret r s :
  reg_vec r < 32 ∨ 47 < reg_vec r → 0 ≤ reg_dpl r ≤ 3 → intr_handlers s !! reg_vec r = None →
  ∃ s' g, register_one r s = Ret s' ∧ gate_dpl g = reg_dpl r ∧ gate_type g = level_type (reg_level r) ∧
    idt s' = <[reg_vec r := g]> (idt s) ∧ intr_handlers s' = <[reg_vec r := reg_handler r]> (intr_handlers s).
Proof.
  intros Hv Hd Hn. unfold register_one, intr_register_int, register_handler.
  rewrite (ASSERT_true (_ || _)) by (apply orb_true_iff; rewrite !Z.ltb_lt; lia). ret.
  rewrite Hn, bool_decide_eq_true_2 by done. ret. destruct (reg_level r); simpl level_type.
  - destruct (make_gate_ret (reg_vec r) (reg_dpl r) 14) as (g & E & Hgd & Hgt); [done|lia|].
    unfold make_intr_gate. rewrite E. ret. by eexists _, g.
  - destruct (make_gate_ret (reg_vec r) (reg_dpl r) 15) as (g & E & Hgd & Hgt); [done|lia|].
    unfold make_trap_gate. rewrite E. ret. by eexists _, g.
Qed.

Lemma register_all_ret l s :
  NoDup (reg_vec <$> l) →
  Forall (λ r, (reg_vec r < 32 ∨ 47 < reg_vec r) ∧ 0 ≤ reg_dpl r ≤ 3 ∧ intr_handlers s !! reg_vec r = None) l →
  ∃ s', register_all l s = Ret s' ∧
    (∀ v g, idt s' !! v = Some g → gate_of l s v g) ∧
    (∀ v, is_Some (idt s !! v) → is_Some (idt s' !! v)) ∧
    ∀ v, intr_handlers s' !! v = handler_of l s v.
Proof.
  intros Hnd Hl. revert s Hl. induction l as [|r l IH]; intros s Hl; [by exists s|].
  apply Forall_cons in Hl as [(Hv & Hd & Hn) Hl]. apply NoDup_cons in Hnd as [Hr Hnd]. simpl.
  destruct (register_one_ret r s Hv Hd Hn) as (s1 & g & -> & Hgd & Hgt & Ei & Eh). ret.
  assert (∀ r', r' ∈ l → reg_vec r' ≠ reg_vec r) as Hne.
  { intros r' Hr' E. apply Hr. rewrite <- E. apply list_elem_of_fmap. by exists r'. }
  destruct (IH Hnd s1) as (s' & E & Hg & Hsome & Hh).
  { apply Forall_forall. rewrite Forall_forall in Hl. intros r' Hr'. destruct (Hl r' Hr') as (? & ? & ?).
    split; [done|]. split; [done|]. rewrite Eh, lookup_insert_ne; [done|]. by apply not_eq_sym, Hne. }
  exists s'. split; [done|]. unfold gate_of, handler_of in *. simpl. split; [|split].
  - intros v gv Hgv. specialize (Hg v gv Hgv). rewrite Ei in Hg.
    destruct (decide (reg_vec r = v)) as [<-|Hrv].
    + destruct (list_find _ l) as [[i r']|] eqn:Ef.
      * apply list_find_Some in Ef as (Hi & Ev & _). apply list_elem_of_lookup_2 in Hi.
        by apply Hne in Hi.
      * rewrite lookup_insert_eq in Hg. by injection Hg as <-.
    + destruct (list_find _ l) as [[i r']|]; [done|]. by rewrite lookup_insert_ne in Hg.
  - intros v Hs. apply Hsome. rewrite Ei. destruct (decide (reg_vec r = v)) as [<-|]; [by rewrite lookup_insert_eq|].
    by rewrite lookup_insert_ne.
  - intros v. rewrite Hh, Eh. destruct (decide (reg_vec r = v)) as [<-|Hrv].
    + destruct (list_find _ l) as [[i r']|] eqn:Ef.
      * apply list_find_Some in Ef as (Hi & Ev & _). apply list_elem_of_lookup_2 in Hi.
        by apply Hne in Hi.
      * by rewrite lookup_insert_eq.
    + destruct (list_find _ l) as [[i r']|]; [done|]. by rewrite lookup_insert_ne.
Qed.

(** The registrations of [exception_init], in its order, and that of [syscall_init]. *)
Definition exception_regs : list registration :=
  [Reg 3 3 INTR_ON kill "#BP Breakpoint Exception"; Reg 4 3 INTR_ON kill "#OF Overflow Exception";
   Reg 5 3 INTR_ON kill "#BR BOUND Range Exceeded Exception"; Reg 0 0 INTR_ON kill "#DE Divide Error";
   Reg 1 0 INTR_ON kill "#DB Debug Exception"; Reg 6 0 INTR_ON kill "#UD Invalid Opcode Exception";
   Reg 7 0 INTR_ON kill "#NM Device Not Available Exception";
   Reg 11 0 INTR_ON kill "#NP Segment Not Present"; Reg 12 0 INTR_ON kill "#SS Stack Fault Exception";
   Reg 13 0 INTR_ON kill "#GP General Protection Exception";
   Reg 16 0 INTR_ON kill "#MF x87 FPU Floating-Point Error";
   Reg 19 0 INTR_ON kill "#XF SIMD Floating-Point Exception";
   Reg 14 0 INTR_OFF page_fault "#PF Page-Fault Exception"].
Definition syscall_reg : registration := Reg 48 3 INTR_ON syscall_handler "syscall".

Lemma register_all_app l1 l2 s :
  register_all (l1 ++ l2) s = (s' ← register_all l1 s; register_all l2 s').
Proof.
  revert s. induction l1 as [|r l1 IH]; intros s; [done|]. simpl.
  destruct (register_one r s); [apply IH|done..].
Qed.

Lemma exception_init_all s :
  exception_init kill page_fault SEL_KCSEG intr_stubs s = register_all exception_regs s.
Proof.
  unfold exception_init, exception_regs, register_all, register_one.
  cbn [reg_vec reg_dpl reg_level reg_handler reg_name].
  repeat match goal with |- (?m ≫= _) = (?m ≫= _) => destruct m; cbn [mbind outcome_bind]; [|done..] end.
  by destruct (intr_register_int _ _ _ _ _ _ _ _).
Qed.

Lemma intr_init_ret idt_addr s :
  ∃ log op s1, intr_init SEL_KCSEG intr_stubs idt_addr s = Ret (log, op, s1) ∧
    intr_handlers s1 = intr_handlers s ∧
    ∀ v, 0 ≤ v < 256 → ∃ g, idt s1 !! v = Some g ∧ gate_dpl g = 0 ∧ gate_type g = 14.
Proof.
  assert (∀ l s, ∃ s1, foldl (λ ms i, s ← ms; gate ← make_intr_gate SEL_KCSEG (intr_stubs i) 0;
      Ret (s <| idt := <[i := gate]> (idt s) |>)) (Ret s) l = Ret s1 ∧ intr_handlers s1 = intr_handlers s ∧
    ∀ v, v ∈ l ∨ (∃ g, idt s !! v = Some g ∧ gate_dpl g = 0 ∧ gate_type g = 14) →
      ∃ g, idt s1 !! v = Some g ∧ gate_dpl g = 0 ∧ gate_type g = 14) as Hfold.
  { clear s. induction l as [|i l IH]; intros s; simpl.
    { exists s. split; [done|]. split; [done|]. intros v [?%elem_of_nil|?]; done. }
    destruct (make_gate_ret i 0 14) as (g & E & Hd & Ht); [lia..|]. unfold make_intr_gate at 2.
    rewrite E. ret. destruct (IH (s <| idt := <[i := g]> (idt s) |>)) as (s1 & E1 & Eh & Hv).
    exists s1. split; [done|]. split; [done|]. intros v Hin. apply Hv. simpl.
    destruct (decide (v = i)) as [->|]; [right; exists g; by rewrite lookup_insert_eq|].
    rewrite lookup_insert_ne by done. set_solver. }
  unfold intr_init. destruct (Hfold (seqZ 0 INTR_CNT) s) as (s1 & -> & Eh & Hv). ret.
  eexists _, _, _. split; [done|]. split; [done|]. intros v Hr. apply Hv. left. apply elem_of_seqZ.
  unfold INTR_CNT. lia.
Qed.

(** What the registration of a vector, if any, says. *)
Definition reg_of v : option (Z * Z * H) :=
  (λ x, (reg_dpl x.2, level_type (reg_level x.2), reg_handler x.2)) <$>
    list_find (λ r, reg_vec r = v) (exception_regs ++ [syscall_reg]).

Definition expected_dpl v : Z := if bool_decide (v ∈ [3; 4; 5; 48]) then 3 else 0.
Definition expected_type v : Z :=
  if bool_decide (v ∈ [0; 1; 3; 4; 5; 6; 7; 11; 12; 13; 16; 19; 48]) then 15 else 14.
Definition expected_handler v : option H :=
  if bool_decide (v = 14) then Some page_fault
  else if bool_decide (v = 48) then Some syscall_handler
  else if bool_decide (v ∈ [0; 1; 3; 4; 5; 6; 7; 11; 12; 13; 16; 19]) then Some kill else None.

Lemma reg_of_expected v : 0 ≤ v < 256 →
  match reg_of v with
  | Some (dpl, type, h) => dpl = expected_dpl v ∧ type = expected_type v ∧ expected_handler v = Some h
  | None => expected_dpl v = 0 ∧ expected_type v = 14 ∧ expected_handler v = None
  end.
Proof.
  intros Hv.
  assert (reg_of v = (if expected_handler v is Some h then Some (expected_dpl v, expected_type v, h) else None) ∧
    (expected_handler v = None → expected_dpl v = 0 ∧ expected_type v = 14)) as [-> Hn].
  2: { destruct (expected_handler v); naive_solver. }
  assert (v ∈ seqZ 0 256) as Hin by (apply elem_of_seqZ; lia).
  assert ((λ v, (reg_of v, if expected_handler v is None then (expected_dpl v, expected_type v) else (0, 14))) <$>
    seqZ 0 256 =
    (λ v, (if expected_handler v is Some h then Some (expected_dpl v, expected_type v, h) else None, (0, 14))) <$>
    seqZ 0 256) as E by (vm_compute; reflexivity).
  apply list_elem_of_lookup in Hin as [i Hi].
  apply (f_equal (lookup i)) in E. rewrite !list_lookup_fmap, Hi in E. simpl in E. injection E as E1 E2.
  split; [done|]. intros Hn. rewrite Hn in E2. by injection E2.
Qed.

(** After [intr_init], [exception_init] and [syscall_init]: a user program can raise
    exactly the vectors 3, 4, 5 and 0x30 with [int]; only the page fault handler and
    the unregistered vectors are entered with interrupts off; and every vector has the
    handler it should have. *)
Theorem start_up_gates idt_addr s :
  intr_handlers s = ∅ →
  ∃ log op s1 s2 s3, intr_init SEL_KCSEG intr_stubs idt_addr s = Ret (log, op, s1) ∧
    exception_init kill page_fault SEL_KCSEG intr_stubs s1 = Ret s2 ∧
    syscall_init SEL_KCSEG intr_stubs syscall_handler s2 = Ret s3 ∧
    ∀ v, 0 ≤ v < 256 → ∃ g, idt s3 !! v = Some g ∧
      gate_dpl g = (if bool_decide (v ∈ [3; 4; 5; 48]) then 3 else 0) ∧
      gate_type g = (if bool_decide (v ∈ [0; 1; 3; 4; 5; 6; 7; 11; 12; 13; 16; 19; 48]) then 15 else 14) ∧
      intr_handlers s3 !! v =
        (if bool_decide (v = 14) then Some page_fault
         else if bool_decide (v = 48) then Some syscall_handler
         else if bool_decide (v ∈ [0; 1; 3; 4; 5; 6; 7; 11; 12; 13; 16; 19]) then Some kill else None).
Proof.
  intros Hnone. destruct (intr_init_ret idt_addr s) as (log & op & s1 & E & Eh & Hg).
  destruct (register_all_ret (exception_regs ++ [syscall_reg]) s1) as (s3 & E3 & Hg3 & Hs3 & Hh3).
  { apply (bool_decide_unpack _). vm_compute. exact I. }
  { repeat constructor; simpl; try lia; by rewrite Eh, Hnone. }
  rewrite register_all_app, <- exception_init_all in E3.
  destruct (exception_init kill page_fault SEL_KCSEG intr_stubs s1) as [s2| |] eqn:E2; try done.
  exists log, op, s1, s2, s3. split; [done|]. split; [done|]. split.
  { simpl in E3. unfold syscall_init. unfold register_one, syscall_reg in E3. simpl in E3.
    by destruct (intr_register_int _ _ 48 _ _ _ _ _). }
  intros v Hv. destruct (Hg v Hv) as (g & Hgv & Hd & Ht).
  destruct (Hs3 v) as [g3 Hg3v]; [by eexists|]. exists g3. split; [done|].
  specialize (Hg3 v g3 Hg3v). rewrite Hh3. pose proof (reg_of_expected v Hv) as Hx.
  change (gate_dpl g3 = expected_dpl v ∧ gate_type g3 = expected_type v ∧
    handler_of (exception_regs ++ [syscall_reg]) s1 v = expected_handler v).
  unfold gate_of, handler_of, reg_of in *.
  destruct (list_find _ _) as [[i r]|]; cbn [fmap option_fmap option_map snd] in Hx.
  - destruct Hx as (<- & <- & ->). tauto.
  - destruct Hx as (-> & -> & ->). rewrite Hgv in Hg3. injection Hg3 as <-.
    rewrite Eh, Hnone. by rewrite lookup_empty.
Qed.
End gates.

(** ** A witness: stubs one byte apart *)

Lemma start_up_gates_witness :
  ∃ log op s1 s2 s3, intr_init 8 (λ v, 3221356544 + v mod 256) 3221360640 (IdtState ∅ ∅ ∅ ∅)
      = Ret (log, op, s1) ∧
    exception_init 1 2 8 (λ v, 3221356544 + v mod 256) s1 = Ret s2 ∧
    syscall_init 8 (λ v, 3221356544 + v mod 256) 3 s2 = Ret s3 ∧
    ∀ v, 0 ≤ v < 256 → ∃ g, idt s3 !! v = Some g ∧
      gate_dpl g = (if bool_decide (v ∈ [3; 4; 5; 48]) then 3 else 0) ∧
      gate_type g = (if bool_decide (v ∈ [0; 1; 3; 4; 5; 6; 7; 11; 12; 13; 16; 19; 48]) then 15 else 14) ∧
      intr_handlers s3 !! v =
        (if bool_decide (v = 14) then Some 2
         else if bool_decide (v = 48) then Some 3
         else if bool_decide (v ∈ [0; 1; 3; 4; 5; 6; 7; 11; 12; 13; 16; 19]) then Some 1 else None).
Proof.
  apply (start_up_gates 1 2 3 8 (λ v, 3221356544 + v mod 256)).
  - lia.
  - intros v. pose proof (Z.mod_pos_bound v 256). lia.
  - reflexivity.
Defined.
